(* ===== verification/_CoqProject ===== *)
-Q . S2P
Prelude.v
JsMap.v
JsMapSpec.v
JsValue.v
TsAst.v
JsRegex.v
JsRegexSpec.v
ParseInt.v
Transformers.v
MergeForms.v
TestConfig.v
MergeKeeps.v
MergeThrows.v
MergeOutcomes.v
MergeLosses.v
MergeFile.v
Locate.v
MergeSpec.v
MergeRoot.v
MergeDocument.v
MergeInvariants.v
MergeSettles.v
RemoveProps.v
RemoveSpec.v
AddUpdateTransformer.v
ConfigMetadata.v
ConfigMetadataFacts.v
ConfigMetadataCalls.v
UpdateConfig.v
