(* ===== verification/Prelude.v ===== *)
(** * Verification of the Cypress configuration transformers

    The program under [src/packages/cypress/src/utils/config/] rewrites a
    [cypress.config.ts] file: it parses the text with the TypeScript
    compiler API, walks the tree to the [export default defineConfig({...})]
    statement, rewrites the object literal passed to the call (merging a
    JavaScript configuration object into it, or removing properties from
    it), and prints the tree back.  Parsing and printing belong to the
    TypeScript library; what the repository owns, and what this development
    models, is the tree rewriting and the construction of new literal nodes
    from JavaScript values.

    ** The parts of the program and where they are modelled

    - [transformers.ts] is the merge engine: [mergeCypressConfigs] finds the
      export assignment, [visitRootConfigNode] reconciles the root object
      literal with the new configuration, [updateChildObjectLiteral] does
      the same one level down, [updatePropertyAssignment] builds a literal
      for a JavaScript value, [createExpressionFromFunction] rebuilds a call
      from a function's source text with two regular expressions,
      [getValueByPath] reads the configuration by a path of keys and
      [isBooleanLiteral] is the node test the library lacks.  File
      [Transformers.v] holds one definition per function, under the
      source's names, in [Module Merge]; the local [Map]s of the two
      visitors are the state of [rootVisitor] and [childVisitor].
    - The two regular expressions of [createExpressionFromFunction]
      ([fnNameMatcher], [fnArgMatcher]) are in [JsRegex.v] as executable
      matchers with the result [String.prototype.match] gives for them;
      [JsRegexSpec.v] has the expressions as patterns, the matcher
      ECMAScript defines for a pattern, and the proof that the matchers
      of [JsRegex.v] compute it.
    - [remove-property-transformer.ts] ([removeProps], [visitRootConfig]
      with its visitor [remover]) is in [RemoveProps.v].
    - [add-update-property-transformer.ts] is a second copy of the merge
      engine, the one [update-config.ts] imports, with
      [createPropertyAssignment] in place of [updatePropertyAssignment].
      Its functions are in [Module AddUpdate] of
      [AddUpdateTransformer.v].
    - The class [CypressPropertyTransformer] of the same file: its public
      method [addOrUpdate] is in [UpdateConfig.v]; its private methods
      ([mergeConfigs], [addNewConfigToMetadata],
      [buildMetadataFromConfig], [fromLiteralToPrimitive]) and the static
      [configMetadataMap] they write to are in [ConfigMetadata.v], as
      computations on a store of [Map] objects.  Nothing calls them; they
      are modelled as they are written.
    - [update-config.ts] ([addOrUpdateConfigProperties],
      [removeConfigProperties]) is in [UpdateConfig.v], over the classes
      [Parser] and [Printer] for [createSourceFile] and [printFile].
    - [update-config.spec.ts], the one test: its configuration file as a
      tree and its new configuration are in [TestConfig.v] and serve as
      concrete inputs.

    ** The model of what the program runs on

    The code is TypeScript running on a JavaScript engine and calling the
    TypeScript compiler API.  Five files model that substrate, from the
    ECMAScript semantics and the behaviour of the TypeScript 4.x factory
    and visitor functions; they translate no line of [src/].
    - [Prelude.v] (this file): the [result] type of computations that may
      throw ([Ok] or [Throw] with the JavaScript error), its monad
      instances for stdpp's [x ← m; k] notation, the tactics
      [simplify_result] and [case_result], and the hint database [js].
    - [JsMap.v]: the insertion-ordered [Map] of JavaScript as a list of
      entries with [map_set], [map_delete], [map_get], and their laws;
      [JsMapSpec.v] compares it with the finite maps of stdpp.
    - [JsValue.v]: JavaScript values ([JsValue]: undefined, null, booleans,
      numbers, strings, functions by their source text, objects as ordered
      lists of own enumerable properties), [typeof], truthiness
      ([toBoolean]), property access ([getProperty], [optionalGet] for
      [?.[k]], over the class [Inherited] for the prototype chain),
      enumeration ([forInKeys], [ownEntries]), the strings
      operations the code calls ([join], [split], [pop]) and
      number-to-string conversion.
    - [TsAst.v]: the fragment of the TypeScript tree the code inspects
      ([Expression], [ObjectLiteralElement], [PropertyName], [Statement]),
      the node tests ([isNumericLiteral], ...), the factory functions, and
      [visitNodes]/[visitEachChild] with a visitor that may drop a node
      (returning [undefined]) or throw.
    - [ParseInt.v]: [parseInt(text, 10)], which [fromLiteralToPrimitive]
      reads numeric literals with.
    [Map] objects that outlive a call ([new Map()], [set] on a map that
    is shared) and [getText()] on expressions are needed by the private
    methods only and are in [ConfigMetadata.v]: the store, and the class
    [ParsedText].

    ** Modelling decisions

    - Exceptions are values: every function that can throw returns
      [result A].  [TypeError] carries the reason (reading a property of
      [undefined] or [null], calling what is not a function, spreading what
      is not iterable); [ReferenceError] the unbound name.
    - A number is an integer ([NumInt z]), [NaN], an infinity, or a
      finite number that [value + ""] prints with a fraction or an
      exponent ([NumDecimal d], kept as the decimal that is printed).
      [numberToString] of an integer is the run of its digits, which is
      what [value + ""] gives for integers of magnitude below 10^21;
      the integers are exact, the engine's up to
      [Number.MAX_SAFE_INTEGER], and negative zero is zero.
    - A string is a [string] of the Standard Library; the model reads its
      characters as ASCII (one character per UTF-16 code unit).
    - An object is the list of its own enumerable properties in enumeration
      order ([wfValue] says the keys are distinct).  An array is the
      object of its indices.
    - A read [v[key]] finds an own enumerable property of [v], or what
      [v] inherits under [key]: a member of the prototype chain
      ([constructor], [toString], ...) or a property that is not
      enumerable ([length] of a string).  What values inherit depends on
      the engine and on the program, and is the class [Inherited] of
      [JsValue.v]: every definition that reads the configuration, and
      every theorem on one, has it as a parameter ([Section]s with
      [Context {chain : Inherited}]).  Where a theorem needs a read to
      find what the configuration itself holds, it says so: [ownRead],
      [ownReads] for the name of a property of the file, and inside
      [supported] and [agreement].  The examples and the witnesses come
      after the sections and use [standardPrototypes], which holds the
      functions of [Object.prototype] and the length of strings.
    - A property name is [ParsedName text] (a name node of the parsed file,
      [getText()] returns [text]) or [CreatedIdentifier text] (made by the
      factory: it has no source text, [getText()] throws).
    - The properties of an object literal may hold [UndefinedElement]: the
      code can put [undefined] into the array it hands to the factory; a
      well-formed tree ([wfExpression]) has none.
    - A statement is an export assignment ([export default e] or
      [export = e]), a statement with statements below it
      ([CompoundStatement]: a block, the body of a module declaration or
      of a function, with the rest of the node as text), or opaque text
      that holds no export assignment.  The visitors of the four
      transformers test for an export assignment and hand every other
      node to [visitEachChild] with themselves; they are [Fixpoint]s that
      do the same through [visitEachChildOfStatement], and the class
      [StatementVisitor] states what they share, so that what holds of
      one walk over a file ([visitFile_frame], [visitFile_id],
      [visitFile_exportAssignments], ...) is proved once.  The visitors
      cast the exported expression to a call and read [arguments[0]]
      without a test of its kind: a [new] expression has arguments as a
      call has, so [NewExpression] is a kind of its own, which the
      visitors take for a call and return as one
      ([mergeCypressConfigs_new_expression]).  An expression
      that the code does not tell apart is [OtherExpression]; what
      [visitEachChild] makes of one under a visitor that drops every
      child depends on its kind and is a parameter of the removal (class
      [OpaqueChildren]).
    - [isBooleanLiteral] is imported by two of the sources from a module
      [transformer.helper] that the repository does not hold; it is taken
      to be the function of that name in [transformers.ts].
    - [console.log] calls are not modelled: they change no value the
      functions return.  [isBooleanLiteral] logs [node.getText()] of the
      initializer it is given; expressions carry no mark of where they
      come from, and that call is taken to return (the initializers the
      visitors see are nodes of the parsed file).
    - The static [configMetadataMap] is changed in place and survives a
      call that throws.  The methods that touch it are computations
      [M A], functions from a store of [Map] objects (a list, the static
      map at location 0, [new Map()] appends) to an [outcome]: [Returns]
      or [Throws], each with the store as it has become.  What a method
      is handed for a parameter is an [Argument]: the node factory, a
      node, a [Map] or [undefined], since the code passes all four where
      its signatures promise one.
    - The source text of an expression, [getText()], is the class
      [ParsedText]: a function on expressions that returns the text of a
      numeric literal as the node holds it and a text that starts with a
      quote for a string literal.  It stands for the nodes of a parsed
      file; a node made by the factory has no text, and the methods that
      call [getText()] on expressions are not reached with one.
    - Fuel.  Every function of [transformers.ts],
      [remove-property-transformer.ts] and [update-config.ts], and every
      function of [add-update-property-transformer.ts] outside the class,
      is a structural [Fixpoint] or a [Definition].  The regular
      expressions are matched in one pass, with a counter for the
      characters of the last match.  The matcher of ECMAScript they are
      compared with ([JsRegexSpec.v]) backtracks: a quantifier and the
      search for the next match take the length of the text for fuel,
      which is enough because an iteration that goes on and a search
      that goes on start further on in the text; that more fuel gives
      the same result, for every pattern, are the theorems
      [repeatMatcher_fuel_enough] and [execAll_fuel_enough].
      [buildMetadataFromConfig] calls
      itself with the initializer in the place of the factory and a
      [Map] in the place of the configuration; nothing gets smaller, and
      the definition takes fuel, with [OutOfFuel] as a third outcome.
      [enoughFuel] is 2: the first level runs the loop, the second is
      handed a [Map], finds no [properties] and throws.  That two units
      give the outcome of any larger amount, for every input, is the
      theorem [buildMetadataFromConfig_terminates].
    - Numbers read by [parseInt] are integers of any size; a double is
      exact up to [Number.MAX_SAFE_INTEGER], which a text of at most
      fifteen characters cannot exceed ([fromLiteralToPrimitive_safe]).
      The sign of zero is not modelled.
    - Between two runs the tree is printed and parsed.  The text is not
      modelled; [readBack] of [MergeSettles.v] is the two steps together
      as a function on trees: every name has source text afterwards, the
      text the printer wrote for it, and a created numeric literal whose
      text does not start like a number ([-1], [NaN]) comes back as
      another expression.  It stands for names that the parser reads as
      they were written (identifiers, numbers); a key that is no such
      name is printed as it is and is outside [readBack].
    - The declared types of the sources are TypeScript's and are erased
      at run time.  Two of them are stated on the model: [PrimitiveValue]
      is an inductive type, and the type of [configMetadataMap],
      [Map<string, PrimitiveValue | Map<string, PrimitiveValue | DevServer>>],
      is the predicate [declaredType] on stores.  No method stores a
      [DevServer] object, and [MetadataValue] has no constructor for
      one.

    ** The files and what their theorems show

    - [JsMap.v]: the map laws (lookup after set and delete, keys stay
      distinct, order of the other entries is kept).
    - [JsMapSpec.v]: the list of entries implements a finite map
      (stdpp's [gmap]): [set] is [insert], [delete] is [delete], [get]
      is lookup and [size] is [size] after every sequence of operations
      ([contents_operations]); lists with the same contents are the
      same [Map] up to the order of iteration, an equivalence the
      operations respect ([Proper] instances).
    - [JsValue.v]: [typeof] and truthiness classify, reading a key of an
      object, [join]/[split] round trip, [numberToString] is injective.
    - [TsAst.v]: [visitNodes] distributes over concatenation, and for a
      visitor whose result and whose change of state do not depend on
      each other it is a map over the nodes and a fold over the state.
      For every [StatementVisitor]: the export assignments of the file
      are visited at any depth and in order, what is no export
      assignment comes back as it was ([frame]), and an export
      assignment the visitor throws on makes the walk throw.
    - [JsRegex.v]: what the two regular expressions match, on the
      repository's own example and in general.
    - [JsRegexSpec.v]: the scanners of [JsRegex.v] against the
      backtracking matcher of ECMAScript on the patterns of the two
      expressions: the same matches for every text
      ([stringMatch_regExpMatch]).  Of the matcher itself, for every
      pattern: it calls its continuation on an end of the text, a match
      and what it leaves make up the text, and the fuel is enough.  Of
      [trim]: it takes the white space from both ends and nothing else,
      and it is idempotent.
    - [Transformers.v]: the definitions of [transformers.ts], and the
      behaviour of [getValueByPath], [updatePropertyAssignment] and
      [createExpressionFromFunction] on every branch.
    - [MergeForms.v]: closed forms of [updateChildObjectLiteral] and
      [visitRootConfigNode], from which the theorems on the engine are
      proved.
    - [MergeOutcomes.v]: what a merge returns for the configurations the
      engine is written for (literals, one level of objects).
    - [MergeKeeps.v]: what a merge leaves alone, and in which order.
    - [MergeThrows.v]: every exception is a [TypeError]; a function
      anywhere in the configuration makes the merge throw, and so does
      a function the configuration inherits under the name of a scalar
      property of the file.
    - [MergeLosses.v]: what is lost or doubled: a falsy value at the
      root, an object for a value, a key with a dot.
    - [MergeFile.v]: the transformer on a whole file: no change for an
      empty configuration, [overwrite], files it throws on, that it
      returns calls only (an exported [new] expression comes back as a
      call), the result
      on the repository's test, and the export assignments below the
      statements of the file, which are rewritten as those of the file
      are.
    - [Locate.v]: the root locator of the specification ([locate], with
      [withRoot] to put a root back, and their round trip).  On a
      document of the specification's shape the transformer replaces
      the located root by what [visitRootConfigNode] makes of it, keeps
      the statements around it and drops the arguments that follow the
      root; the documents [locate] refuses with a [StructureError] are
      returned all the same, or end in a [TypeError].
    - [MergeSpec.v]: the merge of the specification as a function on the
      same trees, the refinement of it by [updateChildObjectLiteral], and
      the difference at the root on the repository's test.
    - [MergeRoot.v]: the root in general.  For every file and every new
      configuration that agree in shape, [visitRootConfigNode] builds the
      properties [mergeObject] asks for, up to the layout of nested
      objects (the equivalence [≈], with [Proper] instances for the
      constructors), and puts the new ones at the other end.
    - [MergeDocument.v]: the whole document.  [specAddOrUpdate] is the
      public operation of the specification, composed of [locate],
      [mergeObject], [build] and [withRoot].  On a parsed document of
      the specification's shape the transformer and [specAddOrUpdate]
      return the same document up to the place of the new properties
      and the layout of nested objects; on an empty patch they return
      the document itself; with [overwrite] they never agree.
    - [MergeSettles.v]: a second run.  [rewritten] is a merge of the
      root followed by [readBack].  For a configuration that settles
      the properties of the root ([settles], a strengthening of
      [supported]) and whose entries at the root are truthy and are read
      back as they are written ([lasting]), [rewritten] is idempotent;
      with a falsy entry at the root every run returns a longer root,
      and a negative number is added again by the second run.
    - [ParseInt.v]: [parseInt] reads back what [numberToString] prints
      for an integer and for [NaN], the digits before the point or the
      exponent for a number that is printed with one, and [NaN] for an
      infinity; its value is bounded by the length of the text.
    - [ConfigMetadataFacts.v]: the private methods of the class.  Two
      units of fuel are enough; scalar properties are recorded in order
      on top of what the map held; a nested object throws after the
      store has changed; [mergeConfigs] throws for every configuration
      and changes nothing; a call keeps every property of stores that
      recording in its map and in the static map keeps (class
      [Recording], indexed by the map; Hoare-style rules [hoare_bind]
      and [hoare_forOf] for computations on the store); numbers
      round-trip through literals.
    - [ConfigMetadataCalls.v]: the class as a state machine.  A [step]
      is one call of a private method, from the store it finds to the
      store it leaves; [reachable] are the stores after any sequence of
      calls from the store the class is loaded with.  Every call ends,
      in one store; every reachable store is well formed; no call takes
      anything out of a map ([keeps], a preorder), so what one call
      records every later call finds.  The stores the class reaches by
      its own calls, which all record in the static map
      ([reachableByClass]), give the static map a value of its declared
      type ([declaredType]); a call that is handed a [Map] of the static
      map breaks it.
    - [MergeInvariants.v]: the keys of the visitors' maps stay distinct;
      one level down the result is well formed, with distinct names.
    - [RemoveProps.v]: when a removal returns and what it returns; that
      it throws on every nested object; that it keeps scalar properties
      only; that two removals in a row are one removal of the paths of
      both, and a removal is idempotent.
    - [RemoveSpec.v]: the removal of the specification
      ([removeProperties], by dotted path, into nested objects), the
      refinement of it by [visitRootConfig] on flat objects, and the
      removal from end to end on a located document.
    - [AddUpdateTransformer.v]: [createPropertyAssignment] with a factory
      refines the literal builder of the specification; as the visitors
      call it, it throws; the merge of this file adds and updates
      nothing.
    - [UpdateConfig.v]: the entry points, for every parser and printer.

    ** What is left

    The kinds of expression the model keeps as text (arrays, property
    accesses, arrow functions and what stands in their bodies), for which
    [visitEachChild] and [getText()] are parameters; the parts of a
    compound statement other than its statements, kept as text; the
    text of the file itself, which the parser and the printer own
    ([readBack] says what the two do together to the trees the merge
    returns, and nothing of comments, whitespace or quoting); the types
    [CypressConfig] and [Overwrite], which come from modules the
    repository does not hold, and with them [CypressConfigPt2]. *)

From Stdlib Require Export ZArith String Ascii.
From stdpp Require Export base tactics option list strings.

(** ** JavaScript errors *)

(** Why a [TypeError] was thrown. *)
Inductive TypeErrorReason : Type :=
| ReadPropertyOfUndefined (property : string)
| ReadPropertyOfNull (property : string)
| NotAFunction (callee : string)
| NotIterable.

Inductive JsError : Type :=
| TypeError (reason : TypeErrorReason)
| ReferenceError (name : string).

#[global] Instance TypeErrorReason_eq_dec : EqDecision TypeErrorReason.
Proof. solve_decision. Defined.

#[global] Instance JsError_eq_dec : EqDecision JsError.
Proof. solve_decision. Defined.

(** ** Computations that may throw *)

Inductive result (A : Type) : Type :=
| Ok (a : A)
| Throw (e : JsError).

Arguments Ok {A} a.
Arguments Throw {A} e.

#[global] Instance result_eq_dec `{EqDecision A} : EqDecision (result A).
Proof. solve_decision. Defined.

#[global] Instance result_ret : MRet result := @Ok.

#[global] Instance result_bind : MBind result := λ A B f m,
  match m with
  | Ok a => f a
  | Throw e => Throw e
  end.

#[global] Instance result_fmap : FMap result := λ A B f m,
  match m with
  | Ok a => Ok (f a)
  | Throw e => Throw e
  end.

Definition isOk {A} (m : result A) : bool :=
  match m with Ok _ => true | Throw _ => false end.

Definition isTypeError {A} (m : result A) : bool :=
  match m with Throw (TypeError _) => true | _ => false end.

(** [mapM] of stdpp, specialised so that its equations are at hand: the
    elements are evaluated left to right and the first throw wins, as
    [Array.prototype.map] with a throwing callback does. *)
Fixpoint mapR {A B} (f : A → result B) (l : list A) : result (list B) :=
  match l with
  | [] => Ok []
  | x :: l' => y ← f x; k ← mapR f l'; Ok (y :: k)
  end.

(** ** Tactics *)

(** [simplify_result] clears impossible and invertible equations between
    results; [case_result m] splits on a result and simplifies. *)
Ltac simplify_result :=
  repeat match goal with
  | H : Ok _ = Ok _ |- _ => injection H as H; try subst
  | H : Throw _ = Throw _ |- _ => injection H as H; try subst
  | H : Ok _ = Throw _ |- _ => discriminate H
  | H : Throw _ = Ok _ |- _ => discriminate H
  | H : Some _ = Some _ |- _ => injection H as H; try subst
  | H : Some _ = None |- _ => discriminate H
  | H : None = Some _ |- _ => discriminate H
  | H : (_, _) = (_, _) |- _ => injection H as ?; try subst
  end.

Ltac case_result m :=
  let E := fresh "E" in
  destruct m eqn:E; simpl in *; simplify_result; try done.

Create HintDb js discriminated.
Create Rewrite HintDb js.

(** ** Laws of the monad *)

Section result_laws.
Context {A B C : Type}.
Implicit Types (m : result A) (f : A → result B) (g : B → result C).

Lemma bind_Ok a f : Ok a ≫= f = f a.
Proof. done. Qed.

Lemma bind_Throw e f : Throw e ≫= f = Throw e.
Proof. done. Qed.

Lemma bind_ret m : m ≫= Ok = m.
Proof. by destruct m. Qed.

Lemma bind_assoc m f g : (m ≫= f) ≫= g = m ≫= (λ a, f a ≫= g).
Proof. by destruct m. Qed.

Lemma bind_Ok_inv m f b :
  m ≫= f = Ok b ↔ ∃ a, m = Ok a ∧ f a = Ok b.
Proof.
  destruct m as [a|e]; simpl; split.
  - eauto.
  - by intros (a' & [= ->] & ?).
  - done.
  - by intros (a' & ? & ?).
Qed.

Lemma bind_Throw_inv m f e :
  m ≫= f = Throw e ↔ m = Throw e ∨ ∃ a, m = Ok a ∧ f a = Throw e.
Proof.
  destruct m as [a|e']; simpl; split.
  - eauto.
  - by intros [?|(a' & [= ->] & ?)].
  - intros [= ->]. by left.
  - by intros [[= ->]|(a' & ? & ?)].
Qed.

Lemma fmap_Ok_inv (h : A → B) m b :
  h <$> m = Ok b ↔ ∃ a, m = Ok a ∧ b = h a.
Proof.
  destruct m as [a|e]; simpl; split.
  - intros [= <-]. eauto.
  - by intros (a' & [= ->] & ->).
  - done.
  - by intros (a' & ? & ?).
Qed.

Lemma isOk_true m : isOk m = true ↔ ∃ a, m = Ok a.
Proof. destruct m; simpl; split; eauto; (done || by intros [? ?]). Qed.

Lemma isOk_false m : isOk m = false ↔ ∃ e, m = Throw e.
Proof. destruct m; simpl; split; eauto; (done || by intros [? ?]). Qed.

End result_laws.

#[export] Hint Rewrite @bind_Ok @bind_Throw @bind_ret : js.

(** ** [mapR] *)

Section mapR.
Context {A B : Type}.
Implicit Types (f : A → result B) (l : list A) (k : list B).

Lemma mapR_app f l1 l2 :
  mapR f (l1 ++ l2) = k1 ← mapR f l1; k2 ← mapR f l2; Ok (k1 ++ k2).
Proof.
  induction l1 as [|x l1 IH]; simpl.
  - by rewrite bind_ret.
  - destruct (f x) as [y|e]; simpl; [|done].
    rewrite IH. destruct (mapR f l1); simpl; [|done].
    by destruct (mapR f l2).
Qed.

Lemma mapR_Ok f l k :
  mapR f l = Ok k ↔ Forall2 (λ x y, f x = Ok y) l k.
Proof.
  revert k. induction l as [|x l IH]; intros k; simpl.
  - split; [intros [= <-]; constructor | by inversion 1].
  - split.
    + intros (y & Hy & (k' & Hk' & [= <-])%bind_Ok_inv)%bind_Ok_inv.
      constructor; [done | by apply IH].
    + inversion 1 as [|? y ? k' Hy Hk']; subst.
      rewrite Hy. simpl. apply IH in Hk'. by rewrite Hk'.
Qed.

Lemma mapR_length f l k : mapR f l = Ok k → length k = length l.
Proof. intros H%mapR_Ok. symmetry. by eapply Forall2_length. Qed.

Lemma mapR_ext f g l :
  Forall (λ x, f x = g x) l → mapR f l = mapR g l.
Proof. induction 1 as [|x l Hx _ IH]; simpl; [done | by rewrite Hx, IH]. Qed.

Lemma mapR_total (h : A → B) l : mapR (λ x, Ok (h x)) l = Ok (h <$> l).
Proof. induction l as [|x l IH]; simpl; [done | by rewrite IH]. Qed.

(** A function that returns on every element of the list: the map
    returns. *)
Lemma mapR_Forall_Ok f (h : A → B) l :
  Forall (λ x, f x = Ok (h x)) l → mapR f l = Ok (h <$> l).
Proof. induction 1 as [|x l Hx _ IH]; simpl; [done | by rewrite Hx, IH]. Qed.

(** The results of a map that returned are the results on the elements. *)
Lemma mapR_elem f l k y :
  mapR f l = Ok k → y ∈ k ↔ ∃ x, x ∈ l ∧ f x = Ok y.
Proof.
  intros H%mapR_Ok. induction H as [|x z l k Hx _ IH].
  - split; [by intros ?%elem_of_nil | by intros (x & ?%elem_of_nil & _)].
  - rewrite elem_of_cons, IH. split.
    + intros [->|(x' & ? & ?)]; [exists x | exists x']; by rewrite elem_of_cons; auto.
    + intros (x' & [->|?]%elem_of_cons & Hy); [left; congruence | eauto].
Qed.

Lemma mapR_Throw f l e :
  mapR f l = Throw e →
  ∃ l1 x l2, l = l1 ++ x :: l2 ∧ f x = Throw e ∧ isOk (mapR f l1) = true.
Proof.
  induction l as [|x l IH]; simpl; [done|].
  destruct (f x) as [y|e'] eqn:Hx; simpl.
  - destruct (mapR f l) as [k|e'] eqn:Hl; simpl; [done|].
    intros [= ->]. destruct (IH eq_refl) as (l1 & x' & l2 & -> & Hx' & Hl1).
    exists (x :: l1), x', l2. simpl. rewrite Hx. simpl.
    split_and!; [done..|]. by destruct (mapR f l1).
  - intros [= ->]. by exists [], x, l.
Qed.

(** A relation that holds between each element and its result holds
    between the list and the results. *)
Lemma mapR_Ok_elem f l k (R : A → B → Prop) :
  (∀ x y, x ∈ l → f x = Ok y → R x y) → mapR f l = Ok k → Forall2 R l k.
Proof.
  intros HR Hk%mapR_Ok. induction Hk as [|x y l k Hxy _ IH]; constructor.
  - apply HR; [left | done].
  - apply IH. intros x' y' Hx'. apply HR. by right.
Qed.

End mapR.

(** A map over the concatenation of the lists [g x]. *)
Lemma mapR_list_bind {A B C D} (f : A → result B) (g : C → list A)
    (g' : D → list B) (l : list C) (k : list D) :
  Forall2 (λ x y, mapR f (g x) = Ok (g' y)) l k →
  mapR f (l ≫= g) = Ok (k ≫= g').
Proof.
  induction 1 as [|x y l k Hxy _ IH]; [done|].
  rewrite !bind_cons, mapR_app, Hxy. simpl. by rewrite IH.
Qed.

(** ** Computations that throw nothing but [TypeError] *)

Definition onlyTypeError {A} (m : result A) : Prop :=
  match m with
  | Throw (ReferenceError _) => False
  | _ => True
  end.

Arguments onlyTypeError : simpl never.

Section onlyTypeError.
Context {A B : Type}.
Implicit Types (m : result A) (f : A → result B).

Lemma onlyTypeError_Ok (a : A) : onlyTypeError (Ok a).
Proof. done. Qed.

Lemma onlyTypeError_Throw reason : onlyTypeError (@Throw A (TypeError reason)).
Proof. done. Qed.

Lemma onlyTypeError_bind m f :
  onlyTypeError m → (∀ a, onlyTypeError (f a)) → onlyTypeError (m ≫= f).
Proof. intros Hm Hf. destruct m as [a|[]]; [apply Hf | done..]. Qed.

Lemma onlyTypeError_fmap (h : A → B) m :
  onlyTypeError m → onlyTypeError (h <$> m).
Proof. by destruct m as [a|[]]. Qed.

Lemma onlyTypeError_inv m e : onlyTypeError m → m = Throw e → ∃ r, e = TypeError r.
Proof. intros H ->. destruct e; [eauto | done]. Qed.

(** A computation that fails, and only with [TypeError], fails with
    [TypeError]. *)
Lemma isTypeError_iff m :
  isTypeError m = true ↔ isOk m = false ∧ onlyTypeError m.
Proof. destruct m as [a|[]]; unfold onlyTypeError; simpl; naive_solver. Qed.

Lemma mapR_elem_Throw f (l : list A) x :
  x ∈ l → isOk (f x) = false → isOk (mapR f l) = false.
Proof.
  induction l as [|y l IH]; [by intros ?%elem_of_nil|].
  intros [->|Hin]%elem_of_cons Hx; simpl.
  - by destruct (f y).
  - destruct (f y); simpl; [|done]. specialize (IH Hin Hx).
    by destruct (mapR f l).
Qed.

Lemma bind_isOk_false m f : isOk m = false → isOk (m ≫= f) = false.
Proof. by destruct m. Qed.

Lemma fmap_isOk (h : A → B) m : isOk (h <$> m) = isOk m.
Proof. by destruct m. Qed.

End onlyTypeError.

Lemma onlyTypeError_mapR {A B} (f : A → result B) (l : list A) :
  (∀ x, onlyTypeError (f x)) → onlyTypeError (mapR f l).
Proof.
  intros Hf. induction l as [|x l IH]; simpl; [done|].
  apply onlyTypeError_bind; [done|]. intros y.
  by apply onlyTypeError_bind.
Qed.

Lemma onlyTypeError_mapR_Forall {A B} (f : A → result B) (l : list A) :
  Forall (λ x, onlyTypeError (f x)) l → onlyTypeError (mapR f l).
Proof.
  induction 1 as [|x l Hx _ IH]; simpl; [done|].
  apply onlyTypeError_bind; [done|]. intros y.
  by apply onlyTypeError_bind.
Qed.

#[export] Hint Resolve onlyTypeError_Ok onlyTypeError_Throw onlyTypeError_bind
  onlyTypeError_fmap onlyTypeError_mapR : js.

(** [only_type_error] proves [onlyTypeError m] for an [m] built from binds,
    maps and case distinctions over computations known to be so. *)
Ltac only_type_error :=
  repeat first
    [ done
    | solve [eauto with js]
    | apply onlyTypeError_bind; [|intros ?]
    | apply onlyTypeError_fmap
    | apply onlyTypeError_mapR; intros ?
    | case_match ].

(** ** Strings *)

(** stdpp keeps [simpl] from unfolding [+:+]; these two equations are its
    computation rules. *)
Lemma append_nil_l (s : string) : "" +:+ s = s.
Proof. reflexivity. Qed.

Lemma append_cons (c : ascii) (s1 s2 : string) :
  String c s1 +:+ s2 = String c (s1 +:+ s2).
Proof. reflexivity. Qed.

Lemma append_assoc (s1 s2 s3 : string) :
  (s1 +:+ s2) +:+ s3 = s1 +:+ (s2 +:+ s3).
Proof.
  induction s1 as [|c s1 IH]; [done|]. rewrite !append_cons. by rewrite IH.
Qed.

Lemma append_nil_r (s : string) : s +:+ "" = s.
Proof. induction s as [|c s IH]; [done|]. rewrite append_cons. by rewrite IH. Qed.

Lemma append_inj_l (s s1 s2 : string) : s +:+ s1 = s +:+ s2 → s1 = s2.
Proof.
  induction s as [|c s IH]; [done|]. rewrite !append_cons. intros [= ?]; auto.
Qed.

#[export] Hint Rewrite append_nil_l append_cons append_assoc append_nil_r : js.

(** ** Lists *)

Section list_facts.
Context {A : Type}.
Implicit Types (l : list A) (P : A → Prop).

Lemma omap_sublist_id (f : A → option A) l :
  Forall (λ x, f x = Some x ∨ f x = None) l → omap f l `sublist_of` l.
Proof.
  induction 1 as [|x l [Hx|Hx] _ IH]; simpl; rewrite ?Hx.
  - constructor.
  - by constructor.
  - by constructor.
Qed.

Lemma omap_id_Some l : omap id (Some <$> l) = l.
Proof. induction l as [|x l IH]; csimpl; [done | by rewrite IH]. Qed.

Lemma omap_guard (h : A → option A) (P : A → Prop) `{∀ x, Decision (P x)} l :
  (∀ x, h x = if decide (P x) then Some x else None) →
  omap h l = filter P l.
Proof.
  intros Hh. induction l as [|x l IH]; [done|]. rewrite filter_cons. csimpl.
  rewrite IH, Hh. by case_decide.
Qed.

Lemma Forall_filter_weaken (P Q : A → Prop) `{∀ x, Decision (P x)} l :
  Forall Q l → Forall Q (filter P l).
Proof.
  rewrite !Forall_forall. intros HQ x [_ Hx]%list_elem_of_filter. by apply HQ.
Qed.

Lemma filter_iff_elem (P Q : A → Prop)
    `{∀ x, Decision (P x)} `{∀ x, Decision (Q x)} l :
  Forall (λ x, P x ↔ Q x) l → filter P l = filter Q l.
Proof.
  induction 1 as [|x l Hx _ IH]; [done|].
  rewrite !filter_cons, IH. repeat case_decide; tauto.
Qed.

Lemma omap_id_fmap_Some (h : A → A) l :
  omap id ((λ x, Some (h x)) <$> l) = h <$> l.
Proof. induction l as [|x l IH]; csimpl; [done | by rewrite IH]. Qed.

Lemma mapR_Some_id (f : A → result (option A)) l :
  Forall (λ x, f x = Ok (Some x)) l → mapR f l = Ok (Some <$> l).
Proof. induction 1 as [|x l Hx _ IH]; simpl; [done | by rewrite Hx, IH]. Qed.

(** [forallb] and [Forall]. *)
Lemma forallb_Forall (p : A → bool) l :
  forallb p l = true ↔ Forall (λ x, p x = true) l.
Proof.
  rewrite forallb_forall, Forall_forall.
  split; intros Hp x Hx; by apply Hp, list_elem_of_In.
Qed.

Lemma forallb_impl (p q : A → bool) l :
  Forall (λ x, p x = true → q x = true) l →
  forallb p l = true → forallb q l = true.
Proof.
  induction 1 as [|x l Hx _ IH]; simpl; [done|].
  rewrite !andb_true_iff. intros [??]. auto.
Qed.

Lemma forallb_fmap {B} (h : B → A) (p : A → bool) (k : list B) :
  forallb p (h <$> k) = forallb (λ x, p (h x)) k.
Proof. induction k as [|x k IH]; [done|]. csimpl. by rewrite IH. Qed.

(** A map that fixes every element fixes the list. *)
Lemma fmap_fixed (h : A → A) l : Forall (λ x, h x = x) l → h <$> l = l.
Proof. intros Hl. rewrite <-(list_fmap_id l) at 2. by apply Forall_fmap_ext_1. Qed.

(** A filter that no element passes leaves nothing. *)
Lemma filter_none P `{∀ x, Decision (P x)} l :
  Forall (λ x, ¬ P x) l → filter P l = [].
Proof.
  induction 1 as [|x l Hx _ IH]; [done|]. by rewrite filter_cons_False.
Qed.

End list_facts.

(** What is left of a map that returned, once the [undefined]s are
    dropped. *)
Lemma mapR_omap_elem {A B} (f : A → result (option B)) l rs y :
  mapR f l = Ok rs → y ∈ omap id rs ↔ ∃ x, x ∈ l ∧ f x = Ok (Some y).
Proof.
  intros Hrs. rewrite list_elem_of_omap.
  setoid_rewrite <-(mapR_elem f l rs (Some y) Hrs).
  split; [by intros ([z|] & ? & [= ->]) | intros ?; by exists (Some y)].
Qed.

Lemma foldl_ext_all {A B} (f g : A → B → A) (a : A) (l : list B) :
  (∀ a b, f a b = g a b) → foldl f a l = foldl g a l.
Proof.
  intros Hfg. revert a. induction l as [|b l IH]; intros a; simpl; [done|].
  by rewrite Hfg, IH.
Qed.

Lemma foldl_fixpoint {A B} (f : A → B → A) (a : A) (l : list B) :
  (∀ b, f a b = a) → foldl f a l = a.
Proof. intros Hf. induction l as [|b l IH]; simpl; [done | by rewrite Hf]. Qed.

(** The keys of the entries a function selects from a list of keys, each
    under its own key, are a sublist of the keys. *)
Lemma omap_keys_sublist {K V} (h : K → option (K * V)) (keys : list K) :
  (∀ k kv, h k = Some kv → kv.1 = k) → (omap h keys).*1 `sublist_of` keys.
Proof.
  intros Hh. induction keys as [|k keys IH]; csimpl; [done|].
  destruct (h k) as [kv|] eqn:E; csimpl.
  - rewrite (Hh k kv E). by constructor.
  - by constructor.
Qed.
