(* ===== verification/JsMap.v ===== *)
(** * The [Map] of JavaScript, keyed by strings

    A JavaScript [Map] remembers the order in which its keys were first
    inserted: [set] on a key that is present replaces the value in place,
    [set] on a new key appends, [delete] removes the entry, and iteration
    ([entries()]) follows that order.  The program builds such maps
    ([propertyMap], [propertiesToAdd]) and turns what is left in them into
    new properties, so the order is observable in the output.

    The model is the list of entries in iteration order.  [map_wf] says
    that the keys are distinct; every operation keeps it. *)

From S2P Require Import Prelude.

(** The type is an abbreviation, so that the list lemmas apply as they are. *)
Abbreviation JsMap V := (list (string * V)) (only parsing).

Section js_map.
Context {V : Type}.

Implicit Types (m : JsMap V) (k : string) (v : V).

(** [new Map()] *)
Definition map_empty : JsMap V := [].

(** [m.set(k, v)] *)
Fixpoint map_set (k : string) (v : V) (m : JsMap V) : JsMap V :=
  match m with
  | [] => [(k, v)]
  | (k', v') :: m' =>
      if decide (k = k') then (k, v) :: m' else (k', v') :: map_set k v m'
  end.

(** [m.delete(k)] *)
Definition map_delete (k : string) (m : JsMap V) : JsMap V :=
  filter (λ kv, kv.1 ≠ k) m.

(** [m.get(k)], [None] for [undefined] *)
Fixpoint map_get (k : string) (m : JsMap V) : option V :=
  match m with
  | [] => None
  | (k', v') :: m' => if decide (k = k') then Some v' else map_get k m'
  end.

(** [m.size] *)
Definition map_size (m : JsMap V) : nat := length m.

(** [Array.from(m.entries())] *)
Definition map_entries (m : JsMap V) : list (string * V) := m.

(** The map a loop [for (e of l) m.set(e.key, e.value)] leaves. *)
Definition map_of_entries (l : list (string * V)) : JsMap V :=
  foldl (λ m kv, map_set kv.1 kv.2 m) map_empty l.

(** The map a loop [for (k of ks) m.delete(k)] leaves. *)
Definition map_delete_all (ks : list string) (m : JsMap V) : JsMap V :=
  foldl (λ m k, map_delete k m) m ks.

Definition map_wf (m : JsMap V) : Prop := NoDup m.*1.

(** ** Lookup *)

Lemma map_get_None k m : map_get k m = None ↔ k ∉ m.*1.
Proof.
  induction m as [|[k' v'] m IH]; simpl.
  - split; [intros _; apply not_elem_of_nil | done].
  - rewrite not_elem_of_cons. case_decide; [|tauto]. split; [done | tauto].
Qed.

Lemma map_get_Some_elem k v m : map_get k m = Some v → (k, v) ∈ m.
Proof.
  induction m as [|[k' v'] m IH]; simpl; [done|].
  case_decide; [intros [= ->]; subst; left | right; auto].
Qed.

Lemma map_get_elem k v m : map_wf m → (k, v) ∈ m → map_get k m = Some v.
Proof.
  unfold map_wf. induction m as [|[k' v'] m IH]; simpl.
  - by intros _ ?%elem_of_nil.
  - intros [Hk' Hm]%NoDup_cons [[= -> ->]|Hin]%elem_of_cons.
    + by rewrite decide_True.
    + rewrite decide_False; [auto|]. intros ->. apply Hk'.
      apply list_elem_of_fmap. by exists (k', v).
Qed.

Lemma map_get_set_eq k v m : map_get k (map_set k v m) = Some v.
Proof.
  induction m as [|[k' v'] m IH]; simpl.
  - by rewrite decide_True.
  - case_decide; simpl; [by rewrite decide_True | by rewrite decide_False].
Qed.

Lemma map_get_set_ne k k' v m :
  k ≠ k' → map_get k' (map_set k v m) = map_get k' m.
Proof.
  intros Hne. induction m as [|[k0 v0] m IH]; simpl.
  - by rewrite decide_False.
  - case_decide; simpl; subst.
    + by rewrite !decide_False.
    + by rewrite IH.
Qed.

Lemma map_get_delete_eq k m : map_get k (map_delete k m) = None.
Proof.
  apply map_get_None. unfold map_delete.
  intros ([k' v'] & -> & [Hne _]%list_elem_of_filter)%list_elem_of_fmap.
  by apply Hne.
Qed.

Lemma map_get_delete_ne k k' m :
  k ≠ k' → map_get k' (map_delete k m) = map_get k' m.
Proof.
  intros Hne. unfold map_delete.
  induction m as [|[k0 v0] m IH]; [done|].
  rewrite filter_cons. simpl. case_decide as Hk0; simpl.
  - by rewrite IH.
  - subst k0. by rewrite decide_False.
Qed.

(** ** Keys and order *)

Lemma map_set_keys_present k v m :
  k ∈ m.*1 → (map_set k v m).*1 = m.*1.
Proof.
  induction m as [|[k' v'] m IH]; simpl.
  - by intros ?%elem_of_nil.
  - intros Hin. case_decide; simpl; subst; [done|].
    f_equal. apply IH. by apply elem_of_cons in Hin as [?|?].
Qed.

Lemma map_set_absent k v m : k ∉ m.*1 → map_set k v m = m ++ [(k, v)].
Proof.
  induction m as [|[k' v'] m IH]; simpl; [done|].
  intros [Hne Hin]%not_elem_of_cons. rewrite decide_False by done.
  by rewrite IH.
Qed.

Lemma map_delete_absent k m : k ∉ m.*1 → map_delete k m = m.
Proof.
  unfold map_delete. induction m as [|[k' v'] m IH]; simpl; [done|].
  intros [Hne Hin]%not_elem_of_cons.
  rewrite filter_cons_True by (simpl; congruence). by rewrite IH.
Qed.

Lemma map_delete_sublist k m : map_delete k m `sublist_of` m.
Proof. apply sublist_filter. Qed.

Lemma map_delete_set_absent k v m :
  k ∉ m.*1 → map_delete k (map_set k v m) = m.
Proof.
  intros Hk. rewrite map_set_absent by done. unfold map_delete.
  rewrite filter_app, filter_cons_False, filter_nil, app_nil_r by (simpl; auto).
  by apply map_delete_absent.
Qed.

Lemma map_delete_comm k1 k2 m :
  map_delete k1 (map_delete k2 m) = map_delete k2 (map_delete k1 m).
Proof.
  unfold map_delete. rewrite !list_filter_filter.
  apply list_filter_iff. intros kv. tauto.
Qed.

Lemma elem_of_map_delete k kv m :
  kv ∈ map_delete k m ↔ kv ∈ m ∧ kv.1 ≠ k.
Proof. unfold map_delete. rewrite list_elem_of_filter. tauto. Qed.

Lemma map_size_delete k m : map_size (map_delete k m) ≤ map_size m.
Proof. apply length_filter. Qed.

(** ** Well-formedness *)

Lemma map_empty_wf : map_wf map_empty.
Proof. constructor. Qed.

Lemma map_set_wf k v m : map_wf m → map_wf (map_set k v m).
Proof.
  unfold map_wf. intros Hm. destruct (decide (k ∈ m.*1)) as [Hin|Hin].
  - by rewrite map_set_keys_present.
  - rewrite map_set_absent, fmap_app by done. simpl.
    apply NoDup_app. split_and!; [done| |apply NoDup_singleton].
    intros k' Hk' ->%list_elem_of_singleton. done.
Qed.

Lemma map_delete_wf k m : map_wf m → map_wf (map_delete k m).
Proof.
  unfold map_wf. intros Hm.
  eapply sublist_NoDup; [done | apply fmap_sublist, map_delete_sublist].
Qed.

(** ** The loops *)

Lemma map_of_entries_snoc l k v :
  map_of_entries (l ++ [(k, v)]) = map_set k v (map_of_entries l).
Proof. unfold map_of_entries. by rewrite foldl_app. Qed.

(** Filling a map from entries with distinct keys gives those entries, in
    their order. *)
Lemma map_of_entries_NoDup l : NoDup l.*1 → map_of_entries l = l.
Proof.
  induction l as [|[k v] l IH] using rev_ind; [done|].
  rewrite fmap_app. simpl. intros (Hl & Hk & _)%NoDup_app.
  rewrite map_of_entries_snoc, IH by done.
  apply map_set_absent. intros Hin. apply (Hk k Hin). by left.
Qed.

Lemma map_of_entries_wf l : map_wf (map_of_entries l).
Proof.
  induction l as [|[k v] l IH] using rev_ind; [apply map_empty_wf|].
  rewrite map_of_entries_snoc. by apply map_set_wf.
Qed.

Lemma map_delete_all_filter ks m :
  map_delete_all ks m = filter (λ kv, kv.1 ∉ ks) m.
Proof.
  revert m. induction ks as [|k ks IH]; intros m; simpl.
  - induction m as [|kv m IH]; [done|].
    rewrite filter_cons_True by apply not_elem_of_nil. by rewrite <-IH.
  - rewrite IH. unfold map_delete. rewrite list_filter_filter.
    apply list_filter_iff. intros kv. rewrite not_elem_of_cons. tauto.
Qed.

Lemma map_delete_all_wf ks m : map_wf m → map_wf (map_delete_all ks m).
Proof.
  revert m. induction ks as [|k ks IH]; intros m Hm; simpl; [done|].
  by apply IH, map_delete_wf.
Qed.

(** A loop over [keys] that sets the entry [h] selects for a key, or does
    nothing for it, leaves the selected entries in the order of the keys,
    when their keys are distinct. *)
Lemma foldl_set_NoDup (h : string → option (string * V)) keys :
  NoDup (omap h keys).*1 →
  foldl (λ m k, from_option (λ kv, map_set kv.1 kv.2 m) m (h k)) map_empty keys
  = omap h keys.
Proof.
  induction keys as [|k keys IH] using rev_ind; [done|].
  rewrite omap_app, fmap_app, foldl_app. intros (Hl & Hk & _)%NoDup_app.
  rewrite IH by done. simpl. destruct (h k) as [[k' v']|] eqn:E; simpl.
  - apply map_set_absent. intros Hin. apply (Hk k' Hin).
    simpl. rewrite E. by left.
  - by rewrite app_nil_r.
Qed.

(** Reading every key of a list of entries with distinct keys gives the
    entries back, whatever a read gives for a key without an entry. *)
Lemma omap_keys_lookup {B} (d : string → V) (H : string → V → option B)
    (es : list (string * V)) :
  NoDup es.*1 →
  omap (λ k, H k (default (d k) (map_get k es))) es.*1
  = omap (λ kv, H kv.1 kv.2) es.
Proof.
  intros Hnd.
  assert (∀ l, l ⊆ es → omap (λ k, H k (default (d k) (map_get k es))) l.*1
                        = omap (λ kv, H kv.1 kv.2) l) as Hl.
  { induction l as [|[k v] l IH]; intros Hsub; [done|]. csimpl.
    rewrite (map_get_elem k v es Hnd) by (apply Hsub; left). csimpl.
    rewrite IH; [done|]. intros x Hx. apply Hsub. by right. }
  by apply Hl.
Qed.

End js_map.

#[export] Hint Resolve map_empty_wf map_set_wf map_delete_wf
  map_of_entries_wf map_delete_all_wf : js.
#[export] Hint Rewrite @map_get_set_eq @map_get_delete_eq : js.
