(* ===== verification/JsMapSpec.v ===== *)
(** * The [Map] of JavaScript against finite maps

    [JsMap.v] keeps a [Map] as the list of its entries in iteration
    order.  What a [Map] promises apart from the order is what a finite
    map from keys to values promises; this file states it with the finite
    maps of stdpp: [contents] is the finite map a list of entries stands
    for, [set] is [insert], [delete] is [delete], [get] is lookup and
    [size] is [size], for every sequence of operations.  Two lists with
    the same contents are the same [Map] up to the order of iteration
    ([≡ₘ]); the operations respect it.

    The order is the rest of the contract: [set] on a key that is there
    keeps the keys where they are, [set] on a new key appends, [delete]
    leaves the others in their order. *)

From stdpp Require Import gmap.
From S2P Require Import Prelude JsMap.

Section contents.
Context {V : Type}.
Implicit Types (m : list (string * V)) (k : string) (v : V).

(** ** The finite map of a [Map] *)

Definition contents (m : list (string * V)) : gmap string V := list_to_map m.

(** The operations the program calls on a [Map] that change it. *)
Inductive MapOperation : Type :=
| MapSet (k : string) (v : V)
| MapDelete (k : string).

Definition applyOperation (m : list (string * V)) (op : MapOperation)
  : list (string * V) :=
  match op with
  | MapSet k v => map_set k v m
  | MapDelete k => map_delete k m
  end.

(** The operation on finite maps. *)
Definition applyToContents (g : gmap string V) (op : MapOperation)
  : gmap string V :=
  match op with
  | MapSet k v => <[k:=v]> g
  | MapDelete k => delete k g
  end.

(** The same [Map] up to the order of iteration. *)
Definition sameContents : relation (list (string * V)) :=
  λ m1 m2, contents m1 = contents m2.

Infix "≡ₘ" := sameContents (at level 70, no associativity).

#[global] Instance sameContents_equivalence : Equivalence sameContents.
Proof.
  unfold sameContents.
  split; [by intros ? | by intros ?? | by intros ??? -> ->].
Qed.

(** ** The operations *)

Lemma contents_empty : contents (map_empty (V:=V)) = ∅.
Proof. done. Qed.

Lemma contents_cons k v m : contents ((k, v) :: m) = <[k:=v]> (contents m).
Proof. done. Qed.

Lemma contents_get m k : contents m !! k = map_get k m.
Proof.
  induction m as [|[k' v'] m IH]; [done|]. rewrite contents_cons. simpl.
  case_decide as Hk; [subst; apply lookup_insert_eq|].
  by rewrite lookup_insert_ne.
Qed.

Lemma contents_set k v m : contents (map_set k v m) = <[k:=v]> (contents m).
Proof.
  induction m as [|[k' v'] m IH]; [done|]. simpl.
  case_decide as Hk; rewrite !contents_cons.
  - subst. by rewrite insert_insert_eq.
  - by rewrite IH, insert_insert_ne.
Qed.

Lemma contents_delete k m :
  contents (map_delete k m) = delete k (contents m).
Proof.
  unfold map_delete. induction m as [|[k' v'] m IH].
  { symmetry. apply delete_empty. }
  rewrite filter_cons, !contents_cons. cbn [fst]. case_decide as Hk.
  - by rewrite contents_cons, IH, delete_insert_ne.
  - subst. by rewrite delete_insert_eq.
Qed.

Lemma contents_size m : map_wf m → map_size m = size (contents m).
Proof.
  intros Hm. unfold contents, map_size.
  by rewrite <-length_map_to_list, (map_to_list_to_map m Hm).
Qed.

(** The entries of a [Map] are the entries of its contents, in the
    order the [Map] keeps. *)
Lemma contents_entries m :
  map_wf m → map_entries m ≡ₚ map_to_list (contents m).
Proof. intros Hm. symmetry. by apply map_to_list_to_map. Qed.

Lemma contents_apply m op :
  contents (applyOperation m op) = applyToContents (contents m) op.
Proof. destruct op; [apply contents_set | apply contents_delete]. Qed.

(** The list of entries implements the finite map: whatever the
    program does to a [Map], in whatever order, the list stands for the
    finite map the same operations make. *)
Theorem contents_operations m ops :
  contents (foldl applyOperation m ops) = foldl applyToContents (contents m) ops.
Proof.
  revert m. induction ops as [|op ops IH]; intros m; [done|].
  simpl. by rewrite IH, contents_apply.
Qed.

(** The keys stay distinct. *)
Lemma applyOperation_wf m op : map_wf m → map_wf (applyOperation m op).
Proof. destruct op; [apply map_set_wf | apply map_delete_wf]. Qed.

Lemma operations_wf m ops : map_wf m → map_wf (foldl applyOperation m ops).
Proof.
  revert m. induction ops as [|op ops IH]; intros m Hm; [done|].
  by apply IH, applyOperation_wf.
Qed.

(** What [get] and [size] answer after any operations is what the
    finite map answers. *)
Corollary operations_get ops k :
  map_get k (foldl applyOperation map_empty ops)
  = foldl applyToContents ∅ ops !! k.
Proof. by rewrite <-contents_get, contents_operations. Qed.

Corollary operations_size ops :
  map_size (foldl applyOperation map_empty ops) = size (foldl applyToContents ∅ ops).
Proof.
  rewrite contents_size by apply operations_wf, map_empty_wf.
  by rewrite contents_operations.
Qed.

(** ** Up to the order *)

#[global] Instance map_set_proper k v :
  Proper (sameContents ==> sameContents) (map_set k v).
Proof. intros m1 m2 Hm. unfold sameContents. by rewrite !contents_set, Hm. Qed.

#[global] Instance map_delete_proper k :
  Proper (sameContents ==> sameContents) (map_delete k).
Proof.
  intros m1 m2 Hm. unfold sameContents. by rewrite !contents_delete, Hm.
Qed.

#[global] Instance map_get_proper k : Proper (sameContents ==> (=)) (map_get k).
Proof. intros m1 m2 Hm. by rewrite <-!contents_get, Hm. Qed.

#[global] Instance applyOperation_proper :
  Proper (sameContents ==> (=) ==> sameContents) applyOperation.
Proof. intros m1 m2 Hm op ? <-. destruct op; simpl; by rewrite Hm. Qed.

(** Setting two keys in either order gives the same [Map] up to the
    order of iteration, and so does deleting before or after setting
    another key. *)
Lemma map_set_comm k1 v1 k2 v2 m :
  k1 ≠ k2 → map_set k1 v1 (map_set k2 v2 m) ≡ₘ map_set k2 v2 (map_set k1 v1 m).
Proof.
  intros Hk. unfold sameContents. rewrite !contents_set.
  by apply insert_insert_ne.
Qed.

Lemma map_delete_set_comm k1 k2 v m :
  k1 ≠ k2 → map_delete k1 (map_set k2 v m) ≡ₘ map_set k2 v (map_delete k1 m).
Proof.
  intros Hk. unfold sameContents.
  rewrite contents_delete, !contents_set, contents_delete.
  by apply delete_insert_ne.
Qed.

(** Lists of distinct keys with the same contents hold the same
    entries. *)
Lemma sameContents_entries m1 m2 :
  map_wf m1 → map_wf m2 → m1 ≡ₘ m2 → map_entries m1 ≡ₚ map_entries m2.
Proof.
  intros H1 H2 Hm. rewrite !contents_entries by done. by rewrite Hm.
Qed.

End contents.

Infix "≡ₘ" := sameContents (at level 70, no associativity) : stdpp_scope.

(** ** Example *)

(** [propertyMap] of [visitRootConfigNode] for a configuration with
    [video] and [baseUrl], after the visit of a root that has [video]:
    the list keeps [baseUrl] alone, and so does the finite map. *)
Example contents_propertyMap :
  let ops := [MapSet "video" true; MapSet "baseUrl" false; MapDelete "video"] in
  foldl applyOperation map_empty ops = [("baseUrl", false)] ∧
  foldl applyToContents ∅ ops = {[ "baseUrl" := false ]}.
Proof.
  split; [reflexivity|]. simpl.
  by rewrite delete_insert_ne, delete_insert_eq, delete_empty by done.
Qed.
