(* ===== verification/JsValue.v ===== *)
(** * JavaScript values

    The configuration the program merges into the file is a JavaScript
    object, and the code inspects it with [typeof], truthiness tests,
    [for ... in], optional property access [acc?.[key]] and the string and
    array methods [join], [split] and [pop].  This file models those
    operations; the functions of [src/] that use them are in the files of
    their components.

    A value is known by its own enumerable properties.  What a read finds
    beyond them, on the prototype chain, is the class [Inherited]; the
    definitions and the facts that read a property are in [Section]s
    over it. *)

From Stdlib Require Import DecimalString DecimalZ DecimalNat DecimalFacts.
From S2P Require Import Prelude JsMap.

(** ** The values *)

(** A number is an integer, [NaN], an infinity, or a finite number that
    [Number.prototype.toString] does not print as a run of digits: a
    number with a fraction ([0.5], [12.25]) or one it prints with an
    exponent ([1e+21], [1.5e-7]).  Such a number is kept as the decimal
    that is printed, [Decimal i f] for [i.f] and [DecimalExp i f e] for
    [i.fe±x]. *)
Inductive JsNumber : Type :=
| NumInt (z : Z)
| NumDecimal (d : Decimal.decimal)
| NumInfinity (negative : bool)
| NumNaN.

#[global] Instance decimal_eq_decision : EqDecision Decimal.decimal :=
  Decimal.decimal_eq_dec.

#[global] Instance JsNumber_eq_dec : EqDecision JsNumber.
Proof. solve_decision. Defined.

(** An object is the list of its own enumerable properties in enumeration
    order; a function is known by the text [toString()] gives. *)
#[local] Unset Elimination Schemes.

Inductive JsValue : Type :=
| JsUndefined
| JsNull
| JsBoolean (b : bool)
| JsNum (n : JsNumber)
| JsString (s : string)
| JsFunction (source : string)
| JsObject (properties : list (string * JsValue)).

#[local] Set Elimination Schemes.

(** What [typeof] answers. *)
Inductive JsType : Type :=
| TUndefined | TObject | TBoolean | TNumber | TString | TFunction.

#[global] Instance JsType_eq_dec : EqDecision JsType.
Proof. solve_decision. Defined.

(** Induction that reaches the values of an object's properties. *)
Section JsValue_ind.
Variable P : JsValue → Prop.
Hypothesis Hundefined : P JsUndefined.
Hypothesis Hnull : P JsNull.
Hypothesis Hboolean : ∀ b, P (JsBoolean b).
Hypothesis Hnum : ∀ n, P (JsNum n).
Hypothesis Hstring : ∀ s, P (JsString s).
Hypothesis Hfunction : ∀ s, P (JsFunction s).
Hypothesis Hobject : ∀ ps, Forall (λ kv, P kv.2) ps → P (JsObject ps).

Fixpoint JsValue_nested_ind (v : JsValue) : P v :=
  match v with
  | JsUndefined => Hundefined
  | JsNull => Hnull
  | JsBoolean b => Hboolean b
  | JsNum n => Hnum n
  | JsString s => Hstring s
  | JsFunction s => Hfunction s
  | JsObject ps =>
      Hobject ps
        ((fix go (ps : list (string * JsValue)) : Forall (λ kv, P kv.2) ps :=
            match ps with
            | [] => List.Forall_nil _
            | kv :: ps' =>
                List.Forall_cons _ kv ps' (JsValue_nested_ind kv.2) (go ps')
            end) ps)
  end.

End JsValue_ind.

(** Equality of values is decidable: a boolean test first, then its
    correctness by the induction above. *)
Fixpoint JsValue_eqb (x y : JsValue) : bool :=
  match x, y with
  | JsUndefined, JsUndefined => true
  | JsNull, JsNull => true
  | JsBoolean a, JsBoolean b => bool_decide (a = b)
  | JsNum a, JsNum b => bool_decide (a = b)
  | JsString a, JsString b => bool_decide (a = b)
  | JsFunction a, JsFunction b => bool_decide (a = b)
  | JsObject ps, JsObject qs =>
      (fix go (ps qs : list (string * JsValue)) : bool :=
         match ps, qs with
         | [], [] => true
         | p :: ps', q :: qs' =>
             bool_decide (p.1 = q.1) && JsValue_eqb p.2 q.2 && go ps' qs'
         | _, _ => false
         end) ps qs
  | _, _ => false
  end.

Lemma JsValue_eqb_eq x y : JsValue_eqb x y = true ↔ x = y.
Proof.
  revert y. induction x as [| |a|a|a|a|ps IH] using JsValue_nested_ind;
    intros [| |b|b|b|b|qs]; simpl;
    rewrite ?bool_decide_eq_true; try (split; congruence).
  revert qs. induction IH as [|[k v] ps Hv _ IHps]; intros [|[k' v'] qs];
    try (split; congruence).
  simpl in *. rewrite !andb_true_iff, bool_decide_eq_true, Hv, IHps.
  split; [intros [[-> ->] [= ->]]; done | intros [= -> -> ->]; done].
Qed.

#[global] Instance JsValue_eq_dec : EqDecision JsValue.
Proof.
  intros x y. destruct (JsValue_eqb x y) eqn:E.
  - left. by apply JsValue_eqb_eq.
  - right. intros H%JsValue_eqb_eq. congruence.
Defined.

(** ** [typeof] and truthiness *)

Definition typeof (v : JsValue) : JsType :=
  match v with
  | JsUndefined => TUndefined
  | JsNull => TObject
  | JsBoolean _ => TBoolean
  | JsNum _ => TNumber
  | JsString _ => TString
  | JsFunction _ => TFunction
  | JsObject _ => TObject
  end.

(** [if (v)]: [undefined], [null], [false], [0], [NaN] and [""] are falsy. *)
Definition toBoolean (v : JsValue) : bool :=
  match v with
  | JsUndefined | JsNull => false
  | JsBoolean b => b
  | JsNum (NumInt z) => negb (Z.eqb z 0)
  | JsNum NumNaN => false
  | JsNum (NumDecimal _) | JsNum (NumInfinity _) => true
  | JsString s => negb (bool_decide (s = ""))
  | JsFunction _ | JsObject _ => true
  end.

(** [v !== undefined] *)
Definition isDefined (v : JsValue) : bool :=
  match v with JsUndefined => false | _ => true end.

(** ** Numbers and strings *)

(** The digits after the point, with the point; nothing when there are
    none ([1e+21]). *)
Definition fractionToString (f : Decimal.uint) : string :=
  match f with
  | Decimal.Nil => ""
  | _ => "." +:+ NilEmpty.string_of_uint f
  end.

(** The exponent, which is printed with its sign. *)
Definition exponentToString (e : Decimal.int) : string :=
  match e with
  | Decimal.Pos u => "e+" +:+ NilZero.string_of_uint u
  | Decimal.Neg u => "e-" +:+ NilZero.string_of_uint u
  end.

Definition decimalToString (d : Decimal.decimal) : string :=
  match d with
  | Decimal.Decimal i f => NilZero.string_of_int i +:+ fractionToString f
  | Decimal.DecimalExp i f e =>
      NilZero.string_of_int i +:+ fractionToString f +:+ exponentToString e
  end.

(** [n + ""] *)
Definition numberToString (n : JsNumber) : string :=
  match n with
  | NumInt z => NilZero.string_of_int (Z.to_int z)
  | NumDecimal d => decimalToString d
  | NumInfinity negative => if negative then "-Infinity" else "Infinity"
  | NumNaN => "NaN"
  end.

(** [Number.isInteger(n)] *)
Definition isInteger (n : JsNumber) : bool :=
  match n with NumInt _ => true | _ => false end.

Definition natToString (i : nat) : string :=
  NilZero.string_of_uint (Nat.to_uint i).

(** [parts.join(sep)] *)
Definition join (sep : string) (parts : list string) : string :=
  String.concat sep parts.

(** [s.split(sep)] for a separator of one character. *)
Fixpoint split (sep : ascii) (s : string) : list string :=
  match s with
  | EmptyString => [EmptyString]
  | String c s' =>
      if decide (c = sep) then EmptyString :: split sep s'
      else match split sep s' with
           | [] => [String c EmptyString]
           | x :: xs => String c x :: xs
           end
  end.

(** [parts.pop()], [None] for [undefined] (the array is not used again). *)
Definition pop (parts : list string) : option string := last parts.

(** Whether [sep] occurs in [s]. *)
Fixpoint occurs (sep : ascii) (s : string) : bool :=
  match s with
  | EmptyString => false
  | String c s' => bool_decide (c = sep) || occurs sep s'
  end.

(** ** Properties *)

(** The index properties of a string: ["ab"] has ["0"] and ["1"]. *)
Definition stringEntries (s : string) : list (string * JsValue) :=
  imap (λ i c, (natToString i, JsString (String c EmptyString)))
       (list_ascii_of_string s).

(** The own enumerable properties of a value that has any. *)
Definition ownEntries (v : JsValue) : list (string * JsValue) :=
  match v with
  | JsObject ps => ps
  | JsString s => stringEntries s
  | _ => []
  end.

(** What a read [v[key]] finds when [v] has no own enumerable property
    [key]: a property that is not enumerable (the [length] of a string)
    or a property of the prototype chain ([constructor], [toString],
    [hasOwnProperty] and the other members of [Object.prototype]), and
    [undefined] when there is none.  The chain belongs to the engine and
    to whatever the program has added to the prototypes; it is a
    parameter of the model. *)
Class Inherited : Type := inherited : JsValue → string → JsValue.

(** The keys [for (const k in v)] visits, in order.  The members of the
    standard prototypes are not enumerable. *)
Definition forInKeys (v : JsValue) : list string := (ownEntries v).*1.

Section properties.
Context {chain : Inherited}.

(** [v[key]] for a [v] that is neither [undefined] nor [null]. *)
Definition getProperty (v : JsValue) (key : string) : JsValue :=
  match map_get key (ownEntries v) with
  | Some value => value
  | None => inherited v key
  end.

(** [acc?.[key]] *)
Definition optionalGet (acc : JsValue) (key : string) : JsValue :=
  match acc with
  | JsUndefined | JsNull => JsUndefined
  | _ => getProperty acc key
  end.

(** The read [acc?.[key]] finds what [acc] itself holds: an own
    enumerable property, or nothing. *)
Definition ownRead (acc : JsValue) (key : string) : Prop :=
  optionalGet acc key = default JsUndefined (map_get key (ownEntries acc)).

#[global] Instance ownRead_dec acc key : Decision (ownRead acc key).
Proof. unfold ownRead. apply _. Defined.

End properties.

(** The chain of an engine without changes to the prototypes, for the
    examples: an object inherits the functions of [Object.prototype]
    that the standard names, and a string has its [length].  The
    accessor [__proto__] and the prototypes of strings, numbers, booleans
    and functions are left out. *)
Definition objectPrototypeNames : list string :=
  [ "constructor"; "hasOwnProperty"; "isPrototypeOf"; "propertyIsEnumerable";
    "toLocaleString"; "toString"; "valueOf"; "__defineGetter__";
    "__defineSetter__"; "__lookupGetter__"; "__lookupSetter__" ].

(** A function of the engine, by the text [toString()] gives for it. *)
Definition nativeFunction (name : string) : JsValue :=
  JsFunction ("function " +:+ name +:+ "() { [native code] }").

Definition standardPrototypes : Inherited :=
  λ v key,
    match v with
    | JsObject _ =>
        if bool_decide (key = "constructor") then nativeFunction "Object"
        else if bool_decide (key ∈ objectPrototypeNames)
             then nativeFunction key
             else JsUndefined
    | JsString s =>
        if bool_decide (key = "length")
        then JsNum (NumInt (Z.of_nat (String.length s)))
        else JsUndefined
    | _ => JsUndefined
    end.

(** [Object.entries(v)] *)
Definition objectEntries (v : JsValue) : result (list (string * JsValue)) :=
  match v with
  | JsUndefined | JsNull => Throw (TypeError NotIterable)
  | _ => Ok (ownEntries v)
  end.

(** The keys of every object are distinct. *)
Fixpoint wfValue (v : JsValue) : Prop :=
  match v with
  | JsObject ps =>
      NoDup ps.*1 ∧
      (fix go (ps : list (string * JsValue)) : Prop :=
         match ps with
         | [] => True
         | kv :: ps' => wfValue kv.2 ∧ go ps'
         end) ps
  | _ => True
  end.

(** ** Facts *)

Lemma wfValue_object ps :
  wfValue (JsObject ps) ↔ NoDup ps.*1 ∧ Forall (λ kv, wfValue kv.2) ps.
Proof.
  simpl. apply and_iff_compat_l.
  induction ps as [|kv ps IH]; [by split; [constructor|]|].
  rewrite Forall_cons, IH. done.
Qed.

Lemma typeof_object v :
  typeof v = TObject ↔ v = JsNull ∨ ∃ ps, v = JsObject ps.
Proof.
  destruct v; simpl; split; try done; eauto;
    intros [?|[? ?]]; congruence.
Qed.

Lemma toBoolean_false v :
  toBoolean v = false ↔
  v = JsUndefined ∨ v = JsNull ∨ v = JsBoolean false ∨
  v = JsNum (NumInt 0) ∨ v = JsNum NumNaN ∨ v = JsString "".
Proof.
  destruct v as [| |[]|[z| | |]|s| |]; simpl;
    rewrite ?negb_false_iff, ?Z.eqb_eq, ?bool_decide_eq_true;
    (split; [intros H; try discriminate H; subst; auto 10
            | intros [?|[?|[?|[?|[?|?]]]]]; congruence]).
Qed.

Lemma toBoolean_defined v : toBoolean v = true → isDefined v = true.
Proof. by destruct v. Qed.

Lemma isDefined_false v : isDefined v = false ↔ v = JsUndefined.
Proof. by destruct v. Qed.

(** Only objects and strings have properties that are enumerable. *)
Lemma ownEntries_scalar v :
  (∀ ps, v ≠ JsObject ps) → typeof v ≠ TString → ownEntries v = [].
Proof. intros Ho Hs. destruct v; try done. by destruct (Ho properties). Qed.

Lemma forInKeys_scalar v :
  (∀ ps, v ≠ JsObject ps) → typeof v ≠ TString → forInKeys v = [].
Proof. intros Ho Hs. unfold forInKeys. by rewrite ownEntries_scalar. Qed.

Section property_facts.
Context {chain : Inherited}.

Lemma optionalGet_undefined key : optionalGet JsUndefined key = JsUndefined.
Proof. done. Qed.

Lemma getProperty_object ps key :
  getProperty (JsObject ps) key
  = from_option id (inherited (JsObject ps) key) (map_get key ps).
Proof. unfold getProperty. simpl. by destruct (map_get key ps). Qed.

(** A key that is no own property is read from the chain. *)
Lemma getProperty_absent v key :
  key ∉ forInKeys v → getProperty v key = inherited v key.
Proof. unfold getProperty, forInKeys. by intros ->%map_get_None. Qed.

(** Reading the key of an entry gives its value when keys are distinct,
    whatever the chain holds under the key. *)
Lemma getProperty_entry v key x :
  NoDup (forInKeys v) → (key, x) ∈ ownEntries v → getProperty v key = x.
Proof. intros Hnd Hin. unfold getProperty. by rewrite (map_get_elem key x). Qed.

Lemma optionalGet_entry v key x :
  NoDup (forInKeys v) → (key, x) ∈ ownEntries v → optionalGet v key = x.
Proof.
  intros Hnd Hin.
  destruct v; try (by apply elem_of_nil in Hin); by apply getProperty_entry.
Qed.

Lemma ownRead_undefined key : ownRead JsUndefined key.
Proof. done. Qed.

(** A read that finds what the value itself holds finds an entry of the
    value, or nothing. *)
Lemma optionalGet_cases v key :
  ownRead v key →
  optionalGet v key = JsUndefined ∨ (key, optionalGet v key) ∈ ownEntries v.
Proof.
  unfold ownRead. intros ->.
  destruct (map_get key (ownEntries v)) as [x|] eqn:Hx;
    [right; by apply map_get_Some_elem | by left].
Qed.

Lemma optionalGet_absent v key :
  ownRead v key → key ∉ forInKeys v → optionalGet v key = JsUndefined.
Proof. unfold ownRead, forInKeys. by intros -> ->%map_get_None. Qed.

Lemma optionalGet_no_entries v key :
  ownRead v key → forInKeys v = [] → optionalGet v key = JsUndefined.
Proof. intros Hown Hv. apply optionalGet_absent; [done|]. rewrite Hv. apply not_elem_of_nil. Qed.

End property_facts.

(** ** [split], [join] and [pop] *)

Lemma split_nonempty sep s : split sep s ≠ [].
Proof.
  destruct s as [|c s]; simpl; [done|].
  case_decide; [done|]. by destruct (split sep s).
Qed.

(** Joining what [split] gave returns the string. *)
Lemma join_split sep s : join (String sep "") (split sep s) = s.
Proof.
  unfold join. induction s as [|c s IH]; simpl; [done|].
  case_decide as Hc.
  - subst c. pose proof (split_nonempty sep s).
    destruct (split sep s) as [|x xs] eqn:E; [done|].
    simpl in *. by rewrite IH.
  - destruct (split sep s) as [|x xs] eqn:E; [by destruct (split_nonempty sep s)|].
    destruct xs; simpl in *; by rewrite <-IH.
Qed.

Lemma split_no_sep sep s : occurs sep s = false → split sep s = [s].
Proof.
  induction s as [|c s IH]; simpl; [done|].
  intros [Hc Hs]%orb_false_iff. apply bool_decide_eq_false in Hc.
  rewrite decide_False by done. by rewrite IH.
Qed.

Lemma split_app_sep sep s1 s2 :
  split sep (s1 +:+ String sep s2) =
  match split sep s1 with
  | [] => split sep s2
  | _ => split sep s1 ++ split sep s2
  end.
Proof.
  induction s1 as [|c s1 IH]; rewrite ?append_nil_l, ?append_cons; simpl.
  - by rewrite decide_True.
  - case_decide.
    + rewrite IH. by destruct (split sep s1) eqn:E.
    + rewrite IH. pose proof (split_nonempty sep s1).
      by destruct (split sep s1) eqn:E.
Qed.

(** The last segment of [prefix.key] is the last segment of [key]. *)
Lemma pop_split_app sep s1 s2 :
  pop (split sep (s1 +:+ String sep s2)) = pop (split sep s2).
Proof.
  unfold pop. rewrite split_app_sep.
  pose proof (split_nonempty sep s1). pose proof (split_nonempty sep s2).
  destruct (split sep s1) eqn:E1; [done|].
  rewrite last_app. by destruct (last_is_Some (split sep s2)) as [_ [x ->]].
Qed.

Lemma pop_split_no_sep sep s : occurs sep s = false → pop (split sep s) = Some s.
Proof. intros H. by rewrite split_no_sep. Qed.

Lemma join_cons sep y z l :
  join sep (y :: z :: l) = y +:+ sep +:+ join sep (z :: l).
Proof. reflexivity. Qed.

Lemma join_snoc sep l x :
  l ≠ [] → join sep (l ++ [x]) = join sep l +:+ sep +:+ x.
Proof.
  induction l as [|y l IH]; [done|]. intros _.
  destruct l as [|z l]; [done|].
  change ((y :: z :: l) ++ [x]) with (y :: z :: (l ++ [x])).
  rewrite !join_cons. change (z :: (l ++ [x])) with ((z :: l) ++ [x]).
  rewrite IH by done. by rewrite !append_assoc.
Qed.

(** ** Numbers *)

Lemma numberToString_NumInt_inj z1 z2 :
  numberToString (NumInt z1) = numberToString (NumInt z2) → z1 = z2.
Proof.
  simpl. intros H. apply DecimalZ.to_int_inj.
  assert (∀ z, NilZero.int_of_string (NilZero.string_of_int (Z.to_int z))
               = Some (Z.to_int z)) as Hisi.
  { intros z. apply NilZero.isi; destruct z; simpl; try done;
      intros [= Hn]; by apply DecimalPos.Unsigned.to_uint_nonnil in Hn. }
  apply (f_equal NilZero.int_of_string) in H. rewrite !Hisi in H. congruence.
Qed.
