(* ===== verification/TsAst.v ===== *)
(** * The TypeScript tree the transformers work on

    The program never builds a tree from text itself: [createSourceFile]
    parses, [createPrinter().printFile] prints, and in between the code
    walks the tree with [visitNode]/[visitEachChild] and makes new nodes
    with [context.factory].  This file models the part of the tree the
    code distinguishes (the node tests it calls are [isExportAssignment],
    [isPropertyAssignment], [isObjectLiteralExpression],
    [isNumericLiteral], [isStringLiteralLike], [isCallExpression] and its
    own [isBooleanLiteral]) and the library functions it calls, with the
    behaviour of TypeScript 4.x.  A [new] expression is a kind of its
    own because it has [arguments], which the visitors read without a
    test; every other kind of node is kept as opaque text. *)

From S2P Require Import Prelude JsValue.

(** ** Nodes *)

(** The name of a property.  A name that was parsed has source text,
    which [getText()] returns: [foo] for an identifier, ['foo'] with its
    quotes for a string literal.  An identifier made by the factory has a
    [text] and no source text. *)
Inductive PropertyName : Type :=
| ParsedName (sourceText : string)
| CreatedIdentifier (text : string).

#[global] Instance PropertyName_eq_dec : EqDecision PropertyName.
Proof. solve_decision. Defined.

#[local] Unset Elimination Schemes.

(** Expressions and the elements of an object literal.
    [StringLiteral] and [NoSubstitutionTemplateLiteral] are the two kinds
    [isStringLiteralLike] accepts.  [UndefinedElement] is an [undefined]
    entry in the array of properties handed to the factory.
    [NewExpression] is the one kind of node besides a call that has
    [arguments], which the transformers read from the exported expression
    without a test of its kind; [new X] without parentheses has none. *)
Inductive Expression : Type :=
| NumericLiteral (text : string)
| StringLiteral (text : string) (singleQuote : bool)
| NoSubstitutionTemplateLiteral (text : string)
| TrueKeyword
| FalseKeyword
| Identifier (text : string)
| CallExpression (expression : Expression) (typeArguments : list string)
    (arguments : list Expression)
| ObjectLiteralExpression (properties : list ObjectLiteralElement)
    (multiLine : bool)
| OtherExpression (text : string)
| NewExpression (expression : Expression) (typeArguments : list string)
    (arguments : option (list Expression))
with ObjectLiteralElement : Type :=
| PropertyAssignment (name : PropertyName) (initializer : Expression)
| OtherElement (text : string)
| UndefinedElement.

(** A statement: [export default e] or [export = e]; a statement with
    statements below it (a block, the body of a module or namespace
    declaration, of a function or of a loop), where [text] stands for the
    rest of the node; or anything else, which holds no export assignment
    and passes through. *)
Inductive Statement : Type :=
| ExportAssignment (isExportEquals : bool) (expression : Expression)
| CompoundStatement (text : string) (statements : list Statement)
| OtherStatement (text : string).

#[local] Set Elimination Schemes.

Abbreviation SourceFile := (list Statement) (only parsing).

(** Induction that reaches the statements below a statement. *)
Section Statement_ind.
Variable P : Statement → Prop.
Hypothesis Hexport : ∀ b e, P (ExportAssignment b e).
Hypothesis Hcompound : ∀ t ss, Forall P ss → P (CompoundStatement t ss).
Hypothesis Hother : ∀ t, P (OtherStatement t).

Fixpoint Statement_nested_ind (s : Statement) : P s :=
  match s with
  | ExportAssignment b e => Hexport b e
  | CompoundStatement t ss =>
      Hcompound t ss
        ((fix go (l : list Statement) : Forall P l :=
            match l with
            | [] => List.Forall_nil _
            | x :: l' => List.Forall_cons _ x l' (Statement_nested_ind x) (go l')
            end) ss)
  | OtherStatement t => Hother t
  end.

End Statement_ind.

(** Induction that reaches the arguments of a call and the properties of
    an object literal. *)
Section Expression_ind.
Variable P : Expression → Prop.
Variable Q : ObjectLiteralElement → Prop.
Hypothesis Hnumeric : ∀ t, P (NumericLiteral t).
Hypothesis Hstring : ∀ t q, P (StringLiteral t q).
Hypothesis Htemplate : ∀ t, P (NoSubstitutionTemplateLiteral t).
Hypothesis Htrue : P TrueKeyword.
Hypothesis Hfalse : P FalseKeyword.
Hypothesis Hidentifier : ∀ t, P (Identifier t).
Hypothesis Hcall : ∀ e ts args,
  P e → Forall P args → P (CallExpression e ts args).
Hypothesis Hobject : ∀ ps ml, Forall Q ps → P (ObjectLiteralExpression ps ml).
Hypothesis Hother : ∀ t, P (OtherExpression t).
Hypothesis Hnew : ∀ e ts args,
  P e → from_option (Forall P) True args → P (NewExpression e ts args).
Hypothesis Hassignment : ∀ n e, P e → Q (PropertyAssignment n e).
Hypothesis Helement : ∀ t, Q (OtherElement t).
Hypothesis Hundefined : Q UndefinedElement.

Fixpoint Expression_nested_ind (e : Expression) : P e :=
  match e with
  | NumericLiteral t => Hnumeric t
  | StringLiteral t q => Hstring t q
  | NoSubstitutionTemplateLiteral t => Htemplate t
  | TrueKeyword => Htrue
  | FalseKeyword => Hfalse
  | Identifier t => Hidentifier t
  | CallExpression e ts args =>
      Hcall e ts args (Expression_nested_ind e)
        ((fix go (l : list Expression) : Forall P l :=
            match l with
            | [] => List.Forall_nil _
            | x :: l' => List.Forall_cons _ x l' (Expression_nested_ind x) (go l')
            end) args)
  | ObjectLiteralExpression ps ml =>
      Hobject ps ml
        ((fix go (l : list ObjectLiteralElement) : Forall Q l :=
            match l with
            | [] => List.Forall_nil _
            | x :: l' => List.Forall_cons _ x l' (Element_nested_ind x) (go l')
            end) ps)
  | OtherExpression t => Hother t
  | NewExpression e ts args =>
      Hnew e ts args (Expression_nested_ind e)
        match args return from_option (Forall P) True args with
        | Some l =>
            (fix go (l : list Expression) : Forall P l :=
               match l with
               | [] => List.Forall_nil _
               | x :: l' =>
                   List.Forall_cons _ x l' (Expression_nested_ind x) (go l')
               end) l
        | None => I
        end
  end
with Element_nested_ind (el : ObjectLiteralElement) : Q el :=
  match el with
  | PropertyAssignment n e => Hassignment n e (Expression_nested_ind e)
  | OtherElement t => Helement t
  | UndefinedElement => Hundefined
  end.

(** Both at once, for a property of expressions that is proved with a
    property of elements. *)
Lemma Expression_Element_ind : (∀ e, P e) ∧ (∀ el, Q el).
Proof. split; [exact Expression_nested_ind | exact Element_nested_ind]. Qed.

End Expression_ind.

(** ** Node tests *)

Definition isNumericLiteral (e : Expression) : bool :=
  match e with NumericLiteral _ => true | _ => false end.

Definition isStringLiteralLike (e : Expression) : bool :=
  match e with
  | StringLiteral _ _ | NoSubstitutionTemplateLiteral _ => true
  | _ => false
  end.

Definition isCallExpression (e : Expression) : bool :=
  match e with CallExpression _ _ _ => true | _ => false end.

(** Whether the node has [arguments]: a call has, and a [new] expression
    that is written with parentheses. *)
Definition hasArguments (e : Expression) : bool :=
  match e with
  | CallExpression _ _ _ | NewExpression _ _ (Some _) => true
  | _ => false
  end.

Definition isObjectLiteralExpression (e : Expression) : bool :=
  match e with ObjectLiteralExpression _ _ => true | _ => false end.

Definition isPropertyAssignment (el : ObjectLiteralElement) : bool :=
  match el with PropertyAssignment _ _ => true | _ => false end.

(** ** Reading nodes *)

(** [name.getText()]: the source text of a parsed name.  A created node
    has no source file to read from. *)
Definition getText (name : PropertyName) : result string :=
  match name with
  | ParsedName s => Ok s
  | CreatedIdentifier _ => Throw (TypeError (ReadPropertyOfUndefined "text"))
  end.

(** The name as the printer writes it. *)
Definition nameText (name : PropertyName) : string :=
  match name with ParsedName s | CreatedIdentifier s => s end.

Definition elementName (el : ObjectLiteralElement) : option PropertyName :=
  match el with PropertyAssignment n _ => Some n | _ => None end.

(** The names of the property assignments among [ps], as printed. *)
Definition propertyNames (ps : list ObjectLiteralElement) : list string :=
  omap (λ el, nameText <$> elementName el) ps.

(** The initializer of the first property assignment named [k]. *)
Fixpoint lookupProperty (k : string) (ps : list ObjectLiteralElement)
  : option Expression :=
  match ps with
  | [] => None
  | PropertyAssignment n e :: ps' =>
      if decide (nameText n = k) then Some e else lookupProperty k ps'
  | _ :: ps' => lookupProperty k ps'
  end.

(** ** Well-formed and parsed trees *)

(** A well-formed tree has no [undefined] among the properties of any
    object literal. *)
Fixpoint wfExpression (e : Expression) : bool :=
  match e with
  | CallExpression c _ args => wfExpression c && forallb wfExpression args
  | NewExpression c _ args =>
      wfExpression c && from_option (forallb wfExpression) true args
  | ObjectLiteralExpression ps _ => forallb wfElement ps
  | _ => true
  end
with wfElement (el : ObjectLiteralElement) : bool :=
  match el with
  | PropertyAssignment _ e => wfExpression e
  | OtherElement _ => true
  | UndefinedElement => false
  end.

(** A tree as the parser gives it: well-formed, and every name has source
    text. *)
Fixpoint parsedExpression (e : Expression) : bool :=
  match e with
  | CallExpression c _ args =>
      parsedExpression c && forallb parsedExpression args
  | NewExpression c _ args =>
      parsedExpression c && from_option (forallb parsedExpression) true args
  | ObjectLiteralExpression ps _ => forallb parsedElement ps
  | _ => true
  end
with parsedElement (el : ObjectLiteralElement) : bool :=
  match el with
  | PropertyAssignment (ParsedName _) e => parsedExpression e
  | PropertyAssignment (CreatedIdentifier _) _ => false
  | OtherElement _ => true
  | UndefinedElement => false
  end.

Fixpoint parsedStatement (s : Statement) : bool :=
  match s with
  | ExportAssignment _ e => parsedExpression e
  | CompoundStatement _ statements => forallb parsedStatement statements
  | OtherStatement _ => true
  end.

(** ** The factory *)

(** [factory.createNumericLiteral(n)]: the text is [n + ""]. *)
Definition createNumericLiteral (n : JsNumber) : Expression :=
  NumericLiteral (numberToString n).

(** [factory.createStringLiteral(s, isSingleQuote)] *)
Definition createStringLiteral (s : string) (isSingleQuote : bool)
  : Expression :=
  StringLiteral s isSingleQuote.

(** [b ? factory.createTrue() : factory.createFalse()] *)
Definition createBoolean (b : bool) : Expression :=
  if b then TrueKeyword else FalseKeyword.

(** [factory.createPropertyAssignment(name, initializer)].  The factory
    inspects the initializer to decide on parentheses, and fails on
    [undefined] when it reads its [kind]. *)
Definition createPropertyAssignment (name : PropertyName)
  (initializer : option Expression) : result ObjectLiteralElement :=
  match initializer with
  | Some e => Ok (PropertyAssignment name e)
  | None => Throw (TypeError (ReadPropertyOfUndefined "kind"))
  end.

(** [factory.createCallExpression(expression, typeArguments, arguments)]
    inspects every argument in the same way. *)
Definition createCallExpression (expression : Expression)
  (typeArguments : list string) (arguments : list (option Expression))
  : result Expression :=
  match mapM id arguments with
  | Some args => Ok (CallExpression expression typeArguments args)
  | None => Throw (TypeError (ReadPropertyOfUndefined "kind"))
  end.

(** [factory.createObjectLiteralExpression(properties, multiLine)] does not
    look at the properties. *)
Definition createObjectLiteralExpression
  (properties : list ObjectLiteralElement) (multiLine : bool) : Expression :=
  ObjectLiteralExpression properties multiLine.

(** An element for each entry of an array that may hold [undefined]. *)
Definition elementOfOption (o : option ObjectLiteralElement)
  : ObjectLiteralElement :=
  default UndefinedElement o.

(** ** Visiting *)

(** A visitor for the elements of an object literal.  It may replace the
    node ([Some]), drop it ([None], for [undefined]) or throw, and it may
    change the state [S] that the enclosing function keeps in local
    variables. *)
Definition Visitor (S : Type) : Type :=
  ObjectLiteralElement → S → result (option ObjectLiteralElement * S).

(** [visitNodes(nodes, visitor)]: the nodes are visited in order; a node
    for which the visitor returns [undefined] is left out. *)
Fixpoint visitNodes {S} (visitor : Visitor S)
  (nodes : list ObjectLiteralElement) (s : S)
  : result (list ObjectLiteralElement * S) :=
  match nodes with
  | [] => Ok ([], s)
  | UndefinedElement :: rest => visitNodes visitor rest s
  | node :: rest =>
      r ← visitor node s;
      r' ← visitNodes visitor rest r.2;
      Ok (option_list r.1 ++ r'.1, r'.2)
  end.

(** [visitEachChild(node, visitor, context)] for a visitor that returns
    every node that is no element of an object literal as it is: only an
    object literal has such children, and it is rebuilt with
    [factory.updateObjectLiteralExpression], which keeps [multiLine]. *)
Definition visitEachChild {S} (visitor : Visitor S) (node : Expression) (s : S)
  : result (Expression * S) :=
  match node with
  | ObjectLiteralExpression ps ml =>
      r ← visitNodes visitor ps s;
      Ok (ObjectLiteralExpression r.1 ml, r.2)
  | _ => Ok (node, s)
  end.

(** What [visitEachChild] returns on an expression the model keeps as
    text, when the visitor returns [undefined] for each of its children.
    It depends on the kind of the node, which [OtherExpression] does not
    record: an array literal comes back without elements, a property
    access fails in the factory. *)
Class OpaqueChildren := visitOpaqueDropping : string → result Expression.

(** [visitEachChild(node, visitor, context)] for a visitor that returns
    [undefined] for every node that is no element of an object literal.
    Literals, keywords and identifiers have no children and come back as
    they are; the callee of a call is dropped, and
    [factory.updateCallExpression] fails when it reads its [kind], as
    [factory.updateNewExpression] does for a [new] expression. *)
Definition visitEachChildDropping `{OpaqueChildren} {S} (visitor : Visitor S)
  (node : Expression) (s : S) : result (Expression * S) :=
  match node with
  | ObjectLiteralExpression ps ml =>
      r ← visitNodes visitor ps s;
      Ok (ObjectLiteralExpression r.1 ml, r.2)
  | CallExpression _ _ _ | NewExpression _ _ _ =>
      Throw (TypeError (ReadPropertyOfUndefined "kind"))
  | OtherExpression text => (λ e, (e, s)) <$> visitOpaqueDropping text
  | _ => Ok (node, s)
  end.

(** [visitEachChild(node, visitor, context)] on a statement, for a visitor
    that handles the export assignments itself and hands every other node
    to [visitEachChild]: the statements below the node are visited in
    their order and the node is made again around what the visitor
    returns; an exception of the visitor ends the walk.  An export
    assignment holds no statement, and neither does a statement the model
    keeps as text: both come back as they are. *)
Definition visitEachChildOfStatement
  (visitor : Statement → result Statement) (node : Statement)
  : result Statement :=
  match node with
  | CompoundStatement text statements =>
      CompoundStatement text <$> mapR visitor statements
  | ExportAssignment _ _ | OtherStatement _ => Ok node
  end.

(** The export assignments of a statement, at any depth, in the order of
    the text. *)
Fixpoint exportAssignments (node : Statement) : list Statement :=
  match node with
  | ExportAssignment _ _ => [node]
  | CompoundStatement _ statements => statements ≫= exportAssignments
  | OtherStatement _ => []
  end.

(** The export assignment exports a call. *)
Definition exportsCall (node : Statement) : bool :=
  match node with
  | ExportAssignment _ expression => isCallExpression expression
  | _ => true
  end.

(** [h] applied to the export assignments of a statement, at any depth. *)
Fixpoint mapExports (h : Statement → Statement) (node : Statement)
  : Statement :=
  match node with
  | ExportAssignment _ _ => h node
  | CompoundStatement text statements =>
      CompoundStatement text (mapExports h <$> statements)
  | OtherStatement _ => node
  end.

(** The statement with its export assignments blanked: what a visitor of
    statements has no hand in. *)
Definition frame (node : Statement) : Statement :=
  mapExports (λ _, OtherStatement "") node.

(** What the visitors of the transformers have in common: an export
    assignment is answered with an export assignment, if the visitor
    returns, and every other node goes to [visitEachChild] with the
    visitor itself. *)
Class StatementVisitor (visitor : Statement → result Statement) : Prop := {
  visitor_export b e node' :
    visitor (ExportAssignment b e) = Ok node' →
    ∃ b' e', node' = ExportAssignment b' e';
  visitor_compound text statements :
    visitor (CompoundStatement text statements)
    = CompoundStatement text <$> mapR visitor statements;
  visitor_other text : visitor (OtherStatement text) = Ok (OtherStatement text)
}.

(** [statement_visitor] proves the three laws for a visitor written as
    the transformers write theirs: a test for an export assignment, whose
    branch ends in an export assignment, and [visitEachChild]. *)
Ltac statement_visitor :=
  split; [|done..];
  intros ? e ?; destruct e as [| | | | | | | | |? ? []]; try done; simpl;
  repeat (let H := fresh in intros (? & _ & H)%bind_Ok_inv; revert H);
  intros [= <-]; eauto.

(** ** Facts about visiting *)

Section visit.
Context {S : Type}.
Implicit Types (visitor : Visitor S) (s : S) (ps : list ObjectLiteralElement).

Lemma visitNodes_cons visitor el ps s :
  el ≠ UndefinedElement →
  visitNodes visitor (el :: ps) s =
  r ← visitor el s; r' ← visitNodes visitor ps r.2;
  Ok (option_list r.1 ++ r'.1, r'.2).
Proof. by destruct el. Qed.

Lemma visitNodes_app visitor ps1 ps2 s :
  visitNodes visitor (ps1 ++ ps2) s =
  r1 ← visitNodes visitor ps1 s; r2 ← visitNodes visitor ps2 r1.2;
  Ok (r1.1 ++ r2.1, r2.2).
Proof.
  revert s. induction ps1 as [|el ps1 IH]; intros s.
  - simpl. by destruct (visitNodes visitor ps2 s) as [[??]|].
  - assert (el = UndefinedElement ∨ el ≠ UndefinedElement) as [->|Hel]
      by (destruct el; auto); [apply IH|].
    rewrite <-app_comm_cons, !visitNodes_cons by done.
    destruct (visitor el s) as [[o s1]|]; simpl; [|done].
    rewrite IH. destruct (visitNodes visitor ps1 s1) as [[l1 s2]|]; simpl; [|done].
    destruct (visitNodes visitor ps2 s2) as [[l2 s3]|]; simpl; [|done].
    by rewrite app_assoc.
Qed.

(** A visitor that keeps every node and the state changes nothing. *)
Lemma visitNodes_id visitor ps s :
  forallb wfElement ps = true →
  Forall (λ el, ∀ s, visitor el s = Ok (Some el, s)) ps →
  visitNodes visitor ps s = Ok (ps, s).
Proof.
  intros Hwf Hid. revert Hwf.
  induction Hid as [|el ps Hel _ IH]; simpl; [done|].
  intros [Hw Hps]%andb_true_iff. destruct el; try done;
    rewrite Hel; simpl; by rewrite IH.
Qed.

(** What is visited is a list no longer than the input. *)
Lemma visitNodes_length visitor ps s ps' s' :
  visitNodes visitor ps s = Ok (ps', s') → length ps' ≤ length ps.
Proof.
  revert s ps' s'. induction ps as [|el ps IH]; intros s ps' s'.
  - by intros [= <- _].
  - assert (el = UndefinedElement ∨ el ≠ UndefinedElement) as [->|Hel]
      by (destruct el; auto).
    { simpl. intros H%IH. lia. }
    rewrite visitNodes_cons by done.
    intros ([o s1] & _ & ([l s2] & Hl%IH & [= <- _])%bind_Ok_inv)%bind_Ok_inv.
    rewrite length_app. simpl in *. destruct o; simpl; lia.
Qed.

(** A visitor whose result does not depend on the state, and whose change
    of the state does not depend on the result, visits a list as a map
    over the nodes and a fold over the state. *)
Lemma visitNodes_separable visitor
    (f : ObjectLiteralElement → result (option ObjectLiteralElement))
    (g : ObjectLiteralElement → S → S) ps s :
  Forall (λ el, el ≠ UndefinedElement ∧
                ∀ s, visitor el s =
                     mbind (M:=result) (λ r, Ok (r, g el s)) (f el)) ps →
  visitNodes visitor ps s =
  mbind (M:=result)
    (λ rs : list (option ObjectLiteralElement),
       Ok (omap id rs, foldl (λ s el, g el s) s ps))
    (mapR f ps).
Proof.
  intros H. revert s. induction H as [|el ps [Hel Hv] _ IH]; intros s; [done|].
  rewrite visitNodes_cons, Hv by done. simpl.
  destruct (f el) as [r|e]; simpl; [|done]. rewrite IH.
  destruct (mapR f ps) as [rs|e]; simpl; [|done]. by destruct r.
Qed.

(** Visiting throws what the visitor throws. *)
Lemma visitNodes_onlyTypeError visitor ps s :
  (∀ el s, onlyTypeError (visitor el s)) →
  onlyTypeError (visitNodes visitor ps s).
Proof.
  intros Hv. revert s. induction ps as [|el ps IH]; intros s; [done|].
  destruct el; [|simpl..]; [rewrite visitNodes_cons by done| |apply IH];
    apply onlyTypeError_bind; try done; intros r;
    by apply onlyTypeError_bind.
Qed.

Lemma visitEachChild_onlyTypeError visitor node s :
  (∀ el s, onlyTypeError (visitor el s)) →
  onlyTypeError (visitEachChild visitor node s).
Proof.
  intros Hv. destruct node; try done. simpl.
  apply onlyTypeError_bind; [by apply visitNodes_onlyTypeError | done].
Qed.

End visit.

(** ** Facts about visitors of statements *)

Lemma mapExports_id node : mapExports id node = node.
Proof.
  induction node as [b e|t ss IH|t] using Statement_nested_ind; simpl;
    [done| |done].
  f_equal. rewrite <-(list_fmap_id ss) at 2. by apply Forall_fmap_ext.
Qed.

Lemma exportAssignments_elem node ea :
  ea ∈ exportAssignments node → ∃ b e, ea = ExportAssignment b e.
Proof.
  induction node as [b e|t ss IH|t] using Statement_nested_ind; simpl.
  - intros ->%list_elem_of_singleton. eauto.
  - intros (s & Hea & Hs)%list_elem_of_bind.
    rewrite Forall_forall in IH. eauto.
  - by intros ?%elem_of_nil.
Qed.

(** What follows from a property of the export assignments of a file
    follows for export assignments only. *)
Lemma Forall_exportAssignments_impl (P Q : Statement → Prop)
    (sourceFile : list Statement) :
  Forall P (sourceFile ≫= exportAssignments) →
  (∀ b e, P (ExportAssignment b e) → Q (ExportAssignment b e)) →
  Forall Q (sourceFile ≫= exportAssignments).
Proof.
  intros HP HQ. rewrite Forall_forall in *. intros ea Hea.
  apply list_elem_of_bind in Hea as Hin. destruct Hin as (s & Hin & _).
  apply exportAssignments_elem in Hin as (b & e & ->). auto.
Qed.

(** The same for a property that a test decides. *)
Lemma Forall_exportAssignments (p : Statement → bool) (P : Statement → Prop)
    (sourceFile : list Statement) :
  forallb p (sourceFile ≫= exportAssignments) = true →
  (∀ b e, p (ExportAssignment b e) = true → P (ExportAssignment b e)) →
  Forall P (sourceFile ≫= exportAssignments).
Proof.
  intros Hp. apply (Forall_exportAssignments_impl (λ ea, p ea = true)).
  rewrite forallb_forall in Hp. apply Forall_forall. intros ea Hea.
  by apply Hp, list_elem_of_In.
Qed.

Section statement_visitor.
Context (visitor : Statement → result Statement) `{!StatementVisitor visitor}.

(** The visitor throws what it throws on export assignments. *)
Lemma visitor_onlyTypeError node :
  (∀ b e, onlyTypeError (visitor (ExportAssignment b e))) →
  onlyTypeError (visitor node).
Proof.
  intros Hexport.
  induction node as [b e|t ss IH|t] using Statement_nested_ind; [done|..].
  - rewrite visitor_compound.
    by apply onlyTypeError_fmap, onlyTypeError_mapR_Forall.
  - by rewrite visitor_other.
Qed.

(** A visitor that returns [h ea] on every export assignment of the
    statement returns the statement with [h] applied to them. *)
Lemma visitor_mapExports h node :
  Forall (λ ea, visitor ea = Ok (h ea)) (exportAssignments node) →
  visitor node = Ok (mapExports h node).
Proof.
  induction node as [b e|t ss IH|t] using Statement_nested_ind; simpl.
  - by intros [H _]%Forall_cons.
  - intros Hss%Forall_bind. rewrite visitor_compound.
    rewrite (mapR_Forall_Ok _ (mapExports h)); [done|].
    rewrite Forall_forall in IH, Hss. apply Forall_forall. intros s Hs.
    apply IH; [done|]. by apply Hss.
  - intros _. apply visitor_other.
Qed.

Lemma visitor_id node :
  Forall (λ ea, visitor ea = Ok ea) (exportAssignments node) →
  visitor node = Ok node.
Proof. intros H. by rewrite (visitor_mapExports id), mapExports_id. Qed.

(** An export assignment the visitor throws on, at any depth, makes it
    throw on the statement. *)
Lemma visitor_export_fails node ea :
  ea ∈ exportAssignments node → isOk (visitor ea) = false →
  isOk (visitor node) = false.
Proof.
  intros Hin Hea. revert Hin.
  induction node as [b e|t ss IH|t] using Statement_nested_ind; simpl.
  - by intros ->%list_elem_of_singleton.
  - intros (s & Hs & Hin)%list_elem_of_bind. rewrite visitor_compound.
    rewrite Forall_forall in IH.
    rewrite fmap_isOk. apply (mapR_elem_Throw _ _ s); auto.
  - by intros ?%elem_of_nil.
Qed.

(** The export assignments of the result are the results on the export
    assignments, in their order. *)
Lemma visitor_exportAssignments node node' :
  visitor node = Ok node' →
  mapR visitor (exportAssignments node) = Ok (exportAssignments node').
Proof.
  revert node'.
  induction node as [b e|t ss IH|t] using Statement_nested_ind; intros node'.
  - intros H. destruct (visitor_export _ _ _ H) as (b' & e' & ->).
    simpl. by rewrite H.
  - rewrite visitor_compound. intros (ss' & Hss & ->)%fmap_Ok_inv. simpl.
    apply mapR_list_bind. eapply mapR_Ok_elem; [|done].
    rewrite Forall_forall in IH. auto.
  - rewrite visitor_other. by intros [= <-].
Qed.

(** What is no export assignment comes back as it was. *)
Lemma visitor_frame node node' :
  visitor node = Ok node' → frame node' = frame node.
Proof.
  revert node'.
  induction node as [b e|t ss IH|t] using Statement_nested_ind; intros node'.
  - intros H. by destruct (visitor_export _ _ _ H) as (b' & e' & ->).
  - rewrite visitor_compound. intros (ss' & Hss & ->)%fmap_Ok_inv.
    unfold frame. simpl. f_equal. symmetry.
    apply list_eq_Forall2, Forall2_fmap. eapply mapR_Ok_elem; [|done].
    rewrite Forall_forall in IH. intros x y Hx Hy. symmetry. by apply IH.
  - rewrite visitor_other. by intros [= <-].
Qed.

End statement_visitor.

(** A file is visited as the statements below a node are. *)
Section source_file.
Context (visitor : Statement → result Statement) `{!StatementVisitor visitor}.
Implicit Types sourceFile : list Statement.

Lemma visitFile_compound sourceFile :
  visitor (CompoundStatement "" sourceFile)
  = CompoundStatement "" <$> mapR visitor sourceFile.
Proof. apply visitor_compound. Qed.

Lemma visitFile_onlyTypeError sourceFile :
  (∀ b e, onlyTypeError (visitor (ExportAssignment b e))) →
  onlyTypeError (mapR visitor sourceFile).
Proof. intros H. apply onlyTypeError_mapR. intros. by apply visitor_onlyTypeError. Qed.

Lemma visitFile_mapExports h sourceFile :
  Forall (λ ea, visitor ea = Ok (h ea)) (sourceFile ≫= exportAssignments) →
  mapR visitor sourceFile = Ok (mapExports h <$> sourceFile).
Proof.
  intros H%(visitor_mapExports visitor h (CompoundStatement "" sourceFile)).
  rewrite visitFile_compound in H.
  by apply fmap_Ok_inv in H as (ss & -> & [= ->]).
Qed.

Lemma visitFile_id sourceFile :
  Forall (λ ea, visitor ea = Ok ea) (sourceFile ≫= exportAssignments) →
  mapR visitor sourceFile = Ok sourceFile.
Proof.
  intros H%(visitFile_mapExports id). rewrite H. f_equal.
  rewrite <-(list_fmap_id sourceFile) at 2.
  apply list_fmap_ext. intros _ s _. apply mapExports_id.
Qed.

(** A statement between statements that hold no export assignment: the
    file is visited by visiting that statement. *)
Lemma visitFile_around before node after :
  before ≫= exportAssignments = [] → after ≫= exportAssignments = [] →
  mapR visitor (before ++ node :: after)
  = node' ← visitor node; Ok (before ++ node' :: after).
Proof.
  intros Hbefore Hafter. rewrite mapR_app. simpl.
  rewrite !visitFile_id by (by rewrite ?Hbefore, ?Hafter). simpl.
  by destruct (visitor node).
Qed.

Lemma visitFile_export_fails sourceFile ea :
  ea ∈ sourceFile ≫= exportAssignments → isOk (visitor ea) = false →
  isOk (mapR visitor sourceFile) = false.
Proof.
  intros Hin Hea.
  rewrite <-(fmap_isOk (CompoundStatement "")), <-visitFile_compound.
  by eapply visitor_export_fails.
Qed.

Lemma visitFile_exportAssignments sourceFile sourceFile' :
  mapR visitor sourceFile = Ok sourceFile' →
  mapR visitor (sourceFile ≫= exportAssignments)
  = Ok (sourceFile' ≫= exportAssignments).
Proof.
  intros H.
  apply (visitor_exportAssignments visitor (CompoundStatement "" sourceFile)
           (CompoundStatement "" sourceFile')).
  by rewrite visitFile_compound, H.
Qed.

Lemma visitFile_frame sourceFile sourceFile' :
  mapR visitor sourceFile = Ok sourceFile' →
  frame <$> sourceFile' = frame <$> sourceFile.
Proof.
  intros H.
  assert (frame (CompoundStatement "" sourceFile')
          = frame (CompoundStatement "" sourceFile)) as [=]; [|done].
  apply (visitor_frame visitor). by rewrite visitFile_compound, H.
Qed.

(** What holds of every export assignment the visitor returns holds of
    the export assignments of the file it returns, at any depth. *)
Lemma visitFile_exports (p : Statement → bool) sourceFile sourceFile' :
  (∀ b e node', visitor (ExportAssignment b e) = Ok node' → p node' = true) →
  mapR visitor sourceFile = Ok sourceFile' →
  forallb p (sourceFile' ≫= exportAssignments) = true.
Proof.
  intros Hp Hfile%visitFile_exportAssignments. apply forallb_Forall.
  apply Forall_forall. intros node' Hnode'.
  apply (mapR_elem _ _ _ node' Hfile) in Hnode' as (node & Hnode & Hvisit).
  apply list_elem_of_bind in Hnode as (s & Hnode & _).
  apply exportAssignments_elem in Hnode as (b & e & ->). by eapply Hp.
Qed.

End source_file.

Lemma getText_onlyTypeError name : onlyTypeError (getText name).
Proof. by destruct name. Qed.

Lemma createPropertyAssignment_onlyTypeError name init :
  onlyTypeError (createPropertyAssignment name init).
Proof. by destruct init. Qed.

(** What [factory.createCallExpression] returns is a call of the callee
    it was given. *)
Lemma createCallExpression_Ok e ts args call :
  createCallExpression e ts args = Ok call →
  ∃ args', call = CallExpression e ts args'.
Proof.
  unfold createCallExpression. destruct (mapM id args) as [args'|]; [|done].
  intros [= <-]. by exists args'.
Qed.

Lemma createCallExpression_onlyTypeError e ts args :
  onlyTypeError (createCallExpression e ts args).
Proof. unfold createCallExpression. by destruct (mapM id args). Qed.

#[export] Hint Resolve visitNodes_onlyTypeError visitEachChild_onlyTypeError
  getText_onlyTypeError createPropertyAssignment_onlyTypeError
  createCallExpression_onlyTypeError : js.

(** What a map followed by dropping the [undefined]s keeps of a list. *)
Lemma omap_id_kept {A} (f : A → result (option A)) (P : A → Prop)
    `{∀ x, Decision (P x)} (l : list A) (rs : list (option A)) :
  (∀ x, x ∈ l → P x → f x = Ok (Some x)) →
  mapR f l = Ok rs →
  filter P l `sublist_of` omap id rs.
Proof.
  intros Hf Hrs%mapR_Ok. induction Hrs as [|x r l rs Hx _ IH]; [done|].
  assert (filter P l `sublist_of` omap id rs) as IH'.
  { apply IH. intros y Hy. apply Hf. by right. }
  rewrite filter_cons. case_decide as HP; simpl.
  - rewrite (Hf x) in Hx by (done || left). injection Hx as <-. simpl.
    by constructor.
  - destruct r; simpl; [by constructor | done].
Qed.

(** ** Facts about trees *)

Lemma parsedElement_wf el : parsedElement el = true → wfElement el = true.
Proof.
  revert el.
  apply (Element_nested_ind (λ e, parsedExpression e = true → wfExpression e = true)
           (λ el, parsedElement el = true → wfElement el = true));
    simpl; try done.
  - intros e ts args IHe IHargs [He Hargs]%andb_true_iff.
    rewrite IHe by done. by eapply forallb_impl.
  - intros ps _ IHps Hps. by eapply forallb_impl.
  - intros e ts [args|] IHe IHargs [He Hargs]%andb_true_iff;
      rewrite IHe by done; [by eapply forallb_impl | done].
  - by intros [] e.
Qed.

Lemma parsedElement_name el n e :
  parsedElement el = true → el = PropertyAssignment n e →
  ∃ s, n = ParsedName s ∧ parsedExpression e = true.
Proof. intros H ->. destruct n; [eauto | done]. Qed.

Lemma getText_parsed s : getText (ParsedName s) = Ok s.
Proof. done. Qed.

Lemma lookupProperty_Some k ps e :
  lookupProperty k ps = Some e →
  ∃ n, PropertyAssignment n e ∈ ps ∧ nameText n = k.
Proof.
  induction ps as [|[n e'| |] ps IH]; simpl; try done.
  - case_decide.
    + intros [= ->]. exists n. split; [left | done].
    + intros (n' & ? & ?)%IH. exists n'. split; [by right | done].
  - intros (n' & ? & ?)%IH. exists n'. split; [by right | done].
  - intros (n' & ? & ?)%IH. exists n'. split; [by right | done].
Qed.

Lemma lookupProperty_None k ps :
  lookupProperty k ps = None ↔ k ∉ propertyNames ps.
Proof.
  unfold propertyNames. induction ps as [|[n e'| |] ps IH]; simpl.
  - split; [intros _; apply not_elem_of_nil | done].
  - rewrite not_elem_of_cons. case_decide; [naive_solver|].
    rewrite IH. naive_solver.
  - done.
  - done.
Qed.

#[export] Hint Rewrite getText_parsed : js.
