(* ===== verification/JsRegex.v ===== *)
(** * The two regular expressions of [createExpressionFromFunction]

    [transformers.ts] and [add-update-property-transformer.ts] take a
    function's source text apart with
    [fnNameMatcher = /\b\S+(?=\()/g] and
    [fnArgMatcher = /\([\s\S)]+?(?=\))/g], each through
    [String.prototype.match].  With the [g] flag, [match] returns the array
    of all matches, leftmost first, each search starting where the last
    match ended, or [null] when there is none.

    The matchers below are written for these two expressions, over ASCII
    text.  They scan the string once; [skip] counts the characters of the
    last match that are still to be passed, which keeps the recursion
    structural. *)

From S2P Require Import Prelude.

(** ** Character classes *)

Definition charCode (c : ascii) : N := N_of_ascii c.

(** [\w]: a letter, a digit or the underscore. *)
Definition isWordChar (c : ascii) : bool :=
  let n := charCode c in
  ((48 <=? n) && (n <=? 57) || (65 <=? n) && (n <=? 90) ||
   (97 <=? n) && (n <=? 122) || (n =? 95))%N.

(** [\s] within ASCII: tab, line feed, vertical tab, form feed, carriage
    return and space. *)
Definition isWhiteSpace (c : ascii) : bool :=
  let n := charCode c in ((9 <=? n) && (n <=? 13) || (n =? 32))%N.

(** [\b] between [prev] and [cur] ([None] beyond an end of the string). *)
Definition wordBoundary (prev cur : option ascii) : bool :=
  xorb (from_option isWordChar false prev) (from_option isWordChar false cur).

Definition openParen : ascii := "("%char.
Definition closeParen : ascii := ")"%char.

(** ** [String.prototype.trim] *)

Fixpoint trimStart (s : string) : string :=
  match s with
  | EmptyString => EmptyString
  | String c s' => if isWhiteSpace c then trimStart s' else s
  end.

Fixpoint trimEnd (s : string) : string :=
  match s with
  | EmptyString => EmptyString
  | String c s' =>
      match trimEnd s' with
      | EmptyString => if isWhiteSpace c then EmptyString else String c EmptyString
      | t => String c t
      end
  end.

Definition trim (s : string) : string := trimEnd (trimStart s).

(** ** [fnArgMatcher] *)

(** The text before the first [")"] of [s], when there is one. *)
Fixpoint untilClose (s : string) : option string :=
  match s with
  | EmptyString => None
  | String c s' =>
      if decide (c = closeParen) then Some EmptyString
      else String c <$> untilClose s'
  end.

(** A match of [\([\s\S)]+?(?=\))] at the start of [s]: ["("], one
    character of any kind, then as few more as reach a [")"]. *)
Definition argMatchAt (s : string) : option string :=
  match s with
  | String c (String c1 s'') =>
      if decide (c = openParen)
      then (λ pre, String c (String c1 pre)) <$> untilClose s''
      else None
  | _ => None
  end.

Fixpoint argMatches (s : string) (skip : nat) : list string :=
  match s with
  | EmptyString => []
  | String c s' =>
      match skip with
      | S k => argMatches s' k
      | O =>
          match argMatchAt s with
          | Some m => m :: argMatches s' (String.length m - 1)
          | None => argMatches s' 0
          end
      end
  end.

(** ** [fnNameMatcher] *)

(** The index of the last ["("] of the run of non-space characters that
    [s] starts with. *)
Fixpoint lastOpenInRun (s : string) : option nat :=
  match s with
  | EmptyString => None
  | String c s' =>
      if isWhiteSpace c then None
      else match lastOpenInRun s' with
           | Some k => Some (S k)
           | None => if decide (c = openParen) then Some 0 else None
           end
  end.

(** A match of [\S+(?=\()] at the start of [s]: the longest run of
    non-space characters that a ["("] follows. *)
Definition nameMatchAt (s : string) : option string :=
  match s with
  | String c s' =>
      if isWhiteSpace c then None
      else (λ k, String c (substring 0 k s')) <$> lastOpenInRun s'
  | EmptyString => None
  end.

Fixpoint nameMatches (prev : option ascii) (s : string) (skip : nat)
  : list string :=
  match s with
  | EmptyString => []
  | String c s' =>
      match skip with
      | S k => nameMatches (Some c) s' k
      | O =>
          if wordBoundary prev (Some c)
          then match nameMatchAt s with
               | Some m => m :: nameMatches (Some c) s' (String.length m - 1)
               | None => nameMatches (Some c) s' 0
               end
          else nameMatches (Some c) s' 0
      end
  end.

(** ** [String.prototype.match] *)

Inductive RegExp : Type := fnArgMatcher | fnNameMatcher.

(** [s.match(re)]: [None] for [null]. *)
Definition stringMatch (re : RegExp) (s : string) : option (list string) :=
  let matches :=
    match re with
    | fnArgMatcher => argMatches s 0
    | fnNameMatcher => nameMatches None s 0
    end in
  match matches with [] => None | _ => Some matches end.

(** ** Examples *)

Example fnNameMatcher_devServer :
  stringMatch fnNameMatcher "componentDevServer('tsconfig.cy.json', 'swc')"
  = Some ["componentDevServer"].
Proof. reflexivity. Qed.

(** On the text of the call in the repository's test, [fnArgMatcher]
    finds one match: the opening parenthesis and everything up to the
    closing one, both arguments and the comma between them in one
    string. *)
Example fnArgMatcher_devServer :
  stringMatch fnArgMatcher "componentDevServer('tsconfig.cy.json', 'swc')"
  = Some ["('tsconfig.cy.json', 'swc'"].
Proof. reflexivity. Qed.

Example fnArgMatcher_nested :
  stringMatch fnArgMatcher "f(g(1), 2) + h()" = Some ["(g(1"].
Proof. reflexivity. Qed.

Example fnNameMatcher_arrow :
  stringMatch fnNameMatcher "() => 1" = None.
Proof. reflexivity. Qed.

Example fnNameMatcher_declaration :
  stringMatch fnNameMatcher "function f(a) { return g(a); }"
  = Some ["f"; "g"].
Proof. reflexivity. Qed.

(** ** What a match looks like *)

Lemma argMatches_cons c s :
  argMatches (String c s) 0 =
  match argMatchAt (String c s) with
  | Some m => m :: argMatches s (String.length m - 1)
  | None => argMatches s 0
  end.
Proof. reflexivity. Qed.

Lemma nameMatches_cons prev c s :
  nameMatches prev (String c s) 0 =
  if wordBoundary prev (Some c)
  then match nameMatchAt (String c s) with
       | Some m => m :: nameMatches (Some c) s (String.length m - 1)
       | None => nameMatches (Some c) s 0
       end
  else nameMatches (Some c) s 0.
Proof. reflexivity. Qed.

Lemma untilClose_no_close s pre :
  untilClose s = Some pre → ∃ rest, s = pre +:+ String closeParen rest.
Proof.
  revert pre. induction s as [|c s IH]; intros pre; simpl; [done|].
  case_decide as Hc.
  - intros [= <-]. subst c. by exists s.
  - intros (pre' & (rest & ->)%IH & ->)%fmap_Some. by exists rest.
Qed.

(** A match of [fnArgMatcher] opens a parenthesis, holds one character
    more at least, and stands before a closing parenthesis. *)
Lemma argMatchAt_shape s m :
  argMatchAt s = Some m →
  ∃ c1 pre rest,
    m = String openParen (String c1 pre) ∧
    s = m +:+ String closeParen rest.
Proof.
  destruct s as [|c [|c1 s'']]; simpl; try done.
  case_decide as Hc; [|done]. subst c.
  intros (pre & (rest & ->)%untilClose_no_close & ->)%fmap_Some.
  by exists c1, pre, rest.
Qed.

(** Every match of [fnArgMatcher], in any text, begins with the
    opening parenthesis and holds at least one more character: the
    parenthesis is part of what the code takes for the arguments. *)
Lemma argMatches_shape s skip :
  Forall (λ m, ∃ c1 pre, m = String openParen (String c1 pre))
         (argMatches s skip).
Proof.
  revert skip. induction s as [|c s IH]; intros skip; [constructor|].
  destruct skip as [|k]; [|apply IH]. rewrite argMatches_cons.
  destruct (argMatchAt (String c s)) as [m|] eqn:E; [|apply IH].
  constructor; [|apply IH].
  apply argMatchAt_shape in E as (c1 & pre & _ & -> & _). eauto.
Qed.

(** Without an opening parenthesis [fnArgMatcher] finds nothing. *)
Lemma argMatches_no_open s skip :
  (∀ s1 s2, s ≠ s1 +:+ String openParen s2) → argMatches s skip = [].
Proof.
  revert skip. induction s as [|c s IH]; intros skip Hs; [done|].
  assert (∀ s1 s2, s ≠ s1 +:+ String openParen s2) as Hs'.
  { intros s1 s2 ->. by apply (Hs (String c s1) s2). }
  destruct skip as [|k]; [|by apply IH]. rewrite argMatches_cons.
  destruct (argMatchAt (String c s)) as [m|] eqn:E; [|by apply IH].
  apply argMatchAt_shape in E as (c1 & pre & rest & -> & E).
  injection E as -> E. by destruct (Hs "" s).
Qed.

Lemma nameMatchAt_nonempty s m : nameMatchAt s = Some m → m ≠ "".
Proof.
  destruct s as [|c s']; simpl; [done|].
  destruct (isWhiteSpace c); [done|]. by intros (k & _ & ->)%fmap_Some.
Qed.

Lemma nameMatches_nonempty prev s skip :
  Forall (λ m, m ≠ "") (nameMatches prev s skip).
Proof.
  revert prev skip. induction s as [|c s IH]; intros prev skip; [constructor|].
  destruct skip as [|k]; [|apply IH]. rewrite nameMatches_cons.
  destruct (wordBoundary prev (Some c)); [|apply IH].
  destruct (nameMatchAt (String c s)) as [m|] eqn:E; [|apply IH].
  constructor; [by eapply nameMatchAt_nonempty | apply IH].
Qed.

(** [match] never returns an empty array. *)
Lemma stringMatch_Some re s l : stringMatch re s = Some l → l ≠ [].
Proof.
  unfold stringMatch.
  destruct re; [destruct (argMatches s 0) | destruct (nameMatches None s 0)];
    intros [= <-]; done.
Qed.
