(* ===== verification/JsRegexSpec.v ===== *)
(** * The semantics of the two regular expressions

    [JsRegex.v] has a scanner for each of the two regular expressions of
    [createExpressionFromFunction].  This file has the expressions
    themselves, as patterns, and the matcher ECMAScript defines for a
    pattern: a backtracking matcher in continuation-passing style, in
    which a quantifier tries its alternatives in the order of its
    greediness and a lookahead runs its pattern and goes on from where it
    started.  [regExpMatch] is [String.prototype.match] for a pattern with
    the [g] flag: the matches from left to right, each search starting
    where the last match ended.

    The theorems say that the scanners are the matcher on the two
    patterns: [stringMatch] of [JsRegex.v] returns what [regExpMatch]
    returns, for every text.  The last section says what [trim] of
    [JsRegex.v] takes from a text. *)

From Stdlib Require Import Lia.
From S2P Require Import Prelude JsRegex.

(** ** Patterns *)

(** A member of a character class: [\s], [\S] or a character. *)
Inductive ClassAtom : Type :=
| ClassSpace
| ClassNonSpace
| ClassChar (c : ascii).

(** The patterns the two expressions are made of: a character, a
    character class ([\S] alone is the class of [\S]), a sequence, [r+]
    and [r+?], [(?=r)] and [\b]. *)
Inductive Pattern : Type :=
| Character (c : ascii)
| CharacterClass (atoms : list ClassAtom)
| Sequence (r1 r2 : Pattern)
| OneOrMore (greedy : bool) (r : Pattern)
| LookAhead (r : Pattern)
| WordBoundary.

(** [[\s\S)]] *)
Definition anyCharacter : Pattern :=
  CharacterClass [ClassSpace; ClassNonSpace; ClassChar closeParen].

(** [/\([\s\S)]+?(?=\))/], line 69. *)
Definition fnArgMatcherPattern : Pattern :=
  Sequence (Character openParen)
    (Sequence (OneOrMore false anyCharacter)
       (LookAhead (Character closeParen))).

(** [\S] *)
Definition nonSpace : Pattern := CharacterClass [ClassNonSpace].

(** [/\b\S+(?=\()/], line 70. *)
Definition fnNameMatcherPattern : Pattern :=
  Sequence WordBoundary
    (Sequence (OneOrMore true nonSpace) (LookAhead (Character openParen))).

Definition patternOf (re : RegExp) : Pattern :=
  match re with
  | fnArgMatcher => fnArgMatcherPattern
  | fnNameMatcher => fnNameMatcherPattern
  end.

(** ** The matcher *)

Definition atomMatches (a : ClassAtom) (c : ascii) : bool :=
  match a with
  | ClassSpace => isWhiteSpace c
  | ClassNonSpace => negb (isWhiteSpace c)
  | ClassChar c' => bool_decide (c = c')
  end.

Definition classMatches (atoms : list ClassAtom) (c : ascii) : bool :=
  existsb (λ a, atomMatches a c) atoms.

Definition firstChar (s : string) : option ascii :=
  match s with String c _ => Some c | EmptyString => None end.

(** A position in the text: the character before it and the text from it
    on.  A continuation is what is left to match; it returns the text
    that is left at the end of the match, or fails. *)
Definition Continuation : Type := option ascii → string → option string.
Definition Matcher : Type :=
  option ascii → string → Continuation → option string.

(** The first alternative that does not fail. *)
Definition orElse (x y : option string) : option string :=
  match x with Some _ => x | None => y end.

(** One character that [p] accepts. *)
Definition characterMatcher (p : ascii → bool) : Matcher :=
  λ prev s k,
  match s with
  | String c s' => if p c then k (Some c) s' else None
  | EmptyString => None
  end.

(** [RepeatMatcher] with no lower bound: [m] as often as it goes, then
    [k].  A greedy quantifier tries one more [m] first, a lazy one tries
    [k] first; an iteration that matches the empty text fails.  An
    iteration takes a character at least, which makes the length of the
    text enough fuel. *)
Fixpoint repeatMatcher (m : Matcher) (greedy : bool) (k : Continuation)
  (fuel : nat) (prev : option ascii) (s : string) : option string :=
  let more :=
    match fuel with
    | O => None
    | S fuel' =>
        m prev s (λ prev' s',
                    if (String.length s' =? String.length s)%nat then None
                    else repeatMatcher m greedy k fuel' prev' s')
    end in
  if greedy then orElse more (k prev s) else orElse (k prev s) more.

Fixpoint matcher (r : Pattern) : Matcher :=
  match r with
  | Character c => characterMatcher (λ c', bool_decide (c' = c))
  | CharacterClass atoms => characterMatcher (classMatches atoms)
  | Sequence r1 r2 =>
      λ prev s k, matcher r1 prev s (λ prev' s', matcher r2 prev' s' k)
  | OneOrMore greedy r =>
      λ prev s k,
      matcher r prev s
        (λ prev' s',
           repeatMatcher (matcher r) greedy k (String.length s') prev' s')
  | LookAhead r =>
      λ prev s k,
      match matcher r prev s (λ _ s', Some s') with
      | Some _ => k prev s
      | None => None
      end
  | WordBoundary =>
      λ prev s k, if wordBoundary prev (firstChar s) then k prev s else None
  end.

(** A match of [r] at the start of [s]: the text it leaves. *)
Definition matchAt (r : Pattern) (prev : option ascii) (s : string)
  : option string :=
  matcher r prev s (λ _ rest, Some rest).

(** What of [s] stands before [rest]. *)
Definition matched (s rest : string) : string :=
  substring 0 (String.length s - String.length rest) s.

Definition lastChar (prev : option ascii) (s : string) : option ascii :=
  foldl (λ _ c, Some c) prev (list_ascii_of_string s).

(** The matches from the start of [s] on, from left to right.  After a
    match the search goes on where the match ended, one character further
    when the match was empty; without a match it goes on at the next
    character. *)
Fixpoint execAll (r : Pattern) (fuel : nat) (prev : option ascii) (s : string)
  : list string :=
  match fuel with
  | O => []
  | S fuel' =>
      let next :=
        match s with
        | String c s' => execAll r fuel' (Some c) s'
        | EmptyString => []
        end in
      match matchAt r prev s with
      | Some rest =>
          let m := matched s rest in
          if bool_decide (m = "") then m :: next
          else m :: execAll r fuel' (lastChar prev m) rest
      | None => next
      end
  end.

(** [s.match(re)] for [re] with the [g] flag: [None] for [null]. *)
Definition regExpMatch (r : Pattern) (s : string) : option (list string) :=
  match execAll r (S (String.length s)) None s with
  | [] => None
  | matches => Some matches
  end.

(** ** Examples *)

Example regExpMatch_fnName_devServer :
  regExpMatch fnNameMatcherPattern
    "componentDevServer('tsconfig.cy.json', 'swc')"
  = Some ["componentDevServer"].
Proof. reflexivity. Qed.

Example regExpMatch_fnArg_devServer :
  regExpMatch fnArgMatcherPattern
    "componentDevServer('tsconfig.cy.json', 'swc')"
  = Some ["('tsconfig.cy.json', 'swc'"].
Proof. reflexivity. Qed.

Example regExpMatch_fnName_declaration :
  regExpMatch fnNameMatcherPattern "function f(a) { return g(a); }"
  = Some ["f"; "g"].
Proof. reflexivity. Qed.

Example regExpMatch_fnArg_nested :
  regExpMatch fnArgMatcherPattern "f(g(1), 2) + h()" = Some ["(g(1"].
Proof. reflexivity. Qed.

(** ** The fuel of the quantifier

    A matcher calls its continuation on a text that is no longer than
    the one it was given, and fails when its continuation always fails.
    An iteration of a quantifier that goes on takes a character, so the
    length of the text is fuel enough: more fuel gives the same
    result. *)

(** Two continuations that agree on every text no longer than [s]. *)
Definition agreeUpTo (s : string) (k1 k2 : Continuation) : Prop :=
  ∀ prev' s', String.length s' ≤ String.length s → k1 prev' s' = k2 prev' s'.

(** A matcher that looks at its continuation on such texts only. *)
Definition goesForward (m : Matcher) : Prop :=
  ∀ prev s k1 k2, agreeUpTo s k1 k2 → m prev s k1 = m prev s k2.

(** A matcher that fails when what follows fails. *)
Definition failsWith (m : Matcher) : Prop :=
  ∀ prev s, m prev s (λ _ _, None) = None.

Lemma repeatMatcher_O m greedy k prev s :
  repeatMatcher m greedy k 0 prev s = k prev s.
Proof. simpl. by destruct greedy, (k prev s). Qed.

Lemma repeatMatcher_S m greedy k fuel prev s :
  repeatMatcher m greedy k (S fuel) prev s =
  let more :=
    m prev s (λ prev' s',
                if (String.length s' =? String.length s)%nat then None
                else repeatMatcher m greedy k fuel prev' s') in
  if greedy then orElse more (k prev s) else orElse (k prev s) more.
Proof. done. Qed.

Lemma agreeUpTo_shorter s s' k1 k2 :
  String.length s' ≤ String.length s → agreeUpTo s k1 k2 → agreeUpTo s' k1 k2.
Proof. intros Hs Hk prev' s'' Hs'. apply Hk. lia. Qed.

Section quantifier.
Context (m : Matcher) (Hforward : goesForward m) (Hfails : failsWith m).
Context (greedy : bool).

Lemma repeatMatcher_goesForward fuel k1 k2 prev s :
  agreeUpTo s k1 k2 →
  repeatMatcher m greedy k1 fuel prev s = repeatMatcher m greedy k2 fuel prev s.
Proof.
  revert prev s. induction fuel as [|fuel IH]; intros prev s Hk.
  { rewrite !repeatMatcher_O. by apply Hk. }
  rewrite !repeatMatcher_S. cbn zeta. rewrite (Hk prev s) by done.
  destruct greedy; f_equal; apply Hforward; intros prev' s' Hs';
    case_match; try done; by eapply IH, agreeUpTo_shorter.
Qed.

Lemma repeatMatcher_failsWith fuel prev s :
  repeatMatcher m greedy (λ _ _, None) fuel prev s = None.
Proof.
  revert prev s. induction fuel as [|fuel IH]; intros prev s.
  { by rewrite repeatMatcher_O. }
  rewrite repeatMatcher_S. cbn zeta.
  rewrite (Hforward prev s _ (λ _ _, None)), Hfails; [by destruct greedy|].
  intros prev' s' _. by case_match.
Qed.

(** On the empty text there is no iteration. *)
Lemma repeatMatcher_nil k fuel prev :
  repeatMatcher m greedy k fuel prev "" = k prev "".
Proof.
  destruct fuel as [|fuel]; [apply repeatMatcher_O|].
  rewrite repeatMatcher_S. cbn zeta.
  rewrite (Hforward prev "" _ (λ _ _, None)), Hfails;
    [by destruct greedy, (k prev "")|].
  intros prev' [|??] Hs'; [done | simpl in Hs'; lia].
Qed.

Lemma repeatMatcher_fuel k fuel1 fuel2 prev s :
  String.length s ≤ fuel1 → String.length s ≤ fuel2 →
  repeatMatcher m greedy k fuel1 prev s = repeatMatcher m greedy k fuel2 prev s.
Proof.
  revert fuel2 prev s.
  induction fuel1 as [|fuel1 IH]; intros fuel2 prev s Hfuel1 Hfuel2.
  { destruct s; [by rewrite !repeatMatcher_nil | simpl in Hfuel1; lia]. }
  destruct fuel2 as [|fuel2].
  { destruct s; [by rewrite !repeatMatcher_nil | simpl in Hfuel2; lia]. }
  rewrite !repeatMatcher_S. cbn zeta.
  destruct greedy; f_equal; apply Hforward; intros prev' s' Hs';
    destruct (String.length s' =? String.length s) eqn:Hlen; try done;
    apply Nat.eqb_neq in Hlen; apply IH; lia.
Qed.

End quantifier.

Lemma characterMatcher_goesForward p : goesForward (characterMatcher p).
Proof.
  intros prev [|c s] k1 k2 Hk; simpl; [done|].
  case_match; [|done]. apply Hk. simpl. lia.
Qed.

Lemma matcher_goesForward r : goesForward (matcher r).
Proof.
  induction r as [c|atoms|r1 IH1 r2 IH2|greedy r IH|r IH|];
    intros prev s k1 k2 Hk; cbn [matcher].
  - by apply characterMatcher_goesForward.
  - by apply characterMatcher_goesForward.
  - apply IH1. intros prev' s' Hs'. by eapply IH2, agreeUpTo_shorter.
  - apply IH. intros prev' s' Hs'.
    by eapply repeatMatcher_goesForward, agreeUpTo_shorter.
  - by rewrite (Hk prev s).
  - by rewrite (Hk prev s).
Qed.

Lemma matcher_failsWith r : failsWith (matcher r).
Proof.
  induction r as [c|atoms|r1 IH1 r2 IH2|greedy r IH|r IH|];
    intros prev s; cbn [matcher].
  - destruct s; simpl; [done | by case_match].
  - destruct s; simpl; [done | by case_match].
  - rewrite (matcher_goesForward r1 prev s _ (λ _ _, None)); [apply IH1|].
    intros prev' s' _. apply IH2.
  - rewrite (matcher_goesForward r prev s _ (λ _ _, None)); [apply IH|].
    intros prev' s' _.
    apply repeatMatcher_failsWith; [apply matcher_goesForward | apply IH].
  - by case_match.
  - by case_match.
Qed.

(** The matcher of [r+] and [r+?] with any fuel that is enough for the
    text is the matcher with the length of the text for fuel. *)
Theorem repeatMatcher_fuel_enough r greedy k fuel prev s :
  String.length s ≤ fuel →
  repeatMatcher (matcher r) greedy k fuel prev s
  = repeatMatcher (matcher r) greedy k (String.length s) prev s.
Proof.
  intros Hfuel.
  apply repeatMatcher_fuel;
    [apply matcher_goesForward | apply matcher_failsWith | done..].
Qed.

(** ** Texts and their parts *)

Lemma length_append (s1 s2 : string) :
  String.length (s1 +:+ s2) = String.length s1 + String.length s2.
Proof.
  induction s1 as [|c s1 IH]; [done|]. rewrite append_cons. simpl.
  by rewrite IH.
Qed.

Lemma matched_app m rest : matched (m +:+ rest) rest = m.
Proof.
  unfold matched. rewrite length_append.
  replace (_ + _ - _) with (String.length m) by lia.
  induction m as [|c m IH]; [by destruct rest|].
  rewrite append_cons. simpl. by rewrite IH.
Qed.

Lemma lastChar_cons prev c m : lastChar prev (String c m) = lastChar (Some c) m.
Proof. done. Qed.

(** ** What a match leaves

    A matcher that returns has called its continuation on an end of the
    text: what a match leaves is an end of the text, and the match is
    what stands before it. *)

Definition reachesEnd (m : Matcher) : Prop :=
  ∀ prev s k out,
    m prev s k = Some out →
    ∃ prev' pre rest, s = pre +:+ rest ∧ k prev' rest = Some out.

Lemma orElse_Some x y out :
  orElse x y = Some out → x = Some out ∨ y = Some out.
Proof. destruct x; simpl; auto. Qed.

Lemma repeatMatcher_reachesEnd m greedy k fuel prev s out :
  reachesEnd m →
  repeatMatcher m greedy k fuel prev s = Some out →
  ∃ prev' pre rest, s = pre +:+ rest ∧ k prev' rest = Some out.
Proof.
  intros Hm. revert prev s. induction fuel as [|fuel IH]; intros prev s.
  { rewrite repeatMatcher_O. by exists prev, "", s. }
  rewrite repeatMatcher_S. cbn zeta. intros Hout.
  assert (k prev s = Some out ∨
          m prev s (λ prev' s',
                      if (String.length s' =? String.length s)%nat then None
                      else repeatMatcher m greedy k fuel prev' s') = Some out)
    as [Hk | Hmore] by (destruct greedy; apply orElse_Some in Hout; tauto).
  { by exists prev, "", s. }
  apply Hm in Hmore as (prev1 & pre1 & rest1 & -> & Hmore).
  case_match; [done|].
  apply IH in Hmore as (prev' & pre & rest & -> & Hk).
  exists prev', (pre1 +:+ pre), rest. by rewrite append_assoc.
Qed.

Lemma matcher_reachesEnd r : reachesEnd (matcher r).
Proof.
  induction r as [c|atoms|r1 IH1 r2 IH2|greedy r IH|r IH|];
    intros prev s k out; cbn [matcher].
  - destruct s as [|c' s]; simpl; [done|]. case_match; [|done].
    by exists (Some c'), (String c' ""), s.
  - destruct s as [|c' s]; simpl; [done|]. case_match; [|done].
    by exists (Some c'), (String c' ""), s.
  - intros (prev1 & pre1 & rest1 & -> & Hout)%IH1.
    apply IH2 in Hout as (prev' & pre & rest & -> & Hk).
    exists prev', (pre1 +:+ pre), rest. by rewrite append_assoc.
  - intros (prev1 & pre1 & rest1 & -> & Hout)%IH.
    apply repeatMatcher_reachesEnd in Hout as (prev' & pre & rest & -> & Hk);
      [|done].
    exists prev', (pre1 +:+ pre), rest. by rewrite append_assoc.
  - case_match; [|done]. by exists prev, "", s.
  - case_match; [|done]. by exists prev, "", s.
Qed.

(** The text is the match and what the match leaves. *)
Lemma matchAt_matched r prev s rest :
  matchAt r prev s = Some rest → s = matched s rest +:+ rest.
Proof.
  intros (prev' & pre & rest' & -> & [= ->])%matcher_reachesEnd.
  by rewrite matched_app.
Qed.

(** [execAll] with any fuel above the length of the text finds the same
    matches: a search starts further on in the text than the last. *)
Theorem execAll_fuel_enough r fuel1 fuel2 prev s :
  String.length s < fuel1 → String.length s < fuel2 →
  execAll r fuel1 prev s = execAll r fuel2 prev s.
Proof.
  revert fuel2 prev s.
  induction fuel1 as [|fuel1 IH]; intros fuel2 prev s Hfuel1 Hfuel2; [lia|].
  destruct fuel2 as [|fuel2]; [lia|]. cbn [execAll].
  assert (match s with
          | String c s' => execAll r fuel1 (Some c) s'
          | EmptyString => []
          end
          = match s with
            | String c s' => execAll r fuel2 (Some c) s'
            | EmptyString => []
            end) as Hnext
    by (destruct s; [done | simpl in *; apply IH; lia]).
  destruct (matchAt r prev s) as [rest|] eqn:Hrest; [|done].
  case_bool_decide as Hm; [by rewrite Hnext|]. f_equal.
  apply matchAt_matched in Hrest. apply IH.
  all: apply (f_equal String.length) in Hrest; rewrite length_append in Hrest.
  all: destruct (matched s rest); [done | simpl in Hrest; lia].
Qed.

(** ** [fnArgMatcher] at a position *)

(** The class [[\s\S)]] holds every character. *)
Lemma classMatches_any c :
  classMatches [ClassSpace; ClassNonSpace; ClassChar closeParen] c = true.
Proof. unfold classMatches. simpl. by destruct (isWhiteSpace c). Qed.

(** What is left to match after a quantifier: [(?=c)]. *)
Definition before (c : ascii) : Continuation :=
  λ prev s, matcher (LookAhead (Character c)) prev s (λ _ rest, Some rest).

Lemma before_cons c prev c' s :
  before c prev (String c' s)
  = if decide (c' = c) then Some (String c' s) else None.
Proof. unfold before. simpl. case_bool_decide; by case_decide. Qed.

(** The lazy quantifier stops at the first [")"]. *)
Lemma repeatMatcher_untilClose fuel prev s :
  String.length s ≤ fuel →
  match untilClose s with
  | Some pre =>
      ∃ rest, s = pre +:+ rest ∧
        repeatMatcher (matcher anyCharacter) false (before closeParen)
          fuel prev s = Some rest
  | None =>
      repeatMatcher (matcher anyCharacter) false (before closeParen)
        fuel prev s = None
  end.
Proof.
  revert fuel prev. induction s as [|c s IH]; intros fuel prev Hfuel.
  { by destruct fuel. }
  destruct fuel as [|fuel]; [simpl in Hfuel; lia|].
  cbn [untilClose]. rewrite repeatMatcher_S, before_cons. cbn zeta.
  case_decide as Hc; [by exists (String c s)|].
  cbn [orElse anyCharacter matcher characterMatcher]. rewrite classMatches_any.
  replace (String.length s =? String.length (String c s)) with false
    by (symmetry; apply Nat.eqb_neq; simpl; lia).
  specialize (IH fuel (Some c) ltac:(simpl in Hfuel; lia)).
  destruct (untilClose s) as [pre|]; simpl; [|done].
  destruct IH as (rest & Hs & IH). exists rest.
  split; [rewrite append_cons; congruence | exact IH].
Qed.

Lemma matchAt_fnArg prev s :
  match argMatchAt s with
  | Some m =>
      m ≠ "" ∧
      ∃ rest, s = m +:+ rest ∧ matchAt fnArgMatcherPattern prev s = Some rest
  | None => matchAt fnArgMatcherPattern prev s = None
  end.
Proof.
  destruct s as [|c [|c1 s]]; try done.
  { unfold matchAt. simpl. by case_bool_decide. }
  unfold matchAt, argMatchAt.
  cbn [fnArgMatcherPattern anyCharacter matcher characterMatcher].
  case_bool_decide; case_decide; try done.
  rewrite classMatches_any.
  pose proof (repeatMatcher_untilClose (String.length s) (Some c1) s (le_n _))
    as H'.
  destruct (untilClose s) as [pre|]; simpl; [|done].
  destruct H' as (rest & Hs & H'). split; [done|]. exists rest.
  split; [rewrite !append_cons; congruence | exact H'].
Qed.

(** ** A scanner against [execAll]

    The two scanners of [JsRegex.v] go through the text once and count
    the characters of the last match that are still to be passed.  Such
    a scanner returns what [execAll] returns, when what it takes for a
    match at a position is what the matcher finds there. *)
Section scanner.
Variable r : Pattern.
Variable scanAt : option ascii → string → option string.
Variable scanner : option ascii → string → nat → list string.

Hypothesis scanner_nil : ∀ prev skip, scanner prev "" skip = [].
Hypothesis scanner_skip : ∀ prev c s skip,
  scanner prev (String c s) (S skip) = scanner (Some c) s skip.
Hypothesis scanner_cons : ∀ prev c s,
  scanner prev (String c s) 0 =
  match scanAt prev (String c s) with
  | Some m => m :: scanner (Some c) s (String.length m - 1)
  | None => scanner (Some c) s 0
  end.
Hypothesis scanAt_matchAt : ∀ prev s,
  match scanAt prev s with
  | Some m => m ≠ "" ∧ ∃ rest, s = m +:+ rest ∧ matchAt r prev s = Some rest
  | None => matchAt r prev s = None
  end.

(** Passing the characters of a match comes to the place where it
    ends. *)
Lemma scanner_passes prev m rest :
  scanner prev (m +:+ rest) (String.length m)
  = scanner (lastChar prev m) rest 0.
Proof.
  revert prev. induction m as [|c m IH]; intros prev; [done|].
  rewrite append_cons. simpl String.length. by rewrite scanner_skip, IH.
Qed.

Lemma execAll_scanner fuel prev s :
  String.length s < fuel → execAll r fuel prev s = scanner prev s 0.
Proof.
  revert prev s. induction fuel as [|fuel IH]; intros prev s Hfuel; [lia|].
  cbn [execAll]. pose proof (scanAt_matchAt prev s) as Hat.
  destruct s as [|c s].
  { rewrite scanner_nil. destruct (scanAt prev "") as [m|]; [|by rewrite Hat].
    destruct Hat as (Hm & rest & Hs & _). by destruct m. }
  rewrite scanner_cons. simpl in Hfuel.
  destruct (scanAt prev (String c s)) as [m|]; [|rewrite Hat; apply IH; lia].
  destruct Hat as (Hm & rest & Hs & ->). rewrite Hs, matched_app.
  rewrite bool_decide_eq_false_2 by done.
  destruct m as [|c' m]; [done|]. rewrite append_cons in Hs.
  injection Hs as <- ->.
  replace (String.length (String c m) - 1) with (String.length m)
    by (simpl; lia).
  rewrite scanner_passes, lastChar_cons. f_equal. apply IH.
  rewrite length_append in Hfuel. lia.
Qed.

End scanner.

(** ** [fnNameMatcher] at a position *)

Lemma classMatches_nonSpace c :
  classMatches [ClassNonSpace] c = negb (isWhiteSpace c).
Proof. unfold classMatches. simpl. apply orb_false_r. Qed.

Lemma isWhiteSpace_openParen c : isWhiteSpace c = true → c ≠ openParen.
Proof. by intros Hc ->. Qed.

(** The greedy quantifier takes the run of characters that are no white
    space and gives back as many as it takes to stand before a ["("]:
    it stops at the last ["("] of the run. *)
Lemma repeatMatcher_lastOpenInRun fuel prev s :
  String.length s ≤ fuel →
  match lastOpenInRun s with
  | Some k =>
      ∃ rest, s = substring 0 k s +:+ rest ∧
        repeatMatcher (matcher nonSpace) true (before openParen) fuel prev s
        = Some rest
  | None =>
      repeatMatcher (matcher nonSpace) true (before openParen) fuel prev s
      = None
  end.
Proof.
  revert fuel prev. induction s as [|c s IH]; intros fuel prev Hfuel.
  { by destruct fuel. }
  destruct fuel as [|fuel]; [simpl in Hfuel; lia|].
  cbn [lastOpenInRun]. rewrite repeatMatcher_S, before_cons. cbn zeta.
  cbn [nonSpace matcher characterMatcher]. rewrite classMatches_nonSpace.
  destruct (isWhiteSpace c) eqn:Hspace; simpl.
  { apply isWhiteSpace_openParen in Hspace. by case_decide. }
  replace (String.length s =? S (String.length s)) with false
    by (symmetry; apply Nat.eqb_neq; lia).
  specialize (IH fuel (Some c) ltac:(simpl in Hfuel; lia)).
  change (characterMatcher (classMatches [ClassNonSpace]))
    with (matcher nonSpace).
  destruct (lastOpenInRun s) as [k|].
  - destruct IH as (rest & Hs & ->). exists rest.
    split; [rewrite append_cons; congruence | done].
  - rewrite IH. simpl. case_decide; [|done]. by exists (String c s).
Qed.

(** What [nameMatches] takes for a match at a position. *)
Definition nameScanAt (prev : option ascii) (s : string) : option string :=
  if wordBoundary prev (firstChar s) then nameMatchAt s else None.

Lemma matchAt_fnName prev s :
  match nameScanAt prev s with
  | Some m =>
      m ≠ "" ∧
      ∃ rest, s = m +:+ rest ∧ matchAt fnNameMatcherPattern prev s = Some rest
  | None => matchAt fnNameMatcherPattern prev s = None
  end.
Proof.
  unfold nameScanAt, matchAt. cbn [fnNameMatcherPattern matcher].
  destruct (wordBoundary prev (firstChar s)); [|done].
  destruct s as [|c s]; [done|].
  cbn [nameMatchAt nonSpace matcher characterMatcher].
  rewrite classMatches_nonSpace.
  destruct (isWhiteSpace c); [done|]. cbn [negb].
  pose proof (repeatMatcher_lastOpenInRun (String.length s) (Some c) s (le_n _))
    as H'.
  destruct (lastOpenInRun s) as [k|]; simpl; [|exact H'].
  destruct H' as (rest & Hs & H'). split; [done|]. exists rest.
  split; [rewrite append_cons; congruence | exact H'].
Qed.

(** ** The scanners are the matcher *)

Lemma argMatches_execAll fuel prev s :
  String.length s < fuel →
  execAll fnArgMatcherPattern fuel prev s = argMatches s 0.
Proof.
  apply (execAll_scanner fnArgMatcherPattern (λ _, argMatchAt)
           (λ _, argMatches)); try done.
  intros ??. apply matchAt_fnArg.
Qed.

Lemma nameMatches_execAll fuel prev s :
  String.length s < fuel →
  execAll fnNameMatcherPattern fuel prev s = nameMatches prev s 0.
Proof.
  apply (execAll_scanner fnNameMatcherPattern nameScanAt nameMatches);
    try done.
  - intros p c t. rewrite nameMatches_cons. unfold nameScanAt. simpl firstChar.
    by destruct (wordBoundary p (Some c)).
  - apply matchAt_fnName.
Qed.

(** C21. The scanners are the regular expressions: for [fnArgMatcher]
    and for [fnNameMatcher] and for every text, [stringMatch] returns
    what [String.prototype.match] returns by the backtracking matcher of
    ECMAScript on the pattern of the expression, the same matches in the
    same order, and [null] for the same texts. *)
Theorem stringMatch_regExpMatch re s :
  stringMatch re s = regExpMatch (patternOf re) s.
Proof.
  unfold stringMatch, regExpMatch.
  destruct re; simpl patternOf;
    rewrite ?argMatches_execAll, ?nameMatches_execAll by lia; by case_match.
Qed.

(** ** [String.prototype.trim]

    [trim] of [JsRegex.v] takes the white space from both ends of a text
    and nothing else: the text is white space, what [trim] returns, and
    white space, and what it returns neither starts nor ends with white
    space. *)

Definition allSpace (s : string) : bool :=
  forallb isWhiteSpace (list_ascii_of_string s).

Definition startsWithSpace (s : string) : bool :=
  from_option isWhiteSpace false (firstChar s).

Definition endsWithSpace (s : string) : bool :=
  from_option isWhiteSpace false (lastChar None s).

Lemma trimStart_parts s :
  ∃ before, s = before +:+ trimStart s ∧ allSpace before = true.
Proof.
  induction s as [|c s (before & Hs & Hbefore)]; [by exists ""|]. simpl.
  destruct (isWhiteSpace c) eqn:Hc; [|by exists ""].
  exists (String c before). rewrite append_cons, <-Hs.
  split; [done|]. unfold allSpace in *. simpl. by rewrite Hc.
Qed.

Lemma trimStart_starts s : startsWithSpace (trimStart s) = false.
Proof.
  induction s as [|c s IH]; [done|]. simpl.
  by destruct (isWhiteSpace c) eqn:Hc; [|unfold startsWithSpace; simpl].
Qed.

Lemma trimEnd_cons c s :
  trimEnd (String c s) =
  if bool_decide (trimEnd s = "") && isWhiteSpace c then ""
  else String c (trimEnd s).
Proof. simpl. destruct (trimEnd s); simpl; [by destruct (isWhiteSpace c)|done]. Qed.

Lemma trimEnd_parts s :
  ∃ after, s = trimEnd s +:+ after ∧ allSpace after = true.
Proof.
  induction s as [|c s (after & Hs & Hafter)]; [by exists ""|].
  rewrite trimEnd_cons. case_bool_decide as Hempty; simpl.
  - destruct (isWhiteSpace c) eqn:Hc.
    + exists (String c s). split; [done|]. rewrite Hempty in Hs.
      rewrite append_nil_l in Hs. subst after.
      unfold allSpace in *. simpl. by rewrite Hc.
    + exists after. by rewrite append_cons, <-Hs.
  - exists after. by rewrite append_cons, <-Hs.
Qed.

Lemma endsWithSpace_cons c s :
  s ≠ "" → endsWithSpace (String c s) = endsWithSpace s.
Proof.
  unfold endsWithSpace, lastChar. destruct s as [|c' s]; [done|]. done.
Qed.

Lemma trimEnd_ends s : endsWithSpace (trimEnd s) = false.
Proof.
  induction s as [|c s IH]; [done|].
  rewrite trimEnd_cons. case_bool_decide as Hempty; simpl.
  - destruct (isWhiteSpace c) eqn:Hc; [done|]. rewrite Hempty.
    unfold endsWithSpace. simpl. by rewrite Hc.
  - by rewrite endsWithSpace_cons.
Qed.

(** Taking white space from the end leaves the start as it is. *)
Lemma trimEnd_starts s :
  startsWithSpace s = false → startsWithSpace (trimEnd s) = false.
Proof.
  destruct s as [|c s]; [done|]. rewrite trimEnd_cons.
  unfold startsWithSpace. simpl. intros Hc. by rewrite Hc, andb_false_r.
Qed.

(** What [trim] returns, and what it leaves out. *)
Theorem trim_parts s :
  ∃ before after,
    s = before +:+ trim s +:+ after ∧
    allSpace before = true ∧ allSpace after = true ∧
    startsWithSpace (trim s) = false ∧ endsWithSpace (trim s) = false.
Proof.
  destruct (trimStart_parts s) as (before & Hs & Hbefore).
  destruct (trimEnd_parts (trimStart s)) as (after & Ht & Hafter).
  exists before, after. unfold trim. rewrite <-Ht.
  split_and!; try done; [apply trimEnd_starts, trimStart_starts | apply trimEnd_ends].
Qed.

(** A text without white space at its ends is what [trim] returns for
    it; [trim] is idempotent. *)
Lemma trimStart_fixed s : startsWithSpace s = false → trimStart s = s.
Proof. destruct s as [|c s]; [done|]. unfold startsWithSpace. simpl. by intros ->. Qed.

Lemma trimEnd_fixed s : endsWithSpace s = false → trimEnd s = s.
Proof.
  induction s as [|c s IH]; [done|]. rewrite trimEnd_cons.
  destruct s as [|c' s].
  - unfold endsWithSpace. simpl. by intros ->.
  - rewrite endsWithSpace_cons by done. intros Hs. rewrite IH by done.
    by rewrite bool_decide_eq_false_2.
Qed.

Theorem trim_idempotent s : trim (trim s) = trim s.
Proof.
  destruct (trim_parts s) as (_ & _ & _ & _ & _ & Hstart & Hend).
  unfold trim at 1. by rewrite trimStart_fixed, trimEnd_fixed.
Qed.

Example trim_argument : trim "  'swc' " = "'swc'".
Proof. reflexivity. Qed.
