(* ===== verification/ParseInt.v ===== *)
(** * [parseInt]

    [fromLiteralToPrimitive] of [add-update-property-transformer.ts] reads
    a numeric literal with [parseInt(text, 10)].  This file holds
    [parseInt] for radix 10 as ECMAScript defines it: white space at the
    start is skipped, one sign is read, and the longest run of decimal
    digits that follows is the value; without a digit the result is
    [NaN].  What comes after the digits is ignored, which is what makes
    [parseInt] differ from the value of a literal.

    The theorems: [parseInt] reads back what [numberToString] prints for
    an integer and for [NaN], and the digits before the point or the
    exponent for a number that is printed with one ([readTruncated]); the
    value is bounded by the length of the text, and a text of at most
    fifteen characters gives a number that a double holds exactly, so
    that the integer of the model is the number the engine computes. *)

From Stdlib Require Import DecimalString DecimalZ DecimalPos DecimalFacts Lia.
From S2P Require Import Prelude JsValue JsRegex.

#[local] Open Scope Z_scope.

(** ** Definitions *)

(** The value of a decimal digit. *)
Definition digitValue (c : ascii) : option Z :=
  let n := charCode c in
  if ((48 <=? n) && (n <=? 57))%N then Some (Z.of_N n - 48) else None.

(** The value of the longest run of digits [s] starts with, read from the
    left onto [acc]; [acc] is [None] as long as no digit was read. *)
Fixpoint digitsPrefix (s : string) (acc : option Z) : option Z :=
  match s with
  | EmptyString => acc
  | String c s' =>
      match digitValue c with
      | Some d => digitsPrefix s' (Some (10 * default 0 acc + d))
      | None => acc
      end
  end.

(** The sign [s] starts with, and what follows it. *)
Definition readSign (s : string) : Z * string :=
  match s with
  | String "-" s' => (-1, s')
  | String "+" s' => (1, s')
  | _ => (1, s)
  end.

(** [parseInt(s, 10)] *)
Definition parseInt (s : string) : JsNumber :=
  let signed := readSign (trimStart s) in
  match digitsPrefix signed.2 None with
  | Some z => NumInt (signed.1 * z)
  | None => NumNaN
  end.

(** [Number.MAX_SAFE_INTEGER]: up to it every integer is a double. *)
Definition MAX_SAFE_INTEGER : Z := 2 ^ 53 - 1.

(** ** Examples *)

Example parseInt_decimal : parseInt "4000" = NumInt 4000.
Proof. reflexivity. Qed.

Example parseInt_hexadecimal : parseInt "0x1F" = NumInt 0.
Proof. reflexivity. Qed.

Example parseInt_exponent : parseInt "1e3" = NumInt 1.
Proof. reflexivity. Qed.

Example parseInt_fraction : parseInt ".5" = NumNaN.
Proof. reflexivity. Qed.

Example parseInt_separator : parseInt "1_000" = NumInt 1.
Proof. reflexivity. Qed.

(** ** Reading digits *)

(** The value of a decimal numeral read from the left onto [acc]. *)
Fixpoint uintValue (d : Decimal.uint) (acc : Z) : Z :=
  match d with
  | Decimal.Nil => acc
  | Decimal.D0 d => uintValue d (10 * acc)
  | Decimal.D1 d => uintValue d (10 * acc + 1)
  | Decimal.D2 d => uintValue d (10 * acc + 2)
  | Decimal.D3 d => uintValue d (10 * acc + 3)
  | Decimal.D4 d => uintValue d (10 * acc + 4)
  | Decimal.D5 d => uintValue d (10 * acc + 5)
  | Decimal.D6 d => uintValue d (10 * acc + 6)
  | Decimal.D7 d => uintValue d (10 * acc + 7)
  | Decimal.D8 d => uintValue d (10 * acc + 8)
  | Decimal.D9 d => uintValue d (10 * acc + 9)
  end.

Lemma digitsPrefix_Some_uint d acc :
  digitsPrefix (NilEmpty.string_of_uint d) (Some acc) = Some (uintValue d acc).
Proof.
  revert acc. induction d; intros acc; simpl; rewrite ?IHd, ?Z.add_0_r; done.
Qed.

Lemma digitsPrefix_string_of_uint d acc :
  d ≠ Decimal.Nil →
  digitsPrefix (NilEmpty.string_of_uint d) acc
  = Some (uintValue d (default 0 acc)).
Proof.
  destruct d; try done; intros _; simpl;
    by rewrite digitsPrefix_Some_uint, ?Z.add_0_r.
Qed.

Lemma uintValue_acc d (p : positive) :
  uintValue d (Z.pos p) = Z.pos (Pos.of_uint_acc d p).
Proof.
  revert p. induction d; intros p; simpl; [done|..];
    rewrite <-IHd; f_equal; lia.
Qed.

Lemma uintValue_of_uint d : uintValue d 0 = Z.of_N (Pos.of_uint d).
Proof.
  induction d; simpl; [done | exact IHd | exact (uintValue_acc d _) ..].
Qed.

(** ** The round trip *)

Lemma trimStart_digits d :
  trimStart (NilZero.string_of_uint d) = NilZero.string_of_uint d.
Proof. by destruct d. Qed.

Lemma readSign_digits d :
  readSign (NilZero.string_of_uint d) = (1, NilZero.string_of_uint d).
Proof. by destruct d. Qed.

Lemma digitsPrefix_NilZero d :
  digitsPrefix (NilZero.string_of_uint d) None = Some (Z.of_N (Pos.of_uint d)).
Proof.
  destruct d; [done|..];
    by rewrite <-uintValue_of_uint, <-(digitsPrefix_string_of_uint _ None).
Qed.

Lemma parseInt_string_of_int (i : Decimal.int) :
  parseInt (NilZero.string_of_int i) = NumInt (Z.of_int i).
Proof.
  unfold parseInt. destruct i as [d|d]; simpl.
  - rewrite trimStart_digits, readSign_digits. simpl.
    rewrite digitsPrefix_NilZero. f_equal. apply Z.mul_1_l.
  - rewrite digitsPrefix_NilZero. by f_equal.
Qed.

(** [parseInt(n + "", 10)] is [n] for every integer [n]: what
    [numberToString] prints, [parseInt] reads back. *)
Lemma parseInt_numberToString_NumInt z :
  parseInt (numberToString (NumInt z)) = NumInt z.
Proof. simpl. by rewrite parseInt_string_of_int, DecimalZ.of_to. Qed.

(** ** Bounds *)

Lemma digitValue_bound c d : digitValue c = Some d → 0 ≤ d ≤ 9.
Proof.
  unfold digitValue. case_match eqn:Hc; [|done]. intros [= <-].
  apply andb_true_iff in Hc as [?%N.leb_le ?%N.leb_le]. lia.
Qed.

Lemma digitsPrefix_bound s acc z :
  0 ≤ default 0 acc →
  digitsPrefix s acc = Some z →
  0 ≤ z < (default 0 acc + 1) * 10 ^ Z.of_nat (String.length s).
Proof.
  revert acc. induction s as [|c s IH]; intros acc Hacc; simpl String.length.
  - simpl. intros ->. simpl in *. lia.
  - simpl digitsPrefix. rewrite Nat2Z.inj_succ, Z.pow_succ_r by lia.
    destruct (digitValue c) as [d|] eqn:Hd.
    + apply digitValue_bound in Hd. intros Hz%IH; simpl in *; nia.
    + intros ->. simpl in *.
      assert (0 < 10 ^ Z.of_nat (String.length s)) by (apply Z.pow_pos_nonneg; lia).
      nia.
Qed.

Lemma trimStart_length s : (String.length (trimStart s) ≤ String.length s)%nat.
Proof. induction s as [|c s IH]; simpl; [done|]. case_match; simpl; lia. Qed.

Lemma readSign_spec s :
  ((readSign s).1 = 1 ∨ (readSign s).1 = -1) ∧
  (String.length (readSign s).2 ≤ String.length s)%nat.
Proof.
  destruct s as [|c s]; [simpl; auto|].
  destruct (decide (c = "-"%char)) as [->|]; [simpl; auto with lia|].
  destruct (decide (c = "+"%char)) as [->|]; [simpl; auto with lia|].
  assert (readSign (String c s) = (1, String c s)) as ->; [|auto].
  unfold readSign. repeat case_match; congruence.
Qed.

(** The value [parseInt] reads from a text of [n] characters is below
    [10 ^ n] in magnitude. *)
Lemma parseInt_bound s z :
  parseInt s = NumInt z → Z.abs z < 10 ^ Z.of_nat (String.length s).
Proof.
  unfold parseInt. pose proof (trimStart_length s) as Htrim.
  destruct (readSign_spec (trimStart s)) as [Hsign Hlen].
  destruct (digitsPrefix _ None) as [v|] eqn:Hv; [|done]. intros [= <-].
  apply digitsPrefix_bound in Hv; [|done]. simpl in Hv.
  assert (10 ^ Z.of_nat (String.length (readSign (trimStart s)).2)
          ≤ 10 ^ Z.of_nat (String.length s)) by (apply Z.pow_le_mono_r; lia).
  destruct Hsign as [-> | ->]; lia.
Qed.

(** A text of at most fifteen characters gives a safe integer: a number
    that a double holds exactly. *)
Lemma parseInt_safe s z :
  (String.length s ≤ 15)%nat → parseInt s = NumInt z →
  Z.abs z ≤ MAX_SAFE_INTEGER.
Proof.
  intros Hs Hz%parseInt_bound.
  assert (10 ^ Z.of_nat (String.length s) ≤ 10 ^ 15)
    by (apply Z.pow_le_mono_r; lia).
  unfold MAX_SAFE_INTEGER. lia.
Qed.

(** An integer and [NaN] come back from their text. *)
Lemma parseInt_numberToString n :
  isInteger n = true ∨ n = NumNaN → parseInt (numberToString n) = n.
Proof.
  intros [Hn | ->]; [|done].
  destruct n as [z| | |]; try done. apply parseInt_numberToString_NumInt.
Qed.

(** ** Numbers that are no integers *)

(** A text at which [parseInt] stops reading: the end, or a character
    that is no digit. *)
Definition stopsDigits (s : string) : Prop :=
  match s with
  | EmptyString => True
  | String c _ => digitValue c = None
  end.

Lemma digitsPrefix_app s rest acc :
  stopsDigits rest → digitsPrefix (s +:+ rest) acc = digitsPrefix s acc.
Proof.
  intros Hrest. revert acc. induction s as [|c s IH]; intros acc; simpl.
  - destruct rest as [|c rest]; [done|]. simpl in *. by rewrite Hrest.
  - destruct (digitValue c); [apply IH | done].
Qed.

Lemma digitsPrefix_NilZero_app d rest :
  stopsDigits rest →
  digitsPrefix (NilZero.string_of_uint d +:+ rest) None
  = Some (Z.of_N (Pos.of_uint d)).
Proof. intros Hrest. by rewrite digitsPrefix_app, digitsPrefix_NilZero. Qed.

(** Of a text that starts with an integer and goes on with something
    that is no digit, [parseInt] reads the integer. *)
Lemma parseInt_string_of_int_app (i : Decimal.int) rest :
  stopsDigits rest →
  parseInt (NilZero.string_of_int i +:+ rest) = NumInt (Z.of_int i).
Proof.
  intros Hrest. unfold parseInt. destruct i as [d|d]; simpl.
  - assert (∀ s, trimStart (NilZero.string_of_uint d +:+ s)
                 = NilZero.string_of_uint d +:+ s) as -> by by destruct d.
    assert (∀ s, readSign (NilZero.string_of_uint d +:+ s)
                 = (1, NilZero.string_of_uint d +:+ s)) as -> by by destruct d.
    simpl. rewrite digitsPrefix_NilZero_app by done. f_equal. apply Z.mul_1_l.
  - rewrite digitsPrefix_NilZero_app by done. by f_equal.
Qed.

Lemma stopsDigits_fraction f rest :
  stopsDigits rest → stopsDigits (fractionToString f +:+ rest).
Proof. by destruct f. Qed.

Lemma stopsDigits_exponent e : stopsDigits (exponentToString e).
Proof. by destruct e. Qed.

(** The integer [parseInt] reads from the text of a number that is kept
    as a decimal: what is printed before the point or the exponent. *)
Definition integerPart (d : Decimal.decimal) : Z :=
  match d with
  | Decimal.Decimal i _ | Decimal.DecimalExp i _ _ => Z.of_int i
  end.

Lemma parseInt_decimalToString d :
  parseInt (decimalToString d) = NumInt (integerPart d).
Proof.
  destruct d as [i f|i f e]; simpl; apply parseInt_string_of_int_app.
  - by destruct f.
  - apply stopsDigits_fraction, stopsDigits_exponent.
Qed.

(** What [parseInt] reads from the text of a number: the number for an
    integer and for [NaN], the digits before the point or the exponent
    for a number that is printed with one, [NaN] for an infinity. *)
Definition readTruncated (n : JsNumber) : JsNumber :=
  match n with
  | NumInt _ | NumNaN => n
  | NumDecimal d => NumInt (integerPart d)
  | NumInfinity _ => NumNaN
  end.

Lemma parseInt_numberToString_readTruncated n :
  parseInt (numberToString n) = readTruncated n.
Proof.
  destruct n as [z|d|[]|]; simpl; try done.
  - apply parseInt_numberToString_NumInt.
  - apply parseInt_decimalToString.
Qed.

Example parseInt_half :
  parseInt (numberToString (NumDecimal (Decimal.Decimal (Decimal.Pos (Decimal.D0 Decimal.Nil))
                                          (Decimal.D5 Decimal.Nil))))
  = NumInt 0.
Proof. reflexivity. Qed.
