(* ===== verification/Transformers.v ===== *)
(** * The merge engine of [transformers.ts]

    One definition per function of the file, under the source's name.
    [mergeCypressConfigs] is the transformer handed to [ts.transform]; it
    rewrites every export assignment of the file, and for the first
    argument of the exported call it runs [visitRootConfigNode], which
    visits the properties of the root object literal, calls
    [updateChildObjectLiteral] on the properties that are object literals
    themselves and [updatePropertyAssignment] to build a literal for a
    value of the new configuration.

    The local [Map]s of the code ([propertyMap], [propertiesToAdd]) are the
    state of the visitors ([rootVisitor], [childVisitor]); an exception
    ends the whole transformation.

    The lemmas of this file give the behaviour of [getValueByPath],
    [updatePropertyAssignment], [createExpressionFromFunction] and of the
    construction of new properties on every branch; the files [Merge*.v]
    build on them. *)

From S2P Require Import Prelude JsMap JsValue TsAst JsRegex.

(** ** The functions

    They are in [Module Merge], which the file exports:
    [add-update-property-transformer.ts] has functions of the same names,
    in [Module AddUpdate] of [AddUpdateTransformer.v]. *)

Module Merge.

(** The configuration is read with [acc?.[key]], which goes through the
    prototype chain: the functions that read it depend on what values
    inherit, the class [Inherited] of [JsValue.v]. *)
Section merge.
Context {chain : Inherited}.

(** [isBooleanLiteral], lines 247-257. *)
Definition isBooleanLiteral (node : Expression) : bool :=
  match node with
  | TrueKeyword | FalseKeyword => true
  | _ => false
  end.

(** [getValueByPath], lines 98-102: [path.reduce((acc, key) => acc?.[key],
    config)]. *)
Definition getValueByPath (config : JsValue) (path : list string) : JsValue :=
  foldl optionalGet config path.

(** [.split(',')] called on the array that [match] returned: an array has
    no [split]. *)
Definition splitOfArray (matches : list string) : result (list string) :=
  Throw (TypeError (NotAFunction "split")).

(** [createExpressionFromFunction], lines 60-96.  For a value that is no
    function it logs and returns [undefined]. *)
Definition createExpressionFromFunction (fn : JsValue)
  : result (option Expression) :=
  match fn with
  | JsFunction strFn =>
      names ← from_option Ok (Throw (TypeError (ReadPropertyOfNull "0")))
                (stringMatch fnNameMatcher strFn);
      let fnName := default "" (head names) in
      matches ← from_option Ok (Throw (TypeError (ReadPropertyOfNull "split")))
                  (stringMatch fnArgMatcher strFn);
      parts ← splitOfArray matches;
      let fnArgs := trim <$> parts in
      Some <$> createCallExpression (Identifier fnName) []
                 ((λ arg, Some (createStringLiteral arg true)) <$> fnArgs)
  | _ => Ok None
  end.

(** [updatePropertyAssignment], lines 158-185: a property named as
    [property] with a literal for [value].  The [switch] has no case for
    ["object"] and ["undefined"]: the function returns [undefined] then. *)
Definition updatePropertyAssignment (name : PropertyName) (value : JsValue)
  : result (option ObjectLiteralElement) :=
  match value with
  | JsNum n =>
      Some <$> createPropertyAssignment name (Some (createNumericLiteral n))
  | JsString s =>
      Some <$> createPropertyAssignment name (Some (createStringLiteral s true))
  | JsBoolean b =>
      Some <$> createPropertyAssignment name (Some (createBoolean b))
  | JsFunction _ =>
      e ← createExpressionFromFunction value;
      Some <$> createPropertyAssignment name e
  | JsUndefined | JsNull | JsObject _ => Ok None
  end.

(** The properties built from what is left in a map, lines 142-150 and
    236-242: a placeholder property is created under [nameOf key] and
    handed to [updatePropertyAssignment]; [undefined] results stay in the
    array. *)
Definition propertiesOfEntries (nameOf : string → string)
  (entries : list (string * JsValue)) : result (list ObjectLiteralElement) :=
  mapR (λ kv, elementOfOption <$>
                updatePropertyAssignment (CreatedIdentifier (nameOf kv.1)) kv.2)
       entries.

(** The visitor inside [updateChildObjectLiteral], lines 122-134.  The
    state is [propertiesToAdd]. *)
Definition childVisitor (path : list string) (config : JsValue)
  : Visitor (JsMap JsValue) :=
  λ node propertiesToAdd,
  match node with
  | PropertyAssignment name _ =>
      text ← getText name;
      let propertyPath := path ++ [text] in
      let propertiesToAdd := map_delete (join "." propertyPath) propertiesToAdd in
      let value := getValueByPath config propertyPath in
      if isDefined value
      then r ← updatePropertyAssignment name value; Ok (r, propertiesToAdd)
      else Ok (Some node, propertiesToAdd)
  | _ => Ok (Some node, propertiesToAdd)
  end.

(** [propertiesToAdd] as the loop of lines 111-118 fills it. *)
Definition initialPropertiesToAdd (path : list string) (config : JsValue)
  : JsMap JsValue :=
  let baseConfig := getValueByPath config path in
  foldl (λ m baseConfigKey,
           map_set (join "." (path ++ [baseConfigKey]))
                   (getProperty baseConfig baseConfigKey) m)
        map_empty (forInKeys baseConfig).

(** [key.split('.').pop()], line 145. *)
Definition lastSegment (key : string) : string :=
  default "" (pop (split "." key)).

(** [updateChildObjectLiteral], lines 104-156. *)
Definition updateChildObjectLiteral (objectNode : Expression)
  (path : list string) (config : JsValue) : result Expression :=
  r ← visitEachChild (childVisitor path config) objectNode
        (initialPropertiesToAdd path config);
  let updatedObject := r.1 in
  let propertiesToAdd := r.2 in
  if (map_size propertiesToAdd =? 0)%nat then Ok updatedObject
  else
    extraProperties ← propertiesOfEntries lastSegment (map_entries propertiesToAdd);
    match updatedObject with
    | ObjectLiteralExpression properties _ =>
        Ok (createObjectLiteralExpression (properties ++ extraProperties) true)
    | _ => Throw (TypeError NotIterable)
    end.

(** The test of lines 213-216. *)
Definition isScalarInitializer (initializer : Expression) : bool :=
  isNumericLiteral initializer || isStringLiteralLike initializer ||
  isBooleanLiteral initializer || isCallExpression initializer.

(** [updateAssignments], the visitor inside [visitRootConfigNode], lines
    199-226.  The state is [propertyMap]. *)
Definition rootVisitor (newConfig : JsValue) : Visitor (JsMap JsValue) :=
  λ node propertyMap,
  match node with
  | PropertyAssignment name initializer =>
      if isObjectLiteralExpression initializer then
        text ← getText name;
        child ← updateChildObjectLiteral initializer [text] newConfig;
        updated ← createPropertyAssignment name (Some child);
        Ok (Some updated, propertyMap)
      else if isScalarInitializer initializer then
        text ← getText name;
        let value := getValueByPath newConfig [text] in
        if toBoolean value
        then
          let propertyMap := map_delete text propertyMap in
          r ← updatePropertyAssignment name value; Ok (r, propertyMap)
        else Ok (Some node, propertyMap)
      else Ok (Some node, propertyMap)
  | _ => Ok (Some node, propertyMap)
  end.

(** [propertyMap] as the loop of lines 192-197 fills it: the entries of
    the new configuration that are no objects. *)
Definition initialPropertyMap (newConfig : JsValue) : JsMap JsValue :=
  foldl (λ m item,
           let value := getProperty newConfig item in
           if decide (typeof value = TObject) then m else map_set item value m)
        map_empty (forInKeys newConfig).

(** [visitRootConfigNode], lines 187-245.  [rootNode] is [None] when the
    call has no argument. *)
Definition visitRootConfigNode (rootNode : option Expression)
  (newConfig : JsValue) : result (option Expression) :=
  r ← match rootNode with
      | Some node =>
          (λ r, (Some r.1, r.2)) <$>
            visitEachChild (rootVisitor newConfig) node
              (initialPropertyMap newConfig)
      | None => Ok (None, initialPropertyMap newConfig)
      end;
  let updatedConfig := r.1 in
  let propertyMap := r.2 in
  if (map_size propertyMap =? 0)%nat then Ok updatedConfig
  else
    newProperties ← propertiesOfEntries id (map_entries propertyMap);
    match updatedConfig with
    | None => Throw (TypeError (ReadPropertyOfUndefined "properties"))
    | Some (ObjectLiteralExpression properties multiLine) =>
        Ok (Some (ObjectLiteralExpression (newProperties ++ properties) multiLine))
    | Some _ => Throw (TypeError NotIterable)
    end.

(** The visitor of [mergeCypressConfigs], lines 30-53, on a statement of
    the file or on a statement below one: an export assignment is made
    again wherever it stands, every other node goes to
    [visitEachChild] with the visitor itself.  [node.expression as
    CallExpression] is a cast and tests nothing: an expression without
    [arguments] makes the read of [arguments[0]] throw, and a [new]
    expression, which has them, goes the way of a call and comes back
    from [factory.updateCallExpression] as a call. *)
Fixpoint visitStatement (newConfig : JsValue) (overwrite : bool)
  (node : Statement) : result Statement :=
  match node with
  | ExportAssignment isExportEquals expression =>
      match expression with
      | CallExpression callee typeArguments arguments
      | NewExpression callee typeArguments (Some arguments) =>
          let rootConfigNode := head arguments in
          newArguments ←
            (if overwrite then Ok []
             else r ← visitRootConfigNode rootConfigNode newConfig; Ok [r]);
          call ← createCallExpression callee typeArguments newArguments;
          Ok (ExportAssignment isExportEquals call)
      | _ => Throw (TypeError (ReadPropertyOfUndefined "0"))
      end
  | _ => visitEachChildOfStatement (visitStatement newConfig overwrite) node
  end.

(** [mergeCypressConfigs], lines 24-58, applied to a source file. *)
Definition mergeCypressConfigs (newConfig : JsValue) (overwrite : bool)
  (sourceFile : SourceFile) : result SourceFile :=
  mapR (visitStatement newConfig overwrite) sourceFile.

End merge.

End Merge.

Export Merge.

(** ** Reading the configuration *)

Section reading.
Context {chain : Inherited}.

Lemma getValueByPath_nil config : getValueByPath config [] = config.
Proof. done. Qed.

Lemma getValueByPath_app config p1 p2 :
  getValueByPath config (p1 ++ p2) = getValueByPath (getValueByPath config p1) p2.
Proof. apply foldl_app. Qed.

Lemma getValueByPath_snoc config path key :
  getValueByPath config (path ++ [key]) =
  optionalGet (getValueByPath config path) key.
Proof. by rewrite getValueByPath_app. Qed.

(** Below [undefined] everything is [undefined]: [?.] never throws. *)
Lemma getValueByPath_undefined path : getValueByPath JsUndefined path = JsUndefined.
Proof. induction path as [|k path IH]; [done | apply IH]. Qed.

(** For an object with distinct keys, the path of one key reads the value
    stored under it. *)
Lemma getValueByPath_entry es k v :
  NoDup es.*1 → (k, v) ∈ es → getValueByPath (JsObject es) [k] = v.
Proof.
  intros Hnd Hin. simpl. unfold getProperty. simpl.
  by rewrite (map_get_elem k v es).
Qed.

(** A key the object does not hold is read from the chain. *)
Lemma getValueByPath_absent es k :
  k ∉ es.*1 → getValueByPath (JsObject es) [k] = inherited (JsObject es) k.
Proof. intros Hk. simpl. by apply getProperty_absent. Qed.

End reading.

(** ** Building literals *)

(** The literal built for a number, a string or a boolean. *)
Definition literalOf (value : JsValue) : option Expression :=
  match value with
  | JsNum n => Some (createNumericLiteral n)
  | JsString s => Some (createStringLiteral s true)
  | JsBoolean b => Some (createBoolean b)
  | _ => None
  end.

Lemma literalOf_Some value :
  is_Some (literalOf value) ↔ typeof value ∈ [TNumber; TString; TBoolean].
Proof.
  rewrite !elem_of_cons, elem_of_nil.
  destruct value; simpl; split; try (intros [? ?]; done); eauto;
    intros [?|[?|[?|[]]]]; done.
Qed.

Lemma literalOf_scalar value e :
  literalOf value = Some e → isScalarInitializer e = true.
Proof. destruct value as [| |[]| | | |]; intros [= <-]; done. Qed.

Lemma updatePropertyAssignment_literal name value e :
  literalOf value = Some e →
  updatePropertyAssignment name value = Ok (Some (PropertyAssignment name e)).
Proof. destruct value; intros [= <-]; done. Qed.

Lemma updatePropertyAssignment_not_built name value :
  typeof value = TObject ∨ typeof value = TUndefined →
  updatePropertyAssignment name value = Ok None.
Proof. destruct value; intros [?|?]; done. Qed.

Lemma createExpressionFromFunction_reason source :
  createExpressionFromFunction (JsFunction source) =
  Throw (TypeError
    match stringMatch fnNameMatcher source, stringMatch fnArgMatcher source with
    | None, _ => ReadPropertyOfNull "0"
    | Some _, None => ReadPropertyOfNull "split"
    | Some _, Some _ => NotAFunction "split"
    end).
Proof.
  unfold createExpressionFromFunction.
  destruct (stringMatch fnNameMatcher source); simpl; [|done].
  by destruct (stringMatch fnArgMatcher source).
Qed.

Lemma updatePropertyAssignment_function name source :
  ∃ reason, updatePropertyAssignment name (JsFunction source)
            = Throw (TypeError reason).
Proof.
  unfold updatePropertyAssignment.
  rewrite createExpressionFromFunction_reason. simpl. eauto.
Qed.

(** [updatePropertyAssignment] by the type of the value: a literal, a
    [TypeError], or [undefined]. *)
Lemma updatePropertyAssignment_cases name value :
  match typeof value with
  | TNumber | TString | TBoolean =>
      ∃ e, literalOf value = Some e ∧
           updatePropertyAssignment name value
           = Ok (Some (PropertyAssignment name e))
  | TFunction => isTypeError (updatePropertyAssignment name value) = true
  | TObject | TUndefined => updatePropertyAssignment name value = Ok None
  end.
Proof.
  destruct value as [| |b|n|s|src|ps]; simpl typeof; cbv iota; eauto.
  by destruct (updatePropertyAssignment_function name src) as [r ->].
Qed.

(** No result of [updatePropertyAssignment] is an [undefined] element, and
    what it builds has the name it was given. *)
Lemma updatePropertyAssignment_Some name value el :
  updatePropertyAssignment name value = Ok (Some el) →
  ∃ e, literalOf value = Some e ∧ el = PropertyAssignment name e.
Proof.
  destruct value as [| |b|n|s|src|ps]; try done;
    try (intros [= <-]; simpl; eauto).
  by destruct (updatePropertyAssignment_function name src) as [r ->].
Qed.

(** Every error of [updatePropertyAssignment] is a [TypeError] for a
    function. *)
Lemma updatePropertyAssignment_Throw name value e :
  updatePropertyAssignment name value = Throw e →
  typeof value = TFunction ∧ ∃ reason, e = TypeError reason.
Proof.
  destruct value as [| |b|n|s|src|ps]; try done.
  destruct (updatePropertyAssignment_function name src) as [r ->].
  intros [= <-]. eauto.
Qed.

(** The values for which a property is built. *)
Definition isLiteralValue (value : JsValue) : bool :=
  bool_decide (is_Some (literalOf value)).

Lemma propertiesOfEntries_literals nameOf entries :
  Forall (λ kv, isLiteralValue kv.2 = true) entries →
  propertiesOfEntries nameOf entries =
  Ok (omap (λ kv, PropertyAssignment (CreatedIdentifier (nameOf kv.1))
                    <$> literalOf kv.2) entries).
Proof.
  unfold propertiesOfEntries.
  induction 1 as [|[k v] entries Hv _ IH]; simpl; [done|].
  apply bool_decide_eq_true in Hv as [e He]. simpl in *.
  rewrite (updatePropertyAssignment_literal _ _ e He), He. simpl.
  by rewrite IH.
Qed.

Lemma propertiesOfEntries_cons nameOf kv entries :
  propertiesOfEntries nameOf (kv :: entries) =
  r ← updatePropertyAssignment (CreatedIdentifier (nameOf kv.1)) kv.2;
  rest ← propertiesOfEntries nameOf entries;
  Ok (elementOfOption r :: rest).
Proof.
  unfold propertiesOfEntries. simpl.
  by destruct (updatePropertyAssignment _ _).
Qed.

(** A function among the entries makes the whole construction throw. *)
Lemma propertiesOfEntries_function nameOf entries k source :
  (k, JsFunction source) ∈ entries →
  isTypeError (propertiesOfEntries nameOf entries) = true.
Proof.
  induction entries as [|[k' v'] entries IH]; [by intros ?%elem_of_nil|].
  rewrite propertiesOfEntries_cons. simpl fst. simpl snd.
  intros [[= <- <-]|Hin]%elem_of_cons.
  - by destruct (updatePropertyAssignment_function
                   (CreatedIdentifier (nameOf k)) source) as [r ->].
  - destruct (updatePropertyAssignment _ v') as [r|e] eqn:E; simpl.
    + specialize (IH Hin). by destruct (propertiesOfEntries _ entries).
    + by apply updatePropertyAssignment_Throw in E as [_ [? ->]].
Qed.
