(* ===== verification/MergeForms.v ===== *)
(** * The two visitors of the merge engine as maps and folds

    [updateChildObjectLiteral] and [visitRootConfigNode] of
    [transformers.ts] walk the properties of an object literal with a
    visitor that replaces properties and, on the side, deletes keys from a
    local [Map].  What the visitor returns for a property does not depend
    on the map, and what it deletes does not depend on what it returns.
    This file proves that, and with it the closed forms the theorems on
    merging use: the visited properties are a map over the properties
    ([childResult], [rootResult]), and the map that is left is a fold of
    deletions ([childDelete], [rootDelete]) over the map the loop before
    the visit filled ([initialPropertiesToAdd], [initialPropertyMap]). *)

From S2P Require Import Prelude JsMap JsValue TsAst JsRegex Transformers.

(** ** The maps the loops fill *)

(** The key under which [updateChildObjectLiteral] files a property of
    the configuration: [[...path, key].join('.')]. *)
Definition joinedKey (path : list string) (key : string) : string :=
  join "." (path ++ [key]).

Lemma joinedKey_nil key : joinedKey [] key = key.
Proof. done. Qed.

Lemma joinedKey_cons p path key :
  joinedKey (p :: path) key = join "." (p :: path) +:+ "." +:+ key.
Proof. unfold joinedKey. by rewrite join_snoc. Qed.

#[global] Instance joinedKey_inj path : Inj (=) (=) (joinedKey path).
Proof.
  intros k1 k2. destruct path as [|p path]; [done|].
  rewrite !joinedKey_cons. by intros ?%append_inj_l%append_inj_l.
Qed.

(** The last segment of a filed key is the last segment of the key. *)
Lemma lastSegment_joinedKey path key :
  lastSegment (joinedKey path key) = lastSegment key.
Proof.
  destruct path as [|p path]; [done|].
  rewrite joinedKey_cons. unfold lastSegment.
  change ("." +:+ key) with (String "." key). by rewrite pop_split_app.
Qed.

Lemma lastSegment_no_dot key : occurs "." key = false → lastSegment key = key.
Proof. intros H. unfold lastSegment. by rewrite pop_split_no_sep. Qed.

Section forms.
Context {chain : Inherited}.

(** [propertyMap] holds the entries of the configuration that are no
    objects, in the order of the configuration. *)
Lemma initialPropertyMap_entries newConfig :
  NoDup (forInKeys newConfig) →
  initialPropertyMap newConfig =
  filter (λ kv, typeof kv.2 ≠ TObject) (ownEntries newConfig).
Proof.
  intros Hnd. unfold initialPropertyMap, getProperty.
  pose (H := λ (k : string) (v : JsValue),
               if decide (typeof v = TObject) then None else Some (k, v)).
  rewrite (foldl_ext_all _
    (λ m k, from_option (λ kv, map_set kv.1 kv.2 m) m
              (H k (default (inherited newConfig k)
                      (map_get k (ownEntries newConfig))))))
    by (intros m k; unfold H; destruct (map_get k _); simpl; by case_decide).
  rewrite foldl_set_NoDup.
  - unfold forInKeys. rewrite omap_keys_lookup by done.
    apply omap_guard. intros [k v]. unfold H. simpl. by repeat case_decide.
  - eapply sublist_NoDup; [exact Hnd|]. apply omap_keys_sublist.
    intros k kv. unfold H. by case_decide; intros [= <-].
Qed.

(** [propertiesToAdd] holds every entry of the configuration at [path],
    under its joined key. *)
Lemma initialPropertiesToAdd_entries path config :
  NoDup (forInKeys (getValueByPath config path)) →
  initialPropertiesToAdd path config =
  (λ kv, (joinedKey path kv.1, kv.2)) <$> ownEntries (getValueByPath config path).
Proof.
  intros Hnd. unfold initialPropertiesToAdd, getProperty.
  set (base := getValueByPath config path) in *.
  pose (H := λ (k : string) (v : JsValue), Some (joinedKey path k, v)).
  rewrite (foldl_ext_all _
    (λ m k, from_option (λ kv, map_set kv.1 kv.2 m) m
              (H k (default (inherited base k) (map_get k (ownEntries base))))))
    by (intros m k; by destruct (map_get k _)).
  assert (∀ l : list (string * JsValue),
            omap (λ kv, H kv.1 kv.2) l = (λ kv, (joinedKey path kv.1, kv.2)) <$> l)
    as Homap by (induction l as [|? l IH]; csimpl; [done | by rewrite IH]).
  rewrite foldl_set_NoDup; unfold forInKeys.
  - by rewrite omap_keys_lookup, Homap.
  - rewrite omap_keys_lookup, Homap by done.
    assert (∀ l : list (string * JsValue),
              ((λ kv, (joinedKey path kv.1, kv.2)) <$> l).*1
              = joinedKey path <$> l.*1) as ->
      by (induction l as [|? l IH]; csimpl; [done | by rewrite IH]).
    by apply (NoDup_fmap_2 _).
Qed.

(** ** One level down: [updateChildObjectLiteral] *)

(** What the visitor returns for a property. *)
Definition childResult (path : list string) (config : JsValue)
  (el : ObjectLiteralElement) : result (option ObjectLiteralElement) :=
  match el with
  | PropertyAssignment name _ =>
      text ← getText name;
      let value := getValueByPath config (path ++ [text]) in
      if isDefined value then updatePropertyAssignment name value
      else Ok (Some el)
  | _ => Ok (Some el)
  end.

(** What the visitor deletes for a property. *)
Definition childDelete (path : list string) (el : ObjectLiteralElement)
  (propertiesToAdd : JsMap JsValue) : JsMap JsValue :=
  match el with
  | PropertyAssignment (ParsedName text) _ =>
      map_delete (joinedKey path text) propertiesToAdd
  | _ => propertiesToAdd
  end.

(** What is left of [propertiesToAdd] after the visit. *)
Definition childLeft (path : list string) (config : JsValue)
  (ps : list ObjectLiteralElement) : JsMap JsValue :=
  foldl (λ s el, childDelete path el s) (initialPropertiesToAdd path config) ps.

Lemma childVisitor_separable path config el s :
  childVisitor path config el s =
  mbind (M:=result) (λ r, Ok (r, childDelete path el s))
        (childResult path config el).
Proof.
  destruct el as [[text|text] init| |]; simpl; try done.
  destruct (isDefined _); [|done].
  by destruct (updatePropertyAssignment _ _).
Qed.

Lemma updateChildObjectLiteral_closed ps ml path config :
  Forall (λ el, el ≠ UndefinedElement) ps →
  updateChildObjectLiteral (ObjectLiteralExpression ps ml) path config =
  rs ← mapR (childResult path config) ps;
  if (map_size (childLeft path config ps) =? 0)%nat
  then Ok (ObjectLiteralExpression (omap id rs) ml)
  else extra ← propertiesOfEntries lastSegment (childLeft path config ps);
       Ok (ObjectLiteralExpression (omap id rs ++ extra) true).
Proof.
  intros Hps. unfold updateChildObjectLiteral, visitEachChild.
  rewrite (visitNodes_separable _ (childResult path config) (childDelete path)).
  - destruct (mapR _ ps) as [rs|e]; simpl; [|done]. fold (childLeft path config ps).
    destruct (map_size _ =? 0)%nat; [done|].
    by destruct (propertiesOfEntries _ _).
  - eapply Forall_impl; [exact Hps|]. intros el Hel. split; [done|].
    intros s. apply childVisitor_separable.
Qed.

(** ** The root: [visitRootConfigNode] *)

(** What the visitor returns for a property. *)
Definition rootResult (newConfig : JsValue) (el : ObjectLiteralElement)
  : result (option ObjectLiteralElement) :=
  match el with
  | PropertyAssignment name initializer =>
      if isObjectLiteralExpression initializer then
        text ← getText name;
        child ← updateChildObjectLiteral initializer [text] newConfig;
        Ok (Some (PropertyAssignment name child))
      else if isScalarInitializer initializer then
        text ← getText name;
        let value := getValueByPath newConfig [text] in
        if toBoolean value then updatePropertyAssignment name value
        else Ok (Some el)
      else Ok (Some el)
  | _ => Ok (Some el)
  end.

(** Whether the visitor takes the property for updated: a scalar
    initializer and a truthy value in the configuration. *)
Definition rootUpdates (newConfig : JsValue) (el : ObjectLiteralElement)
  : option string :=
  match el with
  | PropertyAssignment (ParsedName text) initializer =>
      if negb (isObjectLiteralExpression initializer) &&
         isScalarInitializer initializer &&
         toBoolean (getValueByPath newConfig [text])
      then Some text else None
  | _ => None
  end.

(** What the visitor deletes for a property. *)
Definition rootDelete (newConfig : JsValue) (el : ObjectLiteralElement)
  (propertyMap : JsMap JsValue) : JsMap JsValue :=
  from_option (λ text, map_delete text propertyMap) propertyMap
              (rootUpdates newConfig el).

(** What is left of [propertyMap] after the visit. *)
Definition rootLeft (newConfig : JsValue) (ps : list ObjectLiteralElement)
  : JsMap JsValue :=
  foldl (λ s el, rootDelete newConfig el s) (initialPropertyMap newConfig) ps.

Lemma rootVisitor_separable newConfig el s :
  rootVisitor newConfig el s =
  mbind (M:=result) (λ r, Ok (r, rootDelete newConfig el s))
        (rootResult newConfig el).
Proof.
  destruct el as [[text|text] init| |]; try done;
    unfold rootVisitor, rootResult, rootDelete, rootUpdates;
    destruct (isObjectLiteralExpression init); simpl;
    try by destruct (updateChildObjectLiteral _ _ _).
  all: destruct (isScalarInitializer init); simpl; try done.
  destruct (toBoolean _); simpl; [|done].
  by destruct (updatePropertyAssignment _ _).
Qed.

Lemma visitRootConfigNode_closed ps ml newConfig :
  Forall (λ el, el ≠ UndefinedElement) ps →
  visitRootConfigNode (Some (ObjectLiteralExpression ps ml)) newConfig =
  rs ← mapR (rootResult newConfig) ps;
  if (map_size (rootLeft newConfig ps) =? 0)%nat
  then Ok (Some (ObjectLiteralExpression (omap id rs) ml))
  else news ← propertiesOfEntries id (rootLeft newConfig ps);
       Ok (Some (ObjectLiteralExpression (news ++ omap id rs) ml)).
Proof.
  intros Hps. unfold visitRootConfigNode, visitEachChild.
  rewrite (visitNodes_separable _ (rootResult newConfig) (rootDelete newConfig)).
  - destruct (mapR _ ps) as [rs|e]; simpl; [|done]. fold (rootLeft newConfig ps).
    destruct (map_size _ =? 0)%nat; [done|].
    by destruct (propertiesOfEntries _ _).
  - eapply Forall_impl; [exact Hps|]. intros el Hel. split; [done|].
    intros s. apply rootVisitor_separable.
Qed.

(** ** Parsed trees *)

Lemma parsed_no_undefined ps :
  forallb parsedElement ps = true → Forall (λ el, el ≠ UndefinedElement) ps.
Proof.
  rewrite forallb_forall, Forall_forall. intros H el Hel ->.
  by apply list_elem_of_In, H in Hel.
Qed.

Lemma parsed_Forall ps :
  forallb parsedElement ps = true → Forall (λ el, parsedElement el = true) ps.
Proof.
  rewrite forallb_forall, Forall_forall. intros H el Hel.
  by apply H, list_elem_of_In.
Qed.

(** ** Names that are read from the configuration itself *)

(** The visitors read the configuration at [path] under the name of
    every property they visit.  [ownReads] says that the read for this
    property finds what the configuration itself holds there, an entry
    or nothing: the name is not one the value inherits
    ([constructor], [toString], ...), unless the configuration has an
    entry of that name. *)
Definition ownReads (path : list string) (config : JsValue)
  (el : ObjectLiteralElement) : Prop :=
  match el with
  | PropertyAssignment (ParsedName text) _ =>
      ownRead (getValueByPath config path) text
  | _ => True
  end.

#[global] Instance ownReads_dec path config el :
  Decision (ownReads path config el).
Proof. destruct el as [[text|text] init| |]; apply _. Defined.

(** Below [undefined] every read is own. *)
Lemma ownReads_undefined path config el :
  getValueByPath config path = JsUndefined → ownReads path config el.
Proof. destruct el as [[text|text] init| |]; simpl; try done. by intros ->. Qed.

(** ** What is left in the maps *)

(** The keys the child visitor deletes: the joined keys of the parsed
    property assignments. *)
Definition childDeleted (path : list string) (ps : list ObjectLiteralElement)
  : list string :=
  omap (λ el, match el with
              | PropertyAssignment (ParsedName text) _ => Some (joinedKey path text)
              | _ => None
              end) ps.

Lemma foldl_delete_omap {A} (h : A → option string) (l : list A)
    (m : JsMap JsValue) :
  foldl (λ s x, from_option (λ k, map_delete k s) s (h x)) m l =
  map_delete_all (omap h l) m.
Proof.
  revert m. induction l as [|x l IH]; intros m; csimpl; [done|].
  rewrite IH. by destruct (h x).
Qed.

Lemma childLeft_filter path config ps :
  childLeft path config ps =
  filter (λ kv, kv.1 ∉ childDeleted path ps) (initialPropertiesToAdd path config).
Proof.
  unfold childLeft, childDeleted. rewrite <-map_delete_all_filter, <-foldl_delete_omap.
  apply foldl_ext_all. intros s [[text|text] init| |]; done.
Qed.

Lemma rootLeft_filter newConfig ps :
  rootLeft newConfig ps =
  filter (λ kv, kv.1 ∉ omap (rootUpdates newConfig) ps)
         (initialPropertyMap newConfig).
Proof.
  unfold rootLeft, rootDelete.
  by rewrite foldl_delete_omap, map_delete_all_filter.
Qed.

End forms.
