(* ===== verification/TestConfig.v ===== *)
(** * The configuration file of the repository's test

    [update-config.spec.ts] runs [addOrUpdateConfigProperties] on one
    configuration file and one new configuration.  This file holds the
    tree of that file as the parser gives it ([configContent]) and the
    new configuration of the test ([testConfig]); the theorems use them as
    concrete inputs. *)

From S2P Require Import Prelude JsValue TsAst.

(** A single-quoted string literal of the file. *)
Definition quoted (text : string) : Expression := StringLiteral text true.

(** A property of the file, named by an identifier. *)
Definition property (name : string) (initializer : Expression)
  : ObjectLiteralElement :=
  PropertyAssignment (ParsedName name) initializer.

(** Lines 13-21 of the test: the [component] object. *)
Definition componentObject : Expression :=
  ObjectLiteralExpression
    [ property "devServer"
        (CallExpression (Identifier "componentDevServer") []
           [quoted "tsconfig.cy.json"; quoted "babel"]);
      property "pluginsFile" FalseKeyword;
      property "video" TrueKeyword;
      property "chromeWebSecurity" FalseKeyword;
      property "fixturesFolder" (quoted "cypress/fixtures");
      property "specPattern" (quoted "**/*.cy.{js,jsx,ts,tsx}");
      property "supportFile" (quoted "cypress/support/component.ts");
      property "videosFolder" (quoted "../../dist/cypress/apps/n/videos");
      property "screenshotsFolder" (quoted "../../dist/cypress/apps/n/screenshots") ]
    true.

(** Lines 24-33 of the test: the [e2e] object. *)
Definition e2eObject : Expression :=
  ObjectLiteralExpression
    [ property "fileServerFolder" (quoted ".");
      property "fixturesFolder" (quoted "./src/fixtures");
      property "integrationFolder" (quoted "./src/e2e");
      property "supportFile" (quoted "./src/support/e2e.ts");
      property "specPattern" (quoted "**/*.cy.{js,ts}");
      property "pluginsFile" FalseKeyword;
      property "video" TrueKeyword;
      property "videosFolder"
        (quoted "../../dist/cypress/apps/myapp4299814-e2e/videos");
      property "screenshotsFolder"
        (quoted "../../dist/cypress/apps/myapp4299814-e2e/screenshots");
      property "chromeWebSecurity" FalseKeyword ]
    true.

(** Lines 10-35 of the test: the object passed to [defineConfig]. *)
Definition rootObject : Expression :=
  ObjectLiteralExpression
    [ property "baseUrl" (quoted "blah its me");
      property "component" componentObject;
      property "e2e" e2eObject ]
    true.

(** Lines 5-36 of the test: the file. *)
Definition configContent : SourceFile :=
  [ OtherStatement "import { defineConfig } from 'cypress';";
    OtherStatement "import { componentDevServer } from '@nrwl/cypress/plugins/next';";
    ExportAssignment false
      (CallExpression (Identifier "defineConfig") [] [rootObject]) ].

(** Lines 40-52 of the test: the new configuration.  The value of
    [component.devServer] is what [componentDevServer('tsconfig.cy.json',
    'swc')] returns; it is a parameter here. *)
Definition testConfig (devServer : JsValue) : JsValue :=
  JsObject
    [ ("blah", JsString "i am a top level property");
      ("baseUrl", JsString "http://localhost:1234");
      ("component",
        JsObject
          [ ("fixturesFolder", JsString "cypress/fixtures/cool");
            ("devServer", devServer);
            ("blah", JsString "i am a random property") ]);
      ("e2e", JsObject [ ("video", JsBoolean false) ]) ].

(** The new configuration of the test without the [devServer] entry. *)
Definition testConfigWithoutDevServer : JsValue :=
  JsObject
    [ ("blah", JsString "i am a top level property");
      ("baseUrl", JsString "http://localhost:1234");
      ("component",
        JsObject
          [ ("fixturesFolder", JsString "cypress/fixtures/cool");
            ("blah", JsString "i am a random property") ]);
      ("e2e", JsObject [ ("video", JsBoolean false) ]) ].

Lemma rootObject_parsed : parsedExpression rootObject = true.
Proof. reflexivity. Qed.

Lemma configContent_parsed : forallb parsedStatement configContent = true.
Proof. reflexivity. Qed.
