(* ===== verification/MergeKeeps.v ===== *)
(** * The merge engine: what it leaves alone

    Theorems on [transformers.ts], proved from the closed forms of
    [MergeForms.v]:
    - a configuration that says nothing about a property leaves it as it
      is, one level down and at the root, and a configuration with no
      entries returns the root as it was, when no name of the root is one
      the configuration inherits;
    - the properties a configuration does not mention keep their order. *)

From S2P Require Import Prelude JsMap JsValue TsAst JsRegex Transformers.
From S2P Require Import MergeForms TestConfig.

Section keeps.
Context {chain : Inherited}.

(** ** Properties the configuration does not mention *)

(** The configuration has no value for the property: it is no property
    assignment, or the value under its name is [undefined]. *)
Definition untouched (path : list string) (config : JsValue)
  (el : ObjectLiteralElement) : bool :=
  match el with
  | PropertyAssignment (ParsedName text) _ =>
      negb (isDefined (getValueByPath config (path ++ [text])))
  | PropertyAssignment (CreatedIdentifier _) _ => false
  | OtherElement _ => true
  | UndefinedElement => false
  end.

Lemma childResult_untouched path config el :
  untouched path config el = true → childResult path config el = Ok (Some el).
Proof.
  destruct el as [[text|text] init| |]; simpl; try done.
  by intros ->%negb_true_iff.
Qed.

Lemma untouched_no_entries path config el :
  parsedElement el = true → ownReads path config el →
  forInKeys (getValueByPath config path) = [] →
  untouched path config el = true.
Proof.
  destruct el as [[text|text] init| |]; simpl; try done. intros _ Hown Hkeys.
  by rewrite getValueByPath_snoc, optionalGet_no_entries.
Qed.

Lemma childLeft_no_entries path config ps :
  forInKeys (getValueByPath config path) = [] → childLeft path config ps = [].
Proof.
  intros Hkeys. unfold childLeft, initialPropertiesToAdd. rewrite Hkeys. simpl.
  apply foldl_fixpoint. by intros [[text|text] init| |].
Qed.

(** One level down, a configuration with nothing at [path] changes
    nothing. *)
Lemma updateChildObjectLiteral_nothing_to_merge ps ml path config :
  forallb parsedElement ps = true →
  Forall (ownReads path config) ps →
  forInKeys (getValueByPath config path) = [] →
  updateChildObjectLiteral (ObjectLiteralExpression ps ml) path config
  = Ok (ObjectLiteralExpression ps ml).
Proof.
  intros Hps Hown Hconfig.
  rewrite updateChildObjectLiteral_closed by by apply parsed_no_undefined.
  rewrite (mapR_Some_id (childResult path config) ps).
  - simpl. by rewrite childLeft_no_entries, omap_id_Some.
  - apply parsed_Forall in Hps. rewrite Forall_forall in *. intros el Hel.
    apply childResult_untouched, untouched_no_entries; auto.
Qed.

Lemma rootResult_untouched newConfig el :
  parsedElement el = true → untouched [] newConfig el = true →
  rootResult newConfig el = Ok (Some el).
Proof.
  destruct el as [[text|text] init| |]; simpl; try done.
  intros Hinit Hvalue%negb_true_iff%isDefined_false.
  destruct init as [| | | | | |c ts args|cps cml| |]; simpl; try done;
    try (by rewrite Hvalue).
  rewrite updateChildObjectLiteral_nothing_to_merge; [done..| |].
  - apply Forall_forall. intros el _. by apply ownReads_undefined.
  - simpl in *. by rewrite Hvalue.
Qed.

(** C3. A merge keeps the properties of the root object that the new
    configuration has no value for, as they are and in their order: they
    are a sublist of the properties of the result. *)
Theorem visitRootConfigNode_keeps_untouched ps ml newConfig ps' ml' :
  forallb parsedElement ps = true →
  visitRootConfigNode (Some (ObjectLiteralExpression ps ml)) newConfig
  = Ok (Some (ObjectLiteralExpression ps' ml')) →
  filter (λ el, untouched [] newConfig el = true) ps `sublist_of` ps'.
Proof.
  intros Hps. rewrite visitRootConfigNode_closed by by apply parsed_no_undefined.
  destruct (mapR (rootResult newConfig) ps) as [rs|e] eqn:Hrs; simpl; [|done].
  assert (filter (λ el, untouched [] newConfig el = true) ps
          `sublist_of` omap id rs) as Hkept.
  { eapply omap_id_kept; [|done]. intros el Hel Hu.
    apply rootResult_untouched; [|done].
    apply parsed_Forall in Hps. by eapply Forall_forall in Hps. }
  destruct (map_size _ =? 0)%nat; [by intros [= <- _]|].
  destruct (propertiesOfEntries _ _) as [news|e]; simpl; [|done].
  intros [= <- _]. by apply sublist_inserts_l.
Qed.

(** One level down the same holds: the properties of a nested object
    that the configuration has no value for are kept in their order. *)
Theorem updateChildObjectLiteral_keeps_untouched ps ml path config ps' ml' :
  forallb parsedElement ps = true →
  updateChildObjectLiteral (ObjectLiteralExpression ps ml) path config
  = Ok (ObjectLiteralExpression ps' ml') →
  filter (λ el, untouched path config el = true) ps `sublist_of` ps'.
Proof.
  intros Hps. rewrite updateChildObjectLiteral_closed by by apply parsed_no_undefined.
  destruct (mapR (childResult path config) ps) as [rs|e] eqn:Hrs; simpl; [|done].
  assert (filter (λ el, untouched path config el = true) ps
          `sublist_of` omap id rs) as Hkept.
  { eapply omap_id_kept; [|done]. intros el _ Hu.
    by apply childResult_untouched. }
  destruct (map_size _ =? 0)%nat; [by intros [= <- _]|].
  destruct (propertiesOfEntries _ _) as [extra|e]; simpl; [|done].
  intros [= <- _]. by apply sublist_inserts_r.
Qed.

(** The names of the properties of a root are read from the
    configuration itself. *)
Definition rootOwnReads (newConfig : JsValue) (root : Expression) : Prop :=
  match root with
  | ObjectLiteralExpression ps _ => Forall (ownReads [] newConfig) ps
  | _ => True
  end.

#[global] Instance rootOwnReads_dec newConfig root :
  Decision (rootOwnReads newConfig root).
Proof. destruct root; apply _. Defined.

(** A new configuration without entries changes nothing: the root comes
    back as it was, unless a property of the root has a name that the
    configuration inherits. *)
Lemma visitRootConfigNode_no_entries root newConfig :
  parsedExpression root = true →
  rootOwnReads newConfig root →
  forInKeys newConfig = [] →
  visitRootConfigNode (Some root) newConfig = Ok (Some root).
Proof.
  intros Hroot Hown Hconfig.
  assert (initialPropertyMap newConfig = []) as Hmap
    by (unfold initialPropertyMap; by rewrite Hconfig).
  destruct root as [| | | | | |c ts args|ps ml| |];
    try (unfold visitRootConfigNode; simpl; by rewrite Hmap).
  simpl in Hroot, Hown.
  rewrite visitRootConfigNode_closed by by apply parsed_no_undefined.
  rewrite (mapR_Some_id (rootResult newConfig) ps).
  - simpl. unfold rootLeft. rewrite Hmap, foldl_fixpoint, omap_id_Some; [done|].
    intros el. unfold rootDelete. by destruct (rootUpdates newConfig el).
  - apply parsed_Forall in Hroot. rewrite Forall_forall in *. intros el Hel.
    apply rootResult_untouched; [auto|].
    apply untouched_no_entries; auto.
Qed.

End keeps.

(** ** Examples *)

#[local] Existing Instance standardPrototypes.

Lemma visitRootConfigNode_keeps_untouched_witness :
  filter (λ el, untouched [] testConfigWithoutDevServer el = true)
    [property "baseDir" (quoted "."); property "baseUrl" (quoted "x")]
  `sublist_of`
    [PropertyAssignment (CreatedIdentifier "blah")
       (StringLiteral "i am a top level property" true);
     property "baseDir" (quoted ".");
     property "baseUrl" (quoted "http://localhost:1234")].
Proof.
  apply (visitRootConfigNode_keeps_untouched _ true _ _ true); reflexivity.
Defined.

Lemma updateChildObjectLiteral_keeps_untouched_witness :
  filter (λ el, untouched ["e2e"] testConfigWithoutDevServer el = true)
    [property "pluginsFile" FalseKeyword; property "video" TrueKeyword;
     property "chromeWebSecurity" FalseKeyword]
  `sublist_of`
    [property "pluginsFile" FalseKeyword; property "video" FalseKeyword;
     property "chromeWebSecurity" FalseKeyword].
Proof.
  apply (updateChildObjectLiteral_keeps_untouched _ true _ _ _ true);
    reflexivity.
Defined.
