(* ===== verification/MergeThrows.v ===== *)
(** * The merge engine: when it throws

    Theorems on the exceptions of [transformers.ts]:
    - every exception of the engine is a [TypeError];
    - [createExpressionFromFunction] throws for every function, so a
      function anywhere the engine builds a literal makes the merge throw:
      one level down, at the root, and for the new configuration of the
      repository's own test when [componentDevServer(...)] returns a
      function;
    - a function that the configuration inherits under the name of a
      scalar property of the file does the same, although the
      configuration has no entry of that name. *)

From S2P Require Import Prelude JsMap JsValue TsAst JsRegex Transformers.
From S2P Require Import MergeForms TestConfig.

Section throws.
Context {chain : Inherited}.

(** ** Only [TypeError] *)

Lemma createExpressionFromFunction_onlyTypeError fn :
  onlyTypeError (createExpressionFromFunction fn).
Proof.
  destruct fn; try done. by rewrite createExpressionFromFunction_reason.
Qed.

Lemma updatePropertyAssignment_onlyTypeError name value :
  onlyTypeError (updatePropertyAssignment name value).
Proof.
  destruct value; try done.
  by destruct (updatePropertyAssignment_function name source) as [r ->].
Qed.

#[local] Hint Resolve createExpressionFromFunction_onlyTypeError
  updatePropertyAssignment_onlyTypeError : js.

Lemma propertiesOfEntries_onlyTypeError nameOf entries :
  onlyTypeError (propertiesOfEntries nameOf entries).
Proof. unfold propertiesOfEntries. only_type_error. Qed.

Lemma childVisitor_onlyTypeError path config el s :
  onlyTypeError (childVisitor path config el s).
Proof. unfold childVisitor. only_type_error. Qed.

#[local] Hint Resolve propertiesOfEntries_onlyTypeError
  childVisitor_onlyTypeError : js.

Lemma updateChildObjectLiteral_onlyTypeError objectNode path config :
  onlyTypeError (updateChildObjectLiteral objectNode path config).
Proof. unfold updateChildObjectLiteral. only_type_error. Qed.

#[local] Hint Resolve updateChildObjectLiteral_onlyTypeError : js.

Lemma rootVisitor_onlyTypeError newConfig el s :
  onlyTypeError (rootVisitor newConfig el s).
Proof. unfold rootVisitor. only_type_error. Qed.

#[local] Hint Resolve rootVisitor_onlyTypeError : js.

Lemma visitRootConfigNode_onlyTypeError rootNode newConfig :
  onlyTypeError (visitRootConfigNode rootNode newConfig).
Proof. unfold visitRootConfigNode. only_type_error. Qed.

#[local] Hint Resolve visitRootConfigNode_onlyTypeError : js.

(** The visitor of [mergeCypressConfigs] is a visitor of statements. *)
#[global] Instance visitStatement_visitor newConfig overwrite :
  StatementVisitor (visitStatement newConfig overwrite).
Proof. statement_visitor. Qed.

Lemma visitStatement_onlyTypeError newConfig overwrite node :
  onlyTypeError (visitStatement newConfig overwrite node).
Proof. apply visitor_onlyTypeError; [apply _|]. intros. simpl. only_type_error. Qed.

Lemma mergeCypressConfigs_onlyTypeError newConfig overwrite sourceFile :
  onlyTypeError (mergeCypressConfigs newConfig overwrite sourceFile).
Proof.
  unfold mergeCypressConfigs. apply onlyTypeError_mapR.
  intros node. apply visitStatement_onlyTypeError.
Qed.

(** C12. Whatever the file and the new configuration, the transformer
    returns a file or throws a [TypeError]; it throws nothing else. *)
Theorem mergeCypressConfigs_only_TypeError newConfig overwrite sourceFile e :
  mergeCypressConfigs newConfig overwrite sourceFile = Throw e →
  ∃ reason, e = TypeError reason.
Proof.
  apply onlyTypeError_inv, mergeCypressConfigs_onlyTypeError.
Qed.

(** ** Functions *)

(** [createExpressionFromFunction] never returns for a function: the
    array that [match] returns has no [split], and [null] has no
    properties. *)
Theorem createExpressionFromFunction_throws source :
  isTypeError (createExpressionFromFunction (JsFunction source)) = true.
Proof. by rewrite createExpressionFromFunction_reason. Qed.

(** A computation of the engine that fails, fails with a [TypeError]. *)
Lemma failed_is_TypeError {A} (m : result A) :
  onlyTypeError m → isOk m = false → isTypeError m = true.
Proof. intros. by apply isTypeError_iff. Qed.

Lemma updatePropertyAssignment_function_fails name source :
  isOk (updatePropertyAssignment name (JsFunction source)) = false.
Proof. by destruct (updatePropertyAssignment_function name source) as [r ->]. Qed.

(** What is built from a map that holds a function fails. *)
Lemma build_left_fails {A} nameOf (m : JsMap JsValue) k source
    (whenEmpty : result A) (build : list ObjectLiteralElement → result A) :
  (k, JsFunction source) ∈ m →
  isOk (if (map_size m =? 0)%nat then whenEmpty
        else news ← propertiesOfEntries nameOf m; build news) = false.
Proof.
  intros Hin. destruct m as [|kv m]; [by apply elem_of_nil in Hin|]. simpl.
  apply bind_isOk_false.
  eapply isTypeError_iff, propertiesOfEntries_function, Hin.
Qed.

Lemma childDeleted_elem path ps key :
  key ∈ childDeleted path ps →
  ∃ text init, key = joinedKey path text ∧
               PropertyAssignment (ParsedName text) init ∈ ps.
Proof.
  intros (el & Hel & Hk)%list_elem_of_omap.
  destruct el as [[text|text] init| |]; simplify_eq. eauto.
Qed.

Lemma childResult_function_fails path config text init source :
  optionalGet (getValueByPath config path) text = JsFunction source →
  isOk (childResult path config (PropertyAssignment (ParsedName text) init)) = false.
Proof.
  intros Hv. simpl. rewrite getValueByPath_snoc, Hv. simpl.
  apply updatePropertyAssignment_function_fails.
Qed.

Lemma updateChildObjectLiteral_function_fails ps ml path config k source :
  Forall (λ el, el ≠ UndefinedElement) ps →
  NoDup (forInKeys (getValueByPath config path)) →
  (k, JsFunction source) ∈ ownEntries (getValueByPath config path) →
  isOk (updateChildObjectLiteral (ObjectLiteralExpression ps ml) path config)
  = false.
Proof.
  intros Hps Hnd Hin.
  rewrite updateChildObjectLiteral_closed by done.
  destruct (decide (joinedKey path k ∈ childDeleted path ps)) as [Hdel|Hleft].
  - apply childDeleted_elem in Hdel as (text & init & <-%(inj _) & Hel).
    eapply bind_isOk_false, mapR_elem_Throw; [done|].
    by eapply childResult_function_fails, optionalGet_entry.
  - destruct (mapR _ ps) as [rs|e]; [|done]. simpl.
    apply (build_left_fails _ _ (joinedKey path k) source).
    rewrite childLeft_filter, initialPropertiesToAdd_entries by done.
    apply list_elem_of_filter. split; [done|].
    by apply (list_elem_of_fmap_2 (λ kv, (joinedKey path kv.1, kv.2)) _
                (k, JsFunction source)).
Qed.

(** C9. One level down, a function among the values of the configuration
    at [path] makes [updateChildObjectLiteral] throw a [TypeError], whether
    the object has a property of that name or not. *)
Theorem updateChildObjectLiteral_function_throws ps ml path config k source :
  Forall (λ el, el ≠ UndefinedElement) ps →
  NoDup (forInKeys (getValueByPath config path)) →
  (k, JsFunction source) ∈ ownEntries (getValueByPath config path) →
  isTypeError (updateChildObjectLiteral (ObjectLiteralExpression ps ml)
                 path config) = true.
Proof.
  intros Hps Hnd Hin. apply failed_is_TypeError; [eauto with js|].
  by eapply updateChildObjectLiteral_function_fails.
Qed.

Lemma rootUpdates_Some newConfig el k :
  rootUpdates newConfig el = Some k →
  ∃ init, el = PropertyAssignment (ParsedName k) init ∧
          rootResult newConfig el =
          updatePropertyAssignment (ParsedName k) (getValueByPath newConfig [k]).
Proof.
  destruct el as [[text|text] init| |]; try done. simpl.
  destruct (isObjectLiteralExpression init); [done|].
  destruct (isScalarInitializer init); [|done].
  destruct (toBoolean _) eqn:Hv; [|done]. simpl. intros [= <-].
  by exists init.
Qed.

Lemma visitRootConfigNode_function_fails ps ml newConfig k source :
  Forall (λ el, el ≠ UndefinedElement) ps →
  NoDup (forInKeys newConfig) →
  (k, JsFunction source) ∈ ownEntries newConfig →
  isOk (visitRootConfigNode (Some (ObjectLiteralExpression ps ml)) newConfig)
  = false.
Proof.
  intros Hps Hnd Hin.
  rewrite visitRootConfigNode_closed by done.
  destruct (decide (k ∈ omap (rootUpdates newConfig) ps)) as [Hdel|Hleft].
  - apply list_elem_of_omap in Hdel as (el & Hel & (init & -> & Hr)%rootUpdates_Some).
    eapply bind_isOk_false, mapR_elem_Throw; [done|]. rewrite Hr.
    change (getValueByPath newConfig [k]) with (optionalGet newConfig k).
    rewrite (optionalGet_entry _ _ (JsFunction source)) by done.
    apply updatePropertyAssignment_function_fails.
  - destruct (mapR _ ps) as [rs|e]; [|done]. simpl.
    apply (build_left_fails _ _ k source).
    rewrite rootLeft_filter, initialPropertyMap_entries by done.
    by rewrite !list_elem_of_filter.
Qed.

(** C8. At the root, a function among the values of the new configuration
    makes [visitRootConfigNode] throw a [TypeError], whatever the root
    object holds. *)
Theorem visitRootConfigNode_function_throws ps ml newConfig k source :
  Forall (λ el, el ≠ UndefinedElement) ps →
  NoDup (forInKeys newConfig) →
  (k, JsFunction source) ∈ ownEntries newConfig →
  isTypeError (visitRootConfigNode (Some (ObjectLiteralExpression ps ml))
                 newConfig) = true.
Proof.
  intros Hps Hnd Hin. apply failed_is_TypeError; [eauto with js|].
  by eapply visitRootConfigNode_function_fails.
Qed.

Lemma rootResult_child_fails newConfig text cps cml :
  isOk (updateChildObjectLiteral (ObjectLiteralExpression cps cml) [text] newConfig)
  = false →
  isOk (rootResult newConfig
          (PropertyAssignment (ParsedName text) (ObjectLiteralExpression cps cml)))
  = false.
Proof. simpl. by destruct (updateChildObjectLiteral _ _ _). Qed.

Lemma visitRootConfigNode_nested_function_fails ps ml newConfig name cps cml k source :
  Forall (λ el, el ≠ UndefinedElement) ps →
  Forall (λ el, el ≠ UndefinedElement) cps →
  PropertyAssignment (ParsedName name) (ObjectLiteralExpression cps cml) ∈ ps →
  NoDup (forInKeys (getValueByPath newConfig [name])) →
  (k, JsFunction source) ∈ ownEntries (getValueByPath newConfig [name]) →
  isOk (visitRootConfigNode (Some (ObjectLiteralExpression ps ml)) newConfig)
  = false.
Proof.
  intros Hps Hcps Hel Hnd Hin.
  rewrite visitRootConfigNode_closed by done.
  eapply bind_isOk_false, mapR_elem_Throw; [done|].
  by eapply rootResult_child_fails, updateChildObjectLiteral_function_fails.
Qed.

Lemma visitStatement_root_fails newConfig isExportEquals callee ts args :
  isOk (visitRootConfigNode (head args) newConfig) = false →
  isOk (visitStatement newConfig false
          (ExportAssignment isExportEquals (CallExpression callee ts args)))
  = false.
Proof. simpl. by destruct (visitRootConfigNode _ _). Qed.

Lemma mergeCypressConfigs_root_fails newConfig sourceFile isExportEquals callee ts args :
  ExportAssignment isExportEquals (CallExpression callee ts args)
    ∈ sourceFile ≫= exportAssignments →
  isOk (visitRootConfigNode (head args) newConfig) = false →
  isOk (mergeCypressConfigs newConfig false sourceFile) = false.
Proof.
  intros Hin Hroot. eapply visitFile_export_fails; [apply _ | done|].
  by apply visitStatement_root_fails.
Qed.

(** The new configuration of the repository's test holds the value of
    [componentDevServer('tsconfig.cy.json', 'swc')] under
    [component.devServer].  If that value is a function, whatever its
    source text, merging the test's configuration into the test's file
    throws a [TypeError]. *)
Theorem mergeCypressConfigs_test_function_throws source :
  isTypeError (mergeCypressConfigs (testConfig (JsFunction source)) false
                 configContent) = true.
Proof.
  apply failed_is_TypeError; [apply mergeCypressConfigs_onlyTypeError|].
  eapply mergeCypressConfigs_root_fails; [repeat constructor|].
  eapply (visitRootConfigNode_nested_function_fails _ _ _ "component" _ _
              "devServer" source).
  all: only 3: repeat constructor.
  - by apply parsed_no_undefined.
  - by apply parsed_no_undefined.
  - apply (bool_decide_unpack _). by vm_compute.
  - repeat constructor.
Qed.

(** ** Names the configuration inherits *)

Lemma rootResult_function_fails newConfig text init source :
  isObjectLiteralExpression init = false → isScalarInitializer init = true →
  getValueByPath newConfig [text] = JsFunction source →
  isOk (rootResult newConfig (PropertyAssignment (ParsedName text) init)) = false.
Proof.
  intros Hobj Hscalar Hvalue. simpl in *. rewrite Hobj, Hscalar, Hvalue. simpl.
  apply updatePropertyAssignment_function_fails.
Qed.

(** C35. The new configuration is read by name with [acc?.[key]], which
    goes through the prototype chain, and nothing tests for an own
    property.  A scalar property of the root whose name the
    configuration has no entry for, and under which it inherits a
    function ([constructor], [toString], [valueOf], ... for every
    object), is taken for updated with that function: the merge throws a
    [TypeError], whatever the configuration holds. *)
Theorem visitRootConfigNode_inherited_function_throws
    ps ml entries text init source :
  Forall (λ el, el ≠ UndefinedElement) ps →
  PropertyAssignment (ParsedName text) init ∈ ps →
  isObjectLiteralExpression init = false → isScalarInitializer init = true →
  text ∉ entries.*1 →
  inherited (JsObject entries) text = JsFunction source →
  isTypeError (visitRootConfigNode (Some (ObjectLiteralExpression ps ml))
                 (JsObject entries)) = true.
Proof.
  intros Hps Hel Hobj Hscalar Hkey Hinherited.
  apply failed_is_TypeError; [eauto with js|].
  rewrite visitRootConfigNode_closed by done.
  eapply bind_isOk_false, mapR_elem_Throw; [done|].
  eapply rootResult_function_fails; [done..|].
  by rewrite getValueByPath_absent.
Qed.

End throws.

#[export] Hint Resolve createExpressionFromFunction_onlyTypeError
  updatePropertyAssignment_onlyTypeError : js.

#[export] Hint Resolve propertiesOfEntries_onlyTypeError
  childVisitor_onlyTypeError : js.

#[export] Hint Resolve updateChildObjectLiteral_onlyTypeError : js.

#[export] Hint Resolve rootVisitor_onlyTypeError : js.

#[export] Hint Resolve visitRootConfigNode_onlyTypeError : js.

(** ** Examples *)

#[local] Existing Instance standardPrototypes.

Lemma mergeCypressConfigs_only_TypeError_witness :
  ∃ reason, TypeError (ReadPropertyOfUndefined "0") = TypeError reason.
Proof.
  apply (mergeCypressConfigs_only_TypeError (JsObject []) false
           [ExportAssignment false (Identifier "config")]).
  reflexivity.
Defined.

Lemma updateChildObjectLiteral_function_throws_witness :
  isTypeError
    (updateChildObjectLiteral
       (ObjectLiteralExpression [property "video" TrueKeyword] true) ["e2e"]
       (JsObject [("e2e", JsObject [("setupNodeEvents", JsFunction "(on) => {}")])]))
  = true.
Proof.
  apply (updateChildObjectLiteral_function_throws _ _ _ _
           "setupNodeEvents" "(on) => {}").
  - by apply parsed_no_undefined.
  - apply (bool_decide_unpack _). by vm_compute.
  - repeat constructor.
Defined.

Lemma visitRootConfigNode_function_throws_witness :
  isTypeError
    (visitRootConfigNode
       (Some (ObjectLiteralExpression [property "video" TrueKeyword] true))
       (JsObject [("setupNodeEvents", JsFunction "function setup(on) {}")]))
  = true.
Proof.
  apply (visitRootConfigNode_function_throws _ _ _
           "setupNodeEvents" "function setup(on) {}").
  - by apply parsed_no_undefined.
  - apply (bool_decide_unpack _). by vm_compute.
  - repeat constructor.
Defined.

(** A configuration file with a property named [toString], and a new
    configuration that does not mention it. *)
Lemma visitRootConfigNode_inherited_function_throws_witness :
  isTypeError
    (visitRootConfigNode
       (Some (ObjectLiteralExpression
                [property "video" TrueKeyword;
                 property "toString" (quoted "x")] true))
       (JsObject [("video", JsBoolean false)])) = true.
Proof.
  apply (visitRootConfigNode_inherited_function_throws _ _ _ "toString"
           (quoted "x") "function toString() { [native code] }").
  - by apply parsed_no_undefined.
  - repeat constructor.
  - reflexivity.
  - reflexivity.
  - apply (bool_decide_unpack _). by vm_compute.
  - reflexivity.
Defined.
