(* ===== verification/MergeOutcomes.v ===== *)
(** * The merge engine: what a merge returns

    For the configurations the engine is written for (numbers, strings and
    booleans, one level of objects) a merge returns, and this file says
    what: [mergedObject] one level down, [mergedRoot] at the root.  The
    theorems that follow read off where new properties go, what happens to
    a value that is falsy, and what is lost when the shapes of the file
    and of the configuration differ. *)

From S2P Require Import Prelude JsMap JsValue TsAst JsRegex Transformers.
From S2P Require Import MergeForms TestConfig.

Section outcomes.
Context {chain : Inherited}.

(** ** One level down *)

(** The names of the properties that were parsed. *)
Definition parsedNames (ps : list ObjectLiteralElement) : list string :=
  omap (λ el, match el with
              | PropertyAssignment (ParsedName text) _ => Some text
              | _ => None
              end) ps.

(** What becomes of a property when the configuration holds a number, a
    string or a boolean under its name: its value is the literal. *)
Definition mergedElement (path : list string) (config : JsValue)
  (el : ObjectLiteralElement) : ObjectLiteralElement :=
  match el with
  | PropertyAssignment (ParsedName text) _ =>
      match literalOf (getValueByPath config (path ++ [text])) with
      | Some e => PropertyAssignment (ParsedName text) e
      | None => el
      end
  | _ => el
  end.

(** The properties built for [entries], named by [nameOf]. *)
Definition builtProperties (nameOf : string → string)
  (entries : list (string * JsValue)) : list ObjectLiteralElement :=
  omap (λ kv, PropertyAssignment (CreatedIdentifier (nameOf kv.1))
                <$> literalOf kv.2) entries.

(** The entries of the configuration at [path] that name no property of
    the object. *)
Definition addedEntries (path : list string) (config : JsValue)
  (ps : list ObjectLiteralElement) : list (string * JsValue) :=
  filter (λ kv, kv.1 ∉ parsedNames ps) (ownEntries (getValueByPath config path)).

(** The object after the merge: the properties in their order, each with
    its new value, and after them the properties that are new.  An object
    that gets new properties is printed on several lines. *)
Definition mergedObject (path : list string) (config : JsValue)
  (ps : list ObjectLiteralElement) (ml : bool) : Expression :=
  let added := addedEntries path config ps in
  ObjectLiteralExpression
    ((mergedElement path config <$> ps) ++ builtProperties lastSegment added)
    (if added is [] then ml else true).

(** The values at [path] are numbers, strings and booleans under distinct
    keys. *)
Definition literalsAt (path : list string) (config : JsValue) : Prop :=
  NoDup (forInKeys (getValueByPath config path)) ∧
  Forall (λ kv, isLiteralValue kv.2 = true)
         (ownEntries (getValueByPath config path)).

#[global] Instance literalsAt_dec path config : Decision (literalsAt path config).
Proof. unfold literalsAt. apply _. Defined.

Lemma isLiteralValue_Some v :
  isLiteralValue v = true → ∃ e, literalOf v = Some e.
Proof. by intros [e He]%bool_decide_eq_true; exists e. Qed.

Lemma childResult_literals path config el :
  parsedElement el = true → ownReads path config el →
  Forall (λ kv, isLiteralValue kv.2 = true)
         (ownEntries (getValueByPath config path)) →
  childResult path config el = Ok (Some (mergedElement path config el)).
Proof.
  destruct el as [[text|text] init| |]; try done. intros _ Hown Hlit. simpl.
  rewrite getValueByPath_snoc.
  destruct (optionalGet_cases (getValueByPath config path) text Hown)
    as [->|Hin]; [done|].
  rewrite Forall_forall in Hlit.
  apply Hlit in Hin. simpl in Hin. apply isLiteralValue_Some in Hin as [e He].
  rewrite (updatePropertyAssignment_literal _ _ e He), He.
  by destruct (optionalGet _ _).
Qed.

Lemma childDeleted_parsedNames path ps :
  childDeleted path ps = joinedKey path <$> parsedNames ps.
Proof.
  unfold childDeleted, parsedNames.
  induction ps as [|[[text|text] init| |] ps IH]; csimpl; by rewrite ?IH.
Qed.

Lemma childLeft_addedEntries path config ps :
  NoDup (forInKeys (getValueByPath config path)) →
  childLeft path config ps =
  (λ kv, (joinedKey path kv.1, kv.2)) <$> addedEntries path config ps.
Proof.
  intros Hnd. rewrite childLeft_filter, initialPropertiesToAdd_entries by done.
  unfold addedEntries. rewrite childDeleted_parsedNames.
  induction (ownEntries _) as [|[k v] l IH]; [done|].
  rewrite fmap_cons, !filter_cons, IH. simpl.
  assert (joinedKey path k ∈ joinedKey path <$> parsedNames ps ↔ k ∈ parsedNames ps)
    as Hiff.
  { rewrite list_elem_of_fmap. split; [by intros (k' & ->%(inj _) & ?) | eauto]. }
  repeat case_decide; try done; tauto.
Qed.

Lemma builtProperties_joinedKey path entries :
  builtProperties lastSegment ((λ kv, (joinedKey path kv.1, kv.2)) <$> entries)
  = builtProperties lastSegment entries.
Proof.
  unfold builtProperties. induction entries as [|[k v] l IH]; [done|].
  csimpl. by rewrite lastSegment_joinedKey, IH.
Qed.

Lemma propertiesOfEntries_built nameOf entries :
  Forall (λ kv, isLiteralValue kv.2 = true) entries →
  propertiesOfEntries nameOf entries = Ok (builtProperties nameOf entries).
Proof. apply propertiesOfEntries_literals. Qed.

(** For a configuration of literals at [path], read under names that are
    its own, [updateChildObjectLiteral] returns the merged object. *)
Lemma updateChildObjectLiteral_literals ps ml path config :
  forallb parsedElement ps = true → Forall (ownReads path config) ps →
  literalsAt path config →
  updateChildObjectLiteral (ObjectLiteralExpression ps ml) path config
  = Ok (mergedObject path config ps ml).
Proof.
  intros Hps Hown [Hnd Hlit].
  rewrite updateChildObjectLiteral_closed by by apply parsed_no_undefined.
  rewrite (mapR_Forall_Ok _ (λ el, Some (mergedElement path config el))).
  2:{ apply parsed_Forall in Hps. rewrite Forall_forall in *. intros el Hel.
      apply childResult_literals; auto. }
  simpl. rewrite childLeft_addedEntries by done. unfold mergedObject.
  rewrite omap_id_fmap_Some.
  destruct (addedEntries path config ps) as [|kv added] eqn:Hadded;
    [simpl; by rewrite app_nil_r|].
  rewrite propertiesOfEntries_built, builtProperties_joinedKey; [done|].
  rewrite <-Hadded. by apply Forall_fmap, Forall_filter_weaken.
Qed.

(** ** The root *)

(** What the new configuration must hold for a property of the root: for
    an object, literals under distinct keys, read under names of the
    object that are its own; for a scalar, nothing, a falsy value or a
    literal, inherited values included. *)
Definition supported (newConfig : JsValue) (el : ObjectLiteralElement) : Prop :=
  match el with
  | PropertyAssignment (ParsedName text) initializer =>
      match initializer with
      | ObjectLiteralExpression cps _ =>
          literalsAt [text] newConfig ∧ Forall (ownReads [text] newConfig) cps
      | _ =>
          if isScalarInitializer initializer then
            toBoolean (getValueByPath newConfig [text]) = true →
            isLiteralValue (getValueByPath newConfig [text]) = true
          else True
      end
  | _ => True
  end.

#[global] Instance supported_dec newConfig el : Decision (supported newConfig el).
Proof. destruct el as [[text|text] init| |]; simpl; repeat case_match; apply _. Defined.

(** What becomes of a property of the root: an object is merged, a scalar
    is replaced when the new value is truthy, everything else stays. *)
Definition mergedRootElement (newConfig : JsValue) (el : ObjectLiteralElement)
  : ObjectLiteralElement :=
  match el with
  | PropertyAssignment (ParsedName text) initializer =>
      match initializer with
      | ObjectLiteralExpression cps cml =>
          PropertyAssignment (ParsedName text) (mergedObject [text] newConfig cps cml)
      | _ =>
          if isScalarInitializer initializer &&
             toBoolean (getValueByPath newConfig [text])
          then mergedElement [] newConfig el else el
      end
  | _ => el
  end.

(** The entries of the new configuration that become new properties of
    the root: those that are no objects and update no property. *)
Definition newRootEntries (newConfig : JsValue) (ps : list ObjectLiteralElement)
  : list (string * JsValue) :=
  filter (λ kv, kv.1 ∉ omap (rootUpdates newConfig) ps)
         (filter (λ kv, typeof kv.2 ≠ TObject) (ownEntries newConfig)).

(** The root after the merge: the new properties first, then the
    properties of the file in their order. *)
Definition mergedRoot (newConfig : JsValue) (ps : list ObjectLiteralElement)
  (ml : bool) : Expression :=
  ObjectLiteralExpression
    (builtProperties id (newRootEntries newConfig ps) ++
     (mergedRootElement newConfig <$> ps)) ml.

(** The entries of the new configuration are objects or literals, under
    distinct keys. *)
Definition supportedConfig (newConfig : JsValue) : Prop :=
  NoDup (forInKeys newConfig) ∧
  Forall (λ kv, typeof kv.2 = TObject ∨ isLiteralValue kv.2 = true)
         (ownEntries newConfig).

#[global] Instance supportedConfig_dec newConfig : Decision (supportedConfig newConfig).
Proof. unfold supportedConfig. apply _. Defined.

Lemma rootResult_supported newConfig el :
  parsedElement el = true → supported newConfig el →
  rootResult newConfig el = Ok (Some (mergedRootElement newConfig el)).
Proof.
  destruct el as [[text|text] init| |]; try done. simpl. intros Hinit Hsup.
  destruct init as [| | | | | |c ts args|cps cml| |]; simpl in *;
    try done; try (destruct (toBoolean _) eqn:Hv; [|done];
                   apply isLiteralValue_Some in Hsup as [e He]; [|done];
                   by rewrite (updatePropertyAssignment_literal _ _ e He), He).
  destruct Hsup. by rewrite updateChildObjectLiteral_literals.
Qed.

Lemma rootLeft_newRootEntries newConfig ps :
  NoDup (forInKeys newConfig) → rootLeft newConfig ps = newRootEntries newConfig ps.
Proof. intros Hnd. by rewrite rootLeft_filter, initialPropertyMap_entries. Qed.

Lemma newRootEntries_literals newConfig ps :
  supportedConfig newConfig →
  Forall (λ kv, isLiteralValue kv.2 = true) (newRootEntries newConfig ps).
Proof.
  intros [_ Hconfig]. apply Forall_filter_weaken.
  rewrite Forall_forall in *. intros kv [Hkv [?|?]%Hconfig]%list_elem_of_filter; done.
Qed.

(** The closed form of [visitRootConfigNode] on what it supports. *)
Lemma visitRootConfigNode_mergedRoot ps ml newConfig :
  forallb parsedElement ps = true →
  supportedConfig newConfig →
  Forall (supported newConfig) ps →
  visitRootConfigNode (Some (ObjectLiteralExpression ps ml)) newConfig
  = Ok (Some (mergedRoot newConfig ps ml)).
Proof.
  intros Hps Hconfig Hsup.
  rewrite visitRootConfigNode_closed by by apply parsed_no_undefined.
  rewrite (mapR_Forall_Ok _ (λ el, Some (mergedRootElement newConfig el))).
  2:{ apply parsed_Forall in Hps. rewrite Forall_forall in *.
      intros el Hel. apply rootResult_supported; auto. }
  simpl. rewrite omap_id_fmap_Some, rootLeft_newRootEntries by apply Hconfig.
  unfold mergedRoot.
  destruct (newRootEntries newConfig ps) as [|kv news] eqn:Hnews; [done|].
  rewrite propertiesOfEntries_built; [done|].
  rewrite <-Hnews. by apply newRootEntries_literals.
Qed.

(** C1. For a file that was parsed and a new configuration of literals and
    of objects of literals, [visitRootConfigNode] returns the merged root:
    every scalar property with a truthy new value carries the new literal,
    every object is merged one level down, the properties keep their
    places, and the entries that update nothing come first as new
    properties. *)
Theorem visitRootConfigNode_supported ps ml newConfig :
  forallb parsedElement ps = true →
  supportedConfig newConfig →
  Forall (supported newConfig) ps →
  visitRootConfigNode (Some (ObjectLiteralExpression ps ml)) newConfig
  = Ok (Some (mergedRoot newConfig ps ml)).
Proof. apply visitRootConfigNode_mergedRoot. Qed.

End outcomes.

(** ** Examples *)

#[local] Existing Instance standardPrototypes.

Lemma visitRootConfigNode_supported_witness :
  visitRootConfigNode (Some rootObject) testConfigWithoutDevServer
  = Ok (Some (mergedRoot testConfigWithoutDevServer
                [ property "baseUrl" (quoted "blah its me");
                  property "component" componentObject;
                  property "e2e" e2eObject ] true)).
Proof.
  apply visitRootConfigNode_supported; [reflexivity | |];
    apply (bool_decide_unpack _); by vm_compute.
Defined.
