(* ===== verification/MergeLosses.v ===== *)
(** * The merge engine: what a merge loses or doubles

    Theorems on [transformers.ts] for the configurations the engine has no
    case for:
    - a falsy new value for a scalar property of the root does not replace
      it; the property is kept and a second one of the same name is put in
      front;
    - one level down, a property whose new value is an object (or [null])
      is removed, not merged;
    - one level down, an entry that is new and whose value is an object
      leaves [undefined] in the array of properties. *)

From S2P Require Import Prelude JsMap JsValue TsAst JsRegex Transformers.
From S2P Require Import MergeForms TestConfig MergeOutcomes.

Section losses.
Context {chain : Inherited}.

(** ** What a merge that returned is made of *)

Lemma propertiesOfEntries_nil nameOf : propertiesOfEntries nameOf [] = Ok [].
Proof. done. Qed.

Lemma updateChildObjectLiteral_Ok_inv ps ml path config ps' ml' :
  Forall (λ el, el ≠ UndefinedElement) ps →
  updateChildObjectLiteral (ObjectLiteralExpression ps ml) path config
  = Ok (ObjectLiteralExpression ps' ml') →
  ∃ rs extra,
    mapR (childResult path config) ps = Ok rs ∧
    propertiesOfEntries lastSegment (childLeft path config ps) = Ok extra ∧
    ps' = omap id rs ++ extra.
Proof.
  intros Hps. rewrite updateChildObjectLiteral_closed by done.
  destruct (mapR _ ps) as [rs|e]; simpl; [|done].
  destruct (childLeft path config ps) as [|kv left]; simpl.
  - intros [= <- _]. exists rs, []. by rewrite app_nil_r.
  - destruct (propertiesOfEntries _ _) as [extra|e]; simpl; [|done].
    intros [= <- _]. by exists rs, extra.
Qed.

Lemma visitRootConfigNode_Ok_inv ps ml newConfig ps' ml' :
  Forall (λ el, el ≠ UndefinedElement) ps →
  visitRootConfigNode (Some (ObjectLiteralExpression ps ml)) newConfig
  = Ok (Some (ObjectLiteralExpression ps' ml')) →
  ∃ rs news,
    mapR (rootResult newConfig) ps = Ok rs ∧
    propertiesOfEntries id (rootLeft newConfig ps) = Ok news ∧
    ps' = news ++ omap id rs.
Proof.
  intros Hps. rewrite visitRootConfigNode_closed by done.
  destruct (mapR _ ps) as [rs|e]; simpl; [|done].
  destruct (rootLeft newConfig ps) as [|kv left]; simpl.
  - intros [= <- _]. by exists rs, [].
  - destruct (propertiesOfEntries _ _) as [news|e]; simpl; [|done].
    intros [= <- _]. by exists rs, news.
Qed.

(** What is built for an entry is among the properties built. *)
Lemma propertiesOfEntries_elem nameOf entries built k v r :
  propertiesOfEntries nameOf entries = Ok built →
  (k, v) ∈ entries →
  updatePropertyAssignment (CreatedIdentifier (nameOf k)) v = Ok r →
  elementOfOption r ∈ built.
Proof.
  intros Hbuilt Hin Hr. apply (mapR_elem _ _ _ _ Hbuilt).
  exists (k, v). split; [done|]. simpl. by rewrite Hr.
Qed.

(** What is built carries a name the factory made, or is [undefined]. *)
Lemma propertiesOfEntries_created nameOf entries built el :
  propertiesOfEntries nameOf entries = Ok built → el ∈ built →
  el = UndefinedElement ∨
  ∃ k v e, (k, v) ∈ entries ∧ literalOf v = Some e ∧
           el = PropertyAssignment (CreatedIdentifier (nameOf k)) e.
Proof.
  intros Hbuilt ([k v] & Hin & Hel)%(mapR_elem _ _ _ _ Hbuilt).
  apply fmap_Ok_inv in Hel as ([r|] & Hr & ->); [|by left].
  apply updatePropertyAssignment_Some in Hr as (e & He & ->). right. eauto 6.
Qed.

(** ** One level down *)

(** The visitor keeps the name of a property it does not drop. *)
Lemma childResult_Some_name path config el text init :
  childResult path config el = Ok (Some (PropertyAssignment (ParsedName text) init)) →
  ∃ init0, el = PropertyAssignment (ParsedName text) init0.
Proof.
  destruct el as [[text0|text0] init0| |]; simpl; try done.
  destruct (isDefined _); [|intros [= <- _]; eauto].
  intros (e & _ & [= <- _])%updatePropertyAssignment_Some. eauto.
Qed.

(** C15. One level down, a property whose value in the configuration is an
    object or [null] is gone after the merge: what is there is not merged
    with the object, and no literal is built for it. *)
Theorem updateChildObjectLiteral_object_value_removes
    ps ml path config ps' ml' text :
  Forall (λ el, el ≠ UndefinedElement) ps →
  typeof (getValueByPath config (path ++ [text])) = TObject →
  updateChildObjectLiteral (ObjectLiteralExpression ps ml) path config
  = Ok (ObjectLiteralExpression ps' ml') →
  ∀ init, PropertyAssignment (ParsedName text) init ∉ ps'.
Proof.
  intros Hps Hobj Hres init.
  apply updateChildObjectLiteral_Ok_inv in Hres
    as (rs & extra & Hrs & Hextra & ->); [|done].
  intros [Hin|Hin]%elem_of_app.
  - apply (mapR_omap_elem _ _ _ _ Hrs) in Hin as (el & _ & Hel).
    destruct (childResult_Some_name _ _ _ _ _ Hel) as [init0 ->].
    simpl in Hel. destruct (getValueByPath _ _); done.
  - by destruct (propertiesOfEntries_created _ _ _ _ Hextra Hin)
      as [?|(? & ? & ? & _ & _ & ?)].
Qed.

(** C17. One level down, an entry of the configuration that names no
    property of the object and whose value is an object, [null] or
    [undefined] leaves an [undefined] in the array of properties of the
    result. *)
Theorem updateChildObjectLiteral_undefined_element
    ps ml path config ps' ml' k v :
  Forall (λ el, el ≠ UndefinedElement) ps →
  NoDup (forInKeys (getValueByPath config path)) →
  (k, v) ∈ ownEntries (getValueByPath config path) →
  k ∉ parsedNames ps →
  typeof v = TObject ∨ typeof v = TUndefined →
  updateChildObjectLiteral (ObjectLiteralExpression ps ml) path config
  = Ok (ObjectLiteralExpression ps' ml') →
  UndefinedElement ∈ ps'.
Proof.
  intros Hps Hnd Hin Hnew Hv Hres.
  apply updateChildObjectLiteral_Ok_inv in Hres
    as (rs & extra & _ & Hextra & ->); [|done].
  apply elem_of_app. right.
  apply (propertiesOfEntries_elem _ _ _ (joinedKey path k) v None Hextra).
  - rewrite childLeft_addedEntries by done.
    apply (list_elem_of_fmap_2 (λ kv, (joinedKey path kv.1, kv.2)) _ (k, v)).
    by apply list_elem_of_filter.
  - by apply updatePropertyAssignment_not_built.
Qed.

(** C18. One level down, a new property is named by what follows the last
    dot of its key: for a key with a dot the name is not the key. *)
Theorem updateChildObjectLiteral_new_name_last_segment
    ps ml path config ps' ml' k v e :
  Forall (λ el, el ≠ UndefinedElement) ps →
  NoDup (forInKeys (getValueByPath config path)) →
  (k, v) ∈ ownEntries (getValueByPath config path) →
  k ∉ parsedNames ps →
  literalOf v = Some e →
  updateChildObjectLiteral (ObjectLiteralExpression ps ml) path config
  = Ok (ObjectLiteralExpression ps' ml') →
  PropertyAssignment (CreatedIdentifier (lastSegment k)) e ∈ ps'.
Proof.
  intros Hps Hnd Hin Hnew He Hres.
  apply updateChildObjectLiteral_Ok_inv in Hres
    as (rs & extra & _ & Hextra & ->); [|done].
  apply elem_of_app. right. rewrite <-(lastSegment_joinedKey path k).
  apply (propertiesOfEntries_elem _ _ _ (joinedKey path k) v (Some _) Hextra).
  - rewrite childLeft_addedEntries by done.
    apply (list_elem_of_fmap_2 (λ kv, (joinedKey path kv.1, kv.2)) _ (k, v)).
    by apply list_elem_of_filter.
  - by apply updatePropertyAssignment_literal.
Qed.

(** ** The root *)

Lemma rootUpdates_truthy newConfig el k :
  rootUpdates newConfig el = Some k →
  toBoolean (getValueByPath newConfig [k]) = true.
Proof.
  destruct el as [[text|text] init| |]; try done. simpl.
  destruct (toBoolean _) eqn:Hv; [|by rewrite andb_false_r].
  case_match; by intros [= <-].
Qed.

(** A property of the root whose value is no object, and whose new value
    is falsy, is returned as it is. *)
Lemma rootResult_falsy newConfig text init :
  isObjectLiteralExpression init = false →
  toBoolean (getValueByPath newConfig [text]) = false →
  rootResult newConfig (PropertyAssignment (ParsedName text) init)
  = Ok (Some (PropertyAssignment (ParsedName text) init)).
Proof.
  intros Hinit Hv. simpl in *. rewrite Hinit, Hv.
  by destruct (isScalarInitializer init).
Qed.

(** C14. A falsy new value ([false], [0], [NaN], the empty string) for a
    property of the root that holds no object does not replace the value:
    after the merge the property is there as it was, and a second property
    of the same name with the new value is there as well. *)
Theorem visitRootConfigNode_falsy_duplicates
    ps ml newConfig ps' ml' k v e init :
  Forall (λ el, el ≠ UndefinedElement) ps →
  NoDup (forInKeys newConfig) →
  (k, v) ∈ ownEntries newConfig →
  toBoolean v = false → literalOf v = Some e →
  PropertyAssignment (ParsedName k) init ∈ ps →
  isObjectLiteralExpression init = false →
  visitRootConfigNode (Some (ObjectLiteralExpression ps ml)) newConfig
  = Ok (Some (ObjectLiteralExpression ps' ml')) →
  PropertyAssignment (ParsedName k) init ∈ ps' ∧
  PropertyAssignment (CreatedIdentifier k) e ∈ ps'.
Proof.
  intros Hps Hnd Hin Hv He Hel Hinit Hres.
  apply visitRootConfigNode_Ok_inv in Hres as (rs & news & Hrs & Hnews & ->);
    [|done].
  assert (getValueByPath newConfig [k] = v) as Hk by by apply optionalGet_entry.
  rewrite !elem_of_app. split.
  - right. apply (mapR_omap_elem _ _ _ _ Hrs). eexists. split; [done|].
    apply rootResult_falsy; [done | by rewrite Hk].
  - left. apply (propertiesOfEntries_elem _ _ _ k v (Some _) Hnews);
      [|by apply updatePropertyAssignment_literal].
    rewrite rootLeft_filter, initialPropertyMap_entries, !list_elem_of_filter by done.
    split_and!; [|by destruct v|done].
    intros (el & _ & Ht%rootUpdates_truthy)%list_elem_of_omap.
    cbn [fst] in Ht. congruence.
Qed.

Lemma updateChildObjectLiteral_is_object ps ml path config c :
  updateChildObjectLiteral (ObjectLiteralExpression ps ml) path config = Ok c →
  isObjectLiteralExpression c = true.
Proof.
  unfold updateChildObjectLiteral. simpl.
  destruct (visitNodes _ _ _) as [[ps' s]|]; simpl; [|done].
  destruct (map_size s =? 0)%nat; [by intros [= <-]|].
  destruct (propertiesOfEntries _ _); simpl; [by intros [= <-] | done].
Qed.

(** Where a property of the result that holds no object comes from: the
    property of that name in the file, kept or given a new literal. *)
Lemma rootResult_Some_scalar newConfig el text init :
  rootResult newConfig el = Ok (Some (PropertyAssignment (ParsedName text) init)) →
  isObjectLiteralExpression init = false →
  ∃ init0, el = PropertyAssignment (ParsedName text) init0 ∧
           (init0 = init ∨ literalOf (getValueByPath newConfig [text]) = Some init).
Proof.
  destruct el as [[text0|text0] init0| |]; simpl; try done;
    [|by repeat case_match].
  destruct init0 as [| | | | | |c ts args|cps cml| |]; simpl;
    try (intros [= <- <-]; by eauto);
    try (destruct (toBoolean _); [|intros [= <- <-]; by eauto];
         intros (e & He & [= <- <-])%updatePropertyAssignment_Some; by eauto).
  intros (c & Hc%updateChildObjectLiteral_is_object & [= <- <-])%bind_Ok_inv.
  congruence.
Qed.

Lemma isScalarInitializer_not_object init :
  isScalarInitializer init = true → isObjectLiteralExpression init = false.
Proof. by destruct init. Qed.

(** A scalar property of the root whose new value is an object is
    gone after the merge: no literal is built for an object, and the
    visitor returns [undefined] for the property. *)
Theorem visitRootConfigNode_object_value_removes
    ps ml newConfig ps' ml' text init entries :
  Forall (λ el, el ≠ UndefinedElement) ps →
  isScalarInitializer init = true →
  getValueByPath newConfig [text] = JsObject entries →
  visitRootConfigNode (Some (ObjectLiteralExpression ps ml)) newConfig
  = Ok (Some (ObjectLiteralExpression ps' ml')) →
  PropertyAssignment (ParsedName text) init ∉ ps'.
Proof.
  intros Hps Hinit Hv Hres.
  apply visitRootConfigNode_Ok_inv in Hres as (rs & news & Hrs & Hnews & ->);
    [|done].
  intros [Hin|Hin]%elem_of_app.
  - by destruct (propertiesOfEntries_created _ _ _ _ Hnews Hin)
      as [?|(? & ? & ? & _ & _ & ?)].
  - apply (mapR_omap_elem _ _ _ _ Hrs) in Hin as (el & _ & Hel).
    pose proof (isScalarInitializer_not_object _ Hinit) as Hobj.
    destruct (rootResult_Some_scalar _ _ _ _ Hel Hobj) as (init0 & -> & [->|Hlit]);
      [|by rewrite Hv in Hlit].
    revert Hel. simpl. simpl in Hv. by rewrite Hobj, Hinit, Hv.
Qed.

End losses.

(** ** Examples *)

#[local] Existing Instance standardPrototypes.

Lemma updateChildObjectLiteral_object_value_removes_witness :
  PropertyAssignment (ParsedName "env")
    (ObjectLiteralExpression [property "a" (quoted "x")] false)
  ∉ [property "video" TrueKeyword].
Proof.
  apply (updateChildObjectLiteral_object_value_removes
           [property "env" (ObjectLiteralExpression [property "a" (quoted "x")] false);
            property "video" TrueKeyword] true ["e2e"]
           (JsObject [("e2e", JsObject [("env", JsObject [("b", JsString "y")])])])
           [property "video" TrueKeyword] true "env").
  - by apply parsed_no_undefined.
  - reflexivity.
  - reflexivity.
Defined.

Lemma updateChildObjectLiteral_undefined_element_witness :
  UndefinedElement ∈ [property "video" TrueKeyword; UndefinedElement].
Proof.
  apply (updateChildObjectLiteral_undefined_element
           [property "video" TrueKeyword] true ["e2e"]
           (JsObject [("e2e", JsObject [("env", JsObject [("b", JsString "y")])])])
           _ true "env" (JsObject [("b", JsString "y")])).
  - by apply parsed_no_undefined.
  - apply (bool_decide_unpack _). by vm_compute.
  - repeat constructor.
  - apply (bool_decide_unpack _). by vm_compute.
  - by left.
  - reflexivity.
Defined.

Lemma updateChildObjectLiteral_new_name_last_segment_witness :
  PropertyAssignment (CreatedIdentifier "outputDir") (quoted "out")
    ∈ [property "video" TrueKeyword;
       PropertyAssignment (CreatedIdentifier "outputDir") (quoted "out")].
Proof.
  apply (updateChildObjectLiteral_new_name_last_segment
           [property "video" TrueKeyword] true ["e2e"]
           (JsObject [("e2e", JsObject [("reporter.outputDir", JsString "out")])])
           _ true "reporter.outputDir" (JsString "out") (quoted "out")).
  - by apply parsed_no_undefined.
  - apply (bool_decide_unpack _). by vm_compute.
  - repeat constructor.
  - apply (bool_decide_unpack _). by vm_compute.
  - reflexivity.
  - reflexivity.
Defined.

Lemma visitRootConfigNode_falsy_duplicates_witness :
  PropertyAssignment (ParsedName "video") TrueKeyword
    ∈ [PropertyAssignment (CreatedIdentifier "video") FalseKeyword;
       PropertyAssignment (ParsedName "video") TrueKeyword] ∧
  PropertyAssignment (CreatedIdentifier "video") FalseKeyword
    ∈ [PropertyAssignment (CreatedIdentifier "video") FalseKeyword;
       PropertyAssignment (ParsedName "video") TrueKeyword].
Proof.
  apply (visitRootConfigNode_falsy_duplicates
           [property "video" TrueKeyword] true
           (JsObject [("video", JsBoolean false)]) _ true
           "video" (JsBoolean false) FalseKeyword TrueKeyword).
  - by apply parsed_no_undefined.
  - apply (bool_decide_unpack _). by vm_compute.
  - repeat constructor.
  - reflexivity.
  - reflexivity.
  - repeat constructor.
  - reflexivity.
  - reflexivity.
Defined.

Lemma visitRootConfigNode_object_value_removes_witness :
  PropertyAssignment (ParsedName "env") (quoted "dev")
    ∉ [property "video" TrueKeyword].
Proof.
  apply (visitRootConfigNode_object_value_removes
           [property "env" (quoted "dev"); property "video" TrueKeyword] true
           (JsObject [("env", JsObject [("b", JsString "y")])])
           _ true "env" (quoted "dev") [("b", JsString "y")]).
  - by apply parsed_no_undefined.
  - reflexivity.
  - reflexivity.
  - reflexivity.
Defined.
