(* ===== verification/MergeFile.v ===== *)
(** * The transformer on a whole file

    Theorems on [mergeCypressConfigs] of [transformers.ts] as it is applied
    to the statements of a file: what passes through, what [overwrite]
    does, which files make it throw, that it returns calls only and
    makes a call of an exported [new] expression, what it returns for
    the file and the configuration of the repository's test, and what it
    does to the export assignments below the statements of the file. *)

From S2P Require Import Prelude JsMap JsValue TsAst JsRegex Transformers.
From S2P Require Import MergeForms TestConfig MergeKeeps MergeThrows.

Section file.
Context {chain : Inherited}.

(** ** Shapes of statements *)

(** The three predicates and [withoutArguments] speak of one export
    assignment; the theorems apply them to the export assignments of the
    file, at any depth ([exportAssignments], [mapExports]). *)

(** The export assignment exports an expression with arguments, a call
    or a [new] expression. *)
Definition exportsArguments (node : Statement) : bool :=
  match node with
  | ExportAssignment _ expression => hasArguments expression
  | _ => true
  end.

(** The export assignment exports a call with one argument that was
    parsed. *)
Definition exportsOneArgument (node : Statement) : bool :=
  match node with
  | ExportAssignment _ (CallExpression _ _ [root]) => parsedExpression root
  | ExportAssignment _ _ => false
  | _ => true
  end.

(** The export assignment with the call of the callee of the exported
    expression without arguments. *)
Definition withoutArguments (node : Statement) : Statement :=
  match node with
  | ExportAssignment isExportEquals (CallExpression callee typeArguments _)
  | ExportAssignment isExportEquals
      (NewExpression callee typeArguments (Some _)) =>
      ExportAssignment isExportEquals (CallExpression callee typeArguments [])
  | _ => node
  end.

(** ** Overwriting *)

Lemma visitStatement_overwrite newConfig b e :
  exportsArguments (ExportAssignment b e) = true →
  visitStatement newConfig true (ExportAssignment b e)
  = Ok (withoutArguments (ExportAssignment b e)).
Proof. by destruct e as [| | | | | | | | |c ts []]. Qed.

(** C20. With [overwrite] the transformer does not look at the new
    configuration: every exported expression with arguments, a call or a
    [new] expression, comes back as a call of its callee without
    arguments, and nothing is built from the configuration. *)
Theorem mergeCypressConfigs_overwrite newConfig sourceFile :
  forallb exportsArguments (sourceFile ≫= exportAssignments) = true →
  mergeCypressConfigs newConfig true sourceFile
  = Ok (mapExports withoutArguments <$> sourceFile).
Proof.
  intros Hfile. apply visitFile_mapExports; [apply _|].
  eapply Forall_exportAssignments; [done|].
  intros b e. apply visitStatement_overwrite.
Qed.

(** ** Files the transformer throws on *)

Lemma visitStatement_no_arguments newConfig overwrite isExportEquals expression :
  hasArguments expression = false →
  visitStatement newConfig overwrite (ExportAssignment isExportEquals expression)
  = Throw (TypeError (ReadPropertyOfUndefined "0")).
Proof. by destruct expression as [| | | | | | | | |c ts []]. Qed.

(** A file with an export assignment whose expression has no arguments
    (it is neither a call nor a [new] expression with parentheses) makes
    the transformer throw a [TypeError], with and without [overwrite]:
    the code reads [arguments[0]] of the expression without a test. *)
Theorem mergeCypressConfigs_no_arguments
    newConfig overwrite sourceFile isExportEquals expression :
  ExportAssignment isExportEquals expression
    ∈ sourceFile ≫= exportAssignments →
  hasArguments expression = false →
  isTypeError (mergeCypressConfigs newConfig overwrite sourceFile) = true.
Proof.
  intros Hin Hcall.
  apply failed_is_TypeError; [apply mergeCypressConfigs_onlyTypeError|].
  eapply visitFile_export_fails; [apply _ | done|].
  by rewrite visitStatement_no_arguments.
Qed.

(** ** What the transformer exports *)

Lemma visitStatement_exports_call newConfig overwrite b e node' :
  visitStatement newConfig overwrite (ExportAssignment b e) = Ok node' →
  exportsCall node' = true.
Proof.
  destruct e as [| | | | | | | | |c ts []]; try done; simpl;
    intros (arguments' & _ & (call & (args' & ->)%createCallExpression_Ok
                              & [= <-])%bind_Ok_inv)%bind_Ok_inv; done.
Qed.

(** Whatever the file, the transformer returns calls only: every export
    assignment of the file it returns, at any depth, exports a call. *)
Theorem mergeCypressConfigs_exports_calls
    newConfig overwrite sourceFile sourceFile' :
  mergeCypressConfigs newConfig overwrite sourceFile = Ok sourceFile' →
  forallb exportsCall (sourceFile' ≫= exportAssignments) = true.
Proof.
  apply visitFile_exports; [apply _|]. apply visitStatement_exports_call.
Qed.

(** A [new] expression that is exported does not come back: the file is
    never returned as it was, whatever the new configuration, an empty
    one included.  The code takes the expression for a call and returns
    a call of its callee. *)
Theorem mergeCypressConfigs_new_expression
    newConfig overwrite sourceFile b callee typeArguments arguments :
  ExportAssignment b (NewExpression callee typeArguments arguments)
    ∈ sourceFile ≫= exportAssignments →
  mergeCypressConfigs newConfig overwrite sourceFile ≠ Ok sourceFile.
Proof.
  intros Hin Hfile%mergeCypressConfigs_exports_calls.
  rewrite forallb_Forall, Forall_forall in Hfile. by apply Hfile in Hin.
Qed.

(** ** Nothing to merge *)

(** The names of the properties of the exported root are read from the
    configuration itself. *)
Definition exportOwnReads (newConfig : JsValue) (node : Statement) : Prop :=
  match node with
  | ExportAssignment _ (CallExpression _ _ (root :: _)) =>
      rootOwnReads newConfig root
  | _ => True
  end.

#[global] Instance exportOwnReads_dec newConfig node :
  Decision (exportOwnReads newConfig node).
Proof. destruct node as [b [| | | | | |c ts [|root args]| | |]| |]; apply _. Defined.

Lemma visitStatement_nothing_to_merge newConfig b e :
  forInKeys newConfig = [] →
  exportsOneArgument (ExportAssignment b e) = true
  ∧ exportOwnReads newConfig (ExportAssignment b e) →
  visitStatement newConfig false (ExportAssignment b e)
  = Ok (ExportAssignment b e).
Proof.
  destruct e as [| | | | | |c ts [|root []]| | |]; try by intros ? [? ?].
  intros Hconfig [Hroot Hown]. simpl.
  by rewrite visitRootConfigNode_no_entries.
Qed.

(** C4. A new configuration without entries changes nothing in a file
    whose exported calls have one argument each, when no property of an
    exported root has a name that the configuration inherits: the
    transformer returns the file as it was. *)
Theorem mergeCypressConfigs_nothing_to_merge newConfig sourceFile :
  Forall (λ ea, exportsOneArgument ea = true ∧ exportOwnReads newConfig ea)
         (sourceFile ≫= exportAssignments) →
  forInKeys newConfig = [] →
  mergeCypressConfigs newConfig false sourceFile = Ok sourceFile.
Proof.
  intros Hfile Hconfig. apply visitFile_id; [apply _|].
  eapply Forall_exportAssignments_impl; [done|].
  intros b e. by apply visitStatement_nothing_to_merge.
Qed.

(** ** The repository's test *)

(** The root of the test's file after the merge of the test's
    configuration without [devServer]. *)
Definition mergedTestRoot : Expression :=
  ObjectLiteralExpression
    [ PropertyAssignment (CreatedIdentifier "blah")
        (StringLiteral "i am a top level property" true);
      property "baseUrl" (quoted "http://localhost:1234");
      property "component"
        (ObjectLiteralExpression
           [ property "devServer"
               (CallExpression (Identifier "componentDevServer") []
                  [quoted "tsconfig.cy.json"; quoted "babel"]);
             property "pluginsFile" FalseKeyword;
             property "video" TrueKeyword;
             property "chromeWebSecurity" FalseKeyword;
             property "fixturesFolder" (quoted "cypress/fixtures/cool");
             property "specPattern" (quoted "**/*.cy.{js,jsx,ts,tsx}");
             property "supportFile" (quoted "cypress/support/component.ts");
             property "videosFolder" (quoted "../../dist/cypress/apps/n/videos");
             property "screenshotsFolder"
               (quoted "../../dist/cypress/apps/n/screenshots");
             PropertyAssignment (CreatedIdentifier "blah")
               (StringLiteral "i am a random property" true) ]
           true);
      property "e2e"
        (ObjectLiteralExpression
           [ property "fileServerFolder" (quoted ".");
             property "fixturesFolder" (quoted "./src/fixtures");
             property "integrationFolder" (quoted "./src/e2e");
             property "supportFile" (quoted "./src/support/e2e.ts");
             property "specPattern" (quoted "**/*.cy.{js,ts}");
             property "pluginsFile" FalseKeyword;
             property "video" FalseKeyword;
             property "videosFolder"
               (quoted "../../dist/cypress/apps/myapp4299814-e2e/videos");
             property "screenshotsFolder"
               (quoted "../../dist/cypress/apps/myapp4299814-e2e/screenshots");
             property "chromeWebSecurity" FalseKeyword ]
           true) ]
    true.

(** ** Statements below statements *)

(** C19. A merge changes export assignments and nothing else: with the
    export assignments blanked, the file it returns is the file it was
    given, statement for statement at every depth. *)
Theorem mergeCypressConfigs_frame newConfig overwrite sourceFile sourceFile' :
  mergeCypressConfigs newConfig overwrite sourceFile = Ok sourceFile' →
  frame <$> sourceFile' = frame <$> sourceFile.
Proof. apply visitFile_frame, _. Qed.

(** C40. The visitor does not stop at the statements of the file: every
    export assignment, [export default] or [export =], at any depth, is
    visited, and the export assignments of the result are what the
    visitor made of them, in their order. *)
Theorem mergeCypressConfigs_exportAssignments
    newConfig overwrite sourceFile sourceFile' :
  mergeCypressConfigs newConfig overwrite sourceFile = Ok sourceFile' →
  mapR (visitStatement newConfig overwrite) (sourceFile ≫= exportAssignments)
  = Ok (sourceFile' ≫= exportAssignments).
Proof. apply visitFile_exportAssignments, _. Qed.

End file.

(** ** Examples *)

#[local] Existing Instance standardPrototypes.

Lemma mergeCypressConfigs_overwrite_witness :
  mergeCypressConfigs testConfigWithoutDevServer true configContent
  = Ok [ OtherStatement "import { defineConfig } from 'cypress';";
         OtherStatement "import { componentDevServer } from '@nrwl/cypress/plugins/next';";
         ExportAssignment false (CallExpression (Identifier "defineConfig") [] []) ].
Proof. apply (mergeCypressConfigs_overwrite _ configContent). reflexivity. Defined.

Lemma mergeCypressConfigs_no_arguments_witness :
  isTypeError
    (mergeCypressConfigs testConfigWithoutDevServer false
       [CompoundStatement "declare module 'config'"
          [ExportAssignment true rootObject]]) = true.
Proof.
  apply (mergeCypressConfigs_no_arguments _ _ _ true rootObject);
    [repeat constructor | reflexivity].
Defined.

Lemma mergeCypressConfigs_new_expression_witness :
  mergeCypressConfigs (JsObject []) false
    [ExportAssignment false
       (NewExpression (Identifier "Config") [] (Some [rootObject]))]
  ≠ Ok [ExportAssignment false
          (NewExpression (Identifier "Config") [] (Some [rootObject]))].
Proof.
  apply (mergeCypressConfigs_new_expression _ _ _ false (Identifier "Config") []
           (Some [rootObject])).
  repeat constructor.
Defined.

Lemma mergeCypressConfigs_nothing_to_merge_witness :
  mergeCypressConfigs (JsObject []) false configContent = Ok configContent.
Proof.
  apply mergeCypressConfigs_nothing_to_merge; [|reflexivity].
  apply (bool_decide_unpack _). by vm_compute.
Defined.

(** The test's configuration without [devServer], merged into the
    test's file: [baseUrl], [component.fixturesFolder] and [e2e.video] are
    replaced where they stand, the new [component.blah] is the last
    property of [component], and the new [blah] is the first property of
    the root. *)
Theorem mergeCypressConfigs_test :
  mergeCypressConfigs testConfigWithoutDevServer false configContent
  = Ok [ OtherStatement "import { defineConfig } from 'cypress';";
         OtherStatement "import { componentDevServer } from '@nrwl/cypress/plugins/next';";
         ExportAssignment false
           (CallExpression (Identifier "defineConfig") [] [mergedTestRoot]) ].
Proof. by vm_compute. Qed.

Lemma mergeCypressConfigs_frame_witness :
  frame <$> [CompoundStatement "declare module 'config'"
               [ExportAssignment true
                  (CallExpression (Identifier "defineConfig") [] [])]]
  = frame <$> [CompoundStatement "declare module 'config'"
                 [ExportAssignment true
                    (CallExpression (Identifier "defineConfig") []
                       [ObjectLiteralExpression [] false])]].
Proof.
  apply (mergeCypressConfigs_frame (JsObject []) true). reflexivity.
Defined.

(** The file of the repository's test inside a module declaration: the
    configuration is merged into the call exported there. *)
Lemma mergeCypressConfigs_exportAssignments_witness :
  mapR (visitStatement testConfigWithoutDevServer false)
    ([CompoundStatement "declare module 'config'" configContent]
       ≫= exportAssignments)
  = Ok ([CompoundStatement "declare module 'config'"
           [ OtherStatement "import { defineConfig } from 'cypress';";
             OtherStatement "import { componentDevServer } from '@nrwl/cypress/plugins/next';";
             ExportAssignment false
               (CallExpression (Identifier "defineConfig") []
                  [mergedTestRoot]) ]]
          ≫= exportAssignments).
Proof.
  apply (mergeCypressConfigs_exportAssignments _ _
           [CompoundStatement "declare module 'config'" configContent]).
  by vm_compute.
Defined.
