(* ===== verification/Locate.v ===== *)
(** * The specification's root locator against the visitors

    The specification finds the configuration with [locate]: the document
    must hold exactly one default export at its top level, the exported
    expression must be a call, and the first argument of the call must be
    an object literal, the root; any other document is a
    [StructureError].  The code has no such function.  Its visitors
    rewrite every export assignment they meet on their walk, and what the
    specification calls an error either passes or ends in a [TypeError].

    This file holds [locate], written from the specification, with the
    handle it returns and [withRoot], which puts a root back, and the
    theorems that compare the transformer of [transformers.ts] with them:
    on a document of the specification's shape the transformer replaces
    the root that [locate] finds and nothing else; on the documents that
    [locate] refuses it returns a file all the same, or throws. *)

From S2P Require Import Prelude JsMap JsValue TsAst JsRegex Transformers.
From S2P Require Import MergeForms TestConfig MergeKeeps MergeThrows MergeFile.

Section locate.
Context {chain : Inherited}.

(** ** [locate] *)

Inductive StructureError : Type :=
| NoDefaultExport
| SeveralDefaultExports
| ExportIsNoCall
| ArgumentIsNoObject.

(** What [locate] returns: the root, and what stands around it. *)
Record RootHandle : Type := {
  handleBefore : list Statement;
  handleCallee : Expression;
  handleTypeArguments : list string;
  handleRoot : Expression;
  handleArguments : list Expression;
  handleAfter : list Statement
}.

Definition isDefaultExport (node : Statement) : bool :=
  match node with ExportAssignment false _ => true | _ => false end.

(** The handle for a default export of [expression] between [before] and
    [after]. *)
Definition handleOf (before : list Statement) (expression : Expression)
  (after : list Statement) : StructureError + RootHandle :=
  match expression with
  | CallExpression callee typeArguments
      (ObjectLiteralExpression properties multiLine :: arguments) =>
      inr {| handleBefore := before; handleCallee := callee;
             handleTypeArguments := typeArguments;
             handleRoot := ObjectLiteralExpression properties multiLine;
             handleArguments := arguments; handleAfter := after |}
  | CallExpression _ _ _ => inl ArgumentIsNoObject
  | _ => inl ExportIsNoCall
  end.

(** [locate] on the statements that follow [before]. *)
Fixpoint locateFrom (before document : list Statement)
  : StructureError + RootHandle :=
  match document with
  | [] => inl NoDefaultExport
  | node :: rest =>
      match node with
      | ExportAssignment false expression =>
          if existsb isDefaultExport rest then inl SeveralDefaultExports
          else handleOf before expression rest
      | _ => locateFrom (before ++ [node]) rest
      end
  end.

Definition locate (document : list Statement) : StructureError + RootHandle :=
  locateFrom [] document.

(** The document of the handle with [root] for its root. *)
Definition withRoot (handle : RootHandle) (root : Expression)
  : list Statement :=
  handleBefore handle
  ++ ExportAssignment false
       (CallExpression (handleCallee handle) (handleTypeArguments handle)
          (root :: handleArguments handle))
  :: handleAfter handle.

(** The handle with another root. *)
Definition setRoot (handle : RootHandle) (root : Expression) : RootHandle :=
  {| handleBefore := handleBefore handle; handleCallee := handleCallee handle;
     handleTypeArguments := handleTypeArguments handle;
     handleRoot := root;
     handleArguments := handleArguments handle;
     handleAfter := handleAfter handle |}.

(** The located export is the only export assignment of the document, at
    any depth and of either kind. *)
Definition singleExport (document : list Statement) : bool :=
  bool_decide (length (document ≫= exportAssignments) = 1).

(** ** What [locate] finds *)

Lemma handleOf_inr before expression after handle :
  handleOf before expression after = inr handle →
  ∃ properties multiLine,
    handleRoot handle = ObjectLiteralExpression properties multiLine ∧
    handleBefore handle = before ∧ handleAfter handle = after ∧
    expression = CallExpression (handleCallee handle)
                   (handleTypeArguments handle)
                   (handleRoot handle :: handleArguments handle).
Proof.
  destruct expression as [| | | | | |c ts [|[] args]| | |]; try done.
  intros [= <-]. simpl. by eexists _, _.
Qed.

Lemma locateFrom_inr before document handle :
  locateFrom before document = inr handle →
  ∃ skipped,
    handleBefore handle = before ++ skipped ∧
    existsb isDefaultExport skipped = false ∧
    existsb isDefaultExport (handleAfter handle) = false ∧
    document = skipped ++ ExportAssignment false
                 (CallExpression (handleCallee handle)
                    (handleTypeArguments handle)
                    (handleRoot handle :: handleArguments handle))
               :: handleAfter handle.
Proof.
  revert before. induction document as [|node rest IH]; intros before; [done|].
  assert (isDefaultExport node = false →
          locateFrom (before ++ [node]) rest = inr handle →
          ∃ skipped, handleBefore handle = before ++ skipped ∧
            existsb isDefaultExport skipped = false ∧
            existsb isDefaultExport (handleAfter handle) = false ∧
            node :: rest = skipped ++ ExportAssignment false
                 (CallExpression (handleCallee handle)
                    (handleTypeArguments handle)
                    (handleRoot handle :: handleArguments handle))
               :: handleAfter handle) as Hskip.
  { intros Hnode (skipped & Hb & Hs & Ha & ->)%IH. exists (node :: skipped).
    rewrite Hb, <-app_assoc. simpl. by rewrite Hnode. }
  destruct node as [[] e| |]; simpl; try by apply Hskip.
  destruct (existsb isDefaultExport rest) eqn:Hrest; [done|].
  intros (ps & ml & _ & Hb & Ha & ->)%handleOf_inr. exists [].
  rewrite Hb, Ha, app_nil_r. done.
Qed.

(** The root of a handle is an object literal. *)
Lemma locateFrom_root before document handle :
  locateFrom before document = inr handle →
  ∃ properties multiLine,
    handleRoot handle = ObjectLiteralExpression properties multiLine.
Proof.
  revert before. induction document as [|node rest IH]; intros before; [done|].
  destruct node as [[] e| |]; simpl; try by apply IH.
  destruct (existsb isDefaultExport rest); [done|].
  intros (ps & ml & Hroot & _)%handleOf_inr. eauto.
Qed.

(** [locate] and [withRoot]: putting the root back gives the document. *)
Lemma locate_withRoot_same document handle :
  locate document = inr handle → withRoot handle (handleRoot handle) = document.
Proof.
  intros (skipped & Hb & _ & _ & ->)%locateFrom_inr. unfold withRoot.
  by rewrite Hb.
Qed.

Lemma locateFrom_skip before skipped document :
  existsb isDefaultExport skipped = false →
  locateFrom before (skipped ++ document)
  = locateFrom (before ++ skipped) document.
Proof.
  revert before. induction skipped as [|node skipped IH]; intros before.
  - by rewrite app_nil_r.
  - simpl. intros [Hnode Hs]%orb_false_iff.
    rewrite (IH (before ++ [node])), <-app_assoc by done.
    by destruct node as [[] e| |].
Qed.

(** [locate] on a document with another root finds that root. *)
Lemma locate_withRoot document handle properties multiLine :
  locate document = inr handle →
  locate (withRoot handle (ObjectLiteralExpression properties multiLine))
  = inr (setRoot handle (ObjectLiteralExpression properties multiLine)).
Proof.
  intros (skipped & Hb & Hs & Ha & _)%locateFrom_inr.
  unfold locate, withRoot, setRoot.
  simpl in Hb. rewrite Hb, locateFrom_skip by done. simpl. by rewrite Ha.
Qed.

(** Without an export assignment there is nothing to locate. *)
Lemma locateFrom_no_export before document :
  document ≫= exportAssignments = [] →
  locateFrom before document = inl NoDefaultExport.
Proof.
  revert before. induction document as [|node rest IH]; intros before; [done|].
  rewrite bind_cons. intros [Hnode Hrest]%app_eq_nil.
  destruct node as [b e| |]; [done|by apply IH..].
Qed.

Lemma singleExport_around skipped b e after :
  singleExport (skipped ++ ExportAssignment b e :: after) = true →
  skipped ≫= exportAssignments = [] ∧ after ≫= exportAssignments = [].
Proof.
  unfold singleExport. intros Hone%bool_decide_eq_true.
  rewrite bind_app, bind_cons, !length_app in Hone. simpl in Hone.
  split; apply length_zero_iff_nil; lia.
Qed.

(** ** The transformer on a located document *)

(** The handle without the arguments that follow the root. *)
Definition dropArguments (handle : RootHandle) : RootHandle :=
  {| handleBefore := handleBefore handle; handleCallee := handleCallee handle;
     handleTypeArguments := handleTypeArguments handle;
     handleRoot := handleRoot handle;
     handleArguments := [];
     handleAfter := handleAfter handle |}.

(** A visitor of statements on a located document visits the located
    export and returns every statement around it as it is. *)
Lemma visitFile_located (visitor : Statement → result Statement)
    `{!StatementVisitor visitor} document handle :
  locate document = inr handle → singleExport document = true →
  mapR visitor document
  = node' ← visitor
              (ExportAssignment false
                 (CallExpression (handleCallee handle)
                    (handleTypeArguments handle)
                    (handleRoot handle :: handleArguments handle)));
    Ok (handleBefore handle ++ node' :: handleAfter handle).
Proof.
  intros (skipped & Hb & _ & _ & ->)%locateFrom_inr
         [Hskipped Hafter]%singleExport_around.
  rewrite visitFile_around by done. simpl in Hb. by rewrite Hb.
Qed.

Lemma mergeCypressConfigs_located newConfig document handle :
  locate document = inr handle → singleExport document = true →
  mergeCypressConfigs newConfig false document
  = root' ← visitRootConfigNode (Some (handleRoot handle)) newConfig;
    call ← createCallExpression (handleCallee handle)
             (handleTypeArguments handle) [root'];
    Ok (handleBefore handle ++ ExportAssignment false call
          :: handleAfter handle).
Proof.
  intros Hlocate Hsingle. unfold mergeCypressConfigs.
  rewrite (visitFile_located _ _ handle) by done. simpl.
  destruct (visitRootConfigNode _ _) as [r|]; simpl; [|done].
  by destruct (createCallExpression _ _ _).
Qed.

(** C16. On a document of the specification's shape, in which the
    located export is the only one, the transformer puts what
    [visitRootConfigNode] makes of the located root in the place of the
    root and leaves every statement around it as it is.  The exported
    call comes back with that one argument: the arguments that followed
    the root are gone. *)
Theorem mergeCypressConfigs_at_locate newConfig document handle root' :
  locate document = inr handle →
  singleExport document = true →
  visitRootConfigNode (Some (handleRoot handle)) newConfig = Ok (Some root') →
  mergeCypressConfigs newConfig false document
  = Ok (withRoot (dropArguments handle) root').
Proof.
  intros Hlocate Hsingle Hroot.
  by rewrite (mergeCypressConfigs_located _ _ handle), Hroot.
Qed.

(** When the root is the only argument of the exported call, that is the
    document of the handle with the new root. *)
Lemma mergeCypressConfigs_at_locate_one_argument
    newConfig document handle root' :
  locate document = inr handle →
  singleExport document = true →
  handleArguments handle = [] →
  visitRootConfigNode (Some (handleRoot handle)) newConfig = Ok (Some root') →
  mergeCypressConfigs newConfig false document = Ok (withRoot handle root').
Proof.
  intros Hlocate Hsingle Hargs Hroot.
  rewrite (mergeCypressConfigs_located _ _ handle), Hroot by done.
  unfold withRoot. by rewrite Hargs.
Qed.

(** ** Documents [locate] refuses *)

(** A document without an export assignment is a [StructureError] for
    the specification; the transformer returns it as it is, with and
    without [overwrite]. *)
Theorem mergeCypressConfigs_no_export newConfig overwrite document :
  document ≫= exportAssignments = [] →
  locate document = inl NoDefaultExport ∧
  mergeCypressConfigs newConfig overwrite document = Ok document.
Proof.
  intros Hnone. split; [by apply locateFrom_no_export|].
  apply visitFile_id; [apply _|]. by rewrite Hnone.
Qed.

End locate.

(** ** Examples *)

#[local] Existing Instance standardPrototypes.

Lemma mergeCypressConfigs_at_locate_witness :
  mergeCypressConfigs testConfigWithoutDevServer false configContent
  = Ok (withRoot
          {| handleBefore :=
               [ OtherStatement "import { defineConfig } from 'cypress';";
                 OtherStatement "import { componentDevServer } from '@nrwl/cypress/plugins/next';" ];
             handleCallee := Identifier "defineConfig";
             handleTypeArguments := [];
             handleRoot := rootObject;
             handleArguments := [];
             handleAfter := [] |}
          mergedTestRoot).
Proof.
  exact (mergeCypressConfigs_at_locate testConfigWithoutDevServer configContent
           _ mergedTestRoot eq_refl eq_refl eq_refl).
Defined.

Lemma mergeCypressConfigs_no_export_witness :
  locate [OtherStatement "import { defineConfig } from 'cypress';"]
  = inl NoDefaultExport ∧
  mergeCypressConfigs testConfigWithoutDevServer false
    [OtherStatement "import { defineConfig } from 'cypress';"]
  = Ok [OtherStatement "import { defineConfig } from 'cypress';"].
Proof. by apply mergeCypressConfigs_no_export. Defined.

(** [export = defineConfig({...})] is no default export, and two default
    exports are one too many: the transformer merges into each. *)
Example mergeCypressConfigs_export_equals :
  let document (root : Expression) :=
    [ExportAssignment true
       (CallExpression (Identifier "defineConfig") [] [root])] in
  locate (document (ObjectLiteralExpression [property "video" FalseKeyword] false))
  = inl NoDefaultExport ∧
  mergeCypressConfigs (JsObject [("video", JsBoolean true)]) false
    (document (ObjectLiteralExpression [property "video" FalseKeyword] false))
  = Ok (document (ObjectLiteralExpression [property "video" TrueKeyword] false)).
Proof. by vm_compute. Qed.

Example mergeCypressConfigs_two_exports :
  let export (root : Expression) :=
    ExportAssignment false
      (CallExpression (Identifier "defineConfig") [] [root]) in
  let before := ObjectLiteralExpression [property "video" FalseKeyword] false in
  let after := ObjectLiteralExpression [property "video" TrueKeyword] false in
  locate [export before; export before] = inl SeveralDefaultExports ∧
  mergeCypressConfigs (JsObject [("video", JsBoolean true)]) false
    [export before; export before]
  = Ok [export after; export after].
Proof. by vm_compute. Qed.

(** A first argument that is no object literal is a [StructureError];
    the transformer returns the file as it is when the new configuration
    has no entries. *)
Example mergeCypressConfigs_root_no_object :
  let document :=
    [ExportAssignment false
       (CallExpression (Identifier "defineConfig") [] [Identifier "config"])] in
  locate document = inl ArgumentIsNoObject ∧
  mergeCypressConfigs (JsObject []) false document = Ok document.
Proof. by vm_compute. Qed.
