(* ===== verification/MergeSpec.v ===== *)
(** * The merge the specification asks for, and how far the code goes

    [mergeObject] is the algorithm of the specification's merge engine:
    walk the properties in their order, replace or merge the ones the
    patch names, append what is left of the patch.  It is written here
    without visitors, maps or exceptions, on the same trees as the code.

    The theorems compare [transformers.ts] with it: one level down and for
    a patch of literals the code refines [mergeObject]; at the root it
    returns the same properties in another order. *)

From S2P Require Import Prelude JsMap JsValue TsAst JsRegex Transformers.
From S2P Require Import MergeForms TestConfig MergeOutcomes.

Section spec.
Context {chain : Inherited}.

(** ** The specification *)

(** The literal builder: a literal for a number, a string or a boolean, an
    object literal with the entries in their order for an object.  The
    specification wants a call rebuilt for an opaque value and leaves the
    way open; it is outside this definition. *)
Fixpoint build (value : JsValue) : option Expression :=
  match value with
  | JsNum n => Some (createNumericLiteral n)
  | JsString s => Some (createStringLiteral s true)
  | JsBoolean b => Some (createBoolean b)
  | JsObject entries =>
      properties ←
        (fix buildEntries (entries : list (string * JsValue)) :=
           match entries with
           | [] => Some []
           | (key, v) :: rest =>
               e ← build v;
               ps ← buildEntries rest;
               Some (PropertyAssignment (CreatedIdentifier key) e :: ps)
           end) entries;
      Some (ObjectLiteralExpression properties true)
  | _ => None
  end.

(** The properties appended for the entries of the patch that name no
    property of the object. *)
Definition appended (ps : list ObjectLiteralElement)
  (patch : list (string * JsValue)) : option (list ObjectLiteralElement) :=
  mapM (λ kv, PropertyAssignment (CreatedIdentifier kv.1) <$> build kv.2)
       (filter (λ kv, kv.1 ∉ parsedNames ps) patch).

(** [mergeObject]: step 1 walks the properties, step 2 appends. *)
Fixpoint mergeObject (existing : Expression) (patch : list (string * JsValue))
  : option Expression :=
  match existing with
  | ObjectLiteralExpression ps ml =>
      walked ←
        (fix walk (ps : list ObjectLiteralElement) :=
           match ps with
           | [] => Some []
           | p :: rest =>
               p' ← mergeProperty p patch;
               rest' ← walk rest;
               Some (p' :: rest')
           end) ps;
      new ← appended ps patch;
      Some (ObjectLiteralExpression (walked ++ new) ml)
  | _ => None
  end
with mergeProperty (p : ObjectLiteralElement) (patch : list (string * JsValue))
  : option ObjectLiteralElement :=
  match p with
  | PropertyAssignment (ParsedName text) value =>
      match map_get text patch with
      | None => Some p
      | Some (JsObject entries) =>
          if isObjectLiteralExpression value
          then PropertyAssignment (ParsedName text) <$> mergeObject value entries
          else PropertyAssignment (ParsedName text) <$> build (JsObject entries)
      | Some v => PropertyAssignment (ParsedName text) <$> build v
      end
  | _ => Some p
  end.

(** The code refines the specification when it returns what the
    specification asks for, up to the layout of the object. *)
Definition refines (code : result Expression) (spec : option Expression)
  : Prop :=
  ∃ ps ml ml', code = Ok (ObjectLiteralExpression ps ml) ∧
               spec = Some (ObjectLiteralExpression ps ml').

(** ** The specification, unfolded *)

Lemma mergeObject_unfold ps ml patch :
  mergeObject (ObjectLiteralExpression ps ml) patch =
  walked ← mapM (λ p, mergeProperty p patch) ps;
  new ← appended ps patch;
  Some (ObjectLiteralExpression (walked ++ new) ml).
Proof.
  reflexivity.
Qed.

Lemma build_literal value e : literalOf value = Some e → build value = Some e.
Proof. by destruct value. Qed.

(** For a patch of literals the literal builder builds what
    [updatePropertyAssignment] builds. *)
Lemma build_entries_literals entries :
  Forall (λ kv, isLiteralValue kv.2 = true) entries →
  mapM (λ kv, PropertyAssignment (CreatedIdentifier kv.1) <$> build kv.2) entries
  = Some (builtProperties id entries).
Proof.
  intros Hlit. apply mapM_Some_2. unfold builtProperties.
  induction Hlit as [|[k v] l Hv _ IH]; [constructor|].
  apply isLiteralValue_Some in Hv as [e He]. simpl in He.
  csimpl. rewrite He. constructor; [|done].
  simpl. by rewrite (build_literal _ e He).
Qed.

(** An empty patch changes nothing. *)
Lemma mergeObject_nil ps ml :
  mergeObject (ObjectLiteralExpression ps ml) []
  = Some (ObjectLiteralExpression ps ml).
Proof.
  rewrite mergeObject_unfold.
  assert (mapM (λ p, mergeProperty p []) ps = Some ps) as ->.
  { apply mapM_Some_2, Forall2_same_length_lookup_2; [done|].
    intros i x y Hx Hy. assert (x = y) as -> by congruence.
    by destruct y as [[]| |]. }
  simpl. by rewrite app_nil_r.
Qed.

(** ** One level down: the code refines the specification *)

Section literals.
Context (path : list string) (config : JsValue).
Let patch := ownEntries (getValueByPath config path).
Context (Hliterals : literalsAt path config).

Lemma literal_patch_lookup text :
  ownRead (getValueByPath config path) text →
  literalOf (getValueByPath config (path ++ [text]))
  = map_get text patch ≫= literalOf.
Proof.
  rewrite getValueByPath_snoc. unfold patch, ownRead. intros ->.
  by destruct (map_get _ _).
Qed.

Lemma mergeProperty_literals p :
  ownReads path config p →
  mergeProperty p patch = Some (mergedElement path config p).
Proof.
  destruct p as [[text|text] init| |]; try done. simpl. intros Hown.
  rewrite literal_patch_lookup by done.
  destruct (map_get text patch) as [v|] eqn:Hv; [|done].
  apply map_get_Some_elem in Hv. destruct Hliterals as [_ Hlit].
  rewrite Forall_forall in Hlit.
  apply Hlit, isLiteralValue_Some in Hv as [e He]. simpl in *.
  rewrite He. destruct v; try done; by rewrite (build_literal _ e He).
Qed.

Lemma appended_literals ps :
  appended ps patch = Some (builtProperties id (addedEntries path config ps)).
Proof.
  apply build_entries_literals, Forall_filter_weaken, Hliterals.
Qed.

Lemma mergeObject_literals ps ml :
  Forall (ownReads path config) ps →
  mergeObject (ObjectLiteralExpression ps ml) patch =
  Some (ObjectLiteralExpression
          ((mergedElement path config <$> ps)
           ++ builtProperties id (addedEntries path config ps)) ml).
Proof.
  intros Hown. rewrite mergeObject_unfold.
  assert (mapM (λ p, mergeProperty p patch) ps
          = Some (mergedElement path config <$> ps)) as ->.
  { apply mapM_Some_2, Forall2_fmap_r, Forall_Forall2_diag.
    eapply Forall_impl; [exact Hown|]. apply mergeProperty_literals. }
  simpl. by rewrite appended_literals.
Qed.

End literals.

(** New properties are named by the last segment of the key, which is the
    key when it has no dot. *)
Lemma builtProperties_no_dot entries :
  Forall (λ kv, occurs "." kv.1 = false) entries →
  builtProperties lastSegment entries = builtProperties id entries.
Proof.
  unfold builtProperties. induction 1 as [|[k v] l Hk _ IH]; [done|].
  csimpl. simpl in Hk. by rewrite IH, lastSegment_no_dot.
Qed.

(** C2. One level down, for an object that was parsed and a configuration
    that holds numbers, strings and booleans under distinct keys without
    dots at [path], read under names of the object that are its own,
    [updateChildObjectLiteral] refines the merge of the specification:
    the same properties in the same order, replaced where they stand and
    appended when new. *)
Theorem updateChildObjectLiteral_refines ps ml path config :
  forallb parsedElement ps = true →
  Forall (ownReads path config) ps →
  literalsAt path config →
  Forall (λ kv, occurs "." kv.1 = false)
         (ownEntries (getValueByPath config path)) →
  refines (updateChildObjectLiteral (ObjectLiteralExpression ps ml) path config)
          (mergeObject (ObjectLiteralExpression ps ml)
                       (ownEntries (getValueByPath config path))).
Proof.
  intros Hps Hown Hlit Hdots.
  rewrite updateChildObjectLiteral_literals, mergeObject_literals by done.
  unfold mergedObject, refines. rewrite builtProperties_no_dot; [by eauto|].
  by apply Forall_filter_weaken.
Qed.

(** ** The root: another order *)

End spec.

(** ** Examples *)

#[local] Existing Instance standardPrototypes.

Lemma updateChildObjectLiteral_refines_witness :
  refines
    (updateChildObjectLiteral componentObject ["component"]
       testConfigWithoutDevServer)
    (mergeObject componentObject
       [ ("fixturesFolder", JsString "cypress/fixtures/cool");
         ("blah", JsString "i am a random property") ]).
Proof.
  apply (updateChildObjectLiteral_refines _ true ["component"]
           testConfigWithoutDevServer);
    [reflexivity | | |]; apply (bool_decide_unpack _); by vm_compute.
Defined.

(** On the file and the configuration of the repository's test the
    code and the specification build the same properties for the root,
    and put the new one at different ends: the code returns it first, the
    specification asks for it last. *)
Example visitRootConfigNode_test_new_property_first :
  ∃ new rest,
    visitRootConfigNode (Some rootObject) testConfigWithoutDevServer
    = Ok (Some (ObjectLiteralExpression (new :: rest) true)) ∧
    mergeObject rootObject (ownEntries testConfigWithoutDevServer)
    = Some (ObjectLiteralExpression (rest ++ [new]) true).
Proof. eexists _, _. split; by vm_compute. Qed.
