(* ===== verification/MergeRoot.v ===== *)
(** * The root: the code against the merge of the specification

    [MergeSpec.v] compares [updateChildObjectLiteral] with [mergeObject]
    one level down.  This file does it for [visitRootConfigNode], for
    every file and every new configuration that agree in shape: an object
    of the file meets an object of literals, a scalar of the file meets a
    truthy literal, and what names no property of the file is a literal.
    Then the code and the specification build the same properties, up to
    the layout of the nested objects, and put the new ones at different
    ends: the code first, the specification last.

    Layout is the [multiLine] flag of an object literal, which the code
    sets when it adds properties and the specification says nothing
    about.  Trees are compared up to it by [≈], an equivalence. *)

From S2P Require Import Prelude JsMap JsValue TsAst JsRegex Transformers.
From S2P Require Import MergeForms TestConfig MergeOutcomes MergeSpec.

Section layout.
Context {chain : Inherited}.

(** ** Trees up to layout *)

Fixpoint eraseLayout (e : Expression) : Expression :=
  match e with
  | ObjectLiteralExpression ps _ =>
      ObjectLiteralExpression (eraseElementLayout <$> ps) false
  | CallExpression c ts args =>
      CallExpression (eraseLayout c) ts (eraseLayout <$> args)
  | NewExpression c ts args =>
      NewExpression (eraseLayout c) ts
        (fmap (M:=option) (fmap eraseLayout) args)
  | _ => e
  end
with eraseElementLayout (el : ObjectLiteralElement) : ObjectLiteralElement :=
  match el with
  | PropertyAssignment name e => PropertyAssignment name (eraseLayout e)
  | _ => el
  end.

Definition sameLayout : relation Expression :=
  λ e1 e2, eraseLayout e1 = eraseLayout e2.

Definition sameElementLayout : relation ObjectLiteralElement :=
  λ el1 el2, eraseElementLayout el1 = eraseElementLayout el2.

Infix "≈" := sameLayout (at level 70, no associativity) : stdpp_scope.
Infix "≈ₑ" := sameElementLayout (at level 70, no associativity) : stdpp_scope.

#[global] Instance sameLayout_equivalence : Equivalence sameLayout.
Proof. unfold sameLayout. split; [by intros ? | by intros ?? | by intros ??? -> ->]. Qed.

#[global] Instance sameElementLayout_equivalence : Equivalence sameElementLayout.
Proof.
  unfold sameElementLayout.
  split; [by intros ? | by intros ?? | by intros ??? -> ->].
Qed.

#[global] Instance PropertyAssignment_proper name :
  Proper (sameLayout ==> sameElementLayout) (PropertyAssignment name).
Proof. intros e1 e2 He. unfold sameElementLayout. simpl. by rewrite He. Qed.

#[global] Instance ObjectLiteralExpression_proper :
  Proper (Forall2 sameElementLayout ==> (λ _ _, True) ==> sameLayout)
         ObjectLiteralExpression.
Proof.
  intros ps1 ps2 Hps ml1 ml2 _. unfold sameLayout. simpl. f_equal.
  induction Hps as [|el1 el2 ps1 ps2 Hel _ IH]; [done|]. csimpl. by f_equal.
Qed.

(** ** Agreement in shape *)

(** The entries of an object of the new configuration are literals under
    distinct keys without dots. *)
Definition plainEntries (entries : list (string * JsValue)) : Prop :=
  NoDup entries.*1 ∧
  Forall (λ kv, isLiteralValue kv.2 = true ∧ occurs "." kv.1 = false) entries.

(** The file and the patch agree on a property: the patch does not name
    it, or an object meets an object of literals, or a scalar meets a
    truthy literal. *)
Definition agrees (patch : list (string * JsValue)) (el : ObjectLiteralElement)
  : Prop :=
  match el with
  | PropertyAssignment (ParsedName text) initializer =>
      match map_get text patch with
      | None => True
      | Some value =>
          if isObjectLiteralExpression initializer then
            match value with
            | JsObject entries => plainEntries entries
            | _ => False
            end
          else
            isScalarInitializer initializer = true ∧
            isLiteralValue value = true ∧ toBoolean value = true
      end
  | _ => True
  end.

(** The reads of the code for a property of the root, and for the
    properties of the object it holds, find what the configuration
    itself holds: no name is among those the configuration inherits. *)
Definition ownReadsBelow (newConfig : JsValue) (el : ObjectLiteralElement)
  : Prop :=
  ownReads [] newConfig el ∧
  match el with
  | PropertyAssignment (ParsedName text) (ObjectLiteralExpression cps _) =>
      Forall (ownReads [text] newConfig) cps
  | _ => True
  end.

(** The file and the new configuration agree: the keys of the
    configuration are distinct, they agree on every property, what names
    no property is a literal, and the configuration is read under names
    that are its own. *)
Definition agreement (newConfig : JsValue) (ps : list ObjectLiteralElement)
  : Prop :=
  NoDup (forInKeys newConfig) ∧
  Forall (agrees (ownEntries newConfig)) ps ∧
  Forall (λ kv, kv.1 ∉ parsedNames ps → isLiteralValue kv.2 = true)
         (ownEntries newConfig) ∧
  Forall (ownReadsBelow newConfig) ps.

#[global] Instance plainEntries_dec entries : Decision (plainEntries entries).
Proof. unfold plainEntries. apply _. Defined.

#[global] Instance agrees_dec patch el : Decision (agrees patch el).
Proof.
  destruct el as [[text|text] init| |]; simpl; try apply _.
  destruct (map_get text patch) as [[]|]; destruct (isObjectLiteralExpression init);
    apply _.
Defined.

#[global] Instance ownReadsBelow_dec newConfig el :
  Decision (ownReadsBelow newConfig el).
Proof.
  unfold ownReadsBelow. destruct el as [[text|text] init| |]; try apply _.
  destruct init; apply _.
Defined.

#[global] Instance agreement_dec newConfig ps : Decision (agreement newConfig ps).
Proof. unfold agreement. apply _. Defined.

(** ** Reading the new configuration at the root *)

Section root.
Context (newConfig : JsValue).
Let patch := ownEntries newConfig.

Lemma getValueByPath_root_None text :
  ownRead newConfig text → map_get text patch = None →
  getValueByPath newConfig [text] = JsUndefined.
Proof. unfold ownRead, patch. simpl. by intros -> ->. Qed.

Lemma getValueByPath_root_Some text value :
  map_get text patch = Some value → getValueByPath newConfig [text] = value.
Proof.
  unfold patch. simpl. intros Hget.
  destruct newConfig; try done; unfold optionalGet, getProperty; by rewrite Hget.
Qed.

Lemma parsedNames_elem text ps :
  text ∈ parsedNames ps ↔ ∃ init, PropertyAssignment (ParsedName text) init ∈ ps.
Proof.
  unfold parsedNames. rewrite list_elem_of_omap. split.
  - intros ([[t|t] init| |] & Hel & ?); simplify_eq. eauto.
  - intros [init Hel]. by exists (PropertyAssignment (ParsedName text) init).
Qed.

Lemma plainEntries_literalsAt text entries :
  map_get text patch = Some (JsObject entries) → plainEntries entries →
  literalsAt [text] newConfig ∧
  ownEntries (getValueByPath newConfig [text]) = entries ∧
  Forall (λ kv, occurs "." kv.1 = false) entries.
Proof.
  intros Hget%getValueByPath_root_Some [Hnd Hplain]. unfold literalsAt, forInKeys.
  rewrite Hget. simpl. repeat split; [done|..];
    eapply Forall_impl; try exact Hplain; by intros kv [??].
Qed.

Lemma agrees_supported el :
  agrees patch el → ownReadsBelow newConfig el → supported newConfig el.
Proof.
  destruct el as [[text|text] init| |]; try done. unfold agrees, supported.
  intros Hagrees [Hown Hbelow]. simpl in Hown.
  destruct (map_get text patch) as [value|] eqn:Hget.
  - rewrite (getValueByPath_root_Some _ _ Hget).
    destruct init; try (by destruct Hagrees as (-> & Hlit & _)).
    destruct value; try done. split; [|done].
    by eapply plainEntries_literalsAt.
  - unfold literalsAt, forInKeys.
    rewrite (getValueByPath_root_None _ Hown Hget). simpl.
    destruct init; try (by case_match). repeat split; [constructor..|done].
Qed.

Section agreement.
Context (ps : list ObjectLiteralElement) (Hagreement : agreement newConfig ps).

(** An entry that names a property is an object, for an object of the
    file, or a truthy literal, for a scalar. *)
Lemma named_entry kv :
  kv ∈ patch → kv.1 ∈ parsedNames ps →
  typeof kv.2 = TObject ∨ kv.1 ∈ omap (rootUpdates newConfig) ps.
Proof.
  destruct Hagreement as (Hnd & Hps & _). destruct kv as [text value].
  intros Hin [init Hel]%parsedNames_elem. cbn [fst snd] in *.
  apply (map_get_elem _ _ _ Hnd) in Hin as Hget.
  rewrite Forall_forall in Hps. specialize (Hps _ Hel). simpl in Hps.
  rewrite Hget in Hps. destruct (isObjectLiteralExpression init) eqn:Hinit.
  - left. by destruct value.
  - right. destruct Hps as (Hscalar & _ & Htruthy).
    apply list_elem_of_omap. eexists. split; [exact Hel|]. unfold rootUpdates.
    by rewrite Hinit, Hscalar, (getValueByPath_root_Some _ _ Hget), Htruthy.
Qed.

Lemma rootUpdates_parsedNames text :
  text ∈ omap (rootUpdates newConfig) ps → text ∈ parsedNames ps.
Proof.
  intros ([[t|t] init| |] & Hel & Hup)%list_elem_of_omap; try done.
  simpl in Hup. case_match; simplify_eq. apply parsedNames_elem. eauto.
Qed.

Lemma agreement_supportedConfig : supportedConfig newConfig.
Proof.
  split; [apply Hagreement|]. apply Forall_forall. intros kv Hin.
  destruct (decide (kv.1 ∈ parsedNames ps)) as [Hnamed|Hnew].
  - destruct Hagreement as (Hnd & Hps & _). destruct kv as [text value].
    apply parsedNames_elem in Hnamed as [init Hel]. simpl in *.
    apply (map_get_elem _ _ _ Hnd) in Hin as Hget.
    rewrite Forall_forall in Hps. specialize (Hps _ Hel). simpl in Hps.
    rewrite Hget in Hps. destruct (isObjectLiteralExpression init).
    + left. by destruct value.
    + right. apply Hps.
  - right. destruct Hagreement as (_ & _ & Hnews & _).
    rewrite Forall_forall in Hnews. by apply Hnews.
Qed.

(** The new properties of the code are those of the specification. *)
Lemma newRootEntries_agreement :
  newRootEntries newConfig ps = filter (λ kv, kv.1 ∉ parsedNames ps) patch.
Proof.
  unfold newRootEntries. rewrite list_filter_filter. apply filter_iff_elem.
  apply Forall_forall. intros kv Hin. split.
  - intros [Hleft Htype] Hnamed.
    by destruct (named_entry kv Hin Hnamed).
  - intros Hnew. split; [by intros ?%rootUpdates_parsedNames|].
    destruct Hagreement as (_ & _ & Hnews & _). rewrite Forall_forall in Hnews.
    apply Hnews, isLiteralValue_Some in Hnew as [e He]; [|done].
    by destruct kv.2.
Qed.

End agreement.

(** ** Property by property *)

Lemma mergeProperty_unfold text value :
  mergeProperty (PropertyAssignment (ParsedName text) value) patch =
  match map_get text patch with
  | None => Some (PropertyAssignment (ParsedName text) value)
  | Some (JsObject entries) =>
      if isObjectLiteralExpression value
      then PropertyAssignment (ParsedName text) <$> mergeObject value entries
      else PropertyAssignment (ParsedName text) <$> build (JsObject entries)
  | Some v => PropertyAssignment (ParsedName text) <$> build v
  end.
Proof. by destruct value. Qed.

Lemma mergedElement_undefined path config el :
  getValueByPath config path = JsUndefined → mergedElement path config el = el.
Proof.
  intros Hpath. destruct el as [[text|text] init| |]; try done. simpl.
  by rewrite getValueByPath_snoc, Hpath.
Qed.

Lemma mergedObject_undefined path config ps ml :
  getValueByPath config path = JsUndefined →
  mergedObject path config ps ml = ObjectLiteralExpression ps ml.
Proof.
  intros Hpath. unfold mergedObject, addedEntries. rewrite Hpath. simpl.
  rewrite app_nil_r. f_equal. rewrite <-(list_fmap_id ps) at 2.
  apply list_fmap_ext. intros _ el _. by apply mergedElement_undefined.
Qed.

(** An object of the file against an object of literals: the code and
    the specification differ in the layout. *)
Lemma mergeProperty_object text cps cml entries :
  map_get text patch = Some (JsObject entries) → plainEntries entries →
  Forall (ownReads [text] newConfig) cps →
  ∃ el',
    mergeProperty (PropertyAssignment (ParsedName text)
                     (ObjectLiteralExpression cps cml)) patch = Some el' ∧
    el' ≈ₑ PropertyAssignment (ParsedName text)
             (mergedObject [text] newConfig cps cml).
Proof.
  intros Hget Hplain Hown. rewrite mergeProperty_unfold, Hget.
  cbn [isObjectLiteralExpression].
  destruct (plainEntries_literalsAt _ _ Hget Hplain) as (Hlit & Hentries & Hdots).
  rewrite <-Hentries, mergeObject_literals by done. eexists. split; [done|].
  unfold mergedObject. rewrite builtProperties_no_dot.
  - by apply PropertyAssignment_proper, ObjectLiteralExpression_proper.
  - rewrite <-Hentries in Hdots. by apply Forall_filter_weaken.
Qed.

(** A scalar of the file against a truthy literal: the same property. *)
Lemma mergeProperty_scalar text init value :
  isObjectLiteralExpression init = false → isScalarInitializer init = true →
  map_get text patch = Some value →
  isLiteralValue value = true → toBoolean value = true →
  mergeProperty (PropertyAssignment (ParsedName text) init) patch
  = Some (mergedRootElement newConfig (PropertyAssignment (ParsedName text) init)).
Proof.
  intros Hobj Hscalar Hget [e He]%isLiteralValue_Some Htruthy.
  rewrite mergeProperty_unfold, Hget. unfold mergedRootElement, mergedElement.
  rewrite app_nil_l, (getValueByPath_root_Some _ _ Hget), Hscalar, Htruthy, He.
  destruct value; simplify_eq/=; by destruct init.
Qed.

(** A property the patch does not name stays. *)
Lemma mergeProperty_unnamed text init :
  ownRead newConfig text → map_get text patch = None →
  mergeProperty (PropertyAssignment (ParsedName text) init) patch
  = Some (mergedRootElement newConfig (PropertyAssignment (ParsedName text) init)).
Proof.
  intros Hown Hget. rewrite mergeProperty_unfold, Hget. unfold mergedRootElement.
  rewrite (getValueByPath_root_None _ Hown Hget), andb_false_r.
  destruct init; try done.
  by rewrite mergedObject_undefined by by apply getValueByPath_root_None.
Qed.

Lemma mergeProperty_agrees el :
  parsedElement el = true → agrees patch el → ownReadsBelow newConfig el →
  ∃ el', mergeProperty el patch = Some el' ∧
         el' ≈ₑ mergedRootElement newConfig el.
Proof.
  destruct el as [[text|text] init| |]; try done; [|by eexists]. intros _.
  unfold agrees. intros Hagrees [Hown Hbelow]. simpl in Hown.
  destruct (map_get text patch) as [value|] eqn:Hget.
  - destruct (isObjectLiteralExpression init) eqn:Hobj.
    + destruct init, value; try done. by eapply mergeProperty_object.
    + destruct Hagrees as (Hscalar & Hlit & Htruthy). eexists.
      split; [by eapply mergeProperty_scalar | done].
  - eexists. split; [by apply mergeProperty_unnamed | done].
Qed.

Lemma mergeProperties_agree ps :
  forallb parsedElement ps = true → Forall (agrees patch) ps →
  Forall (ownReadsBelow newConfig) ps →
  ∃ walked, mapM (λ p, mergeProperty p patch) ps = Some walked ∧
            Forall2 sameElementLayout walked (mergedRootElement newConfig <$> ps).
Proof.
  intros Hps%parsed_Forall Hagrees Hown.
  induction Hagrees as [|el ps Hel _ IH]; [by exists []|].
  apply Forall_cons in Hps as [Hparsed Hps].
  apply Forall_cons in Hown as [Hownel Hown].
  destruct (mergeProperty_agrees el Hparsed Hel Hownel)
    as (el' & Hmerged & Hsame).
  destruct (IH Hps Hown) as (walked & Hwalked & Hall).
  exists (el' :: walked). split; [|by constructor].
  apply mapM_Some_2. constructor; [done | by apply mapM_Some_1].
Qed.

End root.

(** ** The root *)

(** What the specification asks for, against the merged root of the
    code: the same new properties, after the properties of the file
    instead of in front of them, and the properties of the file up to
    layout. *)
Lemma mergeObject_mergedRoot ps ml newConfig :
  forallb parsedElement ps = true → agreement newConfig ps →
  ∃ walked',
    mergeObject (ObjectLiteralExpression ps ml) (ownEntries newConfig)
    = Some (ObjectLiteralExpression
              (walked' ++ builtProperties id (newRootEntries newConfig ps)) ml) ∧
    Forall2 sameElementLayout walked' (mergedRootElement newConfig <$> ps).
Proof.
  intros Hps Hagreement. pose proof Hagreement as (Hnd & Hagrees & Hnews & Hown).
  destruct (mergeProperties_agree newConfig ps Hps Hagrees Hown)
    as (walked' & Hwalked & Hsame).
  exists walked'. split; [|done].
  rewrite mergeObject_unfold, Hwalked. unfold appended. simpl.
  rewrite build_entries_literals.
  - by rewrite (newRootEntries_agreement _ _ Hagreement).
  - apply Forall_forall. intros kv [Hnew Hin]%list_elem_of_filter.
    rewrite Forall_forall in Hnews. by apply Hnews.
Qed.

(** A new configuration that agrees with the root is one the code
    supports. *)
Lemma agreement_supported ps newConfig :
  agreement newConfig ps →
  supportedConfig newConfig ∧ Forall (supported newConfig) ps.
Proof.
  intros Hagreement. split; [by eapply agreement_supportedConfig|].
  destruct Hagreement as (_ & Hagrees & _ & Hown).
  rewrite Forall_forall in *. intros el Hel. apply agrees_supported; auto.
Qed.

(** C10. For a file that was parsed and a new configuration that agrees
    with it in shape, [visitRootConfigNode] returns and builds the
    properties the merge of the specification asks for: the same new
    properties, and the same properties of the file up to the layout of
    nested objects.  It puts the new properties first where the
    specification wants them last. *)
Theorem visitRootConfigNode_against_mergeObject ps ml newConfig :
  forallb parsedElement ps = true → agreement newConfig ps →
  ∃ news walked walked',
    visitRootConfigNode (Some (ObjectLiteralExpression ps ml)) newConfig
    = Ok (Some (ObjectLiteralExpression (news ++ walked) ml)) ∧
    mergeObject (ObjectLiteralExpression ps ml) (ownEntries newConfig)
    = Some (ObjectLiteralExpression (walked' ++ news) ml) ∧
    Forall2 sameElementLayout walked' walked.
Proof.
  intros Hps Hagreement.
  destruct (agreement_supported _ _ Hagreement) as [Hconfig Hsupported].
  destruct (mergeObject_mergedRoot ps ml newConfig Hps Hagreement)
    as (walked' & Hspec & Hsame).
  exists (builtProperties id (newRootEntries newConfig ps)),
         (mergedRootElement newConfig <$> ps), walked'.
  split_and!; [|done..]. by apply visitRootConfigNode_mergedRoot.
Qed.

End layout.

(** ** Examples *)

#[local] Existing Instance standardPrototypes.

Lemma visitRootConfigNode_against_mergeObject_witness :
  ∃ news walked walked',
    visitRootConfigNode (Some rootObject) testConfigWithoutDevServer
    = Ok (Some (ObjectLiteralExpression (news ++ walked) true)) ∧
    mergeObject rootObject (ownEntries testConfigWithoutDevServer)
    = Some (ObjectLiteralExpression (walked' ++ news) true) ∧
    Forall2 sameElementLayout walked' walked.
Proof.
  apply visitRootConfigNode_against_mergeObject;
    [reflexivity | apply (bool_decide_unpack _); by vm_compute].
Defined.
