(* ===== verification/MergeDocument.v ===== *)
(** * The document: the transformer against the specification's [addOrUpdate]

    The specification's public operation takes a document and a patch:
    it locates the root, merges the patch into it (or, with [overwrite],
    builds a root from the patch alone) and puts the result in the place
    of the root.  [specAddOrUpdate] is that operation on parsed
    documents, composed of [locate], [mergeObject], [build] and
    [withRoot].

    The theorems compose [Locate.v] with [MergeRoot.v]: on a document of
    the specification's shape and a new configuration that agrees with
    its root, [mergeCypressConfigs] of [transformers.ts] and
    [specAddOrUpdate] return the same document up to the place of the new
    properties and the layout of nested objects; on an empty patch they
    return the same document; with [overwrite] they never do. *)

From S2P Require Import Prelude JsMap JsValue TsAst JsRegex Transformers.
From S2P Require Import MergeForms TestConfig MergeKeeps MergeOutcomes.
From S2P Require Import MergeThrows MergeFile Locate MergeSpec MergeRoot.

Section document.
Context {chain : Inherited}.

(** ** The operation of the specification *)

(** The errors of the specification.  [build] leaves out the call that
    the specification wants rebuilt for an opaque value: a patch with a
    function counts as unsupported here. *)
Inductive SpecError : Type :=
| Structure (e : StructureError)
| UnsupportedValueType.

(** The root the specification asks for. *)
Definition specRoot (overwrite : bool) (root : Expression)
  (patch : list (string * JsValue)) : option Expression :=
  if overwrite then build (JsObject patch) else mergeObject root patch.

(** [addOrUpdate(existingText, patch, overwrite)] between the parser and
    the printer. *)
Definition specAddOrUpdate (document : list Statement)
  (patch : list (string * JsValue)) (overwrite : bool)
  : SpecError + list Statement :=
  match locate document with
  | inl e => inl (Structure e)
  | inr handle =>
      match specRoot overwrite (handleRoot handle) patch with
      | Some root' => inr (withRoot handle root')
      | None => inl UnsupportedValueType
      end
  end.

(** ** What a located document holds *)

Lemma located_parsed document handle :
  locate document = inr handle →
  forallb parsedStatement document = true →
  parsedExpression (handleRoot handle) = true.
Proof.
  intros (skipped & _ & _ & _ & ->)%locateFrom_inr.
  rewrite forallb_app. simpl. rewrite !andb_true_iff. tauto.
Qed.

Lemma specAddOrUpdate_located document handle patch overwrite root' :
  locate document = inr handle →
  specRoot overwrite (handleRoot handle) patch = Some root' →
  specAddOrUpdate document patch overwrite = inr (withRoot handle root').
Proof. unfold specAddOrUpdate. by intros -> ->. Qed.

(** ** Merging *)

(** C13. On a parsed document of the specification's shape, whose
    exported call has the root for its only argument, and for a new
    configuration that agrees with the root in shape, the transformer and
    the [addOrUpdate] of the specification both return the document with
    a new root in the place of the old one.  The two roots hold the same
    new properties and, up to the layout of nested objects, the same
    properties of the file; the transformer puts the new ones first, the
    specification last. *)
Theorem mergeCypressConfigs_against_specAddOrUpdate
    newConfig document handle ps ml :
  locate document = inr handle → singleExport document = true →
  handleArguments handle = [] →
  handleRoot handle = ObjectLiteralExpression ps ml →
  forallb parsedStatement document = true →
  agreement newConfig ps →
  ∃ news walked walked',
    mergeCypressConfigs newConfig false document
    = Ok (withRoot handle (ObjectLiteralExpression (news ++ walked) ml)) ∧
    specAddOrUpdate document (ownEntries newConfig) false
    = inr (withRoot handle (ObjectLiteralExpression (walked' ++ news) ml)) ∧
    Forall2 sameElementLayout walked' walked.
Proof.
  intros Hlocate Hsingle Hargs Hroot Hparsed Hagreement.
  pose proof (located_parsed _ _ Hlocate Hparsed) as Hps.
  rewrite Hroot in Hps.
  destruct (agreement_supported _ _ Hagreement) as [Hconfig Hsupported].
  destruct (mergeObject_mergedRoot ps ml newConfig Hps Hagreement)
    as (walked' & Hspec & Hsame).
  exists (builtProperties id (newRootEntries newConfig ps)),
         (mergedRootElement newConfig <$> ps), walked'.
  split_and!; [| |done].
  - apply mergeCypressConfigs_at_locate_one_argument; [done..|].
    rewrite Hroot. by apply visitRootConfigNode_mergedRoot.
  - apply specAddOrUpdate_located; [done|]. by rewrite Hroot.
Qed.

(** ** The empty patch *)

(** The specification's no-op: an empty patch returns the document. *)
Lemma specAddOrUpdate_nil document handle :
  locate document = inr handle → specAddOrUpdate document [] false = inr document.
Proof.
  intros Hlocate.
  destruct (locateFrom_inr _ _ _ Hlocate) as (skipped & _ & _ & _ & Hdoc).
  pose proof Hlocate as (ps & ml & Hroot)%locateFrom_root.
  rewrite (specAddOrUpdate_located _ handle _ _ (handleRoot handle)); [|done|].
  - by rewrite (locate_withRoot_same document).
  - simpl. rewrite Hroot. apply mergeObject_nil.
Qed.

(** On an empty patch the code and the specification agree to the
    letter: both return the document, when the root is the only argument
    of the exported call and no property of the root has a name that an
    empty object inherits. *)
Theorem mergeCypressConfigs_empty_patch document handle :
  locate document = inr handle → singleExport document = true →
  handleArguments handle = [] →
  forallb parsedStatement document = true →
  rootOwnReads (JsObject []) (handleRoot handle) →
  mergeCypressConfigs (JsObject []) false document = Ok document ∧
  specAddOrUpdate document [] false = inr document.
Proof.
  intros Hlocate Hsingle Hargs Hparsed Hown.
  split; [|by eapply specAddOrUpdate_nil].
  rewrite <-(locate_withRoot_same document handle) at 2 by done.
  apply mergeCypressConfigs_at_locate_one_argument; [done..|].
  apply visitRootConfigNode_no_entries; [|done..].
  by eapply located_parsed.
Qed.

(** ** Overwriting *)

(** With [overwrite] the transformer returns the located document with
    an exported call without arguments. *)
Lemma mergeCypressConfigs_overwrite_located newConfig document handle :
  locate document = inr handle → singleExport document = true →
  mergeCypressConfigs newConfig true document
  = Ok (handleBefore handle
        ++ ExportAssignment false
             (CallExpression (handleCallee handle)
                (handleTypeArguments handle) [])
        :: handleAfter handle).
Proof.
  intros Hlocate Hsingle. unfold mergeCypressConfigs.
  by rewrite (visitFile_located _ _ handle).
Qed.

(** With [overwrite] the code never returns what the specification asks
    for: the specification builds a root from the patch, the code
    leaves the exported call without a root. *)
Theorem mergeCypressConfigs_overwrite_diverges newConfig document handle :
  locate document = inr handle → singleExport document = true →
  ∀ document',
    specAddOrUpdate document (ownEntries newConfig) true = inr document' →
    mergeCypressConfigs newConfig true document ≠ Ok document'.
Proof.
  intros Hlocate Hsingle document'.
  rewrite (mergeCypressConfigs_overwrite_located _ _ handle) by done.
  unfold specAddOrUpdate. rewrite Hlocate.
  destruct (specRoot _ _ _) as [root'|]; [|done]. intros [= <-] [= Heq].
  by apply app_inv_head in Heq.
Qed.

End document.

(** ** Examples *)

#[local] Existing Instance standardPrototypes.

(** What [locate] finds in the file of the repository's test. *)
Definition testHandle : RootHandle :=
  {| handleBefore :=
       [ OtherStatement "import { defineConfig } from 'cypress';";
         OtherStatement "import { componentDevServer } from '@nrwl/cypress/plugins/next';" ];
     handleCallee := Identifier "defineConfig";
     handleTypeArguments := [];
     handleRoot := rootObject;
     handleArguments := [];
     handleAfter := [] |}.

Lemma mergeCypressConfigs_against_specAddOrUpdate_witness :
  ∃ news walked walked',
    mergeCypressConfigs testConfigWithoutDevServer false configContent
    = Ok (withRoot testHandle (ObjectLiteralExpression (news ++ walked) true)) ∧
    specAddOrUpdate configContent (ownEntries testConfigWithoutDevServer) false
    = inr (withRoot testHandle
             (ObjectLiteralExpression (walked' ++ news) true)) ∧
    Forall2 sameElementLayout walked' walked.
Proof.
  eapply (mergeCypressConfigs_against_specAddOrUpdate _ _ testHandle);
    [reflexivity.. | apply (bool_decide_unpack _); by vm_compute].
Defined.

Lemma mergeCypressConfigs_empty_patch_witness :
  mergeCypressConfigs (JsObject []) false configContent = Ok configContent ∧
  specAddOrUpdate configContent [] false = inr configContent.
Proof.
  apply (mergeCypressConfigs_empty_patch configContent testHandle);
    [reflexivity.. | apply (bool_decide_unpack _); by vm_compute].
Defined.

(** A document that exports a [new] expression is none of the
    specification's shape, and [addOrUpdate] fails on it; the
    transformer takes the expression for a call and returns the document
    with a call in its place. *)
Example mergeCypressConfigs_new_expression_diverges :
  let document :=
    [ExportAssignment false
       (NewExpression (Identifier "Config") [] (Some [rootObject]))] in
  specAddOrUpdate document [] false = inl (Structure ExportIsNoCall) ∧
  mergeCypressConfigs (JsObject []) false document
  = Ok [ExportAssignment false
          (CallExpression (Identifier "Config") [] [rootObject])].
Proof. split; [reflexivity | by vm_compute]. Qed.

Lemma mergeCypressConfigs_overwrite_diverges_witness :
  mergeCypressConfigs (JsObject [("video", JsBoolean true)]) true configContent
  ≠ Ok (withRoot testHandle
          (ObjectLiteralExpression
             [PropertyAssignment (CreatedIdentifier "video") TrueKeyword] true)).
Proof.
  by apply (mergeCypressConfigs_overwrite_diverges _ _ testHandle).
Defined.
