(* ===== verification/MergeSettles.v ===== *)
(** * A second merge: what settles and what grows

    [addOrUpdateConfigProperties] is run on the text of a file, and the
    text it returns is the file the next run reads.  Between two merges
    the tree is printed and parsed: a name the factory created has source
    text from then on, and the text of a created numeric literal is read
    as a numeric literal only when it starts like one ([-1] comes back as
    a prefix expression, [NaN] as an identifier).  [readBack] is that
    step on trees, and [rewritten] is a merge followed by it.

    The theorems: for a file and a new configuration that agree in
    shape, whose entries at the root are truthy and are read back as the
    literals they were written as, a second run changes nothing
    ([rewritten] is idempotent); an entry at the root that is falsy, or a
    negative number, is added again by every run. *)

From Stdlib Require Import DecimalString Lia.
From S2P Require Import Prelude JsMap JsValue TsAst JsRegex Transformers.
From S2P Require Import MergeForms TestConfig MergeKeeps MergeOutcomes.
From S2P Require Import MergeLosses MergeInvariants.

(** ** Reading a printed tree back *)

(** The text starts like a numeric literal: with a digit or a dot. *)
Definition isNumericStart (text : string) : bool :=
  match text with
  | String c _ => bool_decide (c ∈ list_ascii_of_string "0123456789.")
  | EmptyString => false
  end.

(** The tree the parser reads from what the printer writes for a tree.
    Every name has source text, the text the printer wrote for it; a
    numeric literal whose text does not start like one is another
    expression.  The names are taken for names the parser reads as they
    were written (identifiers, numbers).  The printer fails on a tree
    with [undefined] among its properties; the theorems read back trees
    that have none, and [readBackElement] leaves an [undefined] where it
    is. *)
Fixpoint readBack (e : Expression) : Expression :=
  match e with
  | NumericLiteral text =>
      if isNumericStart text then e else OtherExpression text
  | CallExpression c ts args => CallExpression (readBack c) ts (readBack <$> args)
  | NewExpression c ts args =>
      NewExpression (readBack c) ts (fmap (M:=option) (fmap readBack) args)
  | ObjectLiteralExpression ps ml =>
      ObjectLiteralExpression (readBackElement <$> ps) ml
  | _ => e
  end
with readBackElement (el : ObjectLiteralElement) : ObjectLiteralElement :=
  match el with
  | PropertyAssignment name e =>
      PropertyAssignment (ParsedName (nameText name)) (readBack e)
  | _ => el
  end.

(** The literal for the value is read back as the literal it is: a
    string, a boolean, a number whose text starts like a numeric literal
    (one that is not negative, [NaN] or an infinity). *)
Definition readsBack (value : JsValue) : bool :=
  match value with
  | JsNum n => isNumericStart (numberToString n)
  | JsString _ | JsBoolean _ => true
  | _ => false
  end.

(** ** What is read back *)

Lemma readBack_idemp_both :
  (∀ e, readBack (readBack e) = readBack e) ∧
  (∀ el, readBackElement (readBackElement el) = readBackElement el).
Proof.
  apply Expression_Element_ind; try done.
  - intros t. simpl. destruct (isNumericStart t) eqn:Ht; simpl; by rewrite ?Ht.
  - intros e ts args He Hargs. simpl. rewrite He. f_equal.
    rewrite <-list_fmap_compose. apply Forall_fmap_ext_1, Hargs.
  - intros ps ml Hps. simpl. f_equal.
    rewrite <-list_fmap_compose. apply Forall_fmap_ext_1, Hps.
  - intros e ts [args|] He Hargs; simpl; rewrite He; [|done]. do 2 f_equal.
    rewrite <-list_fmap_compose. apply Forall_fmap_ext_1, Hargs.
  - intros n e He. simpl. by rewrite He.
Qed.

Lemma readBack_idemp e : readBack (readBack e) = readBack e.
Proof. apply readBack_idemp_both. Qed.

(** What is read back is a parsed tree, when the tree that was printed
    holds no [undefined]. *)
Lemma readBack_parsed_both :
  (∀ e, wfExpression e = true → parsedExpression (readBack e) = true) ∧
  (∀ el, wfElement el = true → parsedElement (readBackElement el) = true).
Proof.
  apply Expression_Element_ind; try done.
  - intros t _. simpl. by destruct (isNumericStart t).
  - intros e ts args He Hargs [Hc Ha]%andb_true_iff. simpl.
    rewrite He, forallb_fmap by done. simpl.
    rewrite forallb_Forall, Forall_forall in *. intros a Hin. apply Hargs; auto.
  - intros ps ml Hps Hwf. simpl in *. rewrite forallb_fmap.
    rewrite forallb_Forall, Forall_forall in *. intros el Hin. apply Hps; auto.
  - intros e ts [args|] He Hargs [Hc Ha]%andb_true_iff; simpl;
      rewrite He by done; [|done]. simpl in *. rewrite forallb_fmap.
    rewrite forallb_Forall, Forall_forall in *. intros a Hin. apply Hargs; auto.
Qed.

Lemma readBack_parsed ps :
  forallb wfElement ps = true →
  forallb parsedElement (readBackElement <$> ps) = true.
Proof.
  intros Hps. rewrite forallb_fmap. rewrite forallb_Forall, Forall_forall in *.
  intros el Hin. apply readBack_parsed_both; auto.
Qed.

Lemma readBack_isObject e :
  isObjectLiteralExpression (readBack e) = isObjectLiteralExpression e.
Proof. destruct e; simpl; try done. by case_match. Qed.

(** Reading back makes no scalar of what was none. *)
Lemma readBack_isScalar e :
  isScalarInitializer (readBack e) = true → isScalarInitializer e = true.
Proof. destruct e; simpl; try done. Qed.

(** The names that are read back are the names that were printed. *)
Lemma parsedNames_readBack ps :
  parsedNames (readBackElement <$> ps) = propertyNames ps.
Proof.
  unfold parsedNames, propertyNames.
  induction ps as [|[name init| |] ps IH]; csimpl; by rewrite ?IH.
Qed.

Lemma isNumericStart_uint d : isNumericStart (NilZero.string_of_uint d) = true.
Proof. by destruct d. Qed.

(** An integer is read back as a numeric literal when it is not
    negative. *)
Lemma readsBack_NumInt z :
  readsBack (JsNum (NumInt z)) = bool_decide (0 ≤ z)%Z.
Proof.
  destruct z as [|p|p]; simpl; [done | | done].
  by rewrite isNumericStart_uint.
Qed.

(** [readsBack] is what it says. *)
Lemma readsBack_literal value :
  readsBack value = true ↔ ∃ e, literalOf value = Some e ∧ readBack e = e.
Proof.
  destruct value as [| |b|n|s|src|entries]; simpl;
    try (split; [done | by intros (e & ? & ?)]);
    try (split; [intros _; eexists; split; [done|]; by try destruct b | done]).
  unfold createNumericLiteral. split.
  - intros Hn. eexists. split; [done|]. simpl. by rewrite Hn.
  - intros (e & [= <-] & He). simpl in He. by case_match.
Qed.

Section settles.
Context {chain : Inherited}.

(** ** A run *)

(** One run on the root: the merge, then the printer and the parser. *)
Definition rewritten (newConfig : JsValue) (root : Expression)
  : result (option Expression) :=
  r ← visitRootConfigNode (Some root) newConfig;
  Ok (fmap (M:=option) readBack r).

(** The entries of the new configuration that are no objects are truthy
    and are read back as they are written. *)
Definition lasting (newConfig : JsValue) : Prop :=
  Forall (λ kv, typeof kv.2 ≠ TObject →
                toBoolean kv.2 = true ∧ readsBack kv.2 = true)
         (ownEntries newConfig).

#[global] Instance lasting_dec newConfig : Decision (lasting newConfig).
Proof. unfold lasting. apply _. Defined.

(** A read under a name the value holds is own. *)
Lemma ownRead_own v key : key ∈ forInKeys v → ownRead v key.
Proof.
  unfold forInKeys, ownRead. intros Hin.
  destruct (map_get key (ownEntries v)) as [x|] eqn:Hx;
    [|by apply map_get_None in Hx].
  destruct v; try done; unfold optionalGet, getProperty; by rewrite Hx.
Qed.

(** ** One level down *)

Section child.
Context (path : list string) (config : JsValue).
Let base := getValueByPath config path.
Context (Hliterals : literalsAt path config).
Context (Hdots : Forall (λ kv, occurs "." kv.1 = false) (ownEntries base)).

(** What a run makes of a property. *)
Let run (el : ObjectLiteralElement) : ObjectLiteralElement :=
  readBackElement (mergedElement path config el).

(** A second run leaves a property of the file as the first left it. *)
Lemma mergedElement_settled el :
  parsedElement el = true → run (run el) = run el.
Proof.
  destruct el as [[text|text] init| |]; try done. intros _. unfold run. simpl.
  destruct (literalOf _) eqn:He; simpl; rewrite He; simpl;
    by rewrite ?readBack_idemp.
Qed.

(** A second run leaves a property the first run added as it is. *)
Lemma builtProperty_settled ps el :
  el ∈ builtProperties lastSegment (addedEntries path config ps) →
  run (readBackElement el) = readBackElement el.
Proof.
  destruct Hliterals as [Hnd _].
  intros ([k v] & [_ Hin]%list_elem_of_filter & Hel)%list_elem_of_omap.
  simpl in Hel. destruct (literalOf v) as [e|] eqn:He; simplify_eq/=.
  rewrite Forall_forall in Hdots. specialize (Hdots _ Hin). simpl in Hdots.
  unfold run. simpl. rewrite lastSegment_no_dot by done.
  by rewrite getValueByPath_snoc, (optionalGet_entry _ _ v), He.
Qed.

(** The properties of an object after a run: the properties of the
    file, then the new ones. *)
Definition rewrittenProperties (ps : list ObjectLiteralElement)
  : list ObjectLiteralElement :=
  readBackElement <$>
    ((mergedElement path config <$> ps)
     ++ builtProperties lastSegment (addedEntries path config ps)).

Lemma mergedObject_readBack ps ml :
  readBack (mergedObject path config ps ml)
  = ObjectLiteralExpression (rewrittenProperties ps)
      (if addedEntries path config ps is [] then ml else true).
Proof. done. Qed.

Lemma rewrittenProperties_names ps :
  forallb parsedElement ps = true →
  parsedNames (rewrittenProperties ps)
  = parsedNames ps ++ (addedEntries path config ps).*1.
Proof.
  intros Hps. destruct Hliterals as [_ Hlit]. unfold rewrittenProperties.
  rewrite parsedNames_readBack, propertyNames_app, propertyNames_mergedElement,
    propertyNames_parsed by done.
  rewrite propertyNames_built by by apply Forall_filter_weaken.
  rewrite lastSegment_no_dots; [done|].
  by apply Forall_fmap, Forall_filter_weaken.
Qed.

(** After a run every entry at [path] names a property. *)
Lemma addedEntries_settled ps :
  forallb parsedElement ps = true →
  addedEntries path config (rewrittenProperties ps) = [].
Proof.
  intros Hps. unfold addedEntries at 1. apply filter_none, Forall_forall.
  intros [k v] Hin Hnew. apply Hnew. rewrite rewrittenProperties_names by done.
  apply elem_of_app. destruct (decide (k ∈ parsedNames ps)); [by left | right].
  apply list_elem_of_fmap. exists (k, v). split; [done|].
  by apply list_elem_of_filter.
Qed.

Lemma rewrittenProperties_settled ps :
  forallb parsedElement ps = true →
  run <$> rewrittenProperties ps = rewrittenProperties ps.
Proof.
  intros Hps%forallb_Forall. apply fmap_fixed. unfold rewrittenProperties.
  rewrite fmap_app, Forall_app, <-list_fmap_compose, !Forall_fmap. split.
  - eapply Forall_impl; [exact Hps|]. intros el Hel. by apply mergedElement_settled.
  - apply Forall_forall. intros el Hel. by eapply builtProperty_settled.
Qed.

(** A second run returns the object the first run returned. *)
Lemma mergedObject_settled ps ml :
  forallb parsedElement ps = true →
  readBack (mergedObject path config (rewrittenProperties ps) ml)
  = ObjectLiteralExpression (rewrittenProperties ps) ml.
Proof.
  intros Hps. rewrite mergedObject_readBack, addedEntries_settled by done.
  f_equal. unfold rewrittenProperties at 1.
  rewrite addedEntries_settled, app_nil_r, <-list_fmap_compose by done.
  by apply rewrittenProperties_settled.
Qed.

Lemma rewrittenProperties_parsed ps :
  forallb parsedElement ps = true →
  forallb parsedElement (rewrittenProperties ps) = true.
Proof.
  intros Hps%forallb_Forall. apply readBack_parsed.
  rewrite forallb_app, builtProperties_wf, andb_true_r, forallb_fmap.
  apply forallb_Forall. eapply Forall_impl; [exact Hps|].
  intros el Hel. by apply mergedElement_wf.
Qed.

Lemma rewrittenProperties_ownReads ps :
  forallb parsedElement ps = true →
  Forall (ownReads path config) ps →
  Forall (ownReads path config) (rewrittenProperties ps).
Proof.
  intros Hps%forallb_Forall Hown. unfold rewrittenProperties.
  rewrite fmap_app, Forall_app, <-list_fmap_compose, !Forall_fmap. split.
  - rewrite Forall_forall in *. intros el Hel.
    specialize (Hps _ Hel). specialize (Hown _ Hel).
    destruct el as [[text|text] init| |]; try done. simpl.
    by destruct (literalOf _).
  - apply Forall_forall.
    intros el ([k v] & [_ Hin]%list_elem_of_filter & Hel)%list_elem_of_omap.
    simpl in Hel. destruct (literalOf v) as [e|]; simplify_eq/=.
    rewrite Forall_forall in Hdots. specialize (Hdots _ Hin). simpl in Hdots.
    rewrite lastSegment_no_dot by done. apply ownRead_own.
    apply list_elem_of_fmap. by exists (k, v).
Qed.

End child.

(** ** The root *)

(** What the new configuration must hold for a property of the root, for
    a second run to leave it alone: what [supported] asks for, keys
    without dots one level down, and for a scalar a value that is read
    back as it is written. *)
Definition settles (newConfig : JsValue) (el : ObjectLiteralElement) : Prop :=
  match el with
  | PropertyAssignment (ParsedName text) initializer =>
      match initializer with
      | ObjectLiteralExpression cps _ =>
          literalsAt [text] newConfig ∧
          Forall (ownReads [text] newConfig) cps ∧
          Forall (λ kv, occurs "." kv.1 = false)
                 (ownEntries (getValueByPath newConfig [text]))
      | _ =>
          if isScalarInitializer initializer then
            toBoolean (getValueByPath newConfig [text]) = true →
            readsBack (getValueByPath newConfig [text]) = true
          else True
      end
  | _ => True
  end.

#[global] Instance settles_dec newConfig el : Decision (settles newConfig el).
Proof. destruct el as [[text|text] init| |]; simpl; repeat case_match; apply _. Defined.

(** The properties of the root after a run: the new ones, then the
    properties of the file. *)
Definition rewrittenRoot (newConfig : JsValue) (ps : list ObjectLiteralElement)
  : list ObjectLiteralElement :=
  readBackElement <$>
    (builtProperties id (newRootEntries newConfig ps)
     ++ (mergedRootElement newConfig <$> ps)).

(** One run, in closed form. *)
Lemma rewritten_mergedRoot newConfig ps ml :
  forallb parsedElement ps = true → supportedConfig newConfig →
  Forall (supported newConfig) ps →
  rewritten newConfig (ObjectLiteralExpression ps ml)
  = Ok (Some (ObjectLiteralExpression (rewrittenRoot newConfig ps) ml)).
Proof.
  intros Hps Hconfig Hsupported. unfold rewritten.
  by rewrite visitRootConfigNode_mergedRoot.
Qed.

(** A property that a run has settled: it is parsed, the configuration
    settles it, and a run returns it. *)
Definition settled (newConfig : JsValue) (el : ObjectLiteralElement) : Prop :=
  parsedElement el = true ∧ settles newConfig el ∧
  readBackElement (mergedRootElement newConfig el) = el.

Section root.
Context (newConfig : JsValue).
Context (Hkeys : NoDup (forInKeys newConfig)) (Hlasting : lasting newConfig).

Let run (el : ObjectLiteralElement) : ObjectLiteralElement :=
  readBackElement (mergedRootElement newConfig el).

Lemma readsBack_isLiteralValue value :
  readsBack value = true → isLiteralValue value = true.
Proof.
  intros (e & He & _)%readsBack_literal. apply bool_decide_eq_true. by exists e.
Qed.

Lemma settles_supported el : settles newConfig el → supported newConfig el.
Proof.
  destruct el as [[text|text] init| |]; try done. simpl.
  destruct init; try done; try (intros H ?; by apply readsBack_isLiteralValue, H).
  by intros (? & ? & _).
Qed.

Lemma lasting_supportedConfig : supportedConfig newConfig.
Proof.
  split; [done|]. eapply Forall_impl; [exact Hlasting|]. intros kv Hkv.
  destruct (decide (typeof kv.2 = TObject)); [by left | right].
  by apply readsBack_isLiteralValue, Hkv.
Qed.

(** The definitions on a property that holds no object. *)
Lemma mergedRootElement_scalar text init :
  isObjectLiteralExpression init = false →
  mergedRootElement newConfig (PropertyAssignment (ParsedName text) init)
  = if isScalarInitializer init && toBoolean (getValueByPath newConfig [text])
    then mergedElement [] newConfig (PropertyAssignment (ParsedName text) init)
    else PropertyAssignment (ParsedName text) init.
Proof. by destruct init. Qed.

Lemma settles_scalar text init :
  isObjectLiteralExpression init = false →
  settles newConfig (PropertyAssignment (ParsedName text) init)
  = if isScalarInitializer init then
      toBoolean (getValueByPath newConfig [text]) = true →
      readsBack (getValueByPath newConfig [text]) = true
    else True.
Proof. by destruct init. Qed.

Lemma literalOf_parsed value e :
  literalOf value = Some e → parsedExpression e = true.
Proof. destruct value as [| |[]| | | |]; by intros [= <-]. Qed.

(** A scalar with its value from the configuration is settled, and the
    visitor takes it for updated. *)
Lemma rootScalar_settled text e :
  toBoolean (getValueByPath newConfig [text]) = true →
  readsBack (getValueByPath newConfig [text]) = true →
  literalOf (getValueByPath newConfig [text]) = Some e →
  settled newConfig (PropertyAssignment (ParsedName text) e) ∧
  rootUpdates newConfig (PropertyAssignment (ParsedName text) e) = Some text.
Proof.
  intros Htruthy Hback He.
  pose proof Hback as (e' & He' & Hsame)%readsBack_literal.
  assert (e' = e) as -> by congruence.
  pose proof (literalOf_scalar _ _ He) as Hscalar.
  pose proof (isScalarInitializer_not_object _ Hscalar) as Hobject.
  unfold settled, run, rootUpdates.
  rewrite mergedRootElement_scalar, settles_scalar, Hobject, Hscalar, Htruthy
    by done.
  cbn [parsedElement negb andb mergedElement app]. rewrite He. simpl.
  rewrite Hsame. split_and!; [by eapply literalOf_parsed | done..].
Qed.

(** Reading back does not make the visitor update what it left. *)
Lemma readBack_not_updated text init :
  isScalarInitializer init && toBoolean (getValueByPath newConfig [text]) = false →
  isScalarInitializer (readBack init)
  && toBoolean (getValueByPath newConfig [text]) = false.
Proof.
  intros Hleft. destruct (isScalarInitializer (readBack init)) eqn:Hscalar; [|done].
  by rewrite (readBack_isScalar _ Hscalar) in Hleft.
Qed.

(** A run settles every property of the file. *)
Lemma fileProperty_settled el :
  parsedElement el = true → settles newConfig el → settled newConfig (run el).
Proof.
  destruct el as [[text|text] init| |]; try done. intros Hinit Hsettles.
  destruct (isObjectLiteralExpression init) eqn:Hobject.
  - destruct init as [| | | | | | |cps cml| |]; try done.
    destruct Hsettles as (Hlit & Hown & Hdots). simpl in Hinit.
    unfold settled, run. cbn [mergedRootElement readBackElement nameText].
    rewrite !mergedObject_readBack. cbn [mergedRootElement readBackElement nameText].
    rewrite mergedObject_settled by done. split_and!; [|split_and!|]; try done.
    + by apply rewrittenProperties_parsed.
    + by apply rewrittenProperties_ownReads.
  - rewrite settles_scalar in Hsettles by done. unfold run at 1.
    rewrite mergedRootElement_scalar by done.
    destruct (isScalarInitializer init && toBoolean _) eqn:Hupdated.
    + apply andb_true_iff in Hupdated as [Hscalar Htruthy].
      rewrite Hscalar in Hsettles. specialize (Hsettles Htruthy).
      pose proof Hsettles as (e & He & Hsame)%readsBack_literal.
      cbn [mergedElement app]. rewrite He. cbn [readBackElement nameText].
      rewrite Hsame. by apply rootScalar_settled.
    + pose proof (readBack_not_updated _ _ Hupdated) as Hleft.
      unfold settled, run. cbn [readBackElement nameText].
      rewrite mergedRootElement_scalar, settles_scalar, Hleft
        by by rewrite readBack_isObject.
      cbn [readBackElement nameText parsedElement].
      rewrite readBack_idemp. split_and!; [| |done].
      * apply readBack_parsed_both. exact (parsedElement_wf _ Hinit).
      * destruct (isScalarInitializer (readBack init)); [|done].
        intros Htruthy. by rewrite Htruthy in Hleft.
Qed.

(** What the configuration holds under a key is what is read there,
    and what is no object is truthy and is read back as it is written. *)
Lemma entry_lasting k v :
  (k, v) ∈ ownEntries newConfig → typeof v ≠ TObject →
  getValueByPath newConfig [k] = v ∧ toBoolean v = true ∧ readsBack v = true.
Proof.
  intros Hin Htype. split; [by apply optionalGet_entry|].
  unfold lasting in Hlasting. rewrite Forall_forall in Hlasting.
  by apply (Hlasting (k, v)).
Qed.

(** After a run, every entry that is no object has its property. *)
Lemma entry_settled ps k v :
  (k, v) ∈ ownEntries newConfig → typeof v ≠ TObject →
  ∃ el, el ∈ rewrittenRoot newConfig ps ∧ settled newConfig el ∧
        rootUpdates newConfig el = Some k.
Proof.
  intros Hin Htype.
  destruct (entry_lasting k v Hin Htype) as (Hvalue & Htruthy & Hback).
  pose proof Hback as (e & He & Hsame)%readsBack_literal.
  rewrite <-Hvalue in Htruthy, Hback, He.
  destruct (rootScalar_settled k e Htruthy Hback He) as [Hsettled Hupdates].
  exists (PropertyAssignment (ParsedName k) e). split; [|done].
  unfold rewrittenRoot. rewrite fmap_app, elem_of_app, <-list_fmap_compose.
  destruct (decide (k ∈ omap (rootUpdates newConfig) ps)) as [Hold|Hnew].
  - right. apply list_elem_of_omap in Hold as (el & Hel & Hk).
    apply list_elem_of_fmap. exists el. split; [|done].
    destruct el as [[text|text] init| |]; try done. simpl in Hk.
    destruct (negb _ && _ && _) eqn:Hinit; simplify_eq.
    pose proof Hinit as [[Hobject%negb_true_iff Hscalar]%andb_true_iff _]%andb_true_iff.
    cbn [compose]. rewrite mergedRootElement_scalar by done.
    rewrite Hscalar, Htruthy. cbn [mergedElement app andb]. rewrite He. simpl.
    by rewrite Hsame.
  - left. apply list_elem_of_fmap.
    exists (PropertyAssignment (CreatedIdentifier k) e).
    split; [simpl; by rewrite Hsame|]. apply list_elem_of_omap. exists (k, v).
    rewrite Hvalue in He. simpl. rewrite He. split; [|done].
    unfold newRootEntries. by rewrite !list_elem_of_filter.
Qed.

(** After a run no entry is left to add. *)
Lemma newRootEntries_settled ps :
  newRootEntries newConfig (rewrittenRoot newConfig ps) = [].
Proof.
  unfold newRootEntries at 1. apply filter_none, Forall_forall.
  intros [k v] [Htype Hin]%list_elem_of_filter Hnew. apply Hnew.
  destruct (entry_settled ps k v Hin Htype) as (el & Hel & _ & Hk).
  apply list_elem_of_omap. by exists el.
Qed.

(** A run settles every property of the root. *)
Lemma rewrittenRoot_settled ps :
  forallb parsedElement ps = true → Forall (settles newConfig) ps →
  Forall (settled newConfig) (rewrittenRoot newConfig ps).
Proof.
  intros Hps%forallb_Forall Hsettles. unfold rewrittenRoot.
  rewrite fmap_app, Forall_app, <-list_fmap_compose, !Forall_fmap. split.
  - apply Forall_forall.
    intros el ([k v] & [_ [Htype Hin]%list_elem_of_filter]%list_elem_of_filter
                 & Hel)%list_elem_of_omap.
    destruct (entry_lasting k v Hin Htype) as (Hvalue & Htruthy & Hback).
    pose proof Hback as (e & He & Hsame)%readsBack_literal.
    simpl in Hel. rewrite He in Hel. injection Hel as <-.
    cbn [compose readBackElement nameText]. rewrite Hsame.
    rewrite <-Hvalue in Htruthy, Hback, He. by apply rootScalar_settled.
  - rewrite Forall_forall in *. intros el Hel.
    apply fileProperty_settled; auto.
Qed.

(** The properties a run returns are the properties a second run
    returns. *)
Lemma rewrittenRoot_fixed ps :
  forallb parsedElement ps = true → Forall (settles newConfig) ps →
  rewrittenRoot newConfig (rewrittenRoot newConfig ps) = rewrittenRoot newConfig ps.
Proof.
  intros Hps Hsettles. unfold rewrittenRoot at 1.
  rewrite newRootEntries_settled, app_nil_l, <-list_fmap_compose.
  apply fmap_fixed. eapply Forall_impl; [by apply rewrittenRoot_settled|].
  by intros el (_ & _ & ?).
Qed.

(** Two runs. *)
Lemma rewritten_twice ps ml :
  forallb parsedElement ps = true → Forall (settles newConfig) ps →
  let root' := ObjectLiteralExpression (rewrittenRoot newConfig ps) ml in
  rewritten newConfig (ObjectLiteralExpression ps ml) = Ok (Some root') ∧
  rewritten newConfig root' = Ok (Some root').
Proof.
  intros Hps Hsettles. pose proof (rewrittenRoot_settled ps Hps Hsettles) as Hall.
  split.
  - apply rewritten_mergedRoot; [done | apply lasting_supportedConfig|].
    eapply Forall_impl; [exact Hsettles|]. apply settles_supported.
  - rewrite rewritten_mergedRoot, rewrittenRoot_fixed;
      [done.. | | apply lasting_supportedConfig|].
    + apply forallb_Forall. eapply Forall_impl; [exact Hall|]. by intros el [? _].
    + eapply Forall_impl; [exact Hall|]. intros el (_ & ? & _).
      by apply settles_supported.
Qed.

End root.

(** C5. A second run changes nothing, for a parsed root and a new
    configuration with distinct keys that settles every property of the
    root and whose entries that are no objects are truthy and are read
    back as they are written: the first run returns a root, and a run on
    that root, printed and parsed, returns it again. *)
Theorem rewritten_idempotent ps ml newConfig :
  forallb parsedElement ps = true →
  NoDup (forInKeys newConfig) → lasting newConfig →
  Forall (settles newConfig) ps →
  ∃ root',
    rewritten newConfig (ObjectLiteralExpression ps ml) = Ok (Some root') ∧
    rewritten newConfig root' = Ok (Some root').
Proof.
  intros Hps Hkeys Hlasting Hsettles. eexists.
  by apply rewritten_twice.
Qed.

(** ** What never settles *)

(** A falsy entry that is no object is new for every root. *)
Lemma newRootEntries_falsy newConfig ps k v :
  NoDup (forInKeys newConfig) → (k, v) ∈ ownEntries newConfig →
  typeof v ≠ TObject → toBoolean v = false →
  (k, v) ∈ newRootEntries newConfig ps.
Proof.
  intros Hkeys Hin Htype Hfalsy. unfold newRootEntries.
  rewrite !list_elem_of_filter. split_and!; [|done..].
  intros (el & _ & Htruthy%rootUpdates_truthy)%list_elem_of_omap.
  cbn [fst] in Htruthy.
  assert (getValueByPath newConfig [k] = v) as Hvalue by by apply optionalGet_entry.
  congruence.
Qed.

(** With a falsy number, string or boolean among the entries of the new
    configuration, every run returns a root that is longer than the
    root it was given: the entry is added again, whatever the root
    holds, and no root is ever returned as it is. *)
Theorem rewritten_falsy_grows ps ml newConfig k v :
  forallb parsedElement ps = true →
  supportedConfig newConfig → Forall (supported newConfig) ps →
  (k, v) ∈ ownEntries newConfig → isLiteralValue v = true →
  toBoolean v = false →
  ∃ ps', rewritten newConfig (ObjectLiteralExpression ps ml)
         = Ok (Some (ObjectLiteralExpression ps' ml)) ∧
         length ps < length ps'.
Proof.
  intros Hps Hconfig Hsupported Hin [e He]%isLiteralValue_Some Hfalsy.
  eexists. split; [by apply rewritten_mergedRoot|].
  assert (PropertyAssignment (CreatedIdentifier k) e
          ∈ builtProperties id (newRootEntries newConfig ps)) as Hnew.
  { apply list_elem_of_omap. exists (k, v). simpl. rewrite He. split; [|done].
    apply newRootEntries_falsy; [apply Hconfig | done | by destruct v | done]. }
  unfold rewrittenRoot. rewrite length_fmap, length_app, length_fmap.
  destruct (builtProperties _ _); [by apply elem_of_nil in Hnew | simpl; lia].
Qed.

End settles.

(** ** Examples *)

#[local] Existing Instance standardPrototypes.

Lemma rewritten_idempotent_witness :
  ∃ root',
    rewritten testConfigWithoutDevServer rootObject = Ok (Some root') ∧
    rewritten testConfigWithoutDevServer root' = Ok (Some root').
Proof.
  apply rewritten_idempotent;
    [reflexivity | apply (bool_decide_unpack _); by vm_compute..].
Defined.

Lemma rewritten_falsy_grows_witness :
  ∃ ps', rewritten (JsObject [("video", JsBoolean false)])
           (ObjectLiteralExpression [property "video" TrueKeyword] false)
         = Ok (Some (ObjectLiteralExpression ps' false)) ∧
         length [property "video" TrueKeyword] < length ps'.
Proof.
  apply (rewritten_falsy_grows _ _ _ "video" (JsBoolean false));
    [reflexivity | apply (bool_decide_unpack _); by vm_compute..
     | by left | reflexivity | reflexivity].
Defined.

(** A negative number is truthy and is written as a numeric literal, but
    it is read back as a prefix expression, which the visitor does not
    take for a scalar: the second run adds the property again. *)
Example rewritten_negative_number :
  let newConfig := JsObject [("port", JsNum (NumInt (-1)))] in
  let port (e : Expression) := PropertyAssignment (ParsedName "port") e in
  rewritten newConfig (ObjectLiteralExpression [property "port" (NumericLiteral "8080")] false)
  = Ok (Some (ObjectLiteralExpression [port (OtherExpression "-1")] false)) ∧
  rewritten newConfig (ObjectLiteralExpression [port (OtherExpression "-1")] false)
  = Ok (Some (ObjectLiteralExpression
                [port (OtherExpression "-1"); port (OtherExpression "-1")] false)).
Proof. by vm_compute. Qed.
