(* ===== verification/RemoveProps.v ===== *)
(** * The removal transformer of [remove-property-transformer.ts]

    [removeProps] rewrites every export assignment of the file: the first
    argument of the exported call is handed to [visitRootConfig], which
    visits its properties with [remover].  [remover] keeps a property with
    a literal or a call for a value unless its name is among
    [propertyPaths], and returns [undefined] for every other node.

    The file takes [isBooleanLiteral] from a module
    [transformer.helper] that the repository does not hold; it is taken
    to be the function of that name in [transformers.ts].

    The theorems: what a removal keeps and in which order, that nothing
    but scalar properties survives one, that two removals in a row are
    the removal of the paths of both (and a removal is idempotent), and
    that an object literal among the properties makes it throw. *)

From S2P Require Import Prelude JsValue TsAst Transformers TestConfig.

Section removal.
Context `{OpaqueChildren}.

(** [remover], lines 56-73.  The state of the visitor is empty.  On a
    property whose value is an object literal it calls
    [visitEachChild(node, remover, context)]: [remover] returns
    [undefined] for the name and for the initializer, and
    [factory.updatePropertyAssignment] builds the property anew from
    them. *)
Definition remover (propertyPaths : list string) : Visitor unit :=
  λ node s,
  match node with
  | PropertyAssignment name initializer =>
      if isObjectLiteralExpression initializer then
        updated ← createPropertyAssignment name None;
        Ok (Some updated, s)
      else if isScalarInitializer initializer then
        text ← getText name;
        if bool_decide (text ∈ propertyPaths) then Ok (None, s)
        else Ok (Some node, s)
      else Ok (None, s)
  | _ => Ok (None, s)
  end.

(** [visitRootConfig], lines 51-75.  [rootNode] is [None] when the call
    has no argument: [visitEachChild] returns [undefined] for
    [undefined]. *)
Definition visitRootConfig (rootNode : option Expression)
  (propertyPaths : list string) : result (option Expression) :=
  match rootNode with
  | Some node =>
      (λ r, Some r.1) <$> visitEachChildDropping (remover propertyPaths) node ()
  | None => Ok None
  end.

(** The visitor of [removeProps], lines 22-45, on a statement of the
    file or on a statement below one: an export assignment is made again
    wherever it stands, every other node goes to [visitEachChild] with
    the visitor itself.  The exported expression is cast to a call and
    not tested: a [new] expression with arguments goes the way of a call
    and comes back as a call. *)
Fixpoint removeVisitor (propertyPaths : list string) (node : Statement)
  : result Statement :=
  match node with
  | ExportAssignment isExportEquals expression =>
      match expression with
      | CallExpression callee typeArguments arguments
      | NewExpression callee typeArguments (Some arguments) =>
          r ← visitRootConfig (head arguments) propertyPaths;
          call ← createCallExpression callee typeArguments [r];
          Ok (ExportAssignment isExportEquals call)
      | _ => Throw (TypeError (ReadPropertyOfUndefined "0"))
      end
  | _ => visitEachChildOfStatement (removeVisitor propertyPaths) node
  end.

(** [removeProps], lines 19-49, applied to a source file. *)
Definition removeProps (propertyPaths : list string) (sourceFile : SourceFile)
  : result SourceFile :=
  mapR (removeVisitor propertyPaths) sourceFile.

(** ** What [remover] does to one element *)

(** Whether a removal keeps the element: a property with a parsed name
    that is not among the paths and a scalar for a value. *)
Definition survives (propertyPaths : list string) (el : ObjectLiteralElement)
  : bool :=
  match el with
  | PropertyAssignment (ParsedName text) initializer =>
      negb (isObjectLiteralExpression initializer) &&
      isScalarInitializer initializer &&
      negb (bool_decide (text ∈ propertyPaths))
  | _ => false
  end.

(** A name of the file, which has source text. *)
Definition hasSourceText (name : PropertyName) : bool :=
  match name with
  | ParsedName _ => true
  | CreatedIdentifier _ => false
  end.

(** Whether [remover] throws on the element: its value is an object
    literal, or it is a scalar property whose name has no source text. *)
Definition stumbles (el : ObjectLiteralElement) : bool :=
  match el with
  | PropertyAssignment name initializer =>
      isObjectLiteralExpression initializer ||
      isScalarInitializer initializer &&
      negb (hasSourceText name)
  | _ => false
  end.

Lemma survives_true propertyPaths el :
  survives propertyPaths el = true ↔
  ∃ text init, el = PropertyAssignment (ParsedName text) init ∧
               isObjectLiteralExpression init = false ∧
               isScalarInitializer init = true ∧ text ∉ propertyPaths.
Proof.
  destruct el as [[text|text] init| |]; simpl;
    try (split; [done | by intros (? & ? & ? & _)]).
  rewrite !andb_true_iff, !negb_true_iff, bool_decide_eq_false.
  split; [intros [[??]?]; eauto 6 | intros (? & ? & [= <- <-] & ? & ? & ?); eauto].
Qed.

Lemma remover_stumbles propertyPaths el s :
  stumbles el = true → isTypeError (remover propertyPaths el s) = true.
Proof.
  destruct el as [name init| |]; try done. simpl.
  destruct (isObjectLiteralExpression init); [done|].
  destruct (isScalarInitializer init); [|done]. simpl.
  by destruct name.
Qed.

Lemma remover_steady propertyPaths el s :
  stumbles el = false →
  remover propertyPaths el s =
  Ok (if survives propertyPaths el then Some el else None, s).
Proof.
  destruct el as [name init| |]; try done. simpl.
  destruct (isObjectLiteralExpression init); [done|].
  destruct (isScalarInitializer init); [|by destruct name]. simpl.
  destruct name as [text|text]; simpl; [|done].
  by destruct (bool_decide (text ∈ propertyPaths)).
Qed.

(** ** What a visit does to the properties *)

Lemma visitNodes_remover_steady propertyPaths ps :
  Forall (λ el, stumbles el = false) ps →
  visitNodes (remover propertyPaths) ps () =
  Ok (filter (λ el, survives propertyPaths el = true) ps, ()).
Proof.
  induction 1 as [|el ps Hel _ IH]; [done|].
  rewrite filter_cons.
  destruct el as [name init| |]; try (simpl; by rewrite IH).
  rewrite visitNodes_cons, remover_steady by done. cbn [mbind result_bind snd].
  rewrite IH. by destruct (survives _ _).
Qed.

Lemma visitNodes_remover_stumbles propertyPaths ps :
  Exists (λ el, stumbles el = true) ps →
  isTypeError (visitNodes (remover propertyPaths) ps ()) = true.
Proof.
  induction ps as [|el ps IH]; [by intros ?%Exists_nil|].
  destruct (stumbles el) eqn:Hel.
  - intros _. destruct el as [name init| |]; try done.
    rewrite visitNodes_cons by done.
    apply (remover_stumbles propertyPaths _ ()) in Hel.
    by destruct (remover _ _ _) as [|[]].
  - intros [?|Hps%IH]%Exists_cons; [congruence|].
    destruct el as [name init| |]; [|simpl; by destruct (visitNodes _ _ _)|done].
    rewrite visitNodes_cons, remover_steady by done. cbn [mbind result_bind snd].
    by destruct (visitNodes _ ps _) as [|[]].
Qed.

(** A visit returns exactly when no property stumbles, and then it
    returns the properties that survive. *)
Lemma visitNodes_remover_Ok propertyPaths ps r :
  visitNodes (remover propertyPaths) ps () = Ok r ↔
  Forall (λ el, stumbles el = false) ps ∧
  r = (filter (λ el, survives propertyPaths el = true) ps, ()).
Proof.
  split.
  - intros Hr.
    assert (Forall (λ el, stumbles el = false) ps) as Hps.
    { apply Forall_forall. intros el Hel. apply not_true_is_false. intros Hs.
      assert (Exists (λ el, stumbles el = true) ps) as Hex
        by (apply Exists_exists; eauto).
      apply (visitNodes_remover_stumbles propertyPaths) in Hex.
      by rewrite Hr in Hex. }
    split; [done|]. rewrite visitNodes_remover_steady in Hr by done. congruence.
  - intros [Hps ->]. by apply visitNodes_remover_steady.
Qed.

(** ** The root *)

Lemma visitRootConfig_Ok_inv ps ml propertyPaths r :
  visitRootConfig (Some (ObjectLiteralExpression ps ml)) propertyPaths = Ok r →
  Forall (λ el, stumbles el = false) ps ∧
  r = Some (ObjectLiteralExpression
              (filter (λ el, survives propertyPaths el = true) ps) ml).
Proof.
  unfold visitRootConfig. simpl.
  intros ([e []] & ([ps' []] & Hps & [= <-])%bind_Ok_inv & ->)%fmap_Ok_inv.
  by apply visitNodes_remover_Ok in Hps as [Hps [= ->]].
Qed.

(** C33. [visitRootConfig] returns for an object literal exactly when
    [remover] stumbles on none of its properties, and the result is then
    the object with the properties that survive, in their order. *)
Theorem visitRootConfig_returns ps ml propertyPaths r :
  visitRootConfig (Some (ObjectLiteralExpression ps ml)) propertyPaths = Ok r ↔
  Forall (λ el, stumbles el = false) ps ∧
  r = Some (ObjectLiteralExpression
              (filter (λ el, survives propertyPaths el = true) ps) ml).
Proof.
  split; [apply visitRootConfig_Ok_inv|].
  intros [Hps ->]. unfold visitRootConfig. simpl.
  by rewrite visitNodes_remover_steady.
Qed.

(** A removal that returns keeps no property whose name is among the
    paths, keeps what it keeps in the order of the file, and keeps the
    layout of the object. *)
Theorem visitRootConfig_removes_named ps ml propertyPaths ps' ml' :
  visitRootConfig (Some (ObjectLiteralExpression ps ml)) propertyPaths
  = Ok (Some (ObjectLiteralExpression ps' ml')) →
  ps' `sublist_of` ps ∧ ml' = ml ∧
  ∀ text init, text ∈ propertyPaths →
               PropertyAssignment (ParsedName text) init ∉ ps'.
Proof.
  intros [_ [= -> ->]]%visitRootConfig_Ok_inv.
  split; [apply sublist_filter|]. split; [done|].
  intros text init Hin [Hs _]%list_elem_of_filter.
  apply survives_true in Hs as (? & ? & [= <- <-] & _ & _ & Hout). done.
Qed.

(** Nothing but scalar properties survives a removal, whatever the
    paths: a property whose value is neither a literal nor a call, and
    every element that is no property assignment, is gone from the
    result. *)
Theorem visitRootConfig_only_scalars_survive ps ml propertyPaths ps' ml' el :
  visitRootConfig (Some (ObjectLiteralExpression ps ml)) propertyPaths
  = Ok (Some (ObjectLiteralExpression ps' ml')) →
  el ∈ ps' →
  ∃ text init, el = PropertyAssignment (ParsedName text) init ∧
               isScalarInitializer init = true ∧ text ∉ propertyPaths.
Proof.
  intros [_ [= -> ->]]%visitRootConfig_Ok_inv [Hs _]%list_elem_of_filter.
  apply survives_true in Hs as (text & init & ? & _ & ? & ?). eauto.
Qed.

(** ** Removing twice *)

Lemma survives_app paths paths' el :
  survives (paths ++ paths') el = survives paths el && survives paths' el.
Proof.
  destruct el as [[text|text] init| |]; try done. simpl.
  destruct (isObjectLiteralExpression init), (isScalarInitializer init);
    simpl; try done.
  rewrite <-negb_orb. f_equal.
  apply eq_true_iff_eq. rewrite orb_true_iff, !bool_decide_eq_true.
  apply elem_of_app.
Qed.

Lemma visitRootConfig_steady ps ml propertyPaths :
  Forall (λ el, stumbles el = false) ps →
  visitRootConfig (Some (ObjectLiteralExpression ps ml)) propertyPaths
  = Ok (Some (ObjectLiteralExpression
                (filter (λ el, survives propertyPaths el = true) ps) ml)).
Proof.
  intros Hps. unfold visitRootConfig. simpl.
  by rewrite visitNodes_remover_steady.
Qed.

(** Two removals in a row are the removal of the paths of both: what the
    first returns, the second visits without throwing, and it returns
    what one removal of all the paths returns from the file. *)
Theorem visitRootConfig_twice ps ml paths paths' root' :
  visitRootConfig (Some (ObjectLiteralExpression ps ml)) paths
  = Ok (Some root') →
  visitRootConfig (Some root') paths'
  = visitRootConfig (Some (ObjectLiteralExpression ps ml)) (paths ++ paths').
Proof.
  intros [Hps [= ->]]%visitRootConfig_Ok_inv.
  rewrite !visitRootConfig_steady by (done || by apply Forall_filter_weaken).
  rewrite list_filter_filter. do 3 f_equal. apply list_filter_iff.
  intros el. rewrite survives_app, andb_true_iff. tauto.
Qed.

(** A removal is idempotent: run again on what it returned, with the
    same paths, it returns the same object. *)
Theorem visitRootConfig_idempotent ps ml paths root' :
  visitRootConfig (Some (ObjectLiteralExpression ps ml)) paths
  = Ok (Some root') →
  visitRootConfig (Some root') paths = Ok (Some root').
Proof.
  intros Hrun. pose proof Hrun as [Hps [= ->]]%visitRootConfig_Ok_inv.
  rewrite visitRootConfig_steady by by apply Forall_filter_weaken.
  do 3 f_equal. rewrite list_filter_filter. apply list_filter_iff. tauto.
Qed.

Lemma visitRootConfig_stumbles ps ml propertyPaths el :
  el ∈ ps → stumbles el = true →
  isTypeError (visitRootConfig (Some (ObjectLiteralExpression ps ml))
                 propertyPaths) = true.
Proof.
  intros Hel Hs. unfold visitRootConfig. simpl.
  assert (Exists (λ el, stumbles el = true) ps) as Hex
    by (apply Exists_exists; eauto).
  apply (visitNodes_remover_stumbles propertyPaths) in Hex.
  by destruct (visitNodes _ ps _) as [|[]].
Qed.

(** An object literal among the values of the root's properties makes
    [visitRootConfig] throw a [TypeError]: [remover] does not go into it,
    it drops its name and its value. *)
Theorem visitRootConfig_nested_throws ps ml propertyPaths name cps cml :
  PropertyAssignment name (ObjectLiteralExpression cps cml) ∈ ps →
  isTypeError (visitRootConfig (Some (ObjectLiteralExpression ps ml))
                 propertyPaths) = true.
Proof.
  intros Hel. by eapply visitRootConfig_stumbles.
Qed.

(** ** The file *)

(** The visitor of [removeProps] is a visitor of statements. *)
#[local] Instance removeVisitor_visitor propertyPaths :
  StatementVisitor (removeVisitor propertyPaths).
Proof. statement_visitor. Qed.

(** A removal changes export assignments and nothing else: with the
    export assignments blanked, the file it returns is the file it was
    given. *)
Lemma removeProps_frame propertyPaths sourceFile sourceFile' :
  removeProps propertyPaths sourceFile = Ok sourceFile' →
  frame <$> sourceFile' = frame <$> sourceFile.
Proof. apply visitFile_frame, _. Qed.

Lemma removeVisitor_exports_call propertyPaths b e node' :
  removeVisitor propertyPaths (ExportAssignment b e) = Ok node' →
  exportsCall node' = true.
Proof.
  destruct e as [| | | | | | | | |c ts []]; try done; simpl;
    intros (root' & _ & (call & (args' & ->)%createCallExpression_Ok
                         & [= <-])%bind_Ok_inv)%bind_Ok_inv; done.
Qed.

(** A removal returns calls only: an exported [new] expression comes
    back as a call of its callee. *)
Theorem removeProps_exports_calls propertyPaths sourceFile sourceFile' :
  removeProps propertyPaths sourceFile = Ok sourceFile' →
  forallb exportsCall (sourceFile' ≫= exportAssignments) = true.
Proof.
  apply visitFile_exports; [apply _|]. apply removeVisitor_exports_call.
Qed.

(** An export assignment, at any depth of the file, whose exported call
    has an object literal among the properties of its first argument
    makes the removal throw. *)
Lemma removeProps_nested_throws
    propertyPaths sourceFile b callee ts ps ml args name cps cml :
  ExportAssignment b
    (CallExpression callee ts (ObjectLiteralExpression ps ml :: args))
    ∈ sourceFile ≫= exportAssignments →
  PropertyAssignment name (ObjectLiteralExpression cps cml) ∈ ps →
  isOk (removeProps propertyPaths sourceFile) = false.
Proof.
  intros Hin Hel. eapply visitFile_export_fails; [apply _ | done|].
  assert (isTypeError (visitRootConfig (Some (ObjectLiteralExpression ps ml))
                         propertyPaths) = true) as Hroot
    by by eapply visitRootConfig_stumbles.
  cbn -[visitRootConfig]. by destruct (visitRootConfig _ _) as [|[]].
Qed.

(** The removal transformer throws a [TypeError] on the file of the
    repository's test, whatever is to be removed: the root of that file
    holds the objects [component] and [e2e]. *)
Theorem removeProps_test_throws propertyPaths :
  isTypeError (removeProps propertyPaths configContent) = true.
Proof.
  assert (isTypeError (visitRootConfig (Some rootObject) propertyPaths) = true)
    as Hroot.
  { apply (visitRootConfig_stumbles _ _ _ (property "e2e" e2eObject));
      [repeat constructor | done]. }
  cbn -[visitRootConfig]. by destruct (visitRootConfig _ _) as [|[]].
Qed.

End removal.

(** An instance for the examples: every opaque expression fails the way
    a property access does. *)
Definition opaqueThrows : OpaqueChildren :=
  λ _, Throw (TypeError (ReadPropertyOfUndefined "kind")).

#[local] Existing Instance opaqueThrows.

Lemma visitRootConfig_nested_throws_witness :
  isTypeError
    (visitRootConfig
       (Some (ObjectLiteralExpression
                [PropertyAssignment (ParsedName "video") TrueKeyword;
                 PropertyAssignment (ParsedName "e2e")
                   (ObjectLiteralExpression [] false)] true))
       ["video"]) = true.
Proof.
  apply (visitRootConfig_nested_throws _ _ _ (ParsedName "e2e") [] false).
  repeat constructor.
Defined.

Lemma visitRootConfig_removes_named_witness :
  [property "baseUrl" (quoted "x")]
    `sublist_of` [property "video" TrueKeyword; property "baseUrl" (quoted "x")]
  ∧ true = true ∧
  ∀ text init, text ∈ ["video"] →
               PropertyAssignment (ParsedName text) init
               ∉ [property "baseUrl" (quoted "x")].
Proof.
  apply (visitRootConfig_removes_named _ true ["video"] _ true). reflexivity.
Defined.

Lemma visitRootConfig_idempotent_witness :
  visitRootConfig
    (Some (ObjectLiteralExpression
             [PropertyAssignment (ParsedName "baseUrl")
                (StringLiteral "http://localhost:1234" false)] true))
    ["video"]
  = Ok (Some (ObjectLiteralExpression
                [PropertyAssignment (ParsedName "baseUrl")
                   (StringLiteral "http://localhost:1234" false)] true)).
Proof.
  by apply (visitRootConfig_idempotent
              [PropertyAssignment (ParsedName "baseUrl")
                 (StringLiteral "http://localhost:1234" false);
               PropertyAssignment (ParsedName "video") TrueKeyword]
              true ["video"]).
Defined.

Lemma visitRootConfig_only_scalars_survive_witness :
  ∃ text init, property "baseUrl" (quoted "x")
               = PropertyAssignment (ParsedName text) init ∧
               isScalarInitializer init = true ∧ text ∉ ["video"].
Proof.
  apply (visitRootConfig_only_scalars_survive
           [property "video" TrueKeyword; OtherElement "...rest";
            property "env" (OtherExpression "[1, 2]");
            property "baseUrl" (quoted "x")] true ["video"]
           [property "baseUrl" (quoted "x")] true);
    [reflexivity | repeat constructor].
Defined.
