(* ===== verification/RemoveSpec.v ===== *)
(** * The removal the specification asks for, and how far the code goes

    [removeProperties] is the removal engine of the specification: walk
    the properties in their order, go into every nested object, and omit
    a leaf whose dotted path from the root is among the paths to remove.
    It is written here on the trees of the code.

    [visitRootConfig] of [remove-property-transformer.ts] refines it on
    the objects it can handle, which are the flat ones: an object whose
    properties are scalars.  On those the dotted path of a property is
    its name, and matching by name is matching by path.  Everything else
    is where the two part: the code throws on a nested object and drops
    what is no scalar ([RemoveProps.v]). *)

From S2P Require Import Prelude JsValue TsAst Transformers TestConfig Locate.
From S2P Require Import RemoveProps.

(** ** The specification *)

(** The dotted path of the property [name] below [basePath]. *)
Definition dottedPath (basePath : list string) (name : string) : string :=
  join "." (basePath ++ [name]).

Fixpoint removeProperties (existing : Expression) (toRemove : list string)
  (basePath : list string) : Expression :=
  match existing with
  | ObjectLiteralExpression ps ml =>
      ObjectLiteralExpression
        (omap (λ p, removeProperty p toRemove basePath) ps) ml
  | _ => existing
  end
with removeProperty (p : ObjectLiteralElement) (toRemove : list string)
  (basePath : list string) : option ObjectLiteralElement :=
  match p with
  | PropertyAssignment name value =>
      if isObjectLiteralExpression value then
        Some (PropertyAssignment name
                (removeProperties value toRemove (basePath ++ [nameText name])))
      else if bool_decide (dottedPath basePath (nameText name) ∈ toRemove)
      then None
      else Some p
  | _ => Some p
  end.

(** A scalar property of the file: a parsed name, and a literal or a call
    for a value. *)
Definition flatProperty (el : ObjectLiteralElement) : bool :=
  match el with
  | PropertyAssignment (ParsedName _) initializer =>
      isScalarInitializer initializer
  | _ => false
  end.

(** ** Facts *)

Lemma removeProperties_unfold ps ml toRemove basePath :
  removeProperties (ObjectLiteralExpression ps ml) toRemove basePath =
  ObjectLiteralExpression (omap (λ p, removeProperty p toRemove basePath) ps) ml.
Proof. reflexivity. Qed.

Lemma dottedPath_root name : dottedPath [] name = name.
Proof. done. Qed.

(** Removing nothing changes nothing, at any depth. *)
Lemma removeProperties_nil existing basePath :
  removeProperties existing [] basePath = existing.
Proof.
  revert existing basePath.
  apply (Expression_nested_ind
           (λ e, ∀ basePath, removeProperties e [] basePath = e)
           (λ el, ∀ basePath, removeProperty el [] basePath = Some el));
    try done.
  - intros ps ml IH basePath. rewrite removeProperties_unfold. f_equal.
    induction IH as [|el ps Hel _ IHps]; csimpl; [done|].
    by rewrite Hel, IHps.
  - intros name e IH basePath. simpl.
    destruct (isObjectLiteralExpression e); [|done]. by rewrite IH.
Qed.

Lemma flatProperty_steady el : flatProperty el = true → stumbles el = false.
Proof.
  destruct el as [[text|text] init| |]; try done. simpl.
  intros Hinit. rewrite Hinit. by destruct init.
Qed.

Lemma flatProperty_survives propertyPaths el :
  flatProperty el = true →
  removeProperty el propertyPaths [] =
  if survives propertyPaths el then Some el else None.
Proof.
  destruct el as [[text|text] init| |]; try done. simpl.
  intros Hinit. rewrite Hinit, dottedPath_root.
  destruct init; try done; simpl; by case_bool_decide.
Qed.

Lemma omap_filter_flat propertyPaths ps :
  forallb flatProperty ps = true →
  omap (λ p, removeProperty p propertyPaths []) ps
  = filter (λ el, survives propertyPaths el = true) ps.
Proof.
  induction ps as [|el ps IH]; [done|]. intros [Hel Hps]%andb_true_iff.
  csimpl. rewrite filter_cons, IH, flatProperty_survives by done.
  destruct (survives propertyPaths el); by case_decide.
Qed.

Section refinement.
Context `{OpaqueChildren}.
#[local] Existing Instance removeVisitor_visitor.

Lemma visitRootConfig_flat ps ml propertyPaths :
  forallb flatProperty ps = true →
  visitRootConfig (Some (ObjectLiteralExpression ps ml)) propertyPaths
  = Ok (Some (removeProperties (ObjectLiteralExpression ps ml) propertyPaths [])).
Proof.
  intros Hps. rewrite removeProperties_unfold, omap_filter_flat by done.
  unfold visitRootConfig. simpl. rewrite visitNodes_remover_steady; [done|].
  apply Forall_forall. intros el Hel%list_elem_of_In.
  by eapply flatProperty_steady, forallb_forall.
Qed.

(** C34. On a flat object, one whose properties are scalars with parsed
    names, [visitRootConfig] returns what the removal of the
    specification asks for: the properties whose name is among the paths
    are gone, the others stay as they are and in their order, and the
    layout of the object is kept. *)
Theorem visitRootConfig_refines_removeProperties ps ml propertyPaths :
  forallb flatProperty ps = true →
  visitRootConfig (Some (ObjectLiteralExpression ps ml)) propertyPaths
  = Ok (Some (removeProperties (ObjectLiteralExpression ps ml) propertyPaths [])).
Proof. apply visitRootConfig_flat. Qed.

Lemma removeProps_located propertyPaths document handle :
  locate document = inr handle → singleExport document = true →
  removeProps propertyPaths document
  = root' ← visitRootConfig (Some (handleRoot handle)) propertyPaths;
    call ← createCallExpression (handleCallee handle)
             (handleTypeArguments handle) [root'];
    Ok (handleBefore handle ++ ExportAssignment false call
          :: handleAfter handle).
Proof.
  intros Hlocate Hsingle. unfold removeProps.
  rewrite (visitFile_located _ _ handle) by done.
  cbn -[visitRootConfig].
  destruct (visitRootConfig _ _) as [r|]; simpl; [|done].
  by destruct (createCallExpression _ _ _).
Qed.

(** C37. The removal from end to end, on a document of the
    specification's shape whose root is flat: [removeProps] returns the document of the
    handle with the root that the removal of the specification asks
    for, and with the arguments that followed the root gone. *)
Theorem removeProps_at_locate propertyPaths document handle ps ml :
  locate document = inr handle →
  singleExport document = true →
  handleRoot handle = ObjectLiteralExpression ps ml →
  forallb flatProperty ps = true →
  removeProps propertyPaths document
  = Ok (withRoot (dropArguments handle)
          (removeProperties (handleRoot handle) propertyPaths [])).
Proof.
  intros Hlocate Hsingle Hroot Hflat.
  rewrite (removeProps_located _ _ handle), Hroot by done.
  by rewrite visitRootConfig_flat.
Qed.

End refinement.

(** ** Examples *)

#[local] Existing Instance opaqueThrows.

Lemma visitRootConfig_refines_removeProperties_witness :
  visitRootConfig (Some e2eObject) ["video"; "pluginsFile"]
  = Ok (Some (removeProperties e2eObject ["video"; "pluginsFile"] [])).
Proof.
  apply (visitRootConfig_refines_removeProperties _ true ["video"; "pluginsFile"]).
  reflexivity.
Defined.

(** The removal of the specification goes by the path: [e2e.video] is
    removed from the file of the repository's test, and the [video] of
    [component] stays.  [removeProps] throws on this file. *)
Example removeProperties_by_path :
  lookupProperty "video" <$>
    (match removeProperties rootObject ["e2e.video"] [] with
     | ObjectLiteralExpression ps _ =>
         (λ el, match el with
                | PropertyAssignment _ (ObjectLiteralExpression cps _) => cps
                | _ => []
                end) <$> ps
     | _ => []
     end)
  = [None; Some TrueKeyword; None].
Proof. reflexivity. Qed.

(** A flat file: the [e2e] object of the repository's test as the root. *)
Definition flatContent : list Statement :=
  [ OtherStatement "import { defineConfig } from 'cypress';";
    ExportAssignment false
      (CallExpression (Identifier "defineConfig") [] [e2eObject]) ].

Lemma removeProps_at_locate_witness :
  removeProps ["video"; "pluginsFile"] flatContent
  = Ok (withRoot
          {| handleBefore :=
               [OtherStatement "import { defineConfig } from 'cypress';"];
             handleCallee := Identifier "defineConfig";
             handleTypeArguments := [];
             handleRoot := e2eObject;
             handleArguments := [];
             handleAfter := [] |}
          (removeProperties e2eObject ["video"; "pluginsFile"] [])).
Proof.
  exact (removeProps_at_locate ["video"; "pluginsFile"] flatContent _ _ true
           eq_refl eq_refl eq_refl eq_refl).
Defined.
