(* ===== verification/AddUpdateTransformer.v ===== *)
(** * The merge engine of [add-update-property-transformer.ts]

    The second copy of the merge engine, the one [update-config.ts]
    imports.  It has the functions of [transformers.ts] under the same
    names (they are in [Module AddUpdate] here), with two differences that
    decide what it does:
    - literals are built by [createPropertyAssignment], which takes
      [(factory, key, value)] and is called with
      [(context, node, value)] by both visitors: a
      [TransformationContext] has no [createIdentifier];
    - the visitor of the root reads a variable [factory] that is bound
      nowhere, for every property whose value is an object literal.

    The file takes [isBooleanLiteral] from [./transformer.helper], which
    the repository does not hold; it is taken to be the function of that
    name in [transformers.ts].  The methods of
    [CypressPropertyTransformer] other than [addOrUpdate] are called from
    nowhere and are not modelled here. *)

From S2P Require Import Prelude JsMap JsValue TsAst JsRegex Transformers.
From S2P Require Import MergeForms TestConfig MergeOutcomes MergeSpec.

Module AddUpdate.

Section addUpdate.
Context {chain : Inherited}.

(** ** The functions *)

(** [getValueByPath], lines 307-311: the text of [transformers.ts]. *)
Definition getValueByPath (config : JsValue) (path : list string) : JsValue :=
  foldl optionalGet config path.

(** [createExpressionFromFunction], lines 269-305: the text of
    [transformers.ts].  Nothing in this file calls it. *)
Definition createExpressionFromFunction (fn : JsValue)
  : result (option Expression) :=
  Merge.createExpressionFromFunction fn.

(** How [createPropertyAssignment] is called: with a node factory and a
    key, as its signature says, or with a [TransformationContext] in the
    place of the factory and a node in the place of the key, as the
    visitors call it.  The key is read by [factory.createIdentifier]
    only. *)
Inductive FactoryArguments : Type :=
| WithFactory (key : string)
| WithContext.

(** [factory.createIdentifier(key)] *)
Definition createIdentifier (arguments : FactoryArguments) : result PropertyName :=
  match arguments with
  | WithFactory key => Ok (CreatedIdentifier key)
  | WithContext => Throw (TypeError (NotAFunction "createIdentifier"))
  end.

(** The arguments of the recursive call: the same factory, the key of the
    entry. *)
Definition forEntry (arguments : FactoryArguments) (configKey : string)
  : FactoryArguments :=
  match arguments with
  | WithFactory _ => WithFactory configKey
  | WithContext => WithContext
  end.

(** [createPropertyAssignment], lines 365-398.  The arguments of
    [factory.createPropertyAssignment] are evaluated from the left: the
    identifier first.  [typeof null] is ["object"], and
    [Object.entries(null)] throws.  There is no case for a function or for
    [undefined]. *)
Fixpoint createPropertyAssignment (arguments : FactoryArguments)
  (value : JsValue) : result (option ObjectLiteralElement) :=
  match value with
  | JsNum n =>
      name ← createIdentifier arguments;
      Some <$> TsAst.createPropertyAssignment name (Some (createNumericLiteral n))
  | JsString s =>
      name ← createIdentifier arguments;
      Some <$> TsAst.createPropertyAssignment name (Some (createStringLiteral s true))
  | JsBoolean b =>
      name ← createIdentifier arguments;
      Some <$> TsAst.createPropertyAssignment name (Some (createBoolean b))
  | JsNull =>
      name ← createIdentifier arguments;
      Throw (TypeError NotIterable)
  | JsObject entries =>
      name ← createIdentifier arguments;
      properties ←
        (fix ofEntries (entries : list (string * JsValue)) :=
           match entries with
           | [] => Ok []
           | (configKey, configValue) :: rest =>
               p ← createPropertyAssignment (forEntry arguments configKey) configValue;
               ps ← ofEntries rest;
               Ok (elementOfOption p :: ps)
           end) entries;
      Some <$> TsAst.createPropertyAssignment name
                 (Some (createObjectLiteralExpression properties true))
  | JsFunction _ | JsUndefined => Ok None
  end.

(** The properties built from what is left in a map, lines 349-357 and
    455-461: a placeholder property is made with the real factory and
    handed to [createPropertyAssignment] in the place of the key, with the
    context in the place of the factory. *)
Definition propertiesOfEntries (entries : list (string * JsValue))
  : result (list ObjectLiteralElement) :=
  mapR (λ kv, elementOfOption <$> createPropertyAssignment WithContext kv.2)
       entries.

(** The visitor inside [updateChildObjectLiteral], lines 330-341. *)
Definition childVisitor (path : list string) (config : JsValue)
  : Visitor (JsMap JsValue) :=
  λ node propertiesToAdd,
  match node with
  | PropertyAssignment name _ =>
      text ← getText name;
      let propertyPath := path ++ [text] in
      let propertiesToAdd := map_delete (join "." propertyPath) propertiesToAdd in
      let value := getValueByPath config propertyPath in
      if isDefined value
      then r ← createPropertyAssignment WithContext value; Ok (r, propertiesToAdd)
      else Ok (Some node, propertiesToAdd)
  | _ => Ok (Some node, propertiesToAdd)
  end.

(** [propertiesToAdd] as the loop of lines 319-326 fills it. *)
Definition initialPropertiesToAdd (path : list string) (config : JsValue)
  : JsMap JsValue :=
  let baseConfig := getValueByPath config path in
  foldl (λ m baseConfigKey,
           map_set (join "." (path ++ [baseConfigKey]))
                   (getProperty baseConfig baseConfigKey) m)
        map_empty (forInKeys baseConfig).

(** [updateChildObjectLiteral], lines 313-363. *)
Definition updateChildObjectLiteral (objectNode : Expression)
  (path : list string) (config : JsValue) : result Expression :=
  r ← visitEachChild (childVisitor path config) objectNode
        (initialPropertiesToAdd path config);
  let updatedObject := r.1 in
  let propertiesToAdd := r.2 in
  if (map_size propertiesToAdd =? 0)%nat then Ok updatedObject
  else
    extraProperties ← propertiesOfEntries (map_entries propertiesToAdd);
    match updatedObject with
    | ObjectLiteralExpression properties _ =>
        Ok (createObjectLiteralExpression (properties ++ extraProperties) true)
    | _ => Throw (TypeError NotIterable)
    end.

(** [updateAssignments], the visitor inside [visitRootConfigNode], lines
    418-445.  For an object literal the call starts with
    [factory.updatePropertyAssignment], and reading [factory] throws
    before any argument is evaluated. *)
Definition rootVisitor (newConfig : JsValue) : Visitor (JsMap JsValue) :=
  λ node propertyMap,
  match node with
  | PropertyAssignment name initializer =>
      if isObjectLiteralExpression initializer then
        Throw (ReferenceError "factory")
      else if isScalarInitializer initializer then
        text ← getText name;
        let value := getValueByPath newConfig [text] in
        if toBoolean value
        then
          let propertyMap := map_delete text propertyMap in
          r ← createPropertyAssignment WithContext value; Ok (r, propertyMap)
        else Ok (Some node, propertyMap)
      else Ok (Some node, propertyMap)
  | _ => Ok (Some node, propertyMap)
  end.

(** [propertyMap] as the loop of lines 405-412 fills it. *)
Definition initialPropertyMap (newConfig : JsValue) : JsMap JsValue :=
  foldl (λ m item,
           let value := getProperty newConfig item in
           if decide (typeof value = TObject) then m else map_set item value m)
        map_empty (forInKeys newConfig).

(** [visitRootConfigNode], lines 400-464. *)
Definition visitRootConfigNode (rootNode : option Expression)
  (newConfig : JsValue) : result (option Expression) :=
  r ← match rootNode with
      | Some node =>
          (λ r, (Some r.1, r.2)) <$>
            visitEachChild (rootVisitor newConfig) node
              (initialPropertyMap newConfig)
      | None => Ok (None, initialPropertyMap newConfig)
      end;
  let updatedConfig := r.1 in
  let propertyMap := r.2 in
  if (map_size propertyMap =? 0)%nat then Ok updatedConfig
  else
    newProperties ← propertiesOfEntries (map_entries propertyMap);
    match updatedConfig with
    | None => Throw (TypeError (ReadPropertyOfUndefined "properties"))
    | Some (ObjectLiteralExpression properties multiLine) =>
        Ok (Some (ObjectLiteralExpression (newProperties ++ properties) multiLine))
    | Some _ => Throw (TypeError NotIterable)
    end.

(** The visitor of [mergeCypressConfigs], lines 48-71, on a statement of
    the file or on a statement below one.  As in [transformers.ts], a
    [new] expression with arguments goes the way of a call. *)
Fixpoint visitStatement (newConfig : JsValue) (overwrite : bool)
  (node : Statement) : result Statement :=
  match node with
  | ExportAssignment isExportEquals expression =>
      match expression with
      | CallExpression callee typeArguments arguments
      | NewExpression callee typeArguments (Some arguments) =>
          let rootConfigNode := head arguments in
          newArguments ←
            (if overwrite then Ok []
             else r ← visitRootConfigNode rootConfigNode newConfig; Ok [r]);
          call ← createCallExpression callee typeArguments newArguments;
          Ok (ExportAssignment isExportEquals call)
      | _ => Throw (TypeError (ReadPropertyOfUndefined "0"))
      end
  | _ => visitEachChildOfStatement (visitStatement newConfig overwrite) node
  end.

(** [mergeCypressConfigs], lines 42-76, applied to a source file. *)
Definition mergeCypressConfigs (newConfig : JsValue) (overwrite : bool)
  (sourceFile : SourceFile) : result SourceFile :=
  mapR (visitStatement newConfig overwrite) sourceFile.

End addUpdate.

End AddUpdate.

Section addUpdateFacts.
Context {chain : Inherited}.

(** The visitor of [mergeCypressConfigs] is a visitor of statements. *)
#[global] Instance addUpdate_visitStatement_visitor newConfig overwrite :
  StatementVisitor (AddUpdate.visitStatement newConfig overwrite).
Proof. statement_visitor. Qed.

(** ** [createPropertyAssignment] *)

(** Called with a [TransformationContext] for a factory, as both
    visitors call it, [createPropertyAssignment] builds nothing: it throws
    a [TypeError] for a number, a string, a boolean, an object and [null],
    and returns [undefined] for a function and for [undefined]. *)
Lemma createPropertyAssignment_with_context value :
  AddUpdate.createPropertyAssignment AddUpdate.WithContext value =
  match typeof value with
  | TFunction | TUndefined => Ok None
  | _ => Throw (TypeError (NotAFunction "createIdentifier"))
  end.
Proof. by destruct value. Qed.

Lemma createPropertyAssignment_object key entries :
  AddUpdate.createPropertyAssignment (AddUpdate.WithFactory key) (JsObject entries) =
  properties ←
    mapR (λ kv, elementOfOption <$>
                  AddUpdate.createPropertyAssignment (AddUpdate.WithFactory kv.1) kv.2)
         entries;
  Ok (Some (PropertyAssignment (CreatedIdentifier key)
              (ObjectLiteralExpression properties true))).
Proof.
  simpl. match goal with |- ?f entries ≫= _ = _ => set (ofEntries := f) end.
  assert (ofEntries entries =
          mapR (λ kv, elementOfOption <$>
                        AddUpdate.createPropertyAssignment
                          (AddUpdate.WithFactory kv.1) kv.2) entries) as ->.
  { induction entries as [|[k v] l IH]; [done|]. simpl. rewrite <-IH.
    by destruct (AddUpdate.createPropertyAssignment _ v). }
  by destruct (mapR _ entries).
Qed.

Lemma build_object entries :
  build (JsObject entries) =
  properties ←
    mapM (λ kv, PropertyAssignment (CreatedIdentifier kv.1) <$> build kv.2) entries;
  Some (ObjectLiteralExpression properties true).
Proof.
  simpl. f_equal. induction entries as [|[k v] l IH]; [done|].
  rewrite IH. simpl. by destruct (build v).
Qed.

(** C39. Called with a node factory, [createPropertyAssignment] refines the
    literal builder of the specification: for a number, a string, a
    boolean and an object of such values, at any depth, it returns the
    property with the literal the specification asks for, the entries of
    an object in their order. *)
Theorem createPropertyAssignment_refines_build value key e :
  build value = Some e →
  AddUpdate.createPropertyAssignment (AddUpdate.WithFactory key) value
  = Ok (Some (PropertyAssignment (CreatedIdentifier key) e)).
Proof.
  revert key e. induction value as [| |b|n|s|src|entries IH] using JsValue_nested_ind;
    intros key e; try done; try (by intros [= <-]).
  rewrite build_object, createPropertyAssignment_object.
  intros (ps & Hps%mapM_Some_1 & [= <-])%bind_Some.
  assert (mapR (λ kv, elementOfOption <$>
                        AddUpdate.createPropertyAssignment
                          (AddUpdate.WithFactory kv.1) kv.2) entries = Ok ps) as ->;
    [|done].
  apply mapR_Ok. clear key. induction Hps as [|[k v] p l ps Hp _ IHl]; [constructor|].
  apply Forall_cons in IH as [IHv IHrest].
  constructor; [|by apply IHl].
  apply fmap_Some in Hp as (e & He & ->). simpl in *.
  by rewrite (IHv k e He).
Qed.

(** ** The root *)

(** The property holds an object literal. *)
Definition hasObjectValue (el : ObjectLiteralElement) : bool :=
  match el with
  | PropertyAssignment _ initializer => isObjectLiteralExpression initializer
  | _ => false
  end.

Lemma rootVisitor_no_entries newConfig el s :
  parsedElement el = true → ownReads [] newConfig el →
  forInKeys newConfig = [] →
  AddUpdate.rootVisitor newConfig el s =
  if hasObjectValue el then Throw (ReferenceError "factory") else Ok (Some el, s).
Proof.
  destruct el as [[text|text] init| |]; try done. intros _ Hown Hconfig.
  simpl in *. destruct (isObjectLiteralExpression init); [done|].
  rewrite (optionalGet_no_entries _ _ Hown Hconfig). simpl. by case_match.
Qed.

Lemma visitNodes_rootVisitor_no_entries newConfig ps s :
  forallb parsedElement ps = true → Forall (ownReads [] newConfig) ps →
  forInKeys newConfig = [] →
  visitNodes (AddUpdate.rootVisitor newConfig) ps s =
  if existsb hasObjectValue ps then Throw (ReferenceError "factory")
  else Ok (ps, s).
Proof.
  intros Hps Hown Hconfig. induction Hown as [|el ps Hownel _ IH]; [done|].
  apply andb_true_iff in Hps as [Hel Hps].
  rewrite visitNodes_cons, rootVisitor_no_entries by (done || by destruct el).
  simpl. destruct (hasObjectValue el); [done|]. simpl.
  rewrite IH by done. by destruct (existsb _ ps).
Qed.

(** C38. With nothing to merge, [visitRootConfigNode] of
    [add-update-property-transformer.ts] returns a parsed root, whose
    properties have no name that the configuration inherits, as it is
    only when none of its properties holds an object literal; otherwise it
    throws the [ReferenceError] of the unbound [factory]. *)
Theorem addUpdate_nothing_to_merge ps ml newConfig :
  forallb parsedElement ps = true → Forall (ownReads [] newConfig) ps →
  forInKeys newConfig = [] →
  AddUpdate.visitRootConfigNode (Some (ObjectLiteralExpression ps ml)) newConfig =
  if existsb hasObjectValue ps then Throw (ReferenceError "factory")
  else Ok (Some (ObjectLiteralExpression ps ml)).
Proof.
  intros Hps Hown Hconfig. unfold AddUpdate.visitRootConfigNode. simpl.
  rewrite visitNodes_rootVisitor_no_entries by done.
  destruct (existsb _ ps); [done|]. simpl.
  unfold AddUpdate.initialPropertyMap. by rewrite Hconfig.
Qed.

(** ** Nothing is added, nothing is updated *)

(** A visitor that returns the node it was given, or [undefined]. *)
Definition keepsOrDrops {S} (visitor : Visitor S) : Prop :=
  ∀ el s r s', visitor el s = Ok (r, s') → r = Some el ∨ r = None.

Lemma visitNodes_keepsOrDrops {S} (visitor : Visitor S) ps s ps' s' :
  keepsOrDrops visitor →
  visitNodes visitor ps s = Ok (ps', s') → ps' `sublist_of` ps.
Proof.
  intros Hv. revert s ps' s'. induction ps as [|el ps IH]; intros s ps' s'.
  - by intros [= <- _].
  - assert (el = UndefinedElement ∨ el ≠ UndefinedElement) as [->|Hel]
      by (destruct el; auto).
    { simpl. intros H%IH. by constructor. }
    rewrite visitNodes_cons by done.
    intros ([r s1] & Hr & ([l s2] & Hl%IH & [= <- _])%bind_Ok_inv)%bind_Ok_inv.
    destruct (Hv _ _ _ _ Hr) as [->| ->]; simpl; by constructor.
Qed.

Lemma createPropertyAssignment_context_Ok value r :
  AddUpdate.createPropertyAssignment AddUpdate.WithContext value = Ok r → r = None.
Proof. destruct value; simpl; congruence. Qed.

Lemma rootVisitor_keepsOrDrops newConfig :
  keepsOrDrops (AddUpdate.rootVisitor newConfig).
Proof.
  intros [name init| |] s r s'; simpl; try (intros [= <- _]; by left).
  destruct (isObjectLiteralExpression init); [done|].
  destruct (isScalarInitializer init); [|intros [= <- _]; by left].
  intros (text & _ & Hr)%bind_Ok_inv. revert Hr. simpl.
  destruct (toBoolean _); [|intros [= <- _]; by left].
  intros (r' & ->%createPropertyAssignment_context_Ok & [= <- _])%bind_Ok_inv.
  by right.
Qed.

Lemma propertiesOfEntries_context_Ok entries built :
  AddUpdate.propertiesOfEntries entries = Ok built →
  Forall (λ el, el = UndefinedElement) built.
Proof.
  intros Hbuilt. apply Forall_forall. intros el Hel.
  apply (mapR_elem _ _ _ _ Hbuilt) in Hel as (kv & _ & Hkv).
  by apply fmap_Ok_inv in Hkv as (r & ->%createPropertyAssignment_context_Ok & ->).
Qed.

#[global] Instance ObjectLiteralElement_undefined_dec el :
  Decision (el = UndefinedElement).
Proof. destruct el; [right | right | left]; done. Defined.

(** The properties of a tree that are there. *)
Definition defined (ps : list ObjectLiteralElement) : list ObjectLiteralElement :=
  filter (λ el, el ≠ UndefinedElement) ps.

Lemma defined_undefined ps :
  Forall (λ el, el = UndefinedElement) ps → defined ps = [].
Proof.
  unfold defined. induction 1 as [|el ps -> _ IH]; [done|].
  rewrite filter_cons. by case_decide.
Qed.

(** What [visitRootConfigNode] returns for an object literal is an
    object literal whose properties are properties of the file. *)
Lemma addUpdate_root_returns ps ml newConfig r :
  AddUpdate.visitRootConfigNode (Some (ObjectLiteralExpression ps ml)) newConfig
  = Ok r →
  ∃ ps' ml', r = Some (ObjectLiteralExpression ps' ml') ∧
             defined ps' `sublist_of` ps.
Proof.
  unfold AddUpdate.visitRootConfigNode. simpl.
  destruct (visitNodes _ ps _) as [[kept left]|e] eqn:Hkept; simpl; [|done].
  apply visitNodes_keepsOrDrops in Hkept; [|apply rootVisitor_keepsOrDrops].
  assert (defined kept `sublist_of` ps) as Hsub
    by (etrans; [apply sublist_filter | done]).
  destruct (map_size left =? 0)%nat; [intros [= <-]; by eexists _, _|].
  destruct (AddUpdate.propertiesOfEntries _) as [news|e] eqn:Hnews; simpl; [|done].
  intros [= <-]. eexists _, _. split; [done|].
  unfold defined. rewrite filter_app. fold (defined news).
  by rewrite (defined_undefined _ (propertiesOfEntries_context_Ok _ _ Hnews)).
Qed.

(** C6. Whenever [visitRootConfigNode] of
    [add-update-property-transformer.ts] returns, every property of the
    result is a property of the file, in the order of the file: the
    function adds no property and updates none, whatever the new
    configuration. *)
Theorem addUpdate_adds_and_updates_nothing ps ml newConfig ps' ml' :
  AddUpdate.visitRootConfigNode (Some (ObjectLiteralExpression ps ml)) newConfig
  = Ok (Some (ObjectLiteralExpression ps' ml')) →
  defined ps' `sublist_of` ps.
Proof. by intros (? & ? & [= <- <-] & ?)%addUpdate_root_returns. Qed.

End addUpdateFacts.

(** ** Examples *)

#[local] Existing Instance standardPrototypes.

Lemma createPropertyAssignment_refines_build_witness :
  AddUpdate.createPropertyAssignment (AddUpdate.WithFactory "e2e")
    (JsObject [("video", JsBoolean false);
               ("env", JsObject [("port", JsNum (NumInt 8080))])])
  = Ok (Some (PropertyAssignment (CreatedIdentifier "e2e")
                (ObjectLiteralExpression
                   [PropertyAssignment (CreatedIdentifier "video") FalseKeyword;
                    PropertyAssignment (CreatedIdentifier "env")
                      (ObjectLiteralExpression
                         [PropertyAssignment (CreatedIdentifier "port")
                            (NumericLiteral "8080")] true)] true))).
Proof. apply createPropertyAssignment_refines_build. reflexivity. Defined.

Lemma addUpdate_nothing_to_merge_witness :
  AddUpdate.visitRootConfigNode (Some rootObject) (JsObject [])
  = Throw (ReferenceError "factory").
Proof.
  apply (addUpdate_nothing_to_merge
           [ property "baseUrl" (quoted "blah its me");
             property "component" componentObject;
             property "e2e" e2eObject ] true (JsObject []));
    [reflexivity | apply (bool_decide_unpack _); by vm_compute | reflexivity].
Defined.

Lemma addUpdate_adds_and_updates_nothing_witness :
  defined [UndefinedElement; property "video" TrueKeyword]
  `sublist_of` [property "video" TrueKeyword].
Proof.
  apply (addUpdate_adds_and_updates_nothing _ true
           (JsObject [("setupNodeEvents", JsFunction "(on) => {}")]) _ true).
  reflexivity.
Defined.
