(* ===== verification/ConfigMetadata.v ===== *)
(** * The private methods of [CypressPropertyTransformer]

    [add-update-property-transformer.ts], lines 83-238.  The class keeps a
    static [configMetadataMap], a [Map] from property names to primitive
    values and to further [Map]s, and four private methods work on it:
    [fromLiteralToPrimitive] reads a literal node, [buildMetadataFromConfig]
    records the properties of an object literal in a map,
    [addNewConfigToMetadata] builds an object literal for the new
    configuration and hands it over, and [mergeConfigs] is the transformer
    factory that starts with it.  Nothing calls [mergeConfigs]; the
    methods are modelled as they are written.

    The map outlives a call and is changed in place, also by a call that
    throws afterwards.  The state is therefore a store of [Map] objects,
    each at a location, and a computation returns an [outcome]: it returns
    a value, or throws, in both cases with the store as it has become.

    [buildMetadataFromConfig] calls itself with arguments that are not
    smaller than its own; it takes fuel, and [OutOfFuel] is the outcome of
    a run that needs more.  Two units are enough for every call
    ([ConfigMetadataFacts.v]). *)

From S2P Require Import Prelude JsMap JsValue TsAst JsRegex Transformers.
From S2P Require Import ParseInt AddUpdateTransformer.

(** ** The store *)

(** [PrimitiveValue], line 78. *)
Inductive PrimitiveValue : Type :=
| PString (s : string)
| PNumber (n : JsNumber)
| PBoolean (b : bool).

#[global] Instance PrimitiveValue_eq_dec : EqDecision PrimitiveValue.
Proof. solve_decision. Defined.

(** The location of a [Map] object in the store. *)
Abbreviation loc := nat (only parsing).

(** What a map holds under a name: a primitive value, or another map. *)
Inductive MetadataValue : Type :=
| Primitive (p : PrimitiveValue)
| ChildMap (l : loc).

#[global] Instance MetadataValue_eq_dec : EqDecision MetadataValue.
Proof. solve_decision. Defined.

(** The [Map] objects that exist, by location. *)
Abbreviation Store := (list (JsMap MetadataValue)) (only parsing).

(** [configMetadataMap], lines 84-87: the first object of the store,
    empty when the class is loaded. *)
Definition configMetadataMap : loc := 0%nat.

Definition initialStore : Store := [map_empty].

(** ** Computations on the store *)

Inductive outcome (A : Type) : Type :=
| Returns (a : A) (σ : Store)
| Throws (e : JsError) (σ : Store)
| OutOfFuel.

Arguments Returns {A} a σ.
Arguments Throws {A} e σ.
Arguments OutOfFuel {A}.

Definition M (A : Type) : Type := Store → outcome A.

#[global] Instance M_ret : MRet M := λ A a σ, Returns a σ.

#[global] Instance M_bind : MBind M := λ A B f m σ,
  match m σ with
  | Returns a σ' => f a σ'
  | Throws e σ' => Throws e σ'
  | OutOfFuel => OutOfFuel
  end.

#[global] Instance M_fmap : FMap M := λ A B f m σ,
  match m σ with
  | Returns a σ' => Returns (f a) σ'
  | Throws e σ' => Throws e σ'
  | OutOfFuel => OutOfFuel
  end.

(** A computation that does not touch the store. *)
Definition liftResult {A} (r : result A) : M A := λ σ,
  match r with
  | Ok a => Returns a σ
  | Throw e => Throws e σ
  end.

(** [new Map()] *)
Definition newMap : M loc := λ σ, Returns (length σ) (σ ++ [map_empty]).

(** [map.set(key, value)] for the map at [l]. *)
Definition mapSet (l : loc) (key : string) (value : MetadataValue) : M unit :=
  λ σ, Returns () (alter (map_set key value) l σ).

(** [for (const x of l) body(x)] *)
Fixpoint forOf {A} (body : A → M unit) (l : list A) : M unit :=
  match l with
  | [] => mret ()
  | x :: l' => body x;; forOf body l'
  end.

(** The store a computation leaves, when it ends. *)
Definition finalStore {A} (o : outcome A) : option Store :=
  match o with
  | Returns _ σ | Throws _ σ => Some σ
  | OutOfFuel => None
  end.

(** ** The source text of an expression *)

(** [node.getText()] for the nodes of a parsed file.  The text of a
    numeric literal is the text of the node; the text of a string literal
    starts with its quote; the text of any other expression is what the
    file holds at its place. *)
Definition isQuote (c : ascii) : bool :=
  bool_decide (c = "'"%char) || bool_decide (c = "034"%char).

Class ParsedText := {
  expressionText : Expression → string;
  expressionText_numeric text : expressionText (NumericLiteral text) = text;
  expressionText_string text singleQuote :
    ∃ quote rest,
      expressionText (StringLiteral text singleQuote) = String quote rest ∧
      isQuote quote = true
}.

(** ** The methods *)

Section methods.
Context `{ParsedText}.

(** [fromLiteralToPrimitive], lines 219-237.  [isBooleanLiteral] comes
    from [./transformer.helper] and is taken to be the function of
    [transformers.ts]. *)
Definition fromLiteralToPrimitive (nodeInitializer : Expression)
  : PrimitiveValue :=
  if isNumericLiteral nodeInitializer then
    PNumber (parseInt (expressionText nodeInitializer))
  else if isBooleanLiteral nodeInitializer then
    match nodeInitializer with
    | TrueKeyword => PBoolean true
    | FalseKeyword => PBoolean false
    | _ => PString (expressionText nodeInitializer)
    end
  else PString (expressionText nodeInitializer).

(** What a method is handed in the place of a parameter: the node
    factory, a node, a [Map], or nothing. *)
Inductive Argument : Type :=
| FactoryArgument
| NodeArgument (node : Expression)
| MapArgument (l : loc)
| UndefinedArgument.

(** [config.properties], iterated, line 166: reading a property of
    [undefined] throws, and so does iterating [undefined], which is what
    [properties] is on anything but an object literal. *)
Definition propertiesOf (config : Argument)
  : result (list ObjectLiteralElement) :=
  match config with
  | UndefinedArgument => Throw (TypeError (ReadPropertyOfUndefined "properties"))
  | NodeArgument (ObjectLiteralExpression properties _) => Ok properties
  | _ => Throw (TypeError NotIterable)
  end.

(** [factory.createCallExpression(factory.createIdentifier('devServer'),
    undefined, [assignment.initializer])], lines 173-177.  The callee is
    read first and the arguments are evaluated before the call: on a
    [factory] that is no factory it is [createIdentifier] that fails. *)
Definition createDevServerCall (factory : Argument) (initializer : Expression)
  : result Expression :=
  match factory with
  | FactoryArgument =>
      createCallExpression (Identifier "devServer") [] [Some initializer]
  | UndefinedArgument =>
      Throw (TypeError (ReadPropertyOfUndefined "createCallExpression"))
  | NodeArgument _ | MapArgument _ =>
      Throw (TypeError (NotAFunction "createIdentifier"))
  end.

(** The body of the loop of [buildMetadataFromConfig], lines 167-189, with
    the method itself as [self].  An element that is no property
    assignment has no [name] (a spread) or no [initializer] (a shorthand
    property, a method): the loop throws a [TypeError] on it before it
    changes anything; the model carries the reason of the second case. *)
Definition recordProperty
  (self : Argument → Argument → option loc → option bool → M unit)
  (factory : Argument) (metadataMap : loc) (property : ObjectLiteralElement)
  : M unit :=
  match property with
  | PropertyAssignment name initializer =>
      assignmentName ← liftResult (getText name);
      (if decide (assignmentName = "devServer")
       then (λ ds, ()) <$> liftResult (createDevServerCall factory initializer)
       else mret ());;
      if isObjectLiteralExpression initializer then
        childMetadataMap ← newMap;
        mapSet metadataMap assignmentName (ChildMap childMetadataMap);;
        self (NodeArgument initializer) (MapArgument childMetadataMap) None None
      else
        mapSet metadataMap assignmentName
          (Primitive (fromLiteralToPrimitive initializer))
  | OtherElement _ => liftResult (Throw (TypeError (ReadPropertyOfUndefined "kind")))
  | UndefinedElement => liftResult (Throw (TypeError (ReadPropertyOfUndefined "name")))
  end.

(** [buildMetadataFromConfig], lines 156-217.  [metadataMap] and [merge]
    are optional: [this.configMetadataMap] and [false] when left out. *)
Fixpoint buildMetadataFromConfig (fuel : nat) (factory config : Argument)
  (metadataMap : option loc) (merge : option bool) : M unit :=
  match fuel with
  | O => λ _, OutOfFuel
  | S fuel =>
      let metadataMap := default configMetadataMap metadataMap in
      if default false merge then mret ()
      else
        properties ← liftResult (propertiesOf config);
        forOf (recordProperty (buildMetadataFromConfig fuel) factory metadataMap)
              properties
  end.

(** [addNewConfigToMetadata], lines 141-154, with the node factory that
    [mergeConfigs] passes.  [buildMetadataFromConfig] is called with one
    argument: the object literal stands where the factory is expected,
    and there is no [config]. *)
Definition addNewConfigToMetadata (fuel : nat) (newConfig : JsValue) : M unit :=
  entries ← liftResult (objectEntries newConfig);
  propertyAssignments ←
    liftResult
      (mapR (λ kv, elementOfOption <$>
                     AddUpdate.createPropertyAssignment
                       (AddUpdate.WithFactory kv.1) kv.2) entries);
  buildMetadataFromConfig fuel
    (NodeArgument (createObjectLiteralExpression propertyAssignments true))
    UndefinedArgument None None.

(** [nodeVisitor], lines 118-134, on a statement of the file or on a
    statement below one: the first argument of the exported call is read
    and the node is returned as it is; every other node goes to
    [visitEachChild] with the visitor itself.  The read throws on an
    expression that has no [arguments]; a call has them, and so has a
    [new] expression that is written with parentheses. *)
Fixpoint nodeVisitor (node : Statement) : result Statement :=
  match node with
  | ExportAssignment _ expression =>
      match expression with
      | CallExpression _ _ _ | NewExpression _ _ (Some _) => Ok node
      | _ => Throw (TypeError (ReadPropertyOfUndefined "0"))
      end
  | _ => visitEachChildOfStatement nodeVisitor node
  end.

(** [mergeConfigs(newConfig, overwrite)], lines 108-139, applied to a
    transformation context: the new configuration is recorded first, and
    the transformer of the file is returned. *)
Definition mergeConfigs (fuel : nat) (newConfig : JsValue) (overwrite : bool)
  : M (SourceFile → result SourceFile) :=
  addNewConfigToMetadata fuel newConfig;;
  mret (mapR nodeVisitor).

End methods.

(** The fuel that is enough for every call. *)
Definition enoughFuel : nat := 2.
