(* ===== verification/ConfigMetadataFacts.v ===== *)
(** * The private methods of [CypressPropertyTransformer]: theorems

    On the definitions of [ConfigMetadata.v]:
    - two units of fuel are enough for every call of
      [buildMetadataFromConfig], and more fuel changes nothing;
    - for an object literal of scalar properties the method records every
      property in the map it is given, in order, on top of what the map
      held;
    - for a nested object it throws, after it has made a new [Map] and
      stored it: the failed call leaves its mark in the static map;
    - [addNewConfigToMetadata] and [mergeConfigs] throw for every new
      configuration, and leave the store as it was;
    - the store stays well formed through every call, whatever its
      outcome;
    - a number printed into a literal, parsed and read by
      [fromLiteralToPrimitive] comes back exactly when it is an integer
      that is not negative, and a literal of at most fifteen characters
      is read exactly. *)

From Stdlib Require Import Lia.
From S2P Require Import Prelude JsMap JsValue TsAst JsRegex Transformers.
From S2P Require Import ParseInt TestConfig MergeFile MergeSettles.
From S2P Require Import AddUpdateTransformer.
From S2P Require Import ConfigMetadata.

(** ** The monad *)

Section monad.
Context {A B : Type}.
Implicit Types (m : M A) (f : A → M B) (σ : Store).

Lemma bind_Returns m f σ a σ' : m σ = Returns a σ' → (m ≫= f) σ = f a σ'.
Proof. unfold mbind, M_bind. by intros ->. Qed.

Lemma bind_Throws m f σ e σ' : m σ = Throws e σ' → (m ≫= f) σ = Throws e σ'.
Proof. unfold mbind, M_bind. by intros ->. Qed.

Lemma bind_ext m f g σ :
  (∀ a σ', m σ = Returns a σ' → f a σ' = g a σ') → (m ≫= f) σ = (m ≫= g) σ.
Proof. unfold mbind, M_bind. destruct (m σ); auto. Qed.

Lemma liftResult_Ok (a : A) σ : liftResult (Ok a) σ = Returns a σ.
Proof. done. Qed.

Lemma liftResult_Throw e σ : @liftResult A (Throw e) σ = Throws e σ.
Proof. done. Qed.

End monad.

(** A computation ends when it does not run out of fuel. *)
Definition ends {A} (m : M A) : Prop := ∀ σ, is_Some (finalStore (m σ)).

Lemma ends_bind {A B} (m : M A) (f : A → M B) :
  ends m → (∀ a, ends (f a)) → ends (m ≫= f).
Proof.
  intros Hm Hf σ. unfold mbind, M_bind. specialize (Hm σ).
  destruct (m σ); [apply Hf | done | done].
Qed.

Lemma ends_fmap {A B} (h : A → B) (m : M A) : ends m → ends (h <$> m).
Proof. intros Hm σ. unfold fmap, M_fmap. specialize (Hm σ). by destruct (m σ). Qed.

Lemma ends_liftResult {A} (r : result A) : ends (liftResult r).
Proof. intros σ. by destruct r. Qed.

Lemma ends_ret {A} (a : A) : ends (mret a).
Proof. by intros σ. Qed.

Lemma ends_newMap : ends newMap.
Proof. by intros σ. Qed.

Lemma ends_mapSet l key value : ends (mapSet l key value).
Proof. by intros σ. Qed.

Lemma ends_forOf {A} (body : A → M unit) l :
  (∀ x, ends (body x)) → ends (forOf body l).
Proof.
  intros Hbody. induction l as [|x l IH]; [apply ends_ret|].
  by apply ends_bind.
Qed.

#[export] Hint Resolve ends_bind ends_fmap ends_liftResult ends_ret ends_newMap
  ends_mapSet ends_forOf : js.

Lemma forOf_ext {A} (body1 body2 : A → M unit) l σ :
  (∀ x σ', body1 x σ' = body2 x σ') → forOf body1 l σ = forOf body2 l σ.
Proof.
  intros Hbody. revert σ. induction l as [|x l IH]; intros σ; [done|].
  simpl. unfold mbind, M_bind. rewrite Hbody. destruct (body2 x σ); auto.
Qed.

(** ** Specifications

    [hoare P m Q E]: from a store in [P], [m] returns a value and a store
    in [Q], or throws with a store in [E].  A run out of fuel promises
    nothing; that there is none is a theorem of its own. *)
Definition hoare {A} (P : Store → Prop) (m : M A) (Q : A → Store → Prop)
  (E : Store → Prop) : Prop :=
  ∀ σ, P σ →
    match m σ with
    | Returns a σ' => Q a σ'
    | Throws _ σ' => E σ'
    | OutOfFuel => True
    end.

Section hoare.
Context {A B : Type}.
Implicit Types (P E : Store → Prop) (m : M A) (f : A → M B).

Lemma hoare_ret P (a : A) : hoare P (mret a) (λ _, P) P.
Proof. by intros σ. Qed.

Lemma hoare_liftResult P (r : result A) : hoare P (liftResult r) (λ _, P) P.
Proof. intros σ. by destruct r. Qed.

Lemma hoare_bind P m Q f R E :
  hoare P m Q E → (∀ a, hoare (Q a) (f a) R E) → hoare P (m ≫= f) R E.
Proof.
  intros Hm Hf σ Hσ. specialize (Hm σ Hσ). unfold mbind, M_bind.
  destruct (m σ) as [a σ'|e σ'|]; [by apply Hf | done..].
Qed.

Lemma hoare_fmap P m (h : A → B) E :
  hoare P m (λ _, P) E → hoare P (h <$> m) (λ _, P) E.
Proof.
  intros Hm σ Hσ. specialize (Hm σ Hσ). unfold fmap, M_fmap. by destruct (m σ).
Qed.

End hoare.

Lemma hoare_forOf {A} (P : Store → Prop) (body : A → M unit) l :
  (∀ x, hoare P (body x) (λ _, P) P) → hoare P (forOf body l) (λ _, P) P.
Proof.
  intros Hbody. induction l as [|x l IH]; [apply hoare_ret|].
  eapply hoare_bind; [apply Hbody | done].
Qed.

(** ** Fuel *)

Section facts.
Context `{ParsedText}.

(** A [Map] in the place of [config] has no [properties]. *)
Lemma buildMetadataFromConfig_of_map fuel factory l σ :
  buildMetadataFromConfig (S fuel) factory (MapArgument l) None None σ
  = Throws (TypeError NotIterable) σ.
Proof. done. Qed.

Lemma recordProperty_fuel fuel factory metadataMap property σ :
  recordProperty (buildMetadataFromConfig (S fuel)) factory metadataMap property σ
  = recordProperty (buildMetadataFromConfig 1) factory metadataMap property σ.
Proof.
  by destruct property.
Qed.

Lemma buildMetadataFromConfig_more_fuel n factory config metadataMap merge σ :
  buildMetadataFromConfig (enoughFuel + n) factory config metadataMap merge σ
  = buildMetadataFromConfig enoughFuel factory config metadataMap merge σ.
Proof.
  simpl. destruct (default false merge); [done|].
  apply bind_ext. intros ps σ' _. apply forOf_ext. intros p σ''.
  apply recordProperty_fuel.
Qed.

Lemma recordProperty_ends factory metadataMap property :
  ends (recordProperty (buildMetadataFromConfig 1) factory metadataMap property).
Proof.
  destruct property as [name init| |]; simpl; eauto with js.
  apply ends_bind; [eauto with js|]. intros text.
  apply ends_bind; [case_decide; eauto with js|]. intros _.
  destruct (isObjectLiteralExpression init); [|eauto with js].
  apply ends_bind; [eauto with js|]. intros child.
  apply ends_bind; [eauto with js|]. by intros _ σ.
Qed.

Lemma buildMetadataFromConfig_ends factory config metadataMap merge :
  ends (buildMetadataFromConfig enoughFuel factory config metadataMap merge).
Proof.
  simpl. destruct (default false merge); [eauto with js|].
  apply ends_bind; [eauto with js|]. intros ps.
  apply ends_forOf. intros p. apply recordProperty_ends.
Qed.

(** C27. [buildMetadataFromConfig] ends on every input, though it calls
    itself on arguments that are not smaller: with two units of fuel it
    returns or throws, and more fuel gives the same outcome.  The second
    level of calls is always handed a [Map] for a configuration and
    throws at once. *)
Theorem buildMetadataFromConfig_terminates n factory config metadataMap merge σ :
  is_Some (finalStore
             (buildMetadataFromConfig enoughFuel factory config metadataMap merge σ)) ∧
  buildMetadataFromConfig (enoughFuel + n) factory config metadataMap merge σ
  = buildMetadataFromConfig enoughFuel factory config metadataMap merge σ.
Proof.
  split; [apply buildMetadataFromConfig_ends | apply buildMetadataFromConfig_more_fuel].
Qed.

(** ** What is recorded *)

(** A property with a name that was parsed and a value that is no object
    literal. *)
Definition scalarProperty (el : ObjectLiteralElement) : bool :=
  match el with
  | PropertyAssignment (ParsedName _) initializer =>
      negb (isObjectLiteralExpression initializer)
  | _ => false
  end.

(** The map after a scalar property was recorded, and after a list of
    them. *)
Definition record (el : ObjectLiteralElement) (m : JsMap MetadataValue)
  : JsMap MetadataValue :=
  match el with
  | PropertyAssignment name initializer =>
      map_set (nameText name) (Primitive (fromLiteralToPrimitive initializer)) m
  | _ => m
  end.

Definition recorded (ps : list ObjectLiteralElement) (m : JsMap MetadataValue)
  : JsMap MetadataValue :=
  foldl (flip record) m ps.

Lemma forOf_app {A} (body : A → M unit) l1 l2 σ :
  forOf body (l1 ++ l2) σ = (forOf body l1;; forOf body l2) σ.
Proof.
  revert σ. induction l1 as [|x l1 IH]; intros σ; [done|].
  simpl. unfold mbind, M_bind in *. destruct (body x σ); auto.
Qed.

Lemma recordProperty_scalar self l el σ :
  scalarProperty el = true →
  recordProperty self FactoryArgument l el σ = Returns () (alter (record el) l σ).
Proof.
  destruct el as [[text|text] init| |]; try done. simpl.
  intros Hinit%negb_true_iff. unfold mbind, M_bind. simpl.
  rewrite Hinit. by case_decide.
Qed.

Lemma forOf_scalars self l ps σ :
  forallb scalarProperty ps = true →
  forOf (recordProperty self FactoryArgument l) ps σ
  = Returns () (alter (recorded ps) l σ).
Proof.
  revert σ. induction ps as [|p ps IH]; intros σ Hps.
  - by rewrite list_alter_id.
  - apply andb_true_iff in Hps as [Hp Hps]. simpl forOf.
    erewrite bind_Returns by by apply recordProperty_scalar.
    by rewrite IH, list_alter_alter_eq.
Qed.

Lemma buildMetadataFromConfig_object fuel factory ps ml metadataMap σ :
  buildMetadataFromConfig (S fuel) factory
    (NodeArgument (ObjectLiteralExpression ps ml)) metadataMap None σ
  = forOf (recordProperty (buildMetadataFromConfig fuel) factory
             (default configMetadataMap metadataMap)) ps σ.
Proof. done. Qed.

Lemma buildMetadataFromConfig_scalars_alter fuel ps ml metadataMap σ :
  forallb scalarProperty ps = true →
  buildMetadataFromConfig (S fuel) FactoryArgument
    (NodeArgument (ObjectLiteralExpression ps ml)) metadataMap None σ
  = Returns () (alter (recorded ps) (default configMetadataMap metadataMap) σ).
Proof. intros Hps. rewrite buildMetadataFromConfig_object. by apply forOf_scalars. Qed.

(** C24. For an object literal whose properties are scalars with parsed
    names, [buildMetadataFromConfig] returns, and the map it was given
    holds what it held with every property recorded in order: a later
    property of the same name overwrites the value and keeps the place.
    No other map of the store changes. *)
Theorem buildMetadataFromConfig_scalars ps ml metadataMap σ m :
  forallb scalarProperty ps = true →
  σ !! default configMetadataMap metadataMap = Some m →
  buildMetadataFromConfig enoughFuel FactoryArgument
    (NodeArgument (ObjectLiteralExpression ps ml)) metadataMap None σ
  = Returns () (<[default configMetadataMap metadataMap := recorded ps m]> σ).
Proof.
  intros Hps Hm. unfold enoughFuel.
  rewrite buildMetadataFromConfig_scalars_alter by done.
  f_equal. apply list_eq. intros i.
  destruct (decide (i = default configMetadataMap metadataMap)) as [->|Hi].
  - rewrite list_lookup_alter_eq, Hm, list_lookup_insert_eq; [done|].
    by eapply lookup_lt_Some.
  - by rewrite list_lookup_alter_ne, list_lookup_insert_ne.
Qed.

(** ** A nested object *)

Lemma buildMetadataFromConfig_nested_alter pre text cps cml post ml metadataMap σ :
  forallb scalarProperty pre = true →
  let l := default configMetadataMap metadataMap in
  buildMetadataFromConfig enoughFuel FactoryArgument
    (NodeArgument
       (ObjectLiteralExpression
          (pre ++ PropertyAssignment (ParsedName text)
                    (ObjectLiteralExpression cps cml) :: post) ml))
    metadataMap None σ
  = Throws (TypeError NotIterable)
      (alter (map_set text (ChildMap (length σ))) l
             (alter (recorded pre) l σ ++ [map_empty])).
Proof.
  intros Hpre l. unfold enoughFuel.
  rewrite buildMetadataFromConfig_object, forOf_app.
  erewrite bind_Returns by by apply forOf_scalars.
  simpl. unfold mbind, M_bind. simpl. case_decide; simpl;
    by rewrite length_alter.
Qed.

(** C25. A nested object makes [buildMetadataFromConfig] throw, and not
    before it has changed the store: the scalar properties in front of it
    are recorded, a new [Map] exists, and the map holds it under the name
    of the property.  The call fails and leaves its mark. *)
Theorem buildMetadataFromConfig_nested_object_throws
    pre text cps cml post ml metadataMap σ m :
  forallb scalarProperty pre = true →
  σ !! default configMetadataMap metadataMap = Some m →
  ∃ σ',
    buildMetadataFromConfig enoughFuel FactoryArgument
      (NodeArgument
         (ObjectLiteralExpression
            (pre ++ PropertyAssignment (ParsedName text)
                      (ObjectLiteralExpression cps cml) :: post) ml))
      metadataMap None σ
    = Throws (TypeError NotIterable) σ' ∧
    σ' !! default configMetadataMap metadataMap
    = Some (map_set text (ChildMap (length σ)) (recorded pre m)) ∧
    σ' !! length σ = Some map_empty.
Proof.
  intros Hpre Hm. eexists. split; [by apply buildMetadataFromConfig_nested_alter|].
  apply lookup_lt_Some in Hm as Hl. split.
  - rewrite list_lookup_alter_eq, lookup_app_l by by rewrite length_alter.
    by rewrite list_lookup_alter_eq, Hm.
  - rewrite list_lookup_alter_ne by lia.
    rewrite <-(length_alter (recorded pre) σ (default configMetadataMap metadataMap)).
    by rewrite list_lookup_middle.
Qed.

(** ** [addNewConfigToMetadata] and [mergeConfigs] *)

Lemma addUpdate_createPropertyAssignment_onlyTypeError key value :
  onlyTypeError (AddUpdate.createPropertyAssignment (AddUpdate.WithFactory key) value).
Proof.
  revert key. induction value as [| |b|n|s|src|entries IH] using JsValue_nested_ind;
    intros key; try done.
  rewrite createPropertyAssignment_object.
  apply onlyTypeError_bind; [|done]. apply onlyTypeError_mapR_Forall.
  eapply Forall_impl; [exact IH|]. intros [k v] Hv. by apply onlyTypeError_fmap.
Qed.

Lemma addNewConfigToMetadata_throws fuel newConfig σ :
  ∃ reason,
    addNewConfigToMetadata (S fuel) newConfig σ = Throws (TypeError reason) σ.
Proof.
  unfold addNewConfigToMetadata.
  destruct (objectEntries newConfig) as [entries|e] eqn:Hentries.
  2:{ destruct newConfig; simplify_eq/=; eauto. }
  erewrite bind_Returns by done.
  pose proof (onlyTypeError_mapR_Forall
                (λ kv, elementOfOption <$>
                         AddUpdate.createPropertyAssignment
                           (AddUpdate.WithFactory kv.1) kv.2) entries) as Hps.
  destruct (mapR _ entries) as [ps|[reason|name]].
  - erewrite bind_Returns by done. eauto.
  - erewrite bind_Throws by done. eauto.
  - destruct Hps. apply Forall_forall. intros kv _.
    apply onlyTypeError_fmap, addUpdate_createPropertyAssignment_onlyTypeError.
Qed.

(** C26. [mergeConfigs] returns no transformer: applied to a context it
    throws a [TypeError], for every new configuration, and leaves the
    store as it was.  [addNewConfigToMetadata] hands the object literal to
    [buildMetadataFromConfig] in the place of the factory, and there is
    no configuration to read. *)
Theorem mergeConfigs_always_throws fuel newConfig overwrite σ :
  ∃ reason,
    mergeConfigs (S fuel) newConfig overwrite σ = Throws (TypeError reason) σ.
Proof.
  destruct (addNewConfigToMetadata_throws fuel newConfig σ) as [reason Hthrows].
  exists reason. unfold mergeConfigs. by erewrite bind_Throws.
Qed.

(** The visitor of [mergeConfigs] is a visitor of statements. *)
#[local] Instance nodeVisitor_visitor : StatementVisitor nodeVisitor.
Proof. statement_visitor. Qed.

(** The transformer that [mergeConfigs] would return changes nothing: it
    returns the file as it is when every export assignment exports an
    expression with arguments, and throws when one does not. *)
Lemma nodeVisitor_returns_file sourceFile :
  forallb exportsArguments (sourceFile ≫= exportAssignments) = true →
  mapR nodeVisitor sourceFile = Ok sourceFile.
Proof.
  intros Hfile. apply visitFile_id; [apply _|].
  eapply Forall_exportAssignments; [done|].
  intros b e. by destruct e as [| | | | | | | | |c ts []].
Qed.

Lemma nodeVisitor_no_arguments sourceFile b e :
  ExportAssignment b e ∈ sourceFile ≫= exportAssignments →
  hasArguments e = false →
  isOk (mapR nodeVisitor sourceFile) = false.
Proof.
  intros Hin He. eapply visitFile_export_fails; [apply _ | done|].
  by destruct e as [| | | | | | | | |c ts []].
Qed.

(** ** Reading literals *)

Lemma fromLiteralToPrimitive_numeric text :
  fromLiteralToPrimitive (NumericLiteral text) = PNumber (parseInt text).
Proof. unfold fromLiteralToPrimitive. simpl. by rewrite expressionText_numeric. Qed.

(** Of the literal the factory makes for a number, taken as it is made,
    [fromLiteralToPrimitive] reads what [parseInt] reads from the text:
    the number for an integer, the digits before the point or the
    exponent for a number that is printed with one, [NaN] for [NaN] and
    for an infinity. *)
Lemma fromLiteralToPrimitive_createNumericLiteral n :
  fromLiteralToPrimitive (createNumericLiteral n) = PNumber (readTruncated n).
Proof.
  unfold createNumericLiteral.
  by rewrite fromLiteralToPrimitive_numeric, parseInt_numberToString_readTruncated.
Qed.

(** C31. A number goes through a literal and comes back, that is
    [fromLiteralToPrimitive] reads the number from the literal the factory
    made for it once the file was printed and parsed, exactly when it is
    an integer that is not negative.  A negative number and [NaN] are read
    back as another expression and come back as text, a number with a
    fraction comes back without it, an infinity comes back as text. *)
Theorem fromLiteralToPrimitive_readBack n :
  fromLiteralToPrimitive (readBack (createNumericLiteral n)) = PNumber n ↔
  ∃ z, n = NumInt z ∧ (0 ≤ z)%Z.
Proof.
  unfold createNumericLiteral. cbn [readBack].
  pose proof (readsBack_NumInt) as Hint. unfold readsBack in Hint.
  destruct (isNumericStart (numberToString n)) eqn:Hstart.
  - rewrite fromLiteralToPrimitive_numeric, parseInt_numberToString_readTruncated.
    split; [|by intros (z & -> & _)].
    intros [= Hn]. destruct n as [z| | |]; try done. exists z. split; [done|].
    rewrite Hint in Hstart. by apply bool_decide_eq_true in Hstart.
  - split; [done|]. intros (z & -> & Hz).
    rewrite Hint in Hstart. by apply bool_decide_eq_false in Hstart.
Qed.


(** The primitive value of a string literal is its source text, quotes
    included, and not the string. *)
Lemma fromLiteralToPrimitive_string text singleQuote :
  ∃ quote rest,
    fromLiteralToPrimitive (StringLiteral text singleQuote)
    = PString (String quote rest) ∧ isQuote quote = true.
Proof.
  destruct (expressionText_string text singleQuote) as (quote & rest & Ht & Hq).
  exists quote, rest. unfold fromLiteralToPrimitive. simpl. by rewrite Ht.
Qed.

(** ** The store stays well formed *)

(** A value of a map is a primitive or a [Map] that exists. *)
Definition allocated (size : nat) (v : MetadataValue) : Prop :=
  match v with
  | ChildMap l => l < size
  | Primitive _ => True
  end.

(** The store holds the static map, the keys of every map are distinct,
    and every [Map] that a map holds exists. *)
Definition wfStore (σ : Store) : Prop :=
  configMetadataMap < length σ ∧
  Forall (λ m, map_wf m ∧ Forall (λ kv, allocated (length σ) kv.2) m) σ.

(** The invariant of a call that started with [n] maps in the store. *)
Definition grown (n : nat) (σ : Store) : Prop := wfStore σ ∧ n ≤ length σ.

Lemma allocated_mono n n' v : n ≤ n' → allocated n v → allocated n' v.
Proof. destruct v; simpl; [done | lia]. Qed.

Lemma Forall_map_set {V} (P : string * V → Prop) k v (m : JsMap V) :
  P (k, v) → Forall P m → Forall P (map_set k v m).
Proof.
  intros Hkv. induction 1 as [|[k' v'] m Hk' Hm IH]; simpl; [by constructor|].
  case_decide; by constructor.
Qed.

Lemma wfStore_initial : wfStore initialStore.
Proof. split; [apply Nat.lt_0_1|]. repeat constructor. Qed.

Lemma grown_newMap n σ :
  grown n σ → grown n (σ ++ [map_empty]) ∧ length σ < length (σ ++ [map_empty]).
Proof.
  intros [[Hstatic Hmaps] Hn]. unfold grown, wfStore, configMetadataMap in *.
  rewrite length_app. simpl. repeat split; [lia | | lia..]. apply Forall_app. split; [|repeat constructor].
  eapply Forall_impl; [exact Hmaps|]. intros m [Hwf Hm]. split; [done|].
  eapply Forall_impl; [exact Hm|]. intros kv. apply allocated_mono. lia.
Qed.

Lemma grown_mapSet n l key value σ :
  allocated (length σ) value → grown n σ →
  grown n (alter (map_set key value) l σ).
Proof.
  intros Hvalue [[Hstatic Hmaps] Hn]. unfold grown, wfStore.
  rewrite length_alter. repeat split; [done | | done].
  apply Forall_alter; [done|]. intros m _ [Hwf Hm].
  split; [by apply map_set_wf | by apply Forall_map_set].
Qed.

(** A property of stores that recording in the map at [l] keeps: it
    holds on after a primitive is stored there under a name, and after a
    new [Map] is made and stored there. *)
Class Recording (l : loc) (P : Store → Prop) : Prop := {
  recording_primitive σ key p :
    P σ → P (alter (map_set key (Primitive p)) l σ);
  recording_child σ key :
    P σ → P (alter (map_set key (ChildMap (length σ))) l (σ ++ [map_empty]))
}.

#[global] Instance grown_recording n l : Recording l (grown n).
Proof.
  split.
  - intros σ key p Hσ. by apply grown_mapSet.
  - intros σ key [Hσ Hlen]%grown_newMap. by apply grown_mapSet.
Qed.

Section recording.
Context (P : Store → Prop).

Lemma recordProperty_preserves self factory l property `{!Recording l P} :
  (∀ factory config, hoare P (self factory config None None) (λ _, P) P) →
  hoare P (recordProperty self factory l property) (λ _, P) P.
Proof.
  intros Hself. destruct property as [name init| |];
    [|apply hoare_liftResult..]. unfold recordProperty.
  eapply hoare_bind; [apply hoare_liftResult|]. intros text.
  eapply (hoare_bind _ _ (λ _, P)).
  { case_decide; [apply hoare_fmap, hoare_liftResult | apply hoare_ret]. }
  intros _. destruct (isObjectLiteralExpression init).
  - eapply (hoare_bind _ _ (λ child σ1, ∃ σ, P σ ∧ σ1 = σ ++ [map_empty] ∧
                                             child = length σ)).
    { intros σ Hσ. by exists σ. }
    intros child. eapply (hoare_bind _ _ (λ _, P)); [|intros _; apply Hself].
    intros σ1 (σ & Hσ & -> & ->). by apply recording_child.
  - intros σ Hσ. by apply recording_primitive.
Qed.

(** Every call of [buildMetadataFromConfig] keeps what recording keeps
    in the map it is handed and in the static map, which is the map of
    the calls it makes itself; whether it returns or throws. *)
Lemma buildMetadataFromConfig_preserves fuel factory config metadataMap merge
    {Hstatic : Recording configMetadataMap P}
    {Hmap : Recording (default configMetadataMap metadataMap) P} :
  hoare P (buildMetadataFromConfig fuel factory config metadataMap merge)
        (λ _, P) P.
Proof.
  revert factory config metadataMap merge Hmap.
  induction fuel as [|fuel IH]; intros factory config metadataMap merge ?; [done|].
  simpl. destruct (default false merge); [apply hoare_ret|].
  eapply hoare_bind; [apply hoare_liftResult|]. intros ps.
  apply hoare_forOf. intros p. apply recordProperty_preserves; [done|].
  intros f c. by apply IH.
Qed.

Context `{!Recording configMetadataMap P}.

Lemma addNewConfigToMetadata_preserves fuel newConfig :
  hoare P (addNewConfigToMetadata fuel newConfig) (λ _, P) P.
Proof.
  unfold addNewConfigToMetadata.
  eapply (hoare_bind _ _ (λ _, P)); [apply hoare_liftResult|]. intros entries.
  eapply (hoare_bind _ _ (λ _, P)); [apply hoare_liftResult|]. intros ps.
  by apply buildMetadataFromConfig_preserves.
Qed.

Lemma mergeConfigs_preserves fuel newConfig overwrite :
  hoare P (mergeConfigs fuel newConfig overwrite) (λ _, P) P.
Proof.
  unfold mergeConfigs.
  eapply (hoare_bind _ _ (λ _, P)); [apply addNewConfigToMetadata_preserves|].
  intros _. apply hoare_ret.
Qed.

End recording.

(** Whatever [buildMetadataFromConfig] is handed and however it
    ends, it leaves a well-formed store that has not shrunk: the static
    map is there, the keys of every map are distinct, and every [Map]
    stored under a name exists. *)
Lemma buildMetadataFromConfig_wfStore
    fuel factory config metadataMap merge σ σ' :
  wfStore σ →
  finalStore (buildMetadataFromConfig fuel factory config metadataMap merge σ)
  = Some σ' →
  wfStore σ' ∧ length σ ≤ length σ'.
Proof.
  intros Hσ Hfinal.
  pose proof (buildMetadataFromConfig_preserves (grown (length σ)) fuel factory
                config metadataMap merge σ (conj Hσ (le_n _))) as Hgrown.
  destruct (buildMetadataFromConfig _ _ _ _ _ σ); by simplify_eq/=.
Qed.

End facts.

(** ** Examples *)

(** The source text of the literals of a file, for the examples; the
    examples read no other expression, and those have no text here. *)
Definition literalText (e : Expression) : string :=
  match e with
  | NumericLiteral text | Identifier text | OtherExpression text => text
  | StringLiteral text singleQuote =>
      let quote := if singleQuote then "'"%char else "034"%char in
      String quote (text +:+ String quote "")
  | NoSubstitutionTemplateLiteral text => "`" +:+ text +:+ "`"
  | TrueKeyword => "true"
  | FalseKeyword => "false"
  | CallExpression _ _ _ | NewExpression _ _ _
  | ObjectLiteralExpression _ _ => ""
  end.

Lemma literalText_string text singleQuote :
  ∃ quote rest,
    literalText (StringLiteral text singleQuote) = String quote rest ∧
    isQuote quote = true.
Proof. destruct singleQuote; by eexists _, _. Qed.

#[local] Instance testText : ParsedText := {|
  expressionText := literalText;
  expressionText_numeric := λ _, eq_refl;
  expressionText_string := literalText_string
|}.

Example fromLiteralToPrimitive_hexadecimal :
  fromLiteralToPrimitive (NumericLiteral "0x1F") = PNumber (NumInt 0).
Proof. reflexivity. Qed.

(** [0.5] goes into the file as [0.5] and comes back as [0]; [-1] goes
    in as [-1], which the parser reads as a prefix expression, and comes
    back as the text. *)
Example fromLiteralToPrimitive_half :
  fromLiteralToPrimitive
    (readBack (createNumericLiteral
                 (NumDecimal (Decimal.Decimal (Decimal.Pos (Decimal.D0 Decimal.Nil))
                                (Decimal.D5 Decimal.Nil)))))
  = PNumber (NumInt 0).
Proof. reflexivity. Qed.

Example fromLiteralToPrimitive_negative :
  fromLiteralToPrimitive (readBack (createNumericLiteral (NumInt (-1))))
  = PString "-1".
Proof. reflexivity. Qed.

Example fromLiteralToPrimitive_fraction :
  fromLiteralToPrimitive (NumericLiteral ".5") = PNumber NumNaN.
Proof. reflexivity. Qed.

(** Scalar properties, one of them twice. *)
Definition scalarProperties : list ObjectLiteralElement :=
  [ property "video" TrueKeyword;
    property "defaultCommandTimeout" (NumericLiteral "4000");
    property "baseUrl" (quoted "http://localhost");
    property "video" FalseKeyword ].

Lemma buildMetadataFromConfig_scalars_witness :
  buildMetadataFromConfig enoughFuel FactoryArgument
    (NodeArgument (ObjectLiteralExpression scalarProperties true))
    None None initialStore
  = Returns ()
      [ [ ("video", Primitive (PBoolean false));
          ("defaultCommandTimeout", Primitive (PNumber (NumInt 4000)));
          ("baseUrl", Primitive (PString "'http://localhost'")) ] ].
Proof.
  exact (buildMetadataFromConfig_scalars scalarProperties true None
           initialStore map_empty eq_refl eq_refl).
Defined.

Lemma buildMetadataFromConfig_nested_object_throws_witness :
  ∃ σ',
    buildMetadataFromConfig enoughFuel FactoryArgument
      (NodeArgument
         (ObjectLiteralExpression
            ([property "baseUrl" (quoted "blah its me")] ++
             property "e2e" (ObjectLiteralExpression [property "video" TrueKeyword] true)
             :: [property "video" FalseKeyword]) true))
      None None initialStore
    = Throws (TypeError NotIterable) σ' ∧
    σ' !! configMetadataMap
    = Some [ ("baseUrl", Primitive (PString "'blah its me'"));
             ("e2e", ChildMap 1) ] ∧
    σ' !! 1%nat = Some map_empty.
Proof.
  exact (buildMetadataFromConfig_nested_object_throws
           [property "baseUrl" (quoted "blah its me")] "e2e"
           [property "video" TrueKeyword] true [property "video" FalseKeyword]
           true None initialStore map_empty eq_refl eq_refl).
Defined.

