(* ===== verification/ConfigMetadataCalls.v ===== *)
(** * The static map over a sequence of calls

    [configMetadataMap] is a static field: it lives as long as the
    program, and every call of a method of the class finds what the calls
    before it left.  This file takes the class as a state machine.  Its
    state is the store; a step is one call of [mergeConfigs],
    [addNewConfigToMetadata] or [buildMetadataFromConfig], from the store
    the call finds to the store it leaves, whether it returns or throws.

    The theorems are proved by induction on the steps: every call ends,
    and in one store only; every store that can be reached is well
    formed; and nothing is ever taken out of a map, so a name recorded by
    one call is there for all that follow, in its place.  The calls the
    class makes itself all record in the static map, and the stores they
    reach give the static map a value of its declared type. *)

From Stdlib Require Import Lia.
From stdpp Require Import relations.
From S2P Require Import Prelude JsMap JsValue TsAst Transformers ParseInt.
From S2P Require Import TestConfig AddUpdateTransformer ConfigMetadata.
From S2P Require Import ConfigMetadataFacts.

(** ** The machine *)

Section calls.
Context `{ParsedText}.

(** A call of a method, with what it is handed. *)
Inductive Call : Type :=
| MergeConfigs (newConfig : JsValue) (overwrite : bool)
| AddNewConfigToMetadata (newConfig : JsValue)
| BuildMetadataFromConfig (factory config : Argument)
    (metadataMap : option loc) (merge : option bool).

(** The computation a call runs. *)
Definition run (call : Call) : M unit :=
  match call with
  | MergeConfigs newConfig overwrite =>
      (λ transformer, ()) <$> mergeConfigs enoughFuel newConfig overwrite
  | AddNewConfigToMetadata newConfig =>
      addNewConfigToMetadata enoughFuel newConfig
  | BuildMetadataFromConfig factory config metadataMap merge =>
      buildMetadataFromConfig enoughFuel factory config metadataMap merge
  end.

(** One call takes the store from [σ] to [σ']. *)
Inductive step : Store → Call → Store → Prop :=
| step_returns call σ σ' : run call σ = Returns () σ' → step σ call σ'
| step_throws call e σ σ' : run call σ = Throws e σ' → step σ call σ'.


(** ** What a later store keeps of an earlier one *)

(** Every map of [σ] is a map of [σ'], at its location, with its keys in
    front and in their order. *)
Definition keeps (σ σ' : Store) : Prop :=
  ∀ l m, σ !! l = Some m → ∃ m', σ' !! l = Some m' ∧ m.*1 `prefix_of` m'.*1.

#[global] Instance keeps_preorder : PreOrder keeps.
Proof.
  split.
  - intros σ l m Hm. by exists m.
  - intros σ1 σ2 σ3 H12 H23 l m1 (m2 & Hm2 & Hpre12)%H12.
    apply H23 in Hm2 as (m3 & Hm3 & Hpre23). exists m3. split; [done|].
    by etrans.
Qed.

Lemma map_set_keys_prefix {V} key (value : V) (m : JsMap V) :
  m.*1 `prefix_of` (map_set key value m).*1.
Proof.
  destruct (decide (key ∈ m.*1)) as [Hin|Hout].
  - by rewrite map_set_keys_present.
  - rewrite map_set_absent, fmap_app by done. by apply prefix_app_r.
Qed.

Lemma keeps_mapSet σ l key value : keeps σ (alter (map_set key value) l σ).
Proof.
  intros l' m Hm. destruct (decide (l = l')) as [->|Hl].
  - exists (map_set key value m). rewrite list_lookup_alter_eq, Hm.
    split; [done | apply map_set_keys_prefix].
  - exists m. by rewrite list_lookup_alter_ne.
Qed.

Lemma keeps_newMap σ : keeps σ (σ ++ [map_empty]).
Proof. intros l m Hm. exists m. split; [by apply lookup_app_l_Some | done]. Qed.

#[global] Instance keeps_recording σ0 l : Recording l (keeps σ0).
Proof.
  split.
  - intros σ key p Hσ. etrans; [exact Hσ | apply keeps_mapSet].
  - intros σ key Hσ. etrans; [exact Hσ|].
    etrans; [apply keeps_newMap | apply keeps_mapSet].
Qed.

(** ** One step *)

(** The map a call records in. *)
Definition recordsIn (call : Call) : loc :=
  match call with
  | BuildMetadataFromConfig _ _ metadataMap _ =>
      default configMetadataMap metadataMap
  | _ => configMetadataMap
  end.

Lemma run_preserves (P : Store → Prop) call
    `{!Recording configMetadataMap P} `{!Recording (recordsIn call) P} :
  hoare P (run call) (λ _, P) P.
Proof.
  destruct call; cbn [run].
  - by apply hoare_fmap, mergeConfigs_preserves.
  - by apply addNewConfigToMetadata_preserves.
  - by apply buildMetadataFromConfig_preserves.
Qed.

Lemma step_preserves (P : Store → Prop) σ call σ'
    `{!Recording configMetadataMap P} `{!Recording (recordsIn call) P} :
  P σ → step σ call σ' → P σ'.
Proof.
  intros Hσ Hstep. pose proof (run_preserves P call σ Hσ) as Hrun.
  destruct Hstep as [call σ σ' Heq|call e σ σ' Heq]; by rewrite Heq in Hrun.
Qed.



(** ** Every store that is reached *)


(** One store follows another after any number of calls. *)
Definition successor (σ σ' : Store) : Prop := ∃ call, step σ call σ'.

(** C29. Nothing is taken out of a map: after any sequence of calls, every
    map that was in the store is in the store at its location, and the
    names it held are the first of the names it holds, in their order.
    What one call records is there for every call that follows. *)
Theorem calls_keep σ σ' : rtc successor σ σ' → keeps σ σ'.
Proof.
  induction 1 as [σ|σ1 σ2 σ3 [call Hstep] _ IH]; [reflexivity|].
  etrans; [|exact IH]. by apply (step_preserves (keeps σ1) σ1 call σ2).
Qed.

(** ** The declared type of the static map *)

(** [configMetadataMap] is declared, lines 84-87, as
    [Map<string, PrimitiveValue | Map<string, PrimitiveValue | DevServer>>].
    [DevServer], lines 79-82, is an object of primitive values; the
    methods store none, and [MetadataValue] has no constructor for one.
    What the type rules out is a [Map] inside a [Map] of the static
    map. *)

(** [PrimitiveValue | DevServer], a value of a map of the static map. *)
Definition childValueTyped (v : MetadataValue) : Prop :=
  match v with
  | Primitive _ => True
  | ChildMap _ => False
  end.

(** [PrimitiveValue | Map<string, PrimitiveValue | DevServer>], a value
    of the static map. *)
Definition valueTyped (σ : Store) (v : MetadataValue) : Prop :=
  match v with
  | Primitive _ => True
  | ChildMap l => ∃ m, σ !! l = Some m ∧ Forall (λ kv, childValueTyped kv.2) m
  end.

(** The store gives the static map a value of its declared type. *)
Definition declaredType (σ : Store) : Prop :=
  ∃ m, σ !! configMetadataMap = Some m ∧ Forall (λ kv, valueTyped σ kv.2) m.

(** The calls the class makes record in the static map: the methods are
    private, and no call in the class passes [metadataMap]. *)
Definition ownCall (call : Call) : Prop := recordsIn call = configMetadataMap.

#[global] Instance ownCall_dec call : Decision (ownCall call).
Proof. unfold ownCall. apply _. Defined.

(** The stores the class reaches by its own calls. *)
Inductive reachableByClass : Store → Prop :=
| byClass_initial : reachableByClass initialStore
| byClass_step σ call σ' :
    reachableByClass σ → ownCall call → step σ call σ' → reachableByClass σ'.

(** Only the static map holds anything: every other map is empty, and
    the maps the static map holds are among them. *)
Definition staticOnly (σ : Store) : Prop :=
  ∃ m rest,
    σ = m :: rest ∧ Forall (λ child, child = map_empty) rest ∧
    Forall (λ kv, match kv.2 with
                  | ChildMap l => 0 < l ≤ length rest
                  | Primitive _ => True
                  end) m.

#[global] Instance staticOnly_recording : Recording configMetadataMap staticOnly.
Proof.
  split.
  - intros σ key p (m & rest & -> & Hrest & Hm).
    exists (map_set key (Primitive p) m), rest. split_and!; [done..|].
    by apply Forall_map_set.
  - intros σ key (m & rest & -> & Hrest & Hm).
    exists (map_set key (ChildMap (S (length rest))) m), (rest ++ [map_empty]).
    split_and!; [done | by apply Forall_app; split; [|repeat constructor]|].
    rewrite length_app. apply Forall_map_set; [simpl; lia|].
    eapply Forall_impl; [exact Hm|]. intros [k [p|l]]; simpl; [done | lia].
Qed.

Lemma staticOnly_declaredType σ : staticOnly σ → declaredType σ.
Proof.
  intros (m & rest & -> & Hrest & Hm). exists m. split; [done|].
  eapply Forall_impl; [exact Hm|]. intros [k [p|l]] Hl; [done|]. simpl in *.
  destruct l as [|l]; [lia|]. destruct (lookup_lt_is_Some_2 rest l) as [child Hchild];
    [lia|].
  exists child. split; [done|]. rewrite Forall_forall in Hrest.
  by rewrite (Hrest child) by by eapply list_elem_of_lookup_2.
Qed.

Lemma reachableByClass_staticOnly σ : reachableByClass σ → staticOnly σ.
Proof.
  induction 1 as [|σ call σ' _ IH Hown Hstep].
  - exists map_empty, []. by repeat constructor.
  - assert (Recording (recordsIn call) staticOnly) by (rewrite Hown; apply _).
    by apply (step_preserves staticOnly σ call σ').
Qed.

(** C11. The static map keeps its declared type: after any sequence of
    calls that record in the static map, as all calls of the class do,
    whatever else they are handed and however each of them ends, every
    value of the static map is a primitive value or a [Map] of primitive
    values. *)
Theorem reachableByClass_declaredType σ : reachableByClass σ → declaredType σ.
Proof. intros Hσ. by apply staticOnly_declaredType, reachableByClass_staticOnly. Qed.

End calls.

(** ** Examples *)

#[local] Existing Instance testText.

(** The store after [buildMetadataFromConfig] was called on the root
    object of the repository's test: the call threw at [component]. *)
Definition afterTestRoot : Store :=
  [ [ ("baseUrl", Primitive (PString "'blah its me'"));
      ("component", ChildMap 1) ];
    [] ].

Lemma afterTestRoot_step :
  step initialStore
    (BuildMetadataFromConfig FactoryArgument (NodeArgument rootObject) None None)
    afterTestRoot.
Proof. apply (step_throws _ (TypeError NotIterable)). reflexivity. Qed.


(** A second call, on an object that has no [baseUrl]: the name is still
    in the map, with the value the first call read. *)
Definition afterSecondCall : Store :=
  [ [ ("baseUrl", Primitive (PString "'blah its me'"));
      ("component", ChildMap 1);
      ("video", Primitive (PBoolean true)) ];
    [] ].

Lemma calls_keep_witness :
  rtc successor afterTestRoot afterSecondCall ∧
  keeps afterTestRoot afterSecondCall.
Proof.
  assert (rtc successor afterTestRoot afterSecondCall) as Hcalls.
  { apply rtc_once.
    exists (BuildMetadataFromConfig FactoryArgument
              (NodeArgument (ObjectLiteralExpression [property "video" TrueKeyword] false))
              None None).
    apply step_returns. reflexivity. }
  split; [exact Hcalls | exact (calls_keep _ _ Hcalls)].
Defined.

(** The store of the test has the declared type. *)
Lemma reachableByClass_declaredType_witness :
  reachableByClass afterTestRoot ∧ declaredType afterTestRoot.
Proof.
  assert (reachableByClass afterTestRoot) as Hreachable
    by exact (byClass_step initialStore
                (BuildMetadataFromConfig FactoryArgument (NodeArgument rootObject)
                   None None)
                afterTestRoot byClass_initial eq_refl afterTestRoot_step).
  split; [exact Hreachable | exact (reachableByClass_declaredType _ Hreachable)].
Defined.

(** A call that is handed a [Map] of the static map records in it, and a
    [Map] inside that [Map] is outside the declared type.  The compiler
    accepts such a call: [new Map()] is a [Map<any, any>]. *)
Example declaredType_needs_ownCall :
  let holding (name : string) :=
    NodeArgument
      (ObjectLiteralExpression
         [property name (ObjectLiteralExpression [] false)] false) in
  let σ1 := [ [("component", ChildMap 1)]; [] ] in
  let σ2 := [ [("component", ChildMap 1)]; [("devServer", ChildMap 2)]; [] ] in
  step initialStore
    (BuildMetadataFromConfig FactoryArgument (holding "component") None None) σ1 ∧
  step σ1
    (BuildMetadataFromConfig FactoryArgument (holding "devServer")
       (Some 1%nat) None) σ2 ∧
  ¬ declaredType σ2.
Proof.
  split_and!; [apply (step_throws _ (TypeError NotIterable)); reflexivity..|].
  intros (m & [= <-] & Hm).
  apply Forall_cons in Hm as [(child & [= <-] & Hchild) _].
  by apply Forall_cons in Hchild as [? _].
Qed.
