(* ===== verification/UpdateConfig.v ===== *)
(** * The entry points

    [addOrUpdateConfigProperties] and [removeConfigProperties] of
    [update-config.ts], and [CypressPropertyTransformer.addOrUpdate] of
    [add-update-property-transformer.ts].  Each parses the text of the
    configuration file, transforms the tree and prints it.  The parser and
    the printer belong to the TypeScript library: they are the classes
    [Parser] and [Printer] here, and the theorems hold for every
    instance. *)

From S2P Require Import Prelude JsValue TsAst Transformers TestConfig.
From S2P Require Import MergeFile Locate AddUpdateTransformer.

(** ** The parser and the printer *)

(** [createSourceFile('cypress.config.ts', text, ScriptTarget.Latest,
    true)]: it returns a tree for every text, and the tree is one the
    parser made (every name has source text, no [undefined] among the
    properties). *)
Class Parser := {
  createSourceFile : string → SourceFile;
  createSourceFile_parsed text :
    forallb parsedStatement (createSourceFile text) = true
}.

(** [createPrinter().printFile(sourceFile)]; it may throw on a tree the
    parser did not make. *)
Class Printer := printFile : SourceFile → result string.

(** [transform(sourceFile, transformers).transformed[0]]: the
    transformers are applied to the file in their order. *)
Definition transform (sourceFile : SourceFile)
  (transformers : list (SourceFile → result SourceFile)) : result SourceFile :=
  foldl (λ transformed transformer, transformed ≫= transformer)
        (Ok sourceFile) transformers.

Section entry_points.
Context {parser : Parser} {printer : Printer} {chain : Inherited}.

(** [addOrUpdateConfigProperties], [update-config.ts] lines 13-30.
    [overwrite] is optional and [false] when it is left out;
    [mergeCypressConfigs] is the one of
    [add-update-property-transformer.ts]. *)
Definition addOrUpdateConfigProperties (configContent : string)
  (config : JsValue) (overwrite : option bool) : result string :=
  let overwrite := default false overwrite in
  let sourceFile := createSourceFile configContent in
  transformedResult ←
    transform sourceFile [AddUpdate.mergeCypressConfigs config overwrite];
  printFile transformedResult.

(** [removeConfigProperties], [update-config.ts] line 32: the body is
    empty. *)
Definition removeConfigProperties : result JsValue := Ok JsUndefined.

(** [CypressPropertyTransformer.addOrUpdate],
    [add-update-property-transformer.ts] lines 89-106: the list of
    transformers is empty. *)
Definition addOrUpdate (existingConfigContent : string) (newConfig : JsValue)
  (overwrite : option bool) : result string :=
  let sourceFile := createSourceFile existingConfigContent in
  transformedResult ← transform sourceFile [];
  printFile transformedResult.

(** ** What they return *)

(** [CypressPropertyTransformer.addOrUpdate] prints the file it
    parsed: the result does not depend on the new configuration or on
    [overwrite]. *)
Lemma addOrUpdate_ignores_configuration text newConfig overwrite :
  addOrUpdate text newConfig overwrite = printFile (createSourceFile text).
Proof. reflexivity. Qed.

Lemma addUpdate_visitStatement_overwrite newConfig b e :
  exportsArguments (ExportAssignment b e) = true →
  AddUpdate.visitStatement newConfig true (ExportAssignment b e)
  = Ok (withoutArguments (ExportAssignment b e)).
Proof. by destruct e as [| | | | | | | | |c ts []]. Qed.

(** With [overwrite], [addOrUpdateConfigProperties] prints the file
    with every exported call left without arguments, whatever the new
    configuration. *)
Theorem addOrUpdateConfigProperties_overwrite text config :
  forallb exportsArguments (createSourceFile text ≫= exportAssignments) = true →
  addOrUpdateConfigProperties text config (Some true)
  = printFile (mapExports withoutArguments <$> createSourceFile text).
Proof.
  intros Hfile. unfold addOrUpdateConfigProperties, transform. simpl.
  unfold AddUpdate.mergeCypressConfigs.
  rewrite (visitFile_mapExports _ withoutArguments); [done|].
  eapply Forall_exportAssignments; [done|].
  intros b e. apply addUpdate_visitStatement_overwrite.
Qed.


(** On a text that parses to the file of the repository's test,
    [addOrUpdateConfigProperties] with an empty configuration does not
    return the file: it throws the [ReferenceError] of the unbound
    [factory].  ([baseUrl], the property in front of the first object,
    is not a name an object inherits.) *)
Theorem addOrUpdateConfigProperties_test_empty text :
  createSourceFile text = configContent →
  ownRead (JsObject []) "baseUrl" →
  addOrUpdateConfigProperties text (JsObject []) None
  = Throw (ReferenceError "factory").
Proof.
  intros Htext Hown. unfold addOrUpdateConfigProperties. rewrite Htext.
  unfold ownRead in Hown. cbn in Hown |- *. by rewrite Hown.
Qed.

(** ** The entry point on a located document *)

Lemma addUpdate_mergeCypressConfigs_located newConfig document handle :
  locate document = inr handle → singleExport document = true →
  AddUpdate.mergeCypressConfigs newConfig false document
  = root' ← AddUpdate.visitRootConfigNode (Some (handleRoot handle)) newConfig;
    call ← createCallExpression (handleCallee handle)
             (handleTypeArguments handle) [root'];
    Ok (handleBefore handle ++ ExportAssignment false call
          :: handleAfter handle).
Proof.
  intros Hlocate Hsingle. unfold AddUpdate.mergeCypressConfigs.
  rewrite (visitFile_located _ _ handle) by done. simpl.
  destruct (AddUpdate.visitRootConfigNode _ _) as [r|]; simpl; [|done].
  by destruct (createCallExpression _ _ _).
Qed.

(** C36. Whatever the new configuration, [addOrUpdateConfigProperties]
    adds nothing to a document of the specification's shape and updates
    nothing in it: when it returns, what it returns is the printed
    document with a root whose properties are properties of the root it
    was given, in their order, and with the arguments after the root
    gone. *)
Theorem addOrUpdateConfigProperties_adds_nothing text config printed handle :
  locate (createSourceFile text) = inr handle →
  singleExport (createSourceFile text) = true →
  addOrUpdateConfigProperties text config None = Ok printed →
  ∃ ps ml ps' ml',
    handleRoot handle = ObjectLiteralExpression ps ml ∧
    printFile (withRoot (dropArguments handle)
                 (ObjectLiteralExpression ps' ml')) = Ok printed ∧
    defined ps' `sublist_of` ps.
Proof.
  intros Hlocate Hsingle. unfold addOrUpdateConfigProperties, transform. simpl.
  rewrite (addUpdate_mergeCypressConfigs_located _ _ handle) by done.
  pose proof Hlocate as (ps & ml & Hroot)%locateFrom_root. rewrite Hroot.
  destruct (AddUpdate.visitRootConfigNode _ _) as [r|] eqn:Hr; simpl; [|done].
  apply addUpdate_root_returns in Hr as (ps' & ml' & -> & Hsub). simpl.
  intros Hprinted. by exists ps, ml, ps', ml'.
Qed.

End entry_points.

(** ** Instances for the examples *)

#[local] Existing Instance standardPrototypes.

(** A parser that knows one file, the file of the test. *)
#[local] Instance testParser : Parser :=
  {| createSourceFile := λ _, configContent;
     createSourceFile_parsed := λ _, configContent_parsed |}.

(** A printer that prints the number of statements. *)
#[local] Instance testPrinter : Printer :=
  λ sourceFile, Ok (natToString (length sourceFile)).

(** A document whose root holds one scalar, its handle and a parser that
    knows it. *)
Definition scalarHandle : RootHandle :=
  {| handleBefore := []; handleCallee := Identifier "defineConfig";
     handleTypeArguments := [];
     handleRoot := ObjectLiteralExpression [property "video" TrueKeyword] false;
     handleArguments := []; handleAfter := [] |}.

Definition scalarParser : Parser :=
  {| createSourceFile := λ _, withRoot scalarHandle (handleRoot scalarHandle);
     createSourceFile_parsed := λ _, eq_refl |}.

Lemma addOrUpdateConfigProperties_overwrite_witness :
  addOrUpdateConfigProperties "export default defineConfig({});"
    testConfigWithoutDevServer (Some true)
  = printFile (mapExports withoutArguments <$> configContent).
Proof.
  exact (addOrUpdateConfigProperties_overwrite
           "export default defineConfig({});" testConfigWithoutDevServer eq_refl).
Defined.


Lemma addOrUpdateConfigProperties_test_empty_witness :
  addOrUpdateConfigProperties "export default defineConfig({});"
    (JsObject []) None
  = Throw (ReferenceError "factory").
Proof. apply addOrUpdateConfigProperties_test_empty; reflexivity. Defined.

(** A root of scalars and a configuration of objects: the entry point
    returns, and prints the root as it was. *)
Lemma addOrUpdateConfigProperties_adds_nothing_witness :
  ∃ ps ml ps' ml',
    handleRoot scalarHandle = ObjectLiteralExpression ps ml ∧
    printFile (withRoot (dropArguments scalarHandle)
                 (ObjectLiteralExpression ps' ml')) = Ok "1" ∧
    defined ps' `sublist_of` ps.
Proof.
  apply (addOrUpdateConfigProperties_adds_nothing (parser:=scalarParser)
           "export default defineConfig({ video: true });"
           (JsObject [("e2e", JsObject [("video", JsBoolean false)])]));
    reflexivity.
Defined.
